(** * Azoteq IQS7219A / IQS323 / IQS9150 drivers: bus handshake, register
    image builder, ATI trigger and status decoding.

    The drivers are embedded as functions over an explicit [world] (the I2C
    bus, the RDY line and the clock, each an oracle consumed call by call,
    with a trace of everything the driver sends) and over the driver's
    private structure.  Integers are [Z] with the C wrap-around written
    out; register images are lists of 16-bit words. *)

From Stdlib Require Import ZArith List String Bool Lia DecimalString.
From stdpp Require Import base list.
Import ListNotations.
Local Open Scope Z_scope.

(** ** C integers and kernel bit macros *)

Definition u16 (x : Z) : Z := x mod 65536.
Definition u32 (x : Z) : Z := x mod 4294967296.
Definition s32 (x : Z) : Z := (x + 2147483648) mod 4294967296 - 2147483648.

(** [BIT(n)] and [GENMASK(h, l)] of linux/bits.h. *)
Definition BIT (n : Z) : Z := Z.shiftl 1 n.
Definition GENMASK (h l : Z) : Z := Z.shiftl (Z.ones (h - l + 1)) l.

(** [x &= ~m] and [x |= m] on a [u16] lvalue. *)
Definition u16_clear (x m : Z) : Z := u16 (Z.land x (Z.lnot m)).
Definition u16_or (x m : Z) : Z := u16 (Z.lor x m).

(** Truth value of a C scalar. *)
Definition truthy (x : Z) : bool := negb (x =? 0).

(** A pointer argument: [None] is the null pointer, [Some v] points to an
    object holding [v]. *)
Definition non_null {A} (p : option A) : bool :=
  match p with Some _ => true | None => false end.

(** errno values (asm-generic/errno-base.h, errno.h). *)
Definition EIO : Z := 5.
Definition EAGAIN : Z := 11.
Definition ENOMEM : Z := 12.
Definition EBUSY : Z := 16.
Definition EINVAL : Z := 22.
Definition ENODATA : Z := 61.
Definition ETIMEDOUT : Z := 110.

(** ** Register images

    Reading and writing one word of an image.  The tables never index
    outside an image; there the model reads 0 and writes nothing. *)
Definition word_at (l : list Z) (i : nat) : Z := default 0 (l !! i).
Definition store_words (off : nat) (ws l : list Z) : list Z :=
  take off l ++ take (length l - off) ws ++ drop (off + length ws) l.

(** [setup[i] |= BIT(shift)] and [setup[i] &= ~BIT(shift)]. *)
Definition set_bit (setup : list Z) (i : nat) (shift : Z) : list Z :=
  <[i := u16_or (word_at setup i) (BIT shift)]> setup.
Definition clear_bit (setup : list Z) (i : nat) (shift : Z) : list Z :=
  <[i := u16_clear (word_at setup i) (BIT shift)]> setup.

(** ** The world outside the driver *)

Inductive gpio_line := RDY_GPIO | RESET_GPIO.

(** What the driver does to the outside, in order. *)
Inductive bus_event :=
| EvGpioSet (line : gpio_line) (v : Z)
| EvSend (bytes : list Z)                (* i2c_master_send *)
| EvXfer (reg : list Z) (num_words : nat) (* i2c_transfer: address write, then read *)
| EvSleep (us : Z)
| EvIrq (enabled : bool).                 (* enable_irq / disable_irq *)

(** The oracles are indexed by the number of calls made so far:
    - [rdy k] is the k-th value returned by gpiod_get_value_cansleep on RDY;
    - [send_ret k] is what the adapter returns for the k-th i2c_master_send
      (1 when the message went through, 0 or a negative errno otherwise);
    - [xfer_ret k] is the return value of the k-th i2c_transfer and
      [xfer_word k j] the j-th little-endian word it reads;
    - [poll_val k] is the value left in [val] by the k-th
      readx_poll_timeout on RDY;
    - [lag k] is how much longer than asked the k-th sleep lasts;
    - [mem k] is whether the k-th kzalloc or kcalloc finds memory.
    [now] is the clock in microseconds. *)
Record world := mkWorld {
  rdy : nat -> Z;        rdy_n : nat;
  send_ret : nat -> Z;   send_n : nat;
  xfer_ret : nat -> Z;   xfer_word : nat -> nat -> Z;  xfer_n : nat;
  poll_val : nat -> Z;   poll_n : nat;
  lag : nat -> nat;      lag_n : nat;
  now : Z;
  trace : list bus_event;
  mem : nat -> bool;     mem_n : nat
}.

(** How a call ends: with a value, out of loop fuel (the model's stand-in
    for a loop that is still running), or with an access outside an array
    (undefined behaviour in C). *)
Inductive outcome (A : Type) : Type :=
| Ok (a : A)
| OutOfFuel
| OutOfBounds.
Arguments Ok {A} a.
Arguments OutOfFuel {A}.
Arguments OutOfBounds {A}.

(** State monad over [outcome]. *)
Definition M (S A : Type) : Type := S -> outcome (A * S).

Definition pure {S A} (a : A) : M S A := fun s => Ok (a, s).
Definition bind {S A B} (m : M S A) (k : A -> M S B) : M S B :=
  fun s => match m s with
           | Ok (a, s') => k a s'
           | OutOfFuel => OutOfFuel
           | OutOfBounds => OutOfBounds
           end.
Definition diverge {S A} : M S A := fun _ => OutOfFuel.
Definition fault {S A} : M S A := fun _ => OutOfBounds.
Definition get {S} : M S S := fun s => Ok (s, s).
Definition modify {S} (f : S -> S) : M S unit := fun s => Ok (tt, f s).

Declare Scope monad_scope.
Delimit Scope monad_scope with monad.
Notation "x <- c1 ;; c2" := (bind c1 (fun x => c2))
  (at level 100, c1 at next level, right associativity) : monad_scope.
Notation "c1 ;; c2" := (bind c1 (fun _ => c2))
  (at level 100, right associativity) : monad_scope.
Local Open Scope monad_scope.

Definition log (e : bus_event) (w : world) : world :=
  mkWorld (rdy w) (rdy_n w) (send_ret w) (send_n w) (xfer_ret w) (xfer_word w)
          (xfer_n w) (poll_val w) (poll_n w) (lag w) (lag_n w) (now w)
          (trace w ++ [e]) (mem w) (mem_n w).

(** The steps of the world: a sample of RDY taken, a message sent, a
    read transferred, a sleep over, a poll over, a buffer asked for. *)
Definition sampled (w : world) : world :=
  mkWorld (rdy w) (S (rdy_n w)) (send_ret w) (send_n w) (xfer_ret w)
          (xfer_word w) (xfer_n w) (poll_val w) (poll_n w) (lag w)
          (lag_n w) (now w) (trace w) (mem w) (mem_n w).
Definition sent (msg : list Z) (w : world) : world :=
  mkWorld (rdy w) (rdy_n w) (send_ret w) (S (send_n w)) (xfer_ret w)
          (xfer_word w) (xfer_n w) (poll_val w) (poll_n w) (lag w)
          (lag_n w) (now w) (trace w ++ [EvSend msg]) (mem w) (mem_n w).
Definition xferred (reg : list Z) (num_words : nat) (w : world) : world :=
  mkWorld (rdy w) (rdy_n w) (send_ret w) (send_n w) (xfer_ret w)
          (xfer_word w) (S (xfer_n w)) (poll_val w) (poll_n w) (lag w)
          (lag_n w) (now w) (trace w ++ [EvXfer reg num_words]) (mem w) (mem_n w).
Definition slept (us : Z) (w : world) : world :=
  mkWorld (rdy w) (rdy_n w) (send_ret w) (send_n w) (xfer_ret w)
          (xfer_word w) (xfer_n w) (poll_val w) (poll_n w) (lag w)
          (S (lag_n w)) (now w + us + Z.of_nat (lag w (lag_n w)))
          (trace w ++ [EvSleep us]) (mem w) (mem_n w).
Definition polled (w : world) : world :=
  mkWorld (rdy w) (rdy_n w) (send_ret w) (send_n w) (xfer_ret w)
          (xfer_word w) (xfer_n w) (poll_val w) (S (poll_n w)) (lag w)
          (lag_n w) (now w) (trace w) (mem w) (mem_n w).
Definition allocated (w : world) : world :=
  mkWorld (rdy w) (rdy_n w) (send_ret w) (send_n w) (xfer_ret w)
          (xfer_word w) (xfer_n w) (poll_val w) (poll_n w) (lag w)
          (lag_n w) (now w) (trace w) (mem w) (S (mem_n w)).

(** [kzalloc] and [kcalloc]: whether the buffer was obtained.  The
    buffer itself is the list the caller builds; [kfree] leaves no
    mark. *)
Definition kzalloc : M world bool := fun w =>
  Ok (mem w (mem_n w), allocated w).

Definition gpiod_get_value_cansleep : M world Z := fun w =>
  Ok (rdy w (rdy_n w), sampled w).

Definition gpiod_set_value_cansleep (line : gpio_line) (v : Z) : M world unit :=
  modify (log (EvGpioSet line v)).

(** i2c_master_send returns the byte count when the adapter transferred
    the message and the adapter's own return value otherwise. *)
Definition i2c_master_send (msg : list Z) : M world Z := fun w =>
  let r := send_ret w (send_n w) in
  Ok (if r =? 1 then Z.of_nat (length msg) else r, sent msg w).

(** i2c_transfer of the two-message read: the buffer is filled when both
    messages went through and is left as it was otherwise. *)
Definition i2c_transfer (reg : list Z) (buf : list Z) : M world (Z * list Z) := fun w =>
  let k := xfer_n w in
  let r := xfer_ret w k in
  let data := map (fun j => u16 (xfer_word w k j)) (seq 0 (length buf)) in
  Ok ((r, if 2 <=? r then data else buf), xferred reg (length buf) w).

(** Every sleep lasts at least as long as asked. *)
Definition sleep_us (us : Z) : M world unit := fun w => Ok (tt, slept us w).

Definition disable_irq : M world unit := modify (log (EvIrq false)).
Definition enable_irq : M world unit := modify (log (EvIrq true)).

Definition usleep_range (lo hi : Z) : M world unit := sleep_us lo.
Definition msleep (ms : Z) : M world unit := sleep_us (ms * 1000).
Definition ktime_get : M world Z := fun w => Ok (now w, w).

(** readx_poll_timeout(gpiod_get_value_cansleep, ...) of linux/iopoll.h:
    leaves the last sample in [val] and yields 0 when it is non-zero,
    -ETIMEDOUT otherwise. *)
Definition readx_poll_timeout (timeout_us : Z) : M world (Z * Z) := fun w =>
  let v := poll_val w (poll_n w) in
  Ok ((v, if truthy v then 0 else - ETIMEDOUT), polled w).

(** Little-endian bytes of a word ([cpu_to_le16] followed by [memcpy]). *)
Definition le16_bytes (v : Z) : list Z := [u16 v mod 256; u16 v / 256].

Definition first_word (buf : list Z) : Z := nth 0 buf 0.

(** ** Firmware nodes

    The property source as the drivers use it: presence of a key, a key
    read as one unsigned integer or as an array, and named child nodes.
    [fw_read_u32] yields an error code and the value stored on success. *)
#[local] Unset Elimination Schemes.
Inductive fwnode := mk_fwnode {
  fw_present : string -> bool;
  fw_read_u32 : string -> Z * Z;
  fw_count_u32 : string -> Z;
  fw_read_u32_array : string -> nat -> Z * list Z;
  fw_child : string -> option fwnode
}.
#[local] Set Elimination Schemes.

(** [snprintf] of a small decimal index. *)
Definition decimal (n : nat) : string := NilEmpty.string_of_uint (Nat.to_uint n).

(** ** Retrying burst transfers

    The three drivers share the text of their burst loops; they differ in
    the forced-communication handshake, in the width of the register
    address and in the settle delay after the transaction. *)

Definition COMMS_ERROR : Z := 0xEEEE.
Definition COMMS_RETRY_MS : Z := 50.
Definition NUM_RETRIES : nat := 5.

(** What a loop body asks of its loop. *)
Inductive ctl := Continue | Break.

Section Burst.
Variable force_comms : M world Z.
Variable settle : M world unit.

(** One pass through the body of the read loop: the new [ret], the
    buffer, and whether the body ended in [continue] or [break]. *)
Definition read_burst_body (reg : list Z) (buf : list Z)
  : M world (ctl * Z * list Z) :=
  ret <- force_comms ;;
  if ret <? 0 then pure (Continue, ret, buf) else
  rb <- i2c_transfer reg buf ;;
  let ret := fst rb in
  let buf := snd rb in
  if ret <? 2 then
    let ret := if ret >=? 0 then - EIO else ret in
    msleep COMMS_RETRY_MS ;;
    pure (Continue, ret, buf)
  else if first_word buf =? COMMS_ERROR then
    pure (Continue, - ENODATA, buf)
  else
    pure (Break, 0, buf).

(** [for (i = 0; i < NUM_RETRIES; i++)] with [n] passes left; yields
    the number of passes made together with [ret] and the buffer. *)
Fixpoint read_burst_loop (n : nat) (reg : list Z) (i : nat) (ret : Z)
         (buf : list Z) : M world (nat * Z * list Z) :=
  match n with
  | O => pure (i, ret, buf)
  | S n' =>
      r <- read_burst_body reg buf ;;
      let '(c, ret, buf) := r in
      match c with
      | Continue => read_burst_loop n' reg (S i) ret buf
      | Break => pure (S i, ret, buf)
      end
  end.

Definition read_burst (reg : list Z) (val : list Z) : M world (Z * list Z) :=
  r <- read_burst_loop NUM_RETRIES reg 0 0 val ;;
  let '(_, ret, val) := r in
  settle ;;
  pure (ret, val).

Definition write_burst_body (msg_buf : list Z) : M world (ctl * Z) :=
  ret <- force_comms ;;
  if ret <? 0 then pure (Continue, ret) else
  ret <- i2c_master_send msg_buf ;;
  if ret <? Z.of_nat (length msg_buf) then
    let ret := if ret >=? 0 then - EIO else ret in
    msleep COMMS_RETRY_MS ;;
    pure (Continue, ret)
  else
    pure (Break, 0).

Fixpoint write_burst_loop (n : nat) (msg_buf : list Z) (ret : Z) : M world Z :=
  match n with
  | O => pure ret
  | S n' =>
      r <- write_burst_body msg_buf ;;
      match fst r with
      | Continue => write_burst_loop n' msg_buf (snd r)
      | Break => pure (snd r)
      end
  end.

Definition write_burst (reg : list Z) (val : list Z) : M world Z :=
  msg_buf <- kzalloc ;;
  if negb msg_buf then pure (- ENOMEM) else
  let msg_buf := reg ++ flat_map le16_bytes val in
  ret <- write_burst_loop NUM_RETRIES msg_buf 0 ;;
  settle ;;
  pure ret.

(** [*val] is written only when the read succeeds. *)
Definition read_word (reg : list Z) (val : Z) : M world (Z * Z) :=
  r <- read_burst reg [0] ;;
  let error := fst r in
  if truthy error then pure (error, val)
  else pure (0, first_word (snd r)).

Definition write_word (reg : list Z) (val : Z) : M world Z :=
  write_burst reg [val].
End Burst.

(** ** IQS7219A (drivers/iio/proximity/iqs7219.c) *)

Module Iqs7219.

Definition IQS7219_PROD_NUM : Z := 0x00.
Definition IQS7219_SYS_STATUS : Z := 0x10.
Definition IQS7219_SYS_STATUS_RESET : Z := BIT 11.
Definition IQS7219_SYS_STATUS_ATI_ERROR : Z := BIT 9.
Definition IQS7219_SYS_STATUS_ATI_ACTIVE : Z := BIT 8.

Definition IQS7219_SYS_SETUP : Z := 0x80.
Definition IQS7219_SYS_SETUP_INTF_MODE_MASK : Z := GENMASK 7 6.
Definition IQS7219_SYS_SETUP_INTF_MODE_STAND : Z := BIT 7.
Definition IQS7219_SYS_SETUP_INTF_MODE_EVENT : Z := BIT 6.
Definition IQS7219_SYS_SETUP_PWR_MODE_MASK : Z := GENMASK 5 4.
Definition IQS7219_SYS_SETUP_REDO_ATI : Z := BIT 2.
Definition IQS7219_SYS_SETUP_ACK_RESET : Z := BIT 0.

Definition IQS7219_CAP_SETUP_VREF_HALF : Z := BIT 6.
Definition IQS7219_CAP_SETUP_SAMP_DOUBLE : Z := BIT 4.
Definition IQS7219_CAP_SETUP_COUNTS_MASK : Z := GENMASK 1 0.
Definition IQS7219_CAP_SETUP_COUNTS_MAX : Z := IQS7219_CAP_SETUP_COUNTS_MASK.

Definition IQS7219_EVENT_MASK_ALL : Z := GENMASK 4 0.
Definition IQS7219_EVENT_MASK_ATI : Z := BIT 3.

Definition IQS7219_COMMS_HOLD : Z := BIT 8.
Definition IQS7219_COMMS_TIMEOUT_MS : Z := 100.
Definition IQS7219_RESET_TIMEOUT_MS : Z := 250.
Definition IQS7219_ATI_TIMEOUT_MS : Z := 2000.

Definition IQS7219_GPIO_OPEN_DRAIN : Z := BIT 3.
Definition IQS7219_GPIO_ACTIVE_HIGH : Z := BIT 0.

Definition IQS7219_NUM_COLS_STAT : nat := 12.
Definition IQS7219_NUM_COLS_ATI : nat := 5.
Definition IQS7219_NUM_COLS_SYS : nat := 10.
Definition IQS7219_NUM_COLS_PXS : nat := 1.
Definition IQS7219_NUM_COLS_EVENT : nat := 5.
Definition IQS7219_NUM_COLS_CHAN : nat := 13.
Definition IQS7219_NUM_CHAN : nat := 2.
Definition IQS7219_NUM_CYCLES : nat := IQS7219_NUM_CHAN.

(** *** Bus handshake *)

(** The body of the do-while of [iqs7219_irq_poll].  Each pass sleeps at
    least a millisecond, so [fuel] passes are enough for any deadline
    less than [fuel] milliseconds away. *)
Fixpoint irq_poll_loop (fuel : nat) (irq_timeout : Z) : M world Z :=
  match fuel with
  | O => diverge
  | S fuel' =>
      usleep_range 1000 1100 ;;
      ret <- gpiod_get_value_cansleep ;;
      if ret <? 0 then pure ret
      else if ret >? 0 then pure 0
      else
        t <- ktime_get ;;
        if t <? irq_timeout then irq_poll_loop fuel' irq_timeout
        else pure (- EBUSY)
  end.

Definition iqs7219_irq_poll (timeout_ms : Z) : M world Z :=
  t <- ktime_get ;;
  let irq_timeout := t + timeout_ms * 1000 in
  irq_poll_loop (S (Z.to_nat timeout_ms)) irq_timeout.

Definition iqs7219_hard_reset (has_reset_gpio : bool) : M world Z :=
  if negb has_reset_gpio then pure 0 else
  gpiod_set_value_cansleep RESET_GPIO 1 ;;
  usleep_range 1000 1100 ;;
  gpiod_set_value_cansleep RESET_GPIO 0 ;;
  iqs7219_irq_poll IQS7219_RESET_TIMEOUT_MS.

Definition iqs7219_force_comms : M world Z :=
  let msg_buf := [0xFF; 0x00] in
  ret <- gpiod_get_value_cansleep ;;
  if ret <? 0 then pure ret
  else if ret >? 0 then pure 0
  else
    ret <- i2c_master_send msg_buf ;;
    if ret <? Z.of_nat (length msg_buf) then
      let ret := if ret >=? 0 then - EIO else ret in
      msleep COMMS_RETRY_MS ;;
      pure ret
    else
      iqs7219_irq_poll IQS7219_COMMS_TIMEOUT_MS.

Definition iqs7219_settle : M world unit := usleep_range 50 100.

Definition iqs7219_read_burst (reg : Z) (val : list Z) : M world (Z * list Z) :=
  read_burst iqs7219_force_comms iqs7219_settle [reg] val.
Definition iqs7219_read_word (reg : Z) (val : Z) : M world (Z * Z) :=
  read_word iqs7219_force_comms iqs7219_settle [reg] val.
Definition iqs7219_write_burst (reg : Z) (val : list Z) : M world Z :=
  write_burst iqs7219_force_comms iqs7219_settle [reg] val.
Definition iqs7219_write_word (reg : Z) (val : Z) : M world Z :=
  write_word iqs7219_force_comms iqs7219_settle [reg] val.

(** *** ATI trigger *)

(** How the do-while of [iqs7219_ati_trigger] is left: by a [return], or
    towards the [dev_err] that closes a failed attempt. *)
Inductive ati_exit :=
| AtiReturn (error : Z)
| AtiFailed (sys_status : Z).

(** The do-while of [iqs7219_ati_trigger].  Each pass polls RDY, hence
    lasts at least a millisecond. *)
Fixpoint ati_wait (fuel : nat) (intf_mode ati_timeout sys_setup sys_status : Z)
  : M world ati_exit :=
  match fuel with
  | O => diverge
  | S fuel' =>
      let again sys_status :=
        t <- ktime_get ;;
        if t <? ati_timeout
        then ati_wait fuel' intf_mode ati_timeout sys_setup sys_status
        else pure (AtiFailed sys_status) in
      error <- iqs7219_irq_poll IQS7219_COMMS_TIMEOUT_MS ;;
      if truthy error then again sys_status else
      r <- iqs7219_read_word IQS7219_SYS_STATUS sys_status ;;
      let error := fst r in
      let sys_status := snd r in
      if truthy error then pure (AtiReturn error)
      else if truthy (Z.land sys_status IQS7219_SYS_STATUS_ATI_ACTIVE)
      then again sys_status
      else if truthy (Z.land sys_status IQS7219_SYS_STATUS_ATI_ERROR)
      then pure (AtiFailed sys_status)
      else
        let sys_setup := u16_or sys_setup intf_mode in
        error <- iqs7219_write_word IQS7219_SYS_SETUP sys_setup ;;
        pure (AtiReturn error)
  end.

(** The for loop of [iqs7219_ati_trigger], [n] attempts left. *)
Fixpoint ati_attempts (n : nat) (intf_mode sys_setup sys_status : Z) : M world Z :=
  match n with
  | O => pure (- ETIMEDOUT)
  | S n' =>
      error <- iqs7219_write_word IQS7219_SYS_SETUP
                 (u16 (Z.lor (Z.land sys_setup
                                     (Z.lnot IQS7219_SYS_SETUP_PWR_MODE_MASK))
                             IQS7219_SYS_SETUP_REDO_ATI)) ;;
      if truthy error then pure error else
      t <- ktime_get ;;
      let ati_timeout := t + IQS7219_ATI_TIMEOUT_MS * 1000 in
      x <- ati_wait (S (Z.to_nat IQS7219_ATI_TIMEOUT_MS)) intf_mode ati_timeout
                    sys_setup sys_status ;;
      match x with
      | AtiReturn error => pure error
      | AtiFailed sys_status => ati_attempts n' intf_mode sys_setup sys_status
      end
  end.

(** [intf_mode] is [iqs7219->intf_mode], the only field the function reads. *)
Definition iqs7219_ati_trigger (intf_mode : Z) : M world Z :=
  r <- iqs7219_read_word IQS7219_SYS_SETUP 0 ;;
  let error := fst r in
  let sys_setup := snd r in
  if truthy error then pure error else
  let sys_setup := u16_clear sys_setup IQS7219_SYS_SETUP_INTF_MODE_MASK in
  ati_attempts NUM_RETRIES intf_mode sys_setup 0.

(** *** Register groups and the property table *)

Inductive iqs7219_reg_key_id :=
| IQS7219_REG_KEY_ATI
| IQS7219_REG_KEY_SYS
| IQS7219_REG_KEY_PXS
| IQS7219_REG_KEY_CAP
| IQS7219_REG_KEY_EVENT
| IQS7219_REG_KEY_CHAN.

#[global] Instance iqs7219_reg_key_id_eq_dec : EqDecision iqs7219_reg_key_id.
Proof. solve_decision. Defined.

(** [enum iqs7219_reg_grp_id]; the driver does arithmetic on its values. *)
Definition IQS7219_REG_GRP_ATI : nat := 0.
Definition IQS7219_REG_GRP_SYS : nat := 1.
Definition IQS7219_REG_GRP_PXS : nat := 2.
Definition IQS7219_REG_GRP_CAP : nat := 3.
Definition IQS7219_REG_GRP_EVENT_0 : nat := 4.
Definition IQS7219_REG_GRP_EVENT_1 : nat := 5.
Definition IQS7219_REG_GRP_CHAN_0 : nat := 6.
Definition IQS7219_REG_GRP_CHAN_1 : nat := 7.
Definition IQS7219_NUM_REG_GRPS : nat := 8.

Definition iqs7219_pxs_events : list string :=
  ["event-halt"; "event-prox"; "event-touch"]%string.
Definition iqs7219_sense_modes : list string :=
  ["sense-mode-proj"; "sense-mode-self"]%string.
Definition iqs7219_gpios : list Z := [1; 2; 5].

(** [enum iqs7219_scan_id]. *)
Definition IQS7219_SCAN_DELTA : Z := 0.
Definition IQS7219_SCAN_FILT : Z := 1.
Definition IQS7219_SCAN_RAW : Z := 2.
Definition IQS7219_SCAN_LTA : Z := 3.
Definition IQS7219_SCAN_VAR : Z := 4.
Definition IQS7219_SCAN_PXS : Z := 5.
Definition IQS7219_NUM_SCAN : Z := 6.

Definition iqs7219_reg_grp_names (reg_grp : nat) : option string :=
  match reg_grp with
  | 0%nat => Some "ati"%string
  | 2%nat => Some "cycle"%string
  | 6%nat | 7%nat => Some "channel"%string
  | _ => None
  end.

Record iqs7219_reg_grp_desc := mk_grp {
  base : Z;
  grp_reg_key : iqs7219_reg_key_id;
  num_row : nat;
  num_col : nat
}.

(** In the order of [enum iqs7219_reg_grp_id]. *)
Definition iqs7219_reg_grps : list iqs7219_reg_grp_desc := [
  mk_grp 0x20 IQS7219_REG_KEY_ATI IQS7219_NUM_CHAN IQS7219_NUM_COLS_ATI;
  mk_grp IQS7219_SYS_SETUP IQS7219_REG_KEY_SYS 1 IQS7219_NUM_COLS_SYS;
  mk_grp 0x8A IQS7219_REG_KEY_PXS IQS7219_NUM_CYCLES IQS7219_NUM_COLS_PXS;
  mk_grp 0x8C IQS7219_REG_KEY_CAP 1 1;
  mk_grp 0x90 IQS7219_REG_KEY_EVENT (length iqs7219_pxs_events) IQS7219_NUM_COLS_EVENT;
  mk_grp 0xB0 IQS7219_REG_KEY_EVENT (length iqs7219_pxs_events) IQS7219_NUM_COLS_EVENT;
  mk_grp 0xA0 IQS7219_REG_KEY_CHAN 1 IQS7219_NUM_COLS_CHAN;
  mk_grp 0xC0 IQS7219_REG_KEY_CHAN 1 IQS7219_NUM_COLS_CHAN
].

Record iqs7219_prop_desc := mk_prop {
  name : string;
  reg_key : iqs7219_reg_key_id;
  reg_offset : nat;
  reg_shift : Z;
  reg_width : Z;
  val_pitch : Z;
  val_min : Z;
  val_max : Z;
  invert : bool;
  label : option string
}.

Definition IQS7219_MAX_RATE_MS : Z := 3000.

(** [iqs7219_props]: name, reg_key, reg_offset, reg_shift, reg_width,
    val_pitch, val_min, val_max, invert, label (absent members are zero). *)
Definition iqs7219_props : list iqs7219_prop_desc := Eval cbv [IQS7219_MAX_RATE_MS] in ([
  mk_prop "azoteq,ati-frac-mult-coarse" IQS7219_REG_KEY_ATI 0 0 4 0 0 0 false (Some "ATI coarse fractional multiplier");
  mk_prop "azoteq,ati-frac-div-coarse" IQS7219_REG_KEY_ATI 1 0 5 0 0 0 false (Some "ATI coarse fractional divider");
  mk_prop "azoteq,ati-frac-div-fine" IQS7219_REG_KEY_ATI 2 0 5 0 0 0 false (Some "ATI fine fractional divider");
  mk_prop "azoteq,ati-comp-div" IQS7219_REG_KEY_ATI 3 0 5 0 0 0 false (Some "ATI compensation divider");
  mk_prop "azoteq,ati-comp-select" IQS7219_REG_KEY_ATI 4 0 10 0 0 0 false (Some "ATI compensation selection");
  mk_prop "azoteq,rate-np-segment" IQS7219_REG_KEY_SYS 0 8 2 0 0 0 false (Some "normal-power mode segment rate");
  mk_prop "azoteq,power-mode" IQS7219_REG_KEY_SYS 0 4 2 0 0 0 false (Some "power mode");
  mk_prop "azoteq,timeout-comms-ms" IQS7219_REG_KEY_SYS 1 0 8 0 0 0 false (Some "communication timeout");
  mk_prop "azoteq,timeout-ati-ms" IQS7219_REG_KEY_SYS 2 0 16 0 0 0 false (Some "ATI error timeout");
  mk_prop "azoteq,rate-ati-ms" IQS7219_REG_KEY_SYS 3 0 16 0 0 0 false (Some "ATI report rate");
  mk_prop "azoteq,timeout-np-ms" IQS7219_REG_KEY_SYS 4 0 16 0 0 0 false (Some "normal-power mode timeout");
  mk_prop "azoteq,rate-np-ms" IQS7219_REG_KEY_SYS 5 0 16 0 0 IQS7219_MAX_RATE_MS false (Some "normal-power mode report rate");
  mk_prop "azoteq,timeout-lp-ms" IQS7219_REG_KEY_SYS 6 0 16 0 0 0 false (Some "low-power mode timeout");
  mk_prop "azoteq,rate-lp-ms" IQS7219_REG_KEY_SYS 7 0 16 0 0 IQS7219_MAX_RATE_MS false (Some "low-power mode report rate");
  mk_prop "azoteq,timeout-ulp-ms" IQS7219_REG_KEY_SYS 8 0 16 0 0 0 false (Some "ultra-low-power mode timeout");
  mk_prop "azoteq,rate-ulp-ms" IQS7219_REG_KEY_SYS 9 0 16 0 0 IQS7219_MAX_RATE_MS false (Some "ultra-low-power mode report rate");
  mk_prop "azoteq,channel-select" IQS7219_REG_KEY_PXS 0 8 8 0 0 0 false (Some "channel selection");
  mk_prop "azoteq,sense-mode" IQS7219_REG_KEY_PXS 0 0 2 0 0 0 false (Some "sensing mode");
  mk_prop "azoteq,proj-bias" IQS7219_REG_KEY_CAP 0 2 2 0 0 0 false (Some "projected bias current");
  mk_prop "azoteq,timeout-active-ms" IQS7219_REG_KEY_EVENT 0 0 16 0 0 0 false (Some "active state timeout");
  mk_prop "azoteq,hyst" IQS7219_REG_KEY_EVENT 1 0 16 0 0 0 false (Some "hysteresis");
  mk_prop "azoteq,thresh" IQS7219_REG_KEY_EVENT 2 0 16 0 0 0 false (Some "threshold");
  mk_prop "azoteq,debounce-exit" IQS7219_REG_KEY_EVENT 3 8 8 0 0 0 false (Some "debounce exit factor");
  mk_prop "azoteq,debounce-enter" IQS7219_REG_KEY_EVENT 3 0 8 0 0 0 false (Some "debounce entrance factor");
  mk_prop "azoteq,counts-beta-lp" IQS7219_REG_KEY_CHAN 0 12 4 0 0 0 false (Some "low-power mode counts beta");
  mk_prop "azoteq,counts-beta-np" IQS7219_REG_KEY_CHAN 0 8 4 0 0 0 false (Some "normal-power mode counts beta");
  mk_prop "azoteq,direction-enable" IQS7219_REG_KEY_CHAN 0 6 1 0 0 0 false None;
  mk_prop "azoteq,invert-enable" IQS7219_REG_KEY_CHAN 0 1 1 0 0 0 false None;
  mk_prop "azoteq,dual-direction" IQS7219_REG_KEY_CHAN 0 0 1 0 0 0 false None;
  mk_prop "azoteq,lta-fast-beta-lp" IQS7219_REG_KEY_CHAN 1 12 4 0 0 0 false (Some "low-power mode long-term average fast beta");
  mk_prop "azoteq,lta-fast-beta-np" IQS7219_REG_KEY_CHAN 1 8 4 0 0 0 false (Some "normal-power mode long-term average fast beta");
  mk_prop "azoteq,lta-beta-lp" IQS7219_REG_KEY_CHAN 1 4 4 0 0 0 false (Some "low-power mode long-term average beta");
  mk_prop "azoteq,lta-beta-np" IQS7219_REG_KEY_CHAN 1 0 4 0 0 0 false (Some "normal-power mode long-term average beta");
  mk_prop "azoteq,conv-period" IQS7219_REG_KEY_CHAN 2 8 8 0 0 0 false (Some "conversion period");
  mk_prop "azoteq,conv-frac" IQS7219_REG_KEY_CHAN 2 0 8 0 0 0 false (Some "conversion frequency fractional divider");
  mk_prop "azoteq,conv-scale" IQS7219_REG_KEY_CHAN 3 0 8 0 0 3 false (Some "conversion frequency scaling factor");
  mk_prop "azoteq,ati-base" IQS7219_REG_KEY_CHAN 5 0 16 0 0 500 false (Some "ATI base");
  mk_prop "azoteq,ati-target" IQS7219_REG_KEY_CHAN 6 0 16 0 0 4000 false (Some "ATI target");
  mk_prop "azoteq,ati-band" IQS7219_REG_KEY_CHAN 7 0 16 0 0 1500 false (Some "ATI band");
  mk_prop "azoteq,ati-mode" IQS7219_REG_KEY_CHAN 8 0 3 0 0 5 false (Some "ATI mode");
  mk_prop "azoteq,ati-frac-div-coarse" IQS7219_REG_KEY_CHAN 9 8 5 0 0 0 false (Some "ATI coarse fractional divider");
  mk_prop "azoteq,ati-frac-div-fine" IQS7219_REG_KEY_CHAN 9 0 5 0 0 0 false (Some "ATI fine fractional divider");
  mk_prop "azoteq,ati-comp-select" IQS7219_REG_KEY_CHAN 10 0 10 0 0 0 false (Some "ATI compensation selection");
  mk_prop "azoteq,thresh" IQS7219_REG_KEY_CHAN 11 0 16 0 0 0 false (Some "threshold");
  mk_prop "azoteq,fast-filt-band" IQS7219_REG_KEY_CHAN 12 0 8 0 0 0 false (Some "fast filter band")
])%string.

(** *** Driver data *)

Inductive iio_event_direction := IIO_EV_DIR_RISING | IIO_EV_DIR_FALLING.

(** What [iio_push_event] receives: the channel and the direction of a
    threshold event on a proximity channel. *)
Record iio_event := mk_event { ev_chan : nat; ev_dir : iio_event_direction }.

(** [struct iqs7219_private].  The two-dimensional register images are
    kept flat, row after row, as they lie in memory; [io] is the outside
    world, [pushed] what went to [iio_push_event] and [trig_polls] counts
    the calls of [iio_trigger_poll_chained]. *)
Record iqs7219_private := mk_private {
  reset_gpio : bool;
  io : world;
  pxs_flags : Z;
  intf_mode : Z;
  ati_setup : list Z;
  sys_setup : list Z;
  pxs_setup : list Z;
  cap_setup : Z;
  event_setup : list (list Z);
  chan_setup : list (list Z);
  event_mask : list Z;
  comms_setup : Z;
  scan_data : list Z;
  event_enable : list bool;
  trig_valid : list bool;
  trig_enable : bool;
  timestamp : Z;
  scan_mux : list Z;
  pushed : list iio_event;
  trig_polls : nat
}.

Definition set_io (w : world) (p : iqs7219_private) : iqs7219_private :=
  mk_private (reset_gpio p) w (pxs_flags p) (intf_mode p) (ati_setup p)
    (sys_setup p) (pxs_setup p) (cap_setup p) (event_setup p) (chan_setup p)
    (event_mask p) (comms_setup p) (scan_data p) (event_enable p)
    (trig_valid p) (trig_enable p) (timestamp p) (scan_mux p) (pushed p)
    (trig_polls p).
Definition set_pxs_flags (v : Z) (p : iqs7219_private) : iqs7219_private :=
  mk_private (reset_gpio p) (io p) v (intf_mode p) (ati_setup p)
    (sys_setup p) (pxs_setup p) (cap_setup p) (event_setup p) (chan_setup p)
    (event_mask p) (comms_setup p) (scan_data p) (event_enable p)
    (trig_valid p) (trig_enable p) (timestamp p) (scan_mux p) (pushed p)
    (trig_polls p).
Definition set_intf_mode (v : Z) (p : iqs7219_private) : iqs7219_private :=
  mk_private (reset_gpio p) (io p) (pxs_flags p) v (ati_setup p)
    (sys_setup p) (pxs_setup p) (cap_setup p) (event_setup p) (chan_setup p)
    (event_mask p) (comms_setup p) (scan_data p) (event_enable p)
    (trig_valid p) (trig_enable p) (timestamp p) (scan_mux p) (pushed p)
    (trig_polls p).
Definition set_ati_setup (v : list Z) (p : iqs7219_private) : iqs7219_private :=
  mk_private (reset_gpio p) (io p) (pxs_flags p) (intf_mode p) v
    (sys_setup p) (pxs_setup p) (cap_setup p) (event_setup p) (chan_setup p)
    (event_mask p) (comms_setup p) (scan_data p) (event_enable p)
    (trig_valid p) (trig_enable p) (timestamp p) (scan_mux p) (pushed p)
    (trig_polls p).
Definition set_sys_setup (v : list Z) (p : iqs7219_private) : iqs7219_private :=
  mk_private (reset_gpio p) (io p) (pxs_flags p) (intf_mode p) (ati_setup p)
    v (pxs_setup p) (cap_setup p) (event_setup p) (chan_setup p)
    (event_mask p) (comms_setup p) (scan_data p) (event_enable p)
    (trig_valid p) (trig_enable p) (timestamp p) (scan_mux p) (pushed p)
    (trig_polls p).
Definition set_pxs_setup (v : list Z) (p : iqs7219_private) : iqs7219_private :=
  mk_private (reset_gpio p) (io p) (pxs_flags p) (intf_mode p) (ati_setup p)
    (sys_setup p) v (cap_setup p) (event_setup p) (chan_setup p)
    (event_mask p) (comms_setup p) (scan_data p) (event_enable p)
    (trig_valid p) (trig_enable p) (timestamp p) (scan_mux p) (pushed p)
    (trig_polls p).
Definition set_cap_setup (v : Z) (p : iqs7219_private) : iqs7219_private :=
  mk_private (reset_gpio p) (io p) (pxs_flags p) (intf_mode p) (ati_setup p)
    (sys_setup p) (pxs_setup p) v (event_setup p) (chan_setup p)
    (event_mask p) (comms_setup p) (scan_data p) (event_enable p)
    (trig_valid p) (trig_enable p) (timestamp p) (scan_mux p) (pushed p)
    (trig_polls p).
Definition set_event_setup (v : list (list Z)) (p : iqs7219_private) : iqs7219_private :=
  mk_private (reset_gpio p) (io p) (pxs_flags p) (intf_mode p) (ati_setup p)
    (sys_setup p) (pxs_setup p) (cap_setup p) v (chan_setup p)
    (event_mask p) (comms_setup p) (scan_data p) (event_enable p)
    (trig_valid p) (trig_enable p) (timestamp p) (scan_mux p) (pushed p)
    (trig_polls p).
Definition set_chan_setup (v : list (list Z)) (p : iqs7219_private) : iqs7219_private :=
  mk_private (reset_gpio p) (io p) (pxs_flags p) (intf_mode p) (ati_setup p)
    (sys_setup p) (pxs_setup p) (cap_setup p) (event_setup p) v
    (event_mask p) (comms_setup p) (scan_data p) (event_enable p)
    (trig_valid p) (trig_enable p) (timestamp p) (scan_mux p) (pushed p)
    (trig_polls p).
Definition set_event_mask (v : list Z) (p : iqs7219_private) : iqs7219_private :=
  mk_private (reset_gpio p) (io p) (pxs_flags p) (intf_mode p) (ati_setup p)
    (sys_setup p) (pxs_setup p) (cap_setup p) (event_setup p) (chan_setup p)
    v (comms_setup p) (scan_data p) (event_enable p)
    (trig_valid p) (trig_enable p) (timestamp p) (scan_mux p) (pushed p)
    (trig_polls p).
Definition set_scan_data (v : list Z) (p : iqs7219_private) : iqs7219_private :=
  mk_private (reset_gpio p) (io p) (pxs_flags p) (intf_mode p) (ati_setup p)
    (sys_setup p) (pxs_setup p) (cap_setup p) (event_setup p) (chan_setup p)
    (event_mask p) (comms_setup p) v (event_enable p)
    (trig_valid p) (trig_enable p) (timestamp p) (scan_mux p) (pushed p)
    (trig_polls p).
Definition set_trig_valid (v : list bool) (p : iqs7219_private) : iqs7219_private :=
  mk_private (reset_gpio p) (io p) (pxs_flags p) (intf_mode p) (ati_setup p)
    (sys_setup p) (pxs_setup p) (cap_setup p) (event_setup p) (chan_setup p)
    (event_mask p) (comms_setup p) (scan_data p) (event_enable p)
    v (trig_enable p) (timestamp p) (scan_mux p) (pushed p)
    (trig_polls p).
Definition set_timestamp (v : Z) (p : iqs7219_private) : iqs7219_private :=
  mk_private (reset_gpio p) (io p) (pxs_flags p) (intf_mode p) (ati_setup p)
    (sys_setup p) (pxs_setup p) (cap_setup p) (event_setup p) (chan_setup p)
    (event_mask p) (comms_setup p) (scan_data p) (event_enable p)
    (trig_valid p) (trig_enable p) v (scan_mux p) (pushed p)
    (trig_polls p).
Definition set_scan_mux (v : list Z) (p : iqs7219_private) : iqs7219_private :=
  mk_private (reset_gpio p) (io p) (pxs_flags p) (intf_mode p) (ati_setup p)
    (sys_setup p) (pxs_setup p) (cap_setup p) (event_setup p) (chan_setup p)
    (event_mask p) (comms_setup p) (scan_data p) (event_enable p)
    (trig_valid p) (trig_enable p) (timestamp p) v (pushed p)
    (trig_polls p).
Definition set_pushed (v : list iio_event) (p : iqs7219_private) : iqs7219_private :=
  mk_private (reset_gpio p) (io p) (pxs_flags p) (intf_mode p) (ati_setup p)
    (sys_setup p) (pxs_setup p) (cap_setup p) (event_setup p) (chan_setup p)
    (event_mask p) (comms_setup p) (scan_data p) (event_enable p)
    (trig_valid p) (trig_enable p) (timestamp p) (scan_mux p) v
    (trig_polls p).
Definition set_trig_polls (v : nat) (p : iqs7219_private) : iqs7219_private :=
  mk_private (reset_gpio p) (io p) (pxs_flags p) (intf_mode p) (ati_setup p)
    (sys_setup p) (pxs_setup p) (cap_setup p) (event_setup p) (chan_setup p)
    (event_mask p) (comms_setup p) (scan_data p) (event_enable p)
    (trig_valid p) (trig_enable p) (timestamp p) (scan_mux p) (pushed p) v.

(** Run a bus operation on the world held by the driver data. *)
Definition with_io {A} (m : M world A) : M iqs7219_private A := fun p =>
  match m (io p) with
  | Ok (a, w) => Ok (a, set_io w p)
  | OutOfFuel => OutOfFuel
  | OutOfBounds => OutOfBounds
  end.

(** Where a [u16 *] returned by [iqs7219_setup] points: an image and
    the index of the word pointed to. *)
Inductive buf_id :=
| BufAti | BufSys | BufPxs | BufCap
| BufEvent (chan : nat)
| BufChan (chan : nat).

Definition get_buf (b : buf_id) (p : iqs7219_private) : list Z :=
  match b with
  | BufAti => ati_setup p
  | BufSys => sys_setup p
  | BufPxs => pxs_setup p
  | BufCap => [cap_setup p]
  | BufEvent c => default [] (event_setup p !! c)
  | BufChan c => default [] (chan_setup p !! c)
  end.

Definition set_buf (b : buf_id) (l : list Z) (p : iqs7219_private) : iqs7219_private :=
  match b with
  | BufAti => set_ati_setup l p
  | BufSys => set_sys_setup l p
  | BufPxs => set_pxs_setup l p
  | BufCap => set_cap_setup (nth 0 l 0) p
  | BufEvent c => set_event_setup (<[c := l]> (event_setup p)) p
  | BufChan c => set_chan_setup (<[c := l]> (chan_setup p)) p
  end.

Definition iqs7219_setup (reg_grp : nat) (row : nat) : option (buf_id * nat) :=
  match reg_grp with
  | 0%nat => Some (BufAti, (row * IQS7219_NUM_COLS_ATI)%nat)
  | 1%nat => Some (BufSys, 0%nat)
  | 2%nat => Some (BufPxs, (row * IQS7219_NUM_COLS_PXS)%nat)
  | 3%nat => Some (BufCap, 0%nat)
  | 4%nat | 5%nat =>
      Some (BufEvent (reg_grp - IQS7219_REG_GRP_EVENT_0),
            (row * IQS7219_NUM_COLS_EVENT)%nat)
  | 6%nat | 7%nat => Some (BufChan (reg_grp - IQS7219_REG_GRP_CHAN_0), 0%nat)
  | _ => None
  end.


(** *** Device initialisation *)

Definition READ : Z := 0.
Definition WRITE : Z := 1.

Definition iqs7219_write_comms (event_mask : Z) : M iqs7219_private Z :=
  p <- get ;;
  if negb (truthy (comms_setup p)) then pure 0 else
  r <- with_io (iqs7219_read_word (comms_setup p) 0) ;;
  let error := fst r in
  let val := snd r in
  if truthy error then pure error else
  let val := u16_clear val (Z.lor IQS7219_COMMS_HOLD IQS7219_EVENT_MASK_ALL) in
  let val := u16_or val event_mask in
  with_io (iqs7219_write_word (comms_setup p) val).

(** The loop of [iqs7219_dev_init] over the register groups [grps]; a
    result of 0 means that the loop ran to its end. *)
Fixpoint dev_init_grps (grps : list nat) (dir : Z) : M iqs7219_private Z :=
  match grps with
  | [] => pure 0
  | i :: rest =>
      match iqs7219_reg_grps !! i, iqs7219_setup i 0 with
      | Some g, Some (b, off) =>
          let num_val := (num_row g * num_col g)%nat in
          val_buf <- with_io kzalloc ;;
          if negb val_buf then pure (- ENOMEM) else
          p <- get ;;
          error <-
            (if dir =? READ then
               r <- with_io (iqs7219_read_burst (base g) (repeat 0 num_val)) ;;
               modify (fun p => set_buf b (store_words off (snd r) (get_buf b p)) p) ;;
               pure (fst r)
             else if dir =? WRITE then
               with_io (iqs7219_write_burst (base g)
                          (take num_val (drop off (get_buf b p))))
             else pure (- EINVAL)) ;;
          if truthy error then pure error else dev_init_grps rest dir
      | _, _ => dev_init_grps rest dir
      end
  end.

(** The union of the event masks the device is to report. *)
Fixpoint union_event_mask (chans : list nat) (p : iqs7219_private) (event_mask : Z) : Z :=
  match chans with
  | [] => event_mask
  | i :: rest =>
      union_event_mask rest p
        (if trig_enable p || default false (event_enable p !! i)
         then u16_or event_mask (word_at (Iqs7219.event_mask p) i)
         else event_mask)
  end.

Definition iqs7219_dev_init (dir : Z) : M iqs7219_private Z :=
  p <- get ;;
  error <- (if dir =? WRITE then
              with_io (iqs7219_write_word IQS7219_SYS_SETUP
                         (u16 (Z.lor (word_at (sys_setup p) 0)
                                     IQS7219_SYS_SETUP_ACK_RESET)))
            else pure 0) ;;
  if truthy error then pure error else
  error <- iqs7219_write_comms IQS7219_COMMS_HOLD ;;
  if truthy error then pure error else
  error <- dev_init_grps (seq 0 IQS7219_NUM_REG_GRPS) dir ;;
  if truthy error then pure error else
  p <- get ;;
  let event_mask := union_event_mask (seq 0 IQS7219_NUM_CHAN) p IQS7219_EVENT_MASK_ATI in
  error <- iqs7219_write_comms event_mask ;;
  if truthy error then pure error else
  if dir =? READ then pure 0 else
  with_io (iqs7219_ati_trigger (intf_mode p)).

(** *** Configuration builder *)


(** One pass through the loop of [iqs7219_parse_props] for a descriptor of
    the group's key: [Some error] when the pass returns from the function.
    [off] is where [setup] points in its image. *)
Definition parse_prop (reg_grp_node : fwnode) (d : iqs7219_prop_desc)
           (off : nat) (setup : list Z) : option Z * list Z :=
  let reg_offset := (off + reg_offset d)%nat in
  let reg_shift := reg_shift d in
  let reg_width := reg_width d in
  let val_pitch := if val_pitch d =? 0 then 1 else val_pitch d in
  let setup :=
    if reg_width =? 1 then
      if invert d then set_bit setup reg_offset reg_shift
      else clear_bit setup reg_offset reg_shift
    else setup in
  if negb (fw_present reg_grp_node (name d)) then (None, setup) else
  if reg_width =? 1 then
    (None, if invert d then clear_bit setup reg_offset reg_shift
           else set_bit setup reg_offset reg_shift)
  else
    let error := fst (fw_read_u32 reg_grp_node (name d)) in
    let val := u32 (snd (fw_read_u32 reg_grp_node (name d))) in
    if truthy error then (Some error, setup) else
    let val_max :=
      if val_max d =? 0 then s32 (GENMASK (reg_width - 1) 0 * val_pitch)
      else val_max d in
    if (val <? u32 (val_min d)) || (val >? u32 val_max) then
      (Some (- EINVAL), setup)
    else
      let setup :=
        <[reg_offset := u16_clear (word_at setup reg_offset)
                          (GENMASK (reg_shift + reg_width - 1) reg_shift)]> setup in
      let setup :=
        <[reg_offset := u16_or (word_at setup reg_offset)
                          (u32 (Z.shiftl (val / u32 val_pitch) reg_shift))]> setup in
      (None, setup).

Fixpoint parse_props_loop (props : list iqs7219_prop_desc) (key : iqs7219_reg_key_id)
         (reg_grp_node : fwnode) (off : nat) (setup : list Z) : Z * list Z :=
  match props with
  | [] => (0, setup)
  | d :: rest =>
      if decide (reg_key d = key) then
        match parse_prop reg_grp_node d off setup with
        | (Some error, setup) => (error, setup)
        | (None, setup) => parse_props_loop rest key reg_grp_node off setup
        end
      else parse_props_loop rest key reg_grp_node off setup
  end.

(** [iqs7219_parse_props]; [dev] is the device's own node, [child_node]
    the node behind the caller's pointer, returned as the function leaves
    it. *)
Definition iqs7219_parse_props (dev : fwnode) (child_node : option fwnode)
           (child_index : nat) (reg_grp : nat)
  : M iqs7219_private (Z * option fwnode) :=
  let run (reg_grp_node : fwnode) (child_node : option fwnode) :=
    match iqs7219_reg_grps !! reg_grp, iqs7219_setup reg_grp child_index with
    | Some g, Some (b, off) =>
        p <- get ;;
        let r := parse_props_loop iqs7219_props (grp_reg_key g) reg_grp_node
                                  off (get_buf b p) in
        modify (set_buf b (snd r)) ;;
        pure (fst r, child_node)
    | _, _ => pure (- EINVAL, child_node)
    end in
  match reg_grp with
  | 0%nat | 2%nat | 4%nat | 5%nat | 6%nat | 7%nat =>
      match child_node with
      | Some reg_grp_node => run reg_grp_node child_node
      | None =>
          let reg_grp_name :=
            (default EmptyString (iqs7219_reg_grp_names reg_grp) ++ "-" ++
             decimal child_index)%string in
          match fw_child dev reg_grp_name with
          | None => pure (0, None)
          | Some reg_grp_node => run reg_grp_node (Some reg_grp_node)
          end
      end
  | 1%nat | 3%nat => run dev child_node
  | _ => pure (- EINVAL, child_node)
  end.

(** The pin loops of [iqs7219_parse_chan]: set one bit per listed pin,
    [limit] being the size of the pin array. *)
Fixpoint parse_pins (pins : list Z) (limit : Z) (bit_base : Z)
         (i : nat) (setup : list Z) : Z * list Z :=
  match pins with
  | [] => (0, setup)
  | pin :: rest =>
      if pin >=? limit then (- EINVAL, setup)
      else parse_pins rest limit bit_base i (set_bit setup i (pin + bit_base))
  end.

Definition parse_pin_list (chan_node : fwnode) (key : string) (limit : nat)
           (bit_base : Z) (i : nat) (chan_setup : list Z) : Z * list Z :=
  if negb (fw_present chan_node key) then (0, chan_setup) else
  let count := fw_count_u32 chan_node key in
  if count <? 0 then (count, chan_setup)
  else if count >? Z.of_nat limit then (- EINVAL, chan_setup)
  else
    let r := fw_read_u32_array chan_node key (Z.to_nat count) in
    if truthy (fst r) then (fst r, chan_setup) else
    let chan_setup :=
      <[i := u16_clear (word_at chan_setup i)
               (GENMASK (bit_base + Z.of_nat limit - 1) bit_base)]> chan_setup in
    parse_pins (map u32 (take (Z.to_nat count) (snd r))) (Z.of_nat limit)
               bit_base i chan_setup.

Definition update_chan_setup (chan_index : nat) (f : list Z -> list Z)
  : M iqs7219_private unit :=
  modify (fun p => set_buf (BufChan chan_index) (f (get_buf (BufChan chan_index) p)) p).
Definition update_event_setup (chan_index : nat) (f : list Z -> list Z)
  : M iqs7219_private unit :=
  modify (fun p => set_buf (BufEvent chan_index) (f (get_buf (BufEvent chan_index) p)) p).

(** The loop of [iqs7219_parse_chan] over the events [i], [i+1], ... *)
Fixpoint parse_chan_events (events : list string) (i : nat) (chan_node : fwnode)
         (dev : fwnode) (chan_index : nat) : M iqs7219_private Z :=
  match events with
  | [] => pure 0
  | event_name :: rest =>
      let next := parse_chan_events rest (S i) chan_node dev chan_index in
      let e4 := (i * IQS7219_NUM_COLS_EVENT + 4)%nat in
      update_event_setup chan_index
        (fun es => <[e4 := u16_clear (word_at es e4) (GENMASK 7 0)]> es) ;;
      match fw_child chan_node event_name with
      | None => next
      | Some event_node =>
          r <- iqs7219_parse_props dev (Some event_node) i
                 (IQS7219_REG_GRP_EVENT_0 + chan_index) ;;
          if truthy (fst r) then pure (fst r) else
          (if negb (fw_present event_node "azoteq,trigger-disable") then
             modify (fun p => set_event_mask
                       (<[chan_index := u16_or (word_at (event_mask p) chan_index)
                                               (BIT (Z.of_nat i))]> (event_mask p)) p)
           else pure tt) ;;
          update_chan_setup chan_index
            (fun cs => clear_bit cs 0 (Z.of_nat i + 3)) ;;
          (if fw_present event_node "azoteq,lta-track" then
             update_chan_setup chan_index
               (fun cs => set_bit cs 0 (Z.of_nat i + 3))
           else pure tt) ;;
          if negb (fw_present event_node "azoteq,gpio-select") then next else
          let error := fst (fw_read_u32 event_node "azoteq,gpio-select") in
          let val := u32 (snd (fw_read_u32 event_node "azoteq,gpio-select")) in
          if truthy error then pure error else
          if negb (existsb (Z.eqb val) iqs7219_gpios) then pure (- EINVAL) else
          update_event_setup chan_index (fun es => set_bit es e4 val) ;;
          (if fw_present event_node "drive-open-drain" then
             update_event_setup chan_index
               (fun es => <[e4 := u16_or (word_at es e4) IQS7219_GPIO_OPEN_DRAIN]> es)
           else if fw_present event_node "azoteq,invert-enable" then
             update_event_setup chan_index
               (fun es => <[e4 := u16_or (word_at es e4) IQS7219_GPIO_ACTIVE_HIGH]> es)
           else pure tt) ;;
          modify (set_intf_mode IQS7219_SYS_SETUP_INTF_MODE_STAND) ;;
          next
      end
  end.

Definition iqs7219_parse_chan (dev : fwnode) (chan_index : nat) : M iqs7219_private Z :=
  r <- iqs7219_parse_props dev None chan_index (IQS7219_REG_GRP_CHAN_0 + chan_index) ;;
  if truthy (fst r) then pure (fst r) else
  match snd r with
  | None => pure 0
  | Some chan_node =>
      p <- get ;;
      let rx := parse_pin_list chan_node "azoteq,rx-enable" 4 8 3
                               (get_buf (BufChan chan_index) p) in
      modify (set_buf (BufChan chan_index) (snd rx)) ;;
      if truthy (fst rx) then pure (fst rx) else
      p <- get ;;
      let tx := parse_pin_list chan_node "azoteq,tx-enable" 9 0 4
                               (get_buf (BufChan chan_index) p) in
      modify (set_buf (BufChan chan_index) (snd tx)) ;;
      if truthy (fst tx) then pure (fst tx) else
      error <- parse_chan_events iqs7219_pxs_events 0 chan_node dev chan_index ;;
      if truthy error then pure error else
      if negb (fw_present chan_node "azoteq,scan-mux") then pure 0 else
      let error := fst (fw_read_u32 chan_node "azoteq,scan-mux") in
      let val := u32 (snd (fw_read_u32 chan_node "azoteq,scan-mux")) in
      if truthy error then pure error else
      if val >? IQS7219_NUM_SCAN then pure (- EINVAL) else
      modify (fun p => set_scan_mux (<[chan_index := val]> (scan_mux p)) p) ;;
      pure 0
  end.

(** [iqs7219_scan_mux_set], the sysfs side of the multiplexer. *)
Definition iqs7219_scan_mux_set (channel : nat) (scan_mux : Z) : M iqs7219_private Z :=
  if u32 scan_mux >? IQS7219_NUM_SCAN then pure (- EINVAL) else
  modify (fun p => set_scan_mux (<[channel := u32 scan_mux]> (Iqs7219.scan_mux p)) p) ;;
  pure 0.

(** The loop of [iqs7219_parse_all] over the sensing modes. *)
Fixpoint parse_sense_modes (modes : list string) (i : Z) (dev : fwnode)
  : M iqs7219_private Z :=
  match modes with
  | [] => pure 0
  | mode :: rest =>
      let next := parse_sense_modes rest (i + 1) dev in
      match fw_child dev mode with
      | None => next
      | Some cap_node =>
          let upd (f : Z -> Z) : M iqs7219_private unit :=
            modify (fun p => set_cap_setup (f (cap_setup p)) p) in
          let vref := u16 (Z.shiftl IQS7219_CAP_SETUP_VREF_HALF (i * 8)) in
          let samp := u16 (Z.shiftl IQS7219_CAP_SETUP_SAMP_DOUBLE (i * 8)) in
          upd (fun c => u16_clear c vref) ;;
          (if fw_present cap_node "azoteq,vref-half"
           then upd (fun c => u16_or c vref) else pure tt) ;;
          upd (fun c => u16_clear c samp) ;;
          (if fw_present cap_node "azoteq,samp-cap-double"
           then upd (fun c => u16_or c samp) else pure tt) ;;
          if negb (fw_present cap_node "azoteq,max-counts") then next else
          let error := fst (fw_read_u32 cap_node "azoteq,max-counts") in
          let val := u32 (snd (fw_read_u32 cap_node "azoteq,max-counts")) in
          if truthy error then pure error else
          if val >? IQS7219_CAP_SETUP_COUNTS_MAX then pure (- EINVAL) else
          upd (fun c => u16_clear c (Z.shiftl IQS7219_CAP_SETUP_COUNTS_MASK (i * 8))) ;;
          upd (fun c => u16_or c (u32 (Z.shiftl val (i * 8)))) ;;
          next
      end
  end.

Fixpoint parse_cycles (cycles : list nat) (dev : fwnode) : M iqs7219_private Z :=
  match cycles with
  | [] => pure 0
  | i :: rest =>
      r <- iqs7219_parse_props dev None i IQS7219_REG_GRP_PXS ;;
      if truthy (fst r) then pure (fst r) else parse_cycles rest dev
  end.

Fixpoint parse_chans (chans : list nat) (dev : fwnode) : M iqs7219_private Z :=
  match chans with
  | [] => pure 0
  | i :: rest =>
      r <- iqs7219_parse_props dev None i IQS7219_REG_GRP_ATI ;;
      if truthy (fst r) then pure (fst r) else
      error <- iqs7219_parse_chan dev i ;;
      if truthy error then pure error else parse_chans rest dev
  end.

Definition iqs7219_parse_all (dev : fwnode) : M iqs7219_private Z :=
  (if negb (fw_present dev "azoteq,streaming-comms")
   then modify (set_intf_mode IQS7219_SYS_SETUP_INTF_MODE_EVENT) else pure tt) ;;
  error <- parse_cycles (seq 0 IQS7219_NUM_CYCLES) dev ;;
  if truthy error then pure error else
  error <- parse_sense_modes iqs7219_sense_modes 0 dev ;;
  if truthy error then pure error else
  r <- iqs7219_parse_props dev None 0 IQS7219_REG_GRP_CAP ;;
  if truthy (fst r) then pure (fst r) else
  error <- parse_chans (seq 0 IQS7219_NUM_CHAN) dev ;;
  if truthy error then pure error else
  r <- iqs7219_parse_props dev None 0 IQS7219_REG_GRP_SYS ;;
  pure (fst r).

(** *** Status decoding *)

(** [scan[index]] on the six-element array of [iqs7219_report_sync]. *)
Definition scan_at {S} (scan : list Z) (index : Z) : M S Z :=
  if (0 <=? index) && (index <? Z.of_nat (length scan))
  then pure (nth (Z.to_nat index) scan 0)
  else fault.

(** The inner loop of [iqs7219_report_sync] over the events of channel
    [i]: what is pushed, and the new [trig_valid[i]]. *)
Fixpoint report_events (js : list nat) (i : nat) (pxs_flags : Z)
         (p : iqs7219_private) (trig_valid_i : bool)
  : list iio_event * bool :=
  match js with
  | [] => ([], trig_valid_i)
  | j :: rest =>
      let event_mask :=
        u16 (Z.shiftl (Z.land (word_at (event_mask p) i) (BIT (Z.of_nat j)))
                      (Z.of_nat i * 4)) in
      let event_state := Z.land pxs_flags event_mask in
      let event_cache := Z.land (Iqs7219.pxs_flags p) event_mask in
      if negb (truthy (Z.lxor event_state event_cache)) then
        report_events rest i pxs_flags p trig_valid_i
      else
        let trig_valid_i := trig_valid_i || trig_enable p in
        if negb (default false (event_enable p !! i)) then
          report_events rest i pxs_flags p trig_valid_i
        else
          let dir := if truthy event_state then IIO_EV_DIR_RISING
                     else IIO_EV_DIR_FALLING in
          let r := report_events rest i pxs_flags p trig_valid_i in
          (mk_event i dir :: fst r, snd r)
  end.

(** The array [scan] that [iqs7219_report_sync] fills for channel [i]. *)
Definition scan_of (val_buf : list Z) (pxs_flags : Z) (i : nat) : list Z :=
  let filt := nth (2 + i * 2) val_buf 0 in
  let raw := nth (10 + i) val_buf 0 in
  let lta := nth (3 + i * 2) val_buf 0 in
  let var := s32 (Z.lor (Z.shiftl (nth (7 + i * 2) val_buf 0) 16)
                        (nth (6 + i * 2) val_buf 0)) in
  let delta := Z.max (lta - filt) 0 in
  let pxs := Z.land (Z.shiftr pxs_flags (Z.of_nat i * 4)) (GENMASK 3 0) in
  [delta; filt; raw; lta; var; pxs].

(** The loop of [iqs7219_report_sync] over the channels; [val] is [None]
    for a null pointer. *)
Fixpoint report_chans (chans : list nat) (val_buf : list Z) (pxs_flags : Z)
         (scan_id chan_index : Z) (val : option Z) (trig_pending : bool)
  : M iqs7219_private (option Z * bool) :=
  match chans with
  | [] => pure (val, trig_pending)
  | i :: rest =>
      let scan := scan_of val_buf pxs_flags i in
      p <- get ;;
      x <- scan_at scan (word_at (scan_mux p) i) ;;
      modify (fun p => set_scan_data (<[i := x]> (scan_data p)) p) ;;
      val <- (if Z.of_nat i =? chan_index then
                match val with
                | None => fault
                | Some _ => x <- scan_at scan scan_id ;; pure (Some x)
                end
              else pure val) ;;
      p <- get ;;
      let r := report_events (seq 0 (length iqs7219_pxs_events)) i pxs_flags p
                 (negb (truthy (intf_mode p)) && trig_enable p) in
      modify (fun p => set_pushed (pushed p ++ fst r)
                         (set_trig_valid (<[i := snd r]> (trig_valid p)) p)) ;;
      report_chans rest val_buf pxs_flags scan_id chan_index val
                   (trig_pending || snd r)
  end.

Definition iqs7219_report_sync (scan_id chan_index : Z) (val : option Z)
  : M iqs7219_private (Z * option Z) :=
  p <- get ;;
  let timestamp := now (io p) * 1000 in
  r <- with_io (iqs7219_read_burst IQS7219_SYS_STATUS
                  (repeat 0 IQS7219_NUM_COLS_STAT)) ;;
  let error := fst r in
  let val_buf := snd r in
  if truthy error then pure (error, val) else
  let sys_flags := nth 0 val_buf 0 in
  let pxs_flags := nth 1 val_buf 0 in
  if truthy (Z.land sys_flags IQS7219_SYS_STATUS_RESET) then
    error <- iqs7219_dev_init WRITE ;;
    pure (if non_null val && negb (truthy error) then - EAGAIN else error, val)
  else if truthy (Z.land sys_flags IQS7219_SYS_STATUS_ATI_ERROR) then
    error <- with_io (iqs7219_ati_trigger (intf_mode p)) ;;
    pure (if non_null val && negb (truthy error) then - EAGAIN else error, val)
  else if truthy (Z.land sys_flags IQS7219_SYS_STATUS_ATI_ACTIVE) then
    pure (if non_null val then - EAGAIN else error, val)
  else
    r <- report_chans (seq 0 IQS7219_NUM_CHAN) val_buf pxs_flags
                      scan_id chan_index val false ;;
    let val := fst r in
    let trig_pending := snd r in
    modify (fun p => set_pxs_flags pxs_flags (set_timestamp timestamp p)) ;;
    (if negb (truthy error) && trig_pending
     then modify (fun p => set_trig_polls (S (trig_polls p)) p)
     else pure tt) ;;
    pure (error, val).

Definition iqs7219_irq : M iqs7219_private bool :=
  r <- iqs7219_report_sync (-1) (-1) None ;;
  pure (negb (truthy (fst r))).

(** *** IIO callbacks *)

Definition set_event_enable (v : list bool) (p : iqs7219_private) : iqs7219_private :=
  mk_private (reset_gpio p) (io p) (pxs_flags p) (intf_mode p) (ati_setup p)
    (sys_setup p) (pxs_setup p) (cap_setup p) (event_setup p) (chan_setup p)
    (event_mask p) (comms_setup p) (scan_data p) v
    (trig_valid p) (trig_enable p) (timestamp p) (scan_mux p) (pushed p)
    (trig_polls p).
Definition set_trig_enable (v : bool) (p : iqs7219_private) : iqs7219_private :=
  mk_private (reset_gpio p) (io p) (pxs_flags p) (intf_mode p) (ati_setup p)
    (sys_setup p) (pxs_setup p) (cap_setup p) (event_setup p) (chan_setup p)
    (event_mask p) (comms_setup p) (scan_data p) (event_enable p)
    (trig_valid p) v (timestamp p) (scan_mux p) (pushed p)
    (trig_polls p).

Definition iqs7219_report_async (scan_id chan_index : Z) (val : option Z)
  : M iqs7219_private (Z * option Z) :=
  with_io disable_irq ;;
  r <- iqs7219_report_sync scan_id chan_index val ;;
  with_io enable_irq ;;
  pure r.

(** The loop of [iqs7219_trigger_consumer] over [scan.data]: whether to
    push, and the array. *)
Fixpoint consumer_scan (chans : list nat) (active_scan_mask : Z)
         (p : iqs7219_private) (buffer_push : bool) (data : list Z)
         (offset : nat) : bool * list Z :=
  match chans with
  | [] => (buffer_push, data)
  | i :: rest =>
      if negb (Z.testbit active_scan_mask (Z.of_nat i)) then
        consumer_scan rest active_scan_mask p buffer_push data offset
      else
        let buffer_push := buffer_push || default false (trig_valid p !! i) in
        consumer_scan rest active_scan_mask p buffer_push
          (<[offset := u32 (word_at (scan_data p) i)]> data) (S offset)
  end.

(** [iqs7219_trigger_consumer] without CONFIG_IQS7219_SINGLE_CHAN.
    [using_own] is [iio_trigger_using_own(indio_dev)]; the result is what
    goes to [iio_push_to_buffers_with_timestamp], the array [scan.data]
    and the timestamp, or [None] when nothing is pushed. *)
Definition iqs7219_trigger_consumer (using_own : bool) (active_scan_mask : Z)
  : M iqs7219_private (option (list Z * Z)) :=
  let push_from buffer_push : M iqs7219_private (option (list Z * Z)) :=
    p <- get ;;
    let r := consumer_scan (seq 0 IQS7219_NUM_CHAN) active_scan_mask p
               buffer_push (repeat 0 IQS7219_NUM_CHAN) 0 in
    if negb (fst r) then pure None
    else pure (Some (snd r, timestamp p)) in
  if negb using_own then
    r <- iqs7219_report_async (-1) (-1) None ;;
    if truthy (fst r) then pure None else push_from true
  else push_from false.

Definition IQS7219_UHZ_PER_MS : Z := 1000000000.
Definition IQS7219_MAX_RATE_HZ : Z := 1000.

(** include/linux/iio/types.h *)
Definition IIO_VAL_INT : Z := 1.
Definition IIO_VAL_INT_PLUS_MICRO : Z := 2.

(** [iqs7219_read_rate]: what it leaves in [*val] and [*val2].  The
    arithmetic is that of [int]; the division truncates. *)
Definition iqs7219_read_rate (p : iqs7219_private) : Z * Z :=
  let period := word_at (sys_setup p) 5 in
  let rate_uhz :=
    Z.quot IQS7219_UHZ_PER_MS (if truthy period then period else 1) in
  let val := Z.quot rate_uhz 1000000 in
  (val, s32 (rate_uhz - s32 (val * 1000000))).

(** [iqs7219_write_rate]; [rate_ms] is converted to [u16] on its way to
    [iqs7219_write_word] and to [sys_setup[5]]. *)
Definition iqs7219_write_rate (val val2 : Z) : M iqs7219_private Z :=
  if val >? IQS7219_MAX_RATE_HZ then pure (- EINVAL) else
  let rate_uhz := s32 (s32 (val * 1000000) + val2) in
  if negb (truthy rate_uhz) then pure (- EINVAL) else
  let rate_ms := Z.quot IQS7219_UHZ_PER_MS rate_uhz in
  if rate_ms >? IQS7219_MAX_RATE_MS then pure (- EINVAL) else
  with_io disable_irq ;;
  error <- with_io (iqs7219_write_word (IQS7219_SYS_SETUP + 5) (u16 rate_ms)) ;;
  (if negb (truthy error)
   then modify (fun p => set_sys_setup (<[5%nat := u16 rate_ms]> (sys_setup p)) p)
   else pure tt) ;;
  with_io enable_irq ;;
  pure error.

Inductive iio_chan_info :=
| IIO_CHAN_INFO_RAW
| IIO_CHAN_INFO_SAMP_FREQ
| IIO_CHAN_INFO_OTHER.

(** [iqs7219_read_raw]: the return value with [*val] and [*val2];
    [channel] is [chan->channel]. *)
Definition iqs7219_read_raw (channel : Z) (val val2 : Z) (mask : iio_chan_info)
  : M iqs7219_private (Z * Z * Z) :=
  match mask with
  | IIO_CHAN_INFO_RAW =>
      r <- iqs7219_report_async IQS7219_SCAN_DELTA channel (Some val) ;;
      pure (if truthy (fst r) then fst r else IIO_VAL_INT,
            default val (snd r), val2)
  | IIO_CHAN_INFO_SAMP_FREQ =>
      p <- get ;;
      let r := iqs7219_read_rate p in
      pure (IIO_VAL_INT_PLUS_MICRO, fst r, snd r)
  | IIO_CHAN_INFO_OTHER => pure (- EINVAL, val, val2)
  end.

Definition iqs7219_write_raw (val val2 : Z) (mask : iio_chan_info)
  : M iqs7219_private Z :=
  match mask with
  | IIO_CHAN_INFO_SAMP_FREQ => iqs7219_write_rate val val2
  | _ => pure (- EINVAL)
  end.

(** [chan->channel] indexes arrays of [IQS7219_NUM_CHAN] elements. *)
Definition iqs7219_read_event_config (channel : nat) : M iqs7219_private Z :=
  p <- get ;;
  match event_enable p !! channel with
  | Some true => pure 1
  | Some false => pure 0
  | None => fault
  end.

(** The loop of [iqs7219_write_event_config] over the channels. *)
Fixpoint event_config_mask (chans : list nat) (channel : nat)
         (p : iqs7219_private) (event_mask : Z) : Z :=
  match chans with
  | [] => event_mask
  | i :: rest =>
      let event_mask :=
        if trig_enable p
        then u16_or event_mask (word_at (Iqs7219.event_mask p) i)
        else event_mask in
      let event_mask :=
        if negb (i =? channel)%nat && default false (event_enable p !! i)
        then u16_or event_mask (word_at (Iqs7219.event_mask p) i)
        else event_mask in
      event_config_mask rest channel p event_mask
  end.

Definition iqs7219_write_event_config (channel : nat) (state : Z)
  : M iqs7219_private Z :=
  if (IQS7219_NUM_CHAN <=? channel)%nat then fault else
  with_io disable_irq ;;
  p <- get ;;
  let event_mask :=
    event_config_mask (seq 0 IQS7219_NUM_CHAN) channel p IQS7219_EVENT_MASK_ATI in
  let event_mask :=
    if truthy state
    then u16_or event_mask (word_at (Iqs7219.event_mask p) channel)
    else event_mask in
  error <- iqs7219_write_comms event_mask ;;
  (if negb (truthy error)
   then modify (fun p => set_event_enable
                           (<[channel := truthy state]> (event_enable p)) p)
   else pure tt) ;;
  with_io enable_irq ;;
  pure error.

(** The loop of [iqs7219_set_trigger_state] over the channels. *)
Fixpoint trigger_state_mask (chans : list nat) (state : bool)
         (p : iqs7219_private) (event_mask : Z) : Z :=
  match chans with
  | [] => event_mask
  | i :: rest =>
      trigger_state_mask rest state p
        (if state || default false (event_enable p !! i)
         then u16_or event_mask (word_at (Iqs7219.event_mask p) i)
         else event_mask)
  end.

Definition iqs7219_set_trigger_state (state : bool) : M iqs7219_private Z :=
  with_io disable_irq ;;
  p <- get ;;
  let event_mask :=
    trigger_state_mask (seq 0 IQS7219_NUM_CHAN) state p IQS7219_EVENT_MASK_ATI in
  error <- iqs7219_write_comms event_mask ;;
  (if negb (truthy error) then modify (set_trig_enable state) else pure tt) ;;
  with_io enable_irq ;;
  pure error.

(** [chan->channel] indexes an array of [IQS7219_NUM_CHAN] elements. *)
Definition iqs7219_scan_mux_get (channel : nat) : M iqs7219_private Z :=
  p <- get ;;
  match scan_mux p !! channel with
  | Some v => pure v
  | None => fault
  end.

End Iqs7219.

(** ** IQS323 *)

Module Iqs323.

Definition IQS323_PROD_NUM : Z := 0x00.
Definition IQS323_PROD_NUM_REL : Z := 1106.
Definition IQS323_PROD_NUM_MOV : Z := 1462.

Definition IQS323_SYS_STATUS : Z := 0x10.
Definition IQS323_SYS_STATUS_RESET : Z := BIT 7.
Definition IQS323_SYS_STATUS_ATI_ERROR : Z := BIT 6.
Definition IQS323_SYS_STATUS_ATI_ACTIVE : Z := BIT 5.

Definition IQS323_SLDR_STATUS_BUSY : Z := BIT 7.
Definition IQS323_SLDR_STATUS_EVENT : Z := BIT 6.

Definition IQS323_SYS_SETUP : Z := 0xC0.
Definition IQS323_SYS_SETUP_EVENT_MODE : Z := BIT 7.
Definition IQS323_SYS_SETUP_POWER_MODE_MASK : Z := GENMASK 6 4.
Definition IQS323_SYS_SETUP_POWER_MODE_SHIFT : Z := 4.
Definition IQS323_SYS_SETUP_REDO_ATI : Z := BIT 2.
Definition IQS323_SYS_SETUP_ACK_RESET : Z := BIT 0.

Definition IQS323_EVENT_MASK_TOUCH : Z := BIT 1.
Definition IQS323_EVENT_MASK_PROX : Z := BIT 0.

Definition IQS323_COMMS_TIMEOUT_US : Z := 100 * 1000.
Definition IQS323_RESET_TIMEOUT_MS : Z := 300.
Definition IQS323_ATI_TIMEOUT_US : Z := 2 * 1000000.

Definition IQS323_MAX_COLS_SNSR : nat := 10.
Definition IQS323_MAX_COLS_CHAN : nat := 5.
Definition IQS323_MAX_COLS_SLDR : nat := 9.
Definition IQS323_MAX_COLS_GEST : nat := 7.
Definition IQS323_MAX_COLS_FILT : nat := 5.
Definition IQS323_MAX_COLS_SYS : nat := 6.
Definition IQS323_MAX_COLS_GEN : nat := 5.

Definition IQS323_MIN_REPORT_LEN : nat := 10.
Definition IQS323_NUM_CHAN : nat := 3.
Definition IQS323_REG_OFFSET : Z := 0x10.

Definition U16_MAX : Z := 65535.
Definition U8_MAX : Z := 255.

Definition iqs323_irq_wait : M world unit := usleep_range 2500 2600.

Inductive iqs323_intf_mode_id :=
| IQS323_INTF_MODE_ERROR
| IQS323_INTF_MODE_EVENT
| IQS323_INTF_MODE_STREAM.

#[global] Instance iqs323_intf_mode_id_eq_dec : EqDecision iqs323_intf_mode_id.
Proof. solve_decision. Defined.

Inductive iqs323_reg_key_id :=
| IQS323_REG_KEY_NONE
| IQS323_REG_KEY_PROX
| IQS323_REG_KEY_TOUCH
| IQS323_REG_KEY_MOV
| IQS323_REG_KEY_TAP
| IQS323_REG_KEY_HOLD
| IQS323_REG_KEY_AXIAL
| IQS323_REG_KEY_RESERVED.

#[global] Instance iqs323_reg_key_id_eq_dec : EqDecision iqs323_reg_key_id.
Proof. solve_decision. Defined.

Inductive iqs323_reg_grp_id :=
| IQS323_REG_GRP_SNSR
| IQS323_REG_GRP_CHAN
| IQS323_REG_GRP_SLDR
| IQS323_REG_GRP_GEST
| IQS323_REG_GRP_FILT
| IQS323_REG_GRP_SYS
| IQS323_REG_GRP_GEN
| IQS323_REG_GRP_GPIO
| IQS323_REG_GRP_REL.

#[global] Instance iqs323_reg_grp_id_eq_dec : EqDecision iqs323_reg_grp_id.
Proof. solve_decision. Defined.

Definition iqs323_reg_grp_ids : list iqs323_reg_grp_id :=
  [IQS323_REG_GRP_SNSR; IQS323_REG_GRP_CHAN; IQS323_REG_GRP_SLDR;
   IQS323_REG_GRP_GEST; IQS323_REG_GRP_FILT; IQS323_REG_GRP_SYS;
   IQS323_REG_GRP_GEN; IQS323_REG_GRP_GPIO; IQS323_REG_GRP_REL].

Definition iqs323_max_cols (reg_grp : iqs323_reg_grp_id) : nat :=
  match reg_grp with
  | IQS323_REG_GRP_SNSR => IQS323_MAX_COLS_SNSR
  | IQS323_REG_GRP_CHAN => IQS323_MAX_COLS_CHAN
  | IQS323_REG_GRP_SLDR => IQS323_MAX_COLS_SLDR
  | IQS323_REG_GRP_GEST => IQS323_MAX_COLS_GEST
  | IQS323_REG_GRP_FILT => IQS323_MAX_COLS_FILT
  | IQS323_REG_GRP_SYS => IQS323_MAX_COLS_SYS
  | IQS323_REG_GRP_GEN => IQS323_MAX_COLS_GEN
  | _ => 0
  end.

(** [enum iqs323_power_mode_id]; the driver shifts its values into the
    system setup register. *)
Definition IQS323_POWER_MODE_NP : Z := 0.
Definition IQS323_POWER_MODE_LP : Z := 1.
Definition IQS323_POWER_MODE_ULP : Z := 2.
Definition IQS323_POWER_MODE_HALT : Z := 3.
Definition IQS323_POWER_MODE_AUTO : Z := 4.
Definition IQS323_POWER_MODE_AUTO_NO_ULP : Z := 5.
Definition IQS323_POWER_MODE_USER : Z := 6.

Definition iqs323_sense_modes : list Z := [0x10; 0x13; 0x1D; 0x3D].
Definition iqs323_wave_patterns : list Z := [0x0300; 0x0E00; 0; 0x0B00].
Definition iqs323_rx_inactives : list Z := [0x00; 0x05; 0x0A; 0x0F].

Record iqs323_event_desc := mk_event_desc {
  ev_name : string;
  ev_mask : Z;
  ev_enable : Z;
  ev_reg_key : iqs323_reg_key_id
}.

Definition iqs323_kp_events : list iqs323_event_desc := [
  mk_event_desc "event-prox" IQS323_EVENT_MASK_PROX IQS323_EVENT_MASK_PROX
                IQS323_REG_KEY_PROX;
  mk_event_desc "event-touch" IQS323_EVENT_MASK_TOUCH IQS323_EVENT_MASK_TOUCH
                IQS323_REG_KEY_TOUCH;
  mk_event_desc "movement" 0 0 IQS323_REG_KEY_MOV
]%string.

Definition iqs323_sl_events : list iqs323_event_desc := [
  mk_event_desc "event-press" 0 0 IQS323_REG_KEY_NONE;
  mk_event_desc "event-tap" (BIT 0) (BIT 0) IQS323_REG_KEY_TAP;
  mk_event_desc "event-swipe-pos" (Z.lor (BIT 1) IQS323_SLDR_STATUS_BUSY) (BIT 1)
                IQS323_REG_KEY_AXIAL;
  mk_event_desc "event-swipe-neg" (Z.lor (BIT 2) IQS323_SLDR_STATUS_BUSY) (BIT 1)
                IQS323_REG_KEY_AXIAL;
  mk_event_desc "event-flick-pos" (BIT 3) (BIT 2) IQS323_REG_KEY_AXIAL;
  mk_event_desc "event-flick-neg" (BIT 4) (BIT 2) IQS323_REG_KEY_AXIAL;
  mk_event_desc "event-hold" (Z.lor (BIT 5) IQS323_SLDR_STATUS_BUSY) (BIT 3)
                IQS323_REG_KEY_HOLD
]%string.

Record iqs323_reg_grp_desc := mk_grp {
  base : Z;
  num_row : nat;
  num_col : nat
}.

Record iqs323_dev_desc := mk_dev {
  prod_num : Z;
  touch_link : Z;
  delta_links : list Z;
  reg_grps : iqs323_reg_grp_id -> iqs323_reg_grp_desc
}.

Definition iqs323_devs : list iqs323_dev_desc := [
  mk_dev IQS323_PROD_NUM_REL 0x552 [0x430; 0x472; 0x4B4]
    (fun g => match g with
              | IQS323_REG_GRP_SNSR => mk_grp 0x30 IQS323_NUM_CHAN IQS323_MAX_COLS_SNSR
              | IQS323_REG_GRP_CHAN => mk_grp 0x60 IQS323_NUM_CHAN (IQS323_MAX_COLS_CHAN - 1)
              | IQS323_REG_GRP_SLDR => mk_grp 0x90 1 IQS323_MAX_COLS_SLDR
              | IQS323_REG_GRP_GEST => mk_grp 0xA0 1 IQS323_MAX_COLS_GEST
              | IQS323_REG_GRP_FILT => mk_grp 0xB0 1 IQS323_MAX_COLS_FILT
              | IQS323_REG_GRP_SYS => mk_grp IQS323_SYS_SETUP 1 IQS323_MAX_COLS_SYS
              | IQS323_REG_GRP_GEN => mk_grp 0xD0 1 IQS323_MAX_COLS_GEN
              | IQS323_REG_GRP_GPIO => mk_grp 0 1 0
              | IQS323_REG_GRP_REL => mk_grp 0 1 0
              end);
  mk_dev IQS323_PROD_NUM_MOV 0x558 [0x430; 0x474; 0x4B8]
    (fun g => match g with
              | IQS323_REG_GRP_SNSR => mk_grp 0x30 IQS323_NUM_CHAN IQS323_MAX_COLS_SNSR
              | IQS323_REG_GRP_CHAN => mk_grp 0x60 IQS323_NUM_CHAN IQS323_MAX_COLS_CHAN
              | IQS323_REG_GRP_SLDR => mk_grp 0x90 1 IQS323_MAX_COLS_SLDR
              | IQS323_REG_GRP_GEST => mk_grp 0xA0 1 IQS323_MAX_COLS_GEST
              | IQS323_REG_GRP_FILT => mk_grp 0xB0 1 IQS323_MAX_COLS_FILT
              | IQS323_REG_GRP_SYS => mk_grp IQS323_SYS_SETUP 1 IQS323_MAX_COLS_SYS
              | IQS323_REG_GRP_GEN => mk_grp 0xD0 1 IQS323_MAX_COLS_GEN
              | IQS323_REG_GRP_GPIO => mk_grp 0 1 0
              | IQS323_REG_GRP_REL => mk_grp 0 0 0
              end)
].

Record iqs323_prop_desc := mk_prop {
  name : string;
  reg_grp : iqs323_reg_grp_id;
  reg_key : iqs323_reg_key_id;
  reg_offset : nat;
  reg_shift : Z;
  reg_width : Z;
  val_subs : option (list Z);
  val_pitch : Z;
  val_min : Z;
  val_max : Z;
  invert : bool;
  label : option string
}.

(** [iqs323_props]: name, reg_grp, reg_key, reg_offset, reg_shift,
    reg_width, val_subs, val_pitch, val_min, val_max, invert, label
    (absent members are zero). *)
Definition iqs323_props : list iqs323_prop_desc :=
  Eval cbv [IQS323_SYS_SETUP_POWER_MODE_SHIFT IQS323_POWER_MODE_AUTO_NO_ULP
            length iqs323_sense_modes iqs323_rx_inactives Z.of_nat Z.sub
            Z.add Z.opp Z.pos_sub Pos.of_succ_nat Pos.succ Pos.pred_double
            Z.succ_double Z.pred_double Z.double] in ([
  mk_prop "azoteq,tx-freq-fosc" IQS323_REG_GRP_SNSR IQS323_REG_KEY_NONE 0 5 1 None 0 0 0 false None;
  mk_prop "azoteq,vbias-enable" IQS323_REG_GRP_SNSR IQS323_REG_KEY_NONE 0 4 1 None 0 0 0 false None;
  mk_prop "azoteq,invert-enable" IQS323_REG_GRP_SNSR IQS323_REG_KEY_NONE 0 3 1 None 0 0 0 false None;
  mk_prop "azoteq,dual-direction" IQS323_REG_GRP_SNSR IQS323_REG_KEY_NONE 0 2 1 None 0 0 0 false None;
  mk_prop "azoteq,linearize" IQS323_REG_GRP_SNSR IQS323_REG_KEY_NONE 0 1 1 None 0 0 0 false None;
  mk_prop "azoteq,conv-period" IQS323_REG_GRP_SNSR IQS323_REG_KEY_NONE 1 8 8 None 0 0 0 false (Some "conversion period");
  mk_prop "azoteq,conv-frac" IQS323_REG_GRP_SNSR IQS323_REG_KEY_NONE 1 0 8 None 0 0 0 false (Some "conversion frequency fractional divider");
  mk_prop "azoteq,vref-half" IQS323_REG_GRP_SNSR IQS323_REG_KEY_NONE 2 14 1 None 0 0 0 false None;
  mk_prop "azoteq,samp-cap-double" IQS323_REG_GRP_SNSR IQS323_REG_KEY_NONE 2 12 1 None 0 0 0 false None;
  mk_prop "azoteq,proj-bias" IQS323_REG_GRP_SNSR IQS323_REG_KEY_NONE 2 8 2 None 0 0 0 false (Some "projected bias current");
  mk_prop "azoteq,max-counts" IQS323_REG_GRP_SNSR IQS323_REG_KEY_NONE 2 6 2 None 0 0 0 false (Some "maximum counts");
  mk_prop "azoteq,sense-mode" IQS323_REG_GRP_SNSR IQS323_REG_KEY_NONE 2 0 6 (Some iqs323_sense_modes) 0 0 (Z.of_nat (length iqs323_sense_modes) - 1) false (Some "sensing mode");
  mk_prop "azoteq,tref-enable" IQS323_REG_GRP_SNSR IQS323_REG_KEY_NONE 3 13 1 None 0 0 0 false None;
  mk_prop "azoteq,iref-enable" IQS323_REG_GRP_SNSR IQS323_REG_KEY_NONE 3 12 1 None 0 0 0 false None;
  mk_prop "azoteq,dead-time-enable" IQS323_REG_GRP_SNSR IQS323_REG_KEY_NONE 3 6 1 None 0 0 0 false None;
  mk_prop "azoteq,auto-mode" IQS323_REG_GRP_SNSR IQS323_REG_KEY_NONE 3 2 2 None 0 0 0 false (Some "number of conversions");
  mk_prop "azoteq,wave-pattern-1" IQS323_REG_GRP_SNSR IQS323_REG_KEY_NONE 4 12 4 None 0 0 0 false (Some "waveform pattern 1");
  mk_prop "azoteq,wave-pattern-0" IQS323_REG_GRP_SNSR IQS323_REG_KEY_NONE 4 8 4 None 0 0 0 false (Some "waveform pattern 0");
  mk_prop "azoteq,rx-inactive" IQS323_REG_GRP_SNSR IQS323_REG_KEY_NONE 4 0 4 (Some iqs323_rx_inactives) 0 0 (Z.of_nat (length iqs323_rx_inactives) - 1) false (Some "inactive CRx pin termination");
  mk_prop "azoteq,iref-level" IQS323_REG_GRP_SNSR IQS323_REG_KEY_NONE 5 12 4 None 0 0 0 false (Some "current reference level");
  mk_prop "azoteq,iref-trim" IQS323_REG_GRP_SNSR IQS323_REG_KEY_NONE 5 8 4 None 0 0 0 false (Some "current reference trim");
  mk_prop "azoteq,ati-factor" IQS323_REG_GRP_SNSR IQS323_REG_KEY_NONE 6 4 12 None 0 0 0 false (Some "ATI resolution factor");
  mk_prop "azoteq,ati-band-tighten" IQS323_REG_GRP_SNSR IQS323_REG_KEY_NONE 6 3 1 None 0 0 0 true None;
  mk_prop "azoteq,ati-mode" IQS323_REG_GRP_SNSR IQS323_REG_KEY_NONE 6 0 3 None 0 0 4 false (Some "ATI mode");
  mk_prop "azoteq,ati-base" IQS323_REG_GRP_SNSR IQS323_REG_KEY_NONE 7 0 16 None 0 0 16384 false (Some "ATI base");
  mk_prop "azoteq,ati-frac-mult-fine" IQS323_REG_GRP_SNSR IQS323_REG_KEY_NONE 8 14 2 None 0 0 0 false (Some "ATI fine fractional multiplier");
  mk_prop "azoteq,ati-frac-div-fine" IQS323_REG_GRP_SNSR IQS323_REG_KEY_NONE 8 9 5 None 0 0 0 false (Some "ATI fine fractional divider");
  mk_prop "azoteq,ati-frac-mult-coarse" IQS323_REG_GRP_SNSR IQS323_REG_KEY_NONE 8 5 4 None 0 0 0 false (Some "ATI coarse fractional multiplier");
  mk_prop "azoteq,ati-frac-div-coarse" IQS323_REG_GRP_SNSR IQS323_REG_KEY_NONE 8 0 5 None 0 0 0 false (Some "ATI coarse fractional divider");
  mk_prop "azoteq,ati-comp-div" IQS323_REG_GRP_SNSR IQS323_REG_KEY_NONE 9 11 5 None 0 0 0 false (Some "ATI compensation divider");
  mk_prop "azoteq,ati-comp-select" IQS323_REG_GRP_SNSR IQS323_REG_KEY_NONE 9 0 10 None 0 0 0 false (Some "ATI compensation selection");
  mk_prop "azoteq,debounce-exit" IQS323_REG_GRP_CHAN IQS323_REG_KEY_PROX 1 12 4 None 0 0 0 false (Some "debounce exit factor");
  mk_prop "azoteq,debounce-enter" IQS323_REG_GRP_CHAN IQS323_REG_KEY_PROX 1 8 4 None 0 0 0 false (Some "debounce entrance factor");
  mk_prop "azoteq,thresh" IQS323_REG_GRP_CHAN IQS323_REG_KEY_PROX 1 0 8 None 0 0 0 false (Some "threshold");
  mk_prop "azoteq,thresh" IQS323_REG_GRP_CHAN IQS323_REG_KEY_TOUCH 2 0 8 None 0 0 0 false (Some "threshold");
  mk_prop "azoteq,hyst" IQS323_REG_GRP_CHAN IQS323_REG_KEY_TOUCH 2 8 8 None 0 0 0 false (Some "hysteresis");
  mk_prop "azoteq,debounce-exit" IQS323_REG_GRP_CHAN IQS323_REG_KEY_MOV 4 12 4 None 0 0 0 false (Some "debounce exit factor");
  mk_prop "azoteq,debounce-enter" IQS323_REG_GRP_CHAN IQS323_REG_KEY_MOV 4 8 4 None 0 0 0 false (Some "debounce entrance factor");
  mk_prop "azoteq,thresh" IQS323_REG_GRP_CHAN IQS323_REG_KEY_MOV 4 0 8 None 0 0 0 false (Some "threshold");
  mk_prop "azoteq,lower-cal" IQS323_REG_GRP_SLDR IQS323_REG_KEY_NONE 0 8 8 None 0 0 0 false (Some "lower calibration");
  mk_prop "azoteq,static-beta" IQS323_REG_GRP_SLDR IQS323_REG_KEY_NONE 0 6 1 None 0 0 0 false None;
  mk_prop "azoteq,bottom-beta" IQS323_REG_GRP_SLDR IQS323_REG_KEY_NONE 0 3 3 None 0 0 0 false (Some "bottom beta");
  mk_prop "azoteq,bottom-speed" IQS323_REG_GRP_SLDR IQS323_REG_KEY_NONE 1 8 8 None 0 0 0 false (Some "bottom speed");
  mk_prop "azoteq,upper-cal" IQS323_REG_GRP_SLDR IQS323_REG_KEY_NONE 1 0 8 None 0 0 0 false (Some "upper calibration");
  mk_prop "azoteq,top-speed" IQS323_REG_GRP_SLDR IQS323_REG_KEY_NONE 2 0 16 None 0 0 0 false (Some "top speed");
  mk_prop "azoteq,slider-size" IQS323_REG_GRP_SLDR IQS323_REG_KEY_NONE 3 0 16 None 0 0 0 false (Some "size");
  mk_prop "azoteq,gesture-min-ms" IQS323_REG_GRP_GEST IQS323_REG_KEY_TAP 1 0 16 None 0 0 0 false (Some "minimum gesture time");
  mk_prop "azoteq,gesture-max-ms" IQS323_REG_GRP_GEST IQS323_REG_KEY_TAP 2 0 16 None 0 0 0 false (Some "maximum gesture time");
  mk_prop "azoteq,gesture-max-ms" IQS323_REG_GRP_GEST IQS323_REG_KEY_AXIAL 3 0 16 None 0 0 0 false (Some "maximum gesture time");
  mk_prop "azoteq,gesture-min-ms" IQS323_REG_GRP_GEST IQS323_REG_KEY_HOLD 4 0 16 None 0 0 0 false (Some "maximum gesture time");
  mk_prop "azoteq,gesture-dist" IQS323_REG_GRP_GEST IQS323_REG_KEY_TAP 5 0 16 None 0 0 0 false (Some "gesture distance");
  mk_prop "azoteq,gesture-dist" IQS323_REG_GRP_GEST IQS323_REG_KEY_AXIAL 6 0 16 None 0 0 0 false (Some "gesture distance");
  mk_prop "azoteq,counts-beta-lp" IQS323_REG_GRP_FILT IQS323_REG_KEY_NONE 0 8 8 None 0 0 0 false (Some "low-power mode counts beta");
  mk_prop "azoteq,counts-beta-np" IQS323_REG_GRP_FILT IQS323_REG_KEY_NONE 0 0 8 None 0 0 0 false (Some "normal-power mode counts beta");
  mk_prop "azoteq,lta-beta-lp" IQS323_REG_GRP_FILT IQS323_REG_KEY_NONE 1 8 8 None 0 0 0 false (Some "low-power mode long-term average beta");
  mk_prop "azoteq,lta-beta-np" IQS323_REG_GRP_FILT IQS323_REG_KEY_NONE 1 0 8 None 0 0 0 false (Some "normal-power mode long-term average beta");
  mk_prop "azoteq,lta-fast-beta-lp" IQS323_REG_GRP_FILT IQS323_REG_KEY_NONE 2 8 8 None 0 0 0 false (Some "low-power mode long-term average fast beta");
  mk_prop "azoteq,lta-fast-beta-np" IQS323_REG_GRP_FILT IQS323_REG_KEY_NONE 2 0 8 None 0 0 0 false (Some "normal-power mode long-term average fast beta");
  mk_prop "azoteq,press-lta-beta-lp" IQS323_REG_GRP_FILT IQS323_REG_KEY_NONE 3 8 8 None 0 0 0 false (Some "low-power mode press long-term average beta");
  mk_prop "azoteq,press-lta-beta-np" IQS323_REG_GRP_FILT IQS323_REG_KEY_NONE 3 0 8 None 0 0 0 false (Some "normal-power mode press long-term average beta");
  mk_prop "azoteq,fast-filt-band" IQS323_REG_GRP_FILT IQS323_REG_KEY_NONE 4 0 16 None 0 0 0 false (Some "fast filter band");
  mk_prop "azoteq,power-mode" IQS323_REG_GRP_SYS IQS323_REG_KEY_NONE 0 IQS323_SYS_SETUP_POWER_MODE_SHIFT 3 None 0 0 IQS323_POWER_MODE_AUTO_NO_ULP false (Some "power mode");
  mk_prop "azoteq,rate-np-ms" IQS323_REG_GRP_SYS IQS323_REG_KEY_NONE 1 0 16 None 0 0 3000 false (Some "normal-power mode report rate");
  mk_prop "azoteq,rate-lp-ms" IQS323_REG_GRP_SYS IQS323_REG_KEY_NONE 2 0 16 None 0 0 3000 false (Some "low-power mode report rate");
  mk_prop "azoteq,rate-ulp-ms" IQS323_REG_GRP_SYS IQS323_REG_KEY_NONE 3 0 16 None 0 0 3000 false (Some "ultra-low-power mode report rate");
  mk_prop "azoteq,rate-halt-ms" IQS323_REG_GRP_SYS IQS323_REG_KEY_NONE 4 0 16 None 0 0 3000 false (Some "halt mode report rate");
  mk_prop "azoteq,timeout-xp-ms" IQS323_REG_GRP_SYS IQS323_REG_KEY_NONE 5 0 16 None 0 0 65000 false (Some "power mode timeout");
  mk_prop "azoteq,timeout-comms-ms" IQS323_REG_GRP_GEN IQS323_REG_KEY_NONE 1 0 16 None 0 2 230 false (Some "communication timeout");
  mk_prop "azoteq,timeout-press-ms" IQS323_REG_GRP_GEN IQS323_REG_KEY_TOUCH 2 8 8 None 512 0 0 false (Some "press timeout");
  mk_prop "azoteq,timeout-press-ms" IQS323_REG_GRP_GEN IQS323_REG_KEY_PROX 2 0 8 None 512 0 0 false (Some "press timeout");
  mk_prop "azoteq,thresh" IQS323_REG_GRP_REL IQS323_REG_KEY_NONE 3 8 8 None 0 0 0 false (Some "threshold");
  mk_prop "azoteq,delta-delay" IQS323_REG_GRP_REL IQS323_REG_KEY_NONE 4 8 8 None 0 0 0 false (Some "delta snapshot sample delay");
  mk_prop "azoteq,delta-weight" IQS323_REG_GRP_REL IQS323_REG_KEY_NONE 4 0 8 None 0 0 128 false (Some "delta weight");
  mk_prop "azoteq,timeout-press-ms" IQS323_REG_GRP_GEN IQS323_REG_KEY_MOV 4 0 16 None 512 0 0 false (Some "press timeout")
])%string.

(** *** Driver data *)

(** What goes to the input core. *)
Inductive input_ev :=
| InputEvent (type code value : Z)
| InputAbs (axis value : Z)
| InputKey (code : Z) (value : bool)
| InputSync.

(** [struct iqs323_private], register images flat as they lie in memory.
    [may_wakeup] is [device_may_wakeup], [kp_has_abs] the EV_ABS bit of the
    input device, [reported] what went to the input core. *)
Record iqs323_private := mk_private {
  dev_desc : iqs323_dev_desc;
  may_wakeup : bool;
  io : world;
  intf_mode : iqs323_intf_mode_id;
  kp_type : list Z;
  kp_code : list Z;
  sl_code : list Z;
  sl_axis : Z;
  kp_has_abs : bool;
  snsr_setup : list Z;
  chan_setup : list Z;
  sldr_setup : list Z;
  gest_setup : list Z;
  filt_setup : list Z;
  sys_setup : list Z;
  gen_setup : list Z;
  wear_mask : Z;
  reported : list input_ev
}.

Definition set_io (v : world) (p : iqs323_private) : iqs323_private :=
  mk_private (dev_desc p) (may_wakeup p) v (intf_mode p) (kp_type p) (kp_code p) (sl_code p) (sl_axis p) (kp_has_abs p) (snsr_setup p) (chan_setup p) (sldr_setup p) (gest_setup p) (filt_setup p) (sys_setup p) (gen_setup p) (wear_mask p) (reported p).
Definition set_intf_mode (v : iqs323_intf_mode_id) (p : iqs323_private) : iqs323_private :=
  mk_private (dev_desc p) (may_wakeup p) (io p) v (kp_type p) (kp_code p) (sl_code p) (sl_axis p) (kp_has_abs p) (snsr_setup p) (chan_setup p) (sldr_setup p) (gest_setup p) (filt_setup p) (sys_setup p) (gen_setup p) (wear_mask p) (reported p).
Definition set_snsr_setup (v : list Z) (p : iqs323_private) : iqs323_private :=
  mk_private (dev_desc p) (may_wakeup p) (io p) (intf_mode p) (kp_type p) (kp_code p) (sl_code p) (sl_axis p) (kp_has_abs p) v (chan_setup p) (sldr_setup p) (gest_setup p) (filt_setup p) (sys_setup p) (gen_setup p) (wear_mask p) (reported p).
Definition set_chan_setup (v : list Z) (p : iqs323_private) : iqs323_private :=
  mk_private (dev_desc p) (may_wakeup p) (io p) (intf_mode p) (kp_type p) (kp_code p) (sl_code p) (sl_axis p) (kp_has_abs p) (snsr_setup p) v (sldr_setup p) (gest_setup p) (filt_setup p) (sys_setup p) (gen_setup p) (wear_mask p) (reported p).
Definition set_sldr_setup (v : list Z) (p : iqs323_private) : iqs323_private :=
  mk_private (dev_desc p) (may_wakeup p) (io p) (intf_mode p) (kp_type p) (kp_code p) (sl_code p) (sl_axis p) (kp_has_abs p) (snsr_setup p) (chan_setup p) v (gest_setup p) (filt_setup p) (sys_setup p) (gen_setup p) (wear_mask p) (reported p).
Definition set_gest_setup (v : list Z) (p : iqs323_private) : iqs323_private :=
  mk_private (dev_desc p) (may_wakeup p) (io p) (intf_mode p) (kp_type p) (kp_code p) (sl_code p) (sl_axis p) (kp_has_abs p) (snsr_setup p) (chan_setup p) (sldr_setup p) v (filt_setup p) (sys_setup p) (gen_setup p) (wear_mask p) (reported p).
Definition set_filt_setup (v : list Z) (p : iqs323_private) : iqs323_private :=
  mk_private (dev_desc p) (may_wakeup p) (io p) (intf_mode p) (kp_type p) (kp_code p) (sl_code p) (sl_axis p) (kp_has_abs p) (snsr_setup p) (chan_setup p) (sldr_setup p) (gest_setup p) v (sys_setup p) (gen_setup p) (wear_mask p) (reported p).
Definition set_sys_setup (v : list Z) (p : iqs323_private) : iqs323_private :=
  mk_private (dev_desc p) (may_wakeup p) (io p) (intf_mode p) (kp_type p) (kp_code p) (sl_code p) (sl_axis p) (kp_has_abs p) (snsr_setup p) (chan_setup p) (sldr_setup p) (gest_setup p) (filt_setup p) v (gen_setup p) (wear_mask p) (reported p).
Definition set_gen_setup (v : list Z) (p : iqs323_private) : iqs323_private :=
  mk_private (dev_desc p) (may_wakeup p) (io p) (intf_mode p) (kp_type p) (kp_code p) (sl_code p) (sl_axis p) (kp_has_abs p) (snsr_setup p) (chan_setup p) (sldr_setup p) (gest_setup p) (filt_setup p) (sys_setup p) v (wear_mask p) (reported p).
Definition set_reported (v : list input_ev) (p : iqs323_private) : iqs323_private :=
  mk_private (dev_desc p) (may_wakeup p) (io p) (intf_mode p) (kp_type p) (kp_code p) (sl_code p) (sl_axis p) (kp_has_abs p) (snsr_setup p) (chan_setup p) (sldr_setup p) (gest_setup p) (filt_setup p) (sys_setup p) (gen_setup p) (wear_mask p) v.

Definition with_io {A} (m : M world A) : M iqs323_private A := fun p =>
  match m (io p) with
  | Ok (a, w) => Ok (a, set_io w p)
  | OutOfFuel => OutOfFuel
  | OutOfBounds => OutOfBounds
  end.

Inductive buf_id := BufSnsr | BufChan | BufSldr | BufGest | BufFilt | BufSys | BufGen.

Definition get_buf (b : buf_id) (p : iqs323_private) : list Z :=
  match b with
  | BufSnsr => snsr_setup p
  | BufChan => chan_setup p
  | BufSldr => sldr_setup p
  | BufGest => gest_setup p
  | BufFilt => filt_setup p
  | BufSys => sys_setup p
  | BufGen => gen_setup p
  end.

Definition set_buf (b : buf_id) (l : list Z) (p : iqs323_private) : iqs323_private :=
  match b with
  | BufSnsr => set_snsr_setup l p
  | BufChan => set_chan_setup l p
  | BufSldr => set_sldr_setup l p
  | BufGest => set_gest_setup l p
  | BufFilt => set_filt_setup l p
  | BufSys => set_sys_setup l p
  | BufGen => set_gen_setup l p
  end.

Definition iqs323_setup (reg_grp : iqs323_reg_grp_id) (row : nat)
  : option (buf_id * nat) :=
  match reg_grp with
  | IQS323_REG_GRP_SNSR => Some (BufSnsr, (row * IQS323_MAX_COLS_SNSR)%nat)
  | IQS323_REG_GRP_CHAN => Some (BufChan, (row * IQS323_MAX_COLS_CHAN)%nat)
  | IQS323_REG_GRP_SLDR => Some (BufSldr, 0%nat)
  | IQS323_REG_GRP_GEST => Some (BufGest, 0%nat)
  | IQS323_REG_GRP_FILT => Some (BufFilt, 0%nat)
  | IQS323_REG_GRP_SYS => Some (BufSys, 0%nat)
  | IQS323_REG_GRP_GEN | IQS323_REG_GRP_REL => Some (BufGen, 0%nat)
  | _ => None
  end.


(** *** Bus handshake *)

Definition iqs323_irq_poll (timeout_us : Z) : M world Z :=
  r <- readx_poll_timeout timeout_us ;;
  let val := fst r in
  let error := snd r in
  pure (if val <? 0 then val else error).

Definition iqs323_hard_reset : M world Z :=
  gpiod_set_value_cansleep RDY_GPIO 1 ;;
  msleep IQS323_RESET_TIMEOUT_MS ;;
  gpiod_set_value_cansleep RDY_GPIO 0 ;;
  iqs323_irq_wait ;;
  iqs323_irq_poll IQS323_COMMS_TIMEOUT_US.

Definition iqs323_force_comms : M world Z :=
  let msg_buf := [0xFF] in
  ret <- gpiod_get_value_cansleep ;;
  if ret <? 0 then pure ret
  else if ret >? 0 then pure 0
  else
    ret <- i2c_master_send msg_buf ;;
    if ret <? Z.of_nat (length msg_buf) then
      let ret := if ret >=? 0 then - EIO else ret in
      msleep COMMS_RETRY_MS ;;
      pure ret
    else
      iqs323_irq_wait ;;
      iqs323_irq_poll IQS323_COMMS_TIMEOUT_US.

Definition iqs323_read_burst (reg : Z) (val : list Z) : M world (Z * list Z) :=
  read_burst iqs323_force_comms iqs323_irq_wait [reg] val.
Definition iqs323_read_word (reg : Z) (val : Z) : M world (Z * Z) :=
  read_word iqs323_force_comms iqs323_irq_wait [reg] val.
Definition iqs323_write_burst (reg : Z) (val : list Z) : M world Z :=
  write_burst iqs323_force_comms iqs323_irq_wait [reg] val.
Definition iqs323_write_word (reg : Z) (val : Z) : M world Z :=
  write_word iqs323_force_comms iqs323_irq_wait [reg] val.

Definition iqs323_write_mode (intf_mode : iqs323_intf_mode_id) (power_mode cmd : Z)
  : M iqs323_private Z :=
  p <- get ;;
  let sys_setup := u16 (Z.lor (word_at (sys_setup p) 0) cmd) in
  let sys_setup :=
    if decide (intf_mode = IQS323_INTF_MODE_EVENT)
    then u16_or sys_setup IQS323_SYS_SETUP_EVENT_MODE
    else u16_clear sys_setup IQS323_SYS_SETUP_EVENT_MODE in
  let sys_setup :=
    if negb (power_mode =? IQS323_POWER_MODE_USER) then
      u16_or (u16_clear sys_setup IQS323_SYS_SETUP_POWER_MODE_MASK)
             (Z.shiftl power_mode IQS323_SYS_SETUP_POWER_MODE_SHIFT)
    else sys_setup in
  error <- with_io (iqs323_write_word IQS323_SYS_SETUP sys_setup) ;;
  (if truthy error then modify (set_intf_mode IQS323_INTF_MODE_ERROR)
   else modify (set_intf_mode intf_mode)) ;;
  pure error.

(** *** ATI trigger *)

(** The for loop of [iqs323_ati_trigger], [n] passes left; [error] is the
    value of the variable when the pass begins. *)
Fixpoint ati_attempts (n : nat) (error : Z) (sys_status : Z) : M iqs323_private Z :=
  match n with
  | O => pure error
  | S n' =>
      error <- iqs323_write_mode IQS323_INTF_MODE_STREAM IQS323_POWER_MODE_USER
                                 IQS323_SYS_SETUP_REDO_ATI ;;
      if truthy error then pure error else
      error <- with_io (iqs323_irq_poll IQS323_ATI_TIMEOUT_US) ;;
      if truthy error then ati_attempts n' error sys_status else
      r <- with_io (iqs323_read_word IQS323_SYS_STATUS sys_status) ;;
      let error := fst r in
      let sys_status := snd r in
      if truthy error then pure error else
      if truthy (Z.land sys_status IQS323_SYS_STATUS_RESET) then pure error
      else if truthy (Z.land sys_status IQS323_SYS_STATUS_ATI_ERROR) then
        ati_attempts n' (- EIO) sys_status
      else if truthy (Z.land sys_status IQS323_SYS_STATUS_ATI_ACTIVE) then
        ati_attempts n' (- EBUSY) sys_status
      else pure error
  end.

Definition iqs323_ati_trigger : M iqs323_private Z :=
  ati_attempts NUM_RETRIES 0 0.

(** *** Device initialisation *)

Definition READ : Z := 0.
Definition WRITE : Z := 1.

(** The loop of [iqs323_dev_init] over the rows of one group: [reg] and
    [off] walk the device and the image, [val_buf] is the bounce buffer. *)
Fixpoint dev_init_rows (rows : nat) (dir : Z) (b : buf_id) (stride : nat)
         (num_col : nat) (reg : Z) (off : nat) (val_buf : list Z) (error : Z)
  : M iqs323_private Z :=
  match rows with
  | O => pure error
  | S rows' =>
      p <- get ;;
      r <- (if dir =? READ then
              r <- with_io (iqs323_read_burst reg val_buf) ;;
              modify (fun p => set_buf b (store_words off (snd r) (get_buf b p)) p) ;;
              pure r
            else if dir =? WRITE then
              let val_buf := take num_col (drop off (get_buf b p)) in
              error <- with_io (iqs323_write_burst reg val_buf) ;;
              pure (error, val_buf)
            else pure (- EINVAL, val_buf)) ;;
      let error := fst r in
      let val_buf := snd r in
      if truthy error then pure error else
      dev_init_rows rows' dir b stride num_col (u16 (reg + IQS323_REG_OFFSET))
                    (off + stride) val_buf error
  end.

Fixpoint dev_init_grps (grps : list iqs323_reg_grp_id) (dir : Z) : M iqs323_private Z :=
  match grps with
  | [] => pure 0
  | i :: rest =>
      p <- get ;;
      let g := reg_grps (dev_desc p) i in
      if (num_col g =? 0)%nat then dev_init_grps rest dir else
      match iqs323_setup i 0 with
      | None => dev_init_grps rest dir
      | Some (b, off) =>
          val_buf <- with_io kzalloc ;;
          if negb val_buf then pure (- ENOMEM) else
          error <- dev_init_rows (num_row g) dir b (iqs323_max_cols i) (num_col g)
                     (base g) off (repeat 0 (num_col g)) 0 ;;
          if truthy error then pure error else dev_init_grps rest dir
      end
  end.

Definition iqs323_dev_init (dir : Z) : M iqs323_private Z :=
  error <- (if dir =? WRITE then
              iqs323_write_mode IQS323_INTF_MODE_STREAM IQS323_POWER_MODE_USER
                                IQS323_SYS_SETUP_ACK_RESET
            else pure 0) ;;
  if truthy error then pure error else
  error <- dev_init_grps iqs323_reg_grp_ids dir ;;
  if truthy error then pure error else
  if dir =? READ then pure 0 else
  iqs323_ati_trigger.

(** *** Configuration builder *)


(** One pass through the loop of [iqs323_parse_props] for a descriptor of
    the wanted group and key: [Some error] when the pass returns from the
    function.  [off] is where [setup] points in its image. *)
Definition parse_prop (reg_grp_node : fwnode) (d : iqs323_prop_desc)
           (off : nat) (setup : list Z) : option Z * list Z :=
  let reg_offset := (off + reg_offset d)%nat in
  let reg_shift := reg_shift d in
  let reg_width := reg_width d in
  let val_pitch := if val_pitch d =? 0 then 1 else val_pitch d in
  if reg_width =? 1 then
    let setup :=
      if invert d then set_bit setup reg_offset reg_shift
      else clear_bit setup reg_offset reg_shift in
    (None,
     if fw_present reg_grp_node (name d) then
       if invert d then clear_bit setup reg_offset reg_shift
       else set_bit setup reg_offset reg_shift
     else setup)
  else
    let error := fst (fw_read_u32 reg_grp_node (name d)) in
    let val := u32 (snd (fw_read_u32 reg_grp_node (name d))) in
    if error =? - EINVAL then (None, setup)
    else if truthy error then (Some error, setup)
    else
      let val_max :=
        if val_max d =? 0 then s32 (GENMASK (reg_width - 1) 0 * val_pitch)
        else val_max d in
      if (val <? u32 (val_min d)) || (val >? u32 val_max) then
        (Some (- EINVAL), setup)
      else
        let setup :=
          <[reg_offset := u16_clear (word_at setup reg_offset)
                            (GENMASK (reg_shift + reg_width - 1) reg_shift)]> setup in
        let setup :=
          match val_subs d with
          | Some subs =>
              <[reg_offset := u16_or (word_at setup reg_offset)
                                (nth (Z.to_nat val) subs 0)]> setup
          | None =>
              <[reg_offset := u16_or (word_at setup reg_offset)
                                (u32 (Z.shiftl (val / u32 val_pitch) reg_shift))]> setup
          end in
        (None, setup).

Fixpoint parse_props_loop (props : list iqs323_prop_desc)
         (grp : iqs323_reg_grp_id) (key : iqs323_reg_key_id)
         (reg_grp_node : fwnode) (off : nat) (setup : list Z) : Z * list Z :=
  match props with
  | [] => (0, setup)
  | d :: rest =>
      if decide (reg_grp d = grp /\ reg_key d = key) then
        match parse_prop reg_grp_node d off setup with
        | (Some error, setup) => (error, setup)
        | (None, setup) => parse_props_loop rest grp key reg_grp_node off setup
        end
      else parse_props_loop rest grp key reg_grp_node off setup
  end.

Definition iqs323_parse_props (reg_grp_node : fwnode) (reg_grp_index : nat)
           (reg_grp : iqs323_reg_grp_id) (reg_key : iqs323_reg_key_id)
  : M iqs323_private Z :=
  match iqs323_setup reg_grp reg_grp_index with
  | None => pure 0
  | Some (b, off) =>
      p <- get ;;
      let r := parse_props_loop iqs323_props reg_grp reg_key reg_grp_node off
                                (get_buf b p) in
      modify (set_buf b (snd r)) ;;
      pure (fst r)
  end.

(** *** Event decoding *)

Definition report (evs : list input_ev) : M iqs323_private unit :=
  modify (fun p => set_reported (reported p ++ evs) p).

(** The keypad loop of [iqs323_process_events] for channel [i]. *)
Fixpoint kp_events_of (descs : list iqs323_event_desc) (i j : nat) (sys_status : Z)
         (p : iqs323_private) : list input_ev :=
  match descs with
  | [] => []
  | d :: rest =>
      let mask := u16 (Z.shiftl (ev_mask d) (Z.of_nat i * 2 + 8)) in
      let k := (i * length iqs323_kp_events + j)%nat in
      let tail := kp_events_of rest i (S j) sys_status p in
      if negb (truthy (word_at (kp_type p) k)) then tail
      else InputEvent (word_at (kp_type p) k) (word_at (kp_code p) k)
                      (if truthy (Z.land sys_status mask) then 1 else 0) :: tail
  end.

(** The first slider loop: the key reports and the status word as the
    loop leaves it. *)
Fixpoint sl_events_of (descs : list iqs323_event_desc) (i : nat)
         (sldr_status sldr_pos : Z) (p : iqs323_private) : list input_ev * Z :=
  match descs with
  | [] => ([], sldr_status)
  | d :: rest =>
      let mask := ev_mask d in
      let ev := InputKey (word_at (sl_code p) i)
                  (if truthy mask then Z.land sldr_status mask =? mask
                   else sldr_pos <? U16_MAX) in
      let sldr_status :=
        if truthy (Z.land mask IQS323_SLDR_STATUS_BUSY)
        then u16_clear sldr_status (Z.land mask (Z.lnot IQS323_SLDR_STATUS_BUSY))
        else sldr_status in
      let r := sl_events_of rest (S i) sldr_status sldr_pos p in
      (ev :: fst r, snd r)
  end.

(** The second slider loop: momentary gestures are released. *)
Fixpoint sl_release_of (descs : list iqs323_event_desc) (i : nat)
         (p : iqs323_private) : list input_ev :=
  match descs with
  | [] => []
  | d :: rest =>
      let mask := ev_mask d in
      let tail := sl_release_of rest (S i) p in
      if negb (truthy mask) then tail
      else if negb (truthy (Z.land mask IQS323_SLDR_STATUS_BUSY))
      then InputKey (word_at (sl_code p) i) false :: tail
      else tail
  end.

(** [x ? : y] of GNU C. *)
Definition elvis (x y : Z) : Z := if truthy x then x else y.

Definition iqs323_process_events (val_buf : list Z) : M iqs323_private (Z * list Z) :=
  r <- with_io (iqs323_read_burst IQS323_SYS_STATUS val_buf) ;;
  let error := fst r in
  let val_buf := snd r in
  if truthy error then pure (error, val_buf) else
  let check_comms := nth (IQS323_MIN_REPORT_LEN - 1) val_buf 0 in
  if negb (check_comms =? COMMS_ERROR) then
    error <- with_io iqs323_hard_reset ;;
    if truthy error then pure (error, val_buf) else
    error <- iqs323_dev_init WRITE ;;
    pure (elvis error (- EAGAIN), val_buf)
  else
  let sys_status := nth 0 val_buf 0 in
  if truthy (Z.land sys_status IQS323_SYS_STATUS_RESET) then
    error <- iqs323_dev_init WRITE ;;
    pure (elvis error (- EAGAIN), val_buf)
  else if truthy (Z.land sys_status IQS323_SYS_STATUS_ATI_ERROR) then
    error <- iqs323_ati_trigger ;;
    pure (elvis error (- EAGAIN), val_buf)
  else if truthy (Z.land sys_status IQS323_SYS_STATUS_ATI_ACTIVE) then
    pure (- EAGAIN, val_buf)
  else
    p <- get ;;
    report (flat_map (fun i => kp_events_of iqs323_kp_events i 0 sys_status p)
                     (seq 0 IQS323_NUM_CHAN)) ;;
    let sldr_pos := nth 2 val_buf 0 in
    let streaming := (sldr_pos <? U16_MAX) && kp_has_abs p in
    (if streaming then report [InputAbs (sl_axis p) sldr_pos] else pure tt) ;;
    let intf_mode := if streaming then IQS323_INTF_MODE_STREAM
                     else IQS323_INTF_MODE_EVENT in
    let sldr_status := Z.land (nth 1 val_buf 0) U8_MAX in
    let sldr_status := u16_clear sldr_status IQS323_SLDR_STATUS_EVENT in
    let sl := sl_events_of iqs323_sl_events 0 sldr_status sldr_pos p in
    report (fst sl) ;;
    let sldr_status := snd sl in
    (if truthy (Z.land sldr_status (Z.lnot IQS323_SLDR_STATUS_BUSY)) then
       report (InputSync :: sl_release_of iqs323_sl_events 0 p)
     else pure tt) ;;
    report [InputSync] ;;
    if decide (intf_mode = Iqs323.intf_mode p) then pure (0, val_buf) else
    error <- iqs323_write_mode intf_mode IQS323_POWER_MODE_USER 0 ;;
    pure (error, val_buf).

Definition iqs323_report_async (val_buf : list Z) : M iqs323_private (Z * list Z) :=
  with_io disable_irq ;;
  r <- iqs323_process_events val_buf ;;
  with_io enable_irq ;;
  pure r.

Definition iqs323_report_sync : M iqs323_private Z :=
  r <- iqs323_process_events (repeat 0 IQS323_MIN_REPORT_LEN) ;;
  let error := fst r in
  if error =? - EAGAIN then pure 0 else pure error.

(** *** Power management *)

(** The for loop of [iqs323_runtime_pm], [n] passes left: whether the
    loop was left by [break], and [error]. *)
Fixpoint runtime_pm_loop (n : nat) (power_mode : Z) (error val : Z)
  : M iqs323_private (bool * Z) :=
  match n with
  | O => pure (false, error)
  | S n' =>
      p <- get ;;
      error <- iqs323_write_mode (intf_mode p) power_mode 0 ;;
      if truthy error || (power_mode =? IQS323_POWER_MODE_USER)
      then pure (true, error) else
      with_io (msleep COMMS_RETRY_MS) ;;
      r <- with_io (iqs323_read_word IQS323_PROD_NUM val) ;;
      let error := fst r in
      let val := snd r in
      if truthy error || (val =? prod_num (dev_desc p))
      then pure (true, error) else
      error <- with_io iqs323_hard_reset ;;
      if truthy error then pure (true, error) else
      error <- iqs323_dev_init WRITE ;;
      if truthy error then pure (true, error) else
      runtime_pm_loop n' power_mode error val
  end.

Definition iqs323_runtime_pm (power_mode : Z) : M iqs323_private Z :=
  p <- get ;;
  if may_wakeup p then pure 0 else
  with_io disable_irq ;;
  r <- runtime_pm_loop NUM_RETRIES power_mode 0 0 ;;
  with_io enable_irq ;;
  pure (if fst r then snd r else - EIO).

Definition iqs323_suspend : M iqs323_private Z :=
  iqs323_runtime_pm IQS323_POWER_MODE_HALT.

Definition iqs323_resume : M iqs323_private Z :=
  iqs323_runtime_pm IQS323_POWER_MODE_USER.

End Iqs323.

(** ** IQS9150: the burst read *)

Module Iqs9150.

Definition IQS9150_COMMS_TIMEOUT_US : Z := 100 * 1000.
Definition IQS9150_START_TIMEOUT_US : Z := 1 * 1000000.

Inductive iqs9150_comms_mode :=
| IQS9150_COMMS_MODE_WAIT
| IQS9150_COMMS_MODE_FREE
| IQS9150_COMMS_MODE_FORCE.

Definition iqs9150_irq_wait : M world unit := usleep_range 50 100.

Definition iqs9150_irq_poll (timeout_us : Z) : M world Z :=
  r <- readx_poll_timeout timeout_us ;;
  let val := fst r in
  let error := snd r in
  pure (if val <? 0 then val else error).

(** [comms_mode] is [iqs9150->comms_mode], the only field read. *)
Definition iqs9150_force_comms (comms_mode : iqs9150_comms_mode) : M world Z :=
  let msg_buf := [0xFF] in
  match comms_mode with
  | IQS9150_COMMS_MODE_WAIT => iqs9150_irq_poll IQS9150_START_TIMEOUT_US
  | IQS9150_COMMS_MODE_FREE => pure 0
  | IQS9150_COMMS_MODE_FORCE =>
      ret <- gpiod_get_value_cansleep ;;
      if ret <? 0 then pure ret
      else if ret >? 0 then pure 0
      else
        ret <- i2c_master_send msg_buf ;;
        if ret <? Z.of_nat (length msg_buf) then
          let ret := if ret >=? 0 then - EIO else ret in
          msleep COMMS_RETRY_MS ;;
          pure ret
        else
          iqs9150_irq_wait ;;
          iqs9150_irq_poll IQS9150_COMMS_TIMEOUT_US
  end.

(** [__iqs9150_read_burst]; the register address goes out as two
    little-endian bytes and [val] is taken word by word. *)
Definition __iqs9150_read_burst (comms_mode : iqs9150_comms_mode) (reg : Z)
           (val : list Z) : M world (Z * list Z) :=
  read_burst (iqs9150_force_comms comms_mode) iqs9150_irq_wait (le16_bytes reg) val.

(** [__iqs9150_write_burst]; [val] is taken byte by byte, as the
    function does. *)
Definition __iqs9150_write_burst (comms_mode : iqs9150_comms_mode) (reg : Z)
           (val : list Z) : M world Z :=
  msg_buf <- kzalloc ;;
  if negb msg_buf then pure (- ENOMEM) else
  let msg_buf := le16_bytes reg ++ val in
  ret <- write_burst_loop (iqs9150_force_comms comms_mode) NUM_RETRIES msg_buf 0 ;;
  iqs9150_irq_wait ;;
  pure ret.

Definition iqs9150_hard_reset (has_reset_gpio : bool) : M world Z :=
  if negb has_reset_gpio then pure 0 else
  gpiod_set_value_cansleep RESET_GPIO 1 ;;
  usleep_range 1000 1100 ;;
  gpiod_set_value_cansleep RESET_GPIO 0 ;;
  iqs9150_irq_poll IQS9150_START_TIMEOUT_US.

(** *** Bursts longer than a page *)

(** [val + reg_offs], [burst_len] bytes long; a burst past the end of
    [val] reads out of bounds. *)
Definition bytes_at (val : list Z) (reg_offs burst_len : Z) : option (list Z) :=
  if reg_offs + burst_len <=? Z.of_nat (length val)
  then Some (firstn (Z.to_nat burst_len) (skipn (Z.to_nat reg_offs) val))
  else None.

(** The loop of [iqs9150_write_burst].  [MAX_LEN] is [IQS9150_MAX_LEN],
    the page size of the build.  Each pass takes at least one byte off
    [rem_len], so [fuel] passes are enough for [rem_len < fuel]. *)
Fixpoint iqs9150_write_chunks (fuel : nat) (MAX_LEN : Z)
         (comms_mode : iqs9150_comms_mode) (reg : Z) (val : list Z)
         (val_len rem_len error : Z) : M world Z :=
  match fuel with
  | O => diverge
  | S fuel' =>
      if negb (truthy rem_len) then pure error else
      let burst_len := u16 (Z.min rem_len MAX_LEN) in
      let reg_offs := u16 (val_len - rem_len) in
      match bytes_at val reg_offs burst_len with
      | None => fault
      | Some chunk =>
          error <- __iqs9150_write_burst comms_mode (u16 (reg + reg_offs)) chunk ;;
          if truthy error then pure error
          else iqs9150_write_chunks fuel' MAX_LEN comms_mode reg val val_len
                                    (u16 (rem_len - burst_len)) error
      end
  end.

Definition iqs9150_write_burst (MAX_LEN : Z) (comms_mode : iqs9150_comms_mode)
           (reg : Z) (val : list Z) (val_len : Z) : M world Z :=
  let val_len := u16 val_len in
  iqs9150_write_chunks (S (Z.to_nat val_len)) MAX_LEN comms_mode reg val
                       val_len val_len 0.

Definition iqs9150_write_word (MAX_LEN : Z) (comms_mode : iqs9150_comms_mode)
           (reg val : Z) : M world Z :=
  iqs9150_write_burst MAX_LEN comms_mode reg (le16_bytes val) 2.

End Iqs9150.

(** ** Stub worlds and property vocabulary *)

(** Oracles read from finite scripts, with a default past their end;
    memory is always found. *)
Definition script (l : list Z) (d : Z) : nat -> Z := fun k => nth k l d.

Definition stub (rdys : list Z) (rdy_d : Z) (sends : list Z) (send_d : Z)
           (xrets : list Z) (xret_d : Z) (xwords : list (list Z))
           (polls : list Z) (poll_d : Z) : world :=
  mkWorld (script rdys rdy_d) 0 (script sends send_d) 0 (script xrets xret_d)
          (fun k j => nth j (nth k xwords []) 0) 0 (script polls poll_d) 0
          (fun _ => 0%nat) 0 0 [] (fun _ => true) 0.

Definition result_of {S A} (o : outcome (A * S)) : option A :=
  match o with Ok (a, _) => Some a | _ => None end.
Definition final_of {S A} (o : outcome (A * S)) : option S :=
  match o with Ok (_, s) => Some s | _ => None end.

(** A firmware node given by its integer properties and its children;
    a property without cells is a boolean one. *)
Fixpoint lookup_key {A} (k : string) (l : list (string * A)) : option A :=
  match l with
  | [] => None
  | (k', v) :: rest => if String.eqb k k' then Some v else lookup_key k rest
  end.

Definition EOVERFLOW : Z := 75.

Definition node_of (props : list (string * list Z))
         (children : list (string * fwnode)) : fwnode :=
  mk_fwnode
    (fun k => non_null (lookup_key k props))
    (fun k => match lookup_key k props with
              | None => (- EINVAL, 0)
              | Some [] => (- ENODATA, 0)
              | Some (v :: _) => (0, v)
              end)
    (fun k => match lookup_key k props with
              | None => - EINVAL
              | Some l => Z.of_nat (length l)
              end)
    (fun k n => match lookup_key k props with
                | None => (- EINVAL, [])
                | Some l => if (length l <? n)%nat then (- EOVERFLOW, [])
                            else (0, take n l)
                end)
    (fun k => lookup_key k children).

(** *** IQS7219A status decoding *)

Section Iqs7219Vocabulary.
Import Iqs7219.

(** The fields the event loop reads stay as they are while the
    channels are walked. *)
Definition decode_frame (p q : iqs7219_private) : Prop :=
  pxs_flags q = pxs_flags p /\ event_mask q = event_mask p /\
  event_enable q = event_enable p /\ trig_enable q = trig_enable p /\
  intf_mode q = intf_mode p /\ scan_mux q = scan_mux p /\ io q = io p.

(** The events pushed for channel [i] when the status word carries
    [flags]. *)
Definition chan_events (p : iqs7219_private) (flags : Z) (i : nat) : list iio_event :=
  fst (report_events (seq 0 (length iqs7219_pxs_events)) i flags p
         (negb (truthy (intf_mode p)) && trig_enable p)).

(** The status block read at the head of [iqs7219_report_sync] came back
    as [val_buf], leaving the driver data as [p1]. *)
Definition status_read (p : iqs7219_private) (val_buf : list Z)
           (p1 : iqs7219_private) : Prop :=
  with_io (iqs7219_read_burst IQS7219_SYS_STATUS
             (repeat 0 IQS7219_NUM_COLS_STAT)) p = Ok ((0, val_buf), p1).

(** None of the reset, ATI-error and ATI-active flags is set. *)
Definition no_flags (sys_flags : Z) : Prop :=
  Z.land sys_flags IQS7219_SYS_STATUS_RESET = 0 /\
  Z.land sys_flags IQS7219_SYS_STATUS_ATI_ERROR = 0 /\
  Z.land sys_flags IQS7219_SYS_STATUS_ATI_ACTIVE = 0.

(** Event [j] of channel [i] is due when its mask bit is set in
    [event_mask[i]], the channel's events are enabled, and its status bit
    differs from the cached one. *)
Definition event_bit (i j : nat) : Z := Z.of_nat i * 4 + Z.of_nat j.
Definition fires (p : iqs7219_private) (flags : Z) (i j : nat) : bool :=
  Z.testbit (word_at (event_mask p) i) (Z.of_nat j) &&
  xorb (Z.testbit flags (event_bit i j)) (Z.testbit (pxs_flags p) (event_bit i j)) &&
  default false (event_enable p !! i).
Definition direction (flags : Z) (i j : nat) : iio_event_direction :=
  if Z.testbit flags (event_bit i j) then IIO_EV_DIR_RISING else IIO_EV_DIR_FALLING.

(** The arguments of [iqs7219_report_sync] fit the driver data: the
    multiplexers select one of the six scan values, and a caller that
    names a channel passes a place for the value and a valid selector. *)
Definition report_args_ok (p : iqs7219_private) (scan_id chan_index : Z)
           (val : option Z) : Prop :=
  (forall i, (i < IQS7219_NUM_CHAN)%nat ->
             0 <= word_at (scan_mux p) i < IQS7219_NUM_SCAN) /\
  (0 <= chan_index < Z.of_nat IQS7219_NUM_CHAN ->
   non_null val = true /\ 0 <= scan_id < IQS7219_NUM_SCAN).

(** Driver data for examples: everything zero but the event masks of
    both channels, with the multiplexers on the delta. *)
Definition iqs7219_example (w : world) (cached : Z) (enable : list bool)
  : iqs7219_private :=
  mk_private false w cached 0 (repeat 0 10) (repeat 0 10) (repeat 0 2) 0
             [repeat 0 15; repeat 0 15] [repeat 0 13; repeat 0 13]
             [7; 7] 0 [0; 0] enable [false; false] false 0 [0; 0] [] 0.

End Iqs7219Vocabulary.

(** The driver data of a device whose firmware has the communication
    setup register, as [iqs7219_probe] records it. *)
Definition iqs7219_with_comms (p : Iqs7219.iqs7219_private)
  : Iqs7219.iqs7219_private :=
  Iqs7219.mk_private
    (Iqs7219.reset_gpio p) (Iqs7219.io p) (Iqs7219.pxs_flags p)
    (Iqs7219.intf_mode p) (Iqs7219.ati_setup p) (Iqs7219.sys_setup p)
    (Iqs7219.pxs_setup p) (Iqs7219.cap_setup p) (Iqs7219.event_setup p)
    (Iqs7219.chan_setup p) (Iqs7219.event_mask p) 0x8D
    (Iqs7219.scan_data p) (Iqs7219.event_enable p) (Iqs7219.trig_valid p)
    (Iqs7219.trig_enable p) (Iqs7219.timestamp p) (Iqs7219.scan_mux p)
    (Iqs7219.pushed p) (Iqs7219.trig_polls p).

(** *** Configuration builder *)

(** What one pass over a one-bit descriptor leaves in the image: the
    pass goes on to the next descriptor, the field's bit is the inverse of
    [invert] exactly when the key is present, and nothing else moves. *)
Definition bool_field_result (r : option Z * list Z) (setup : list Z)
           (idx : nat) (shift : Z) (invert present : bool) : Prop :=
  fst r = None /\ length (snd r) = length setup /\
  Z.testbit (word_at (snd r) idx) shift = (if present then negb invert else invert) /\
  (forall k, 0 <= k -> k <> shift ->
     Z.testbit (word_at (snd r) idx) k = Z.testbit (u16 (word_at setup idx)) k) /\
  (forall j, j <> idx -> word_at (snd r) j = word_at setup j).

(** The pitch and the upper bound a scalar descriptor works with when
    its members are left at zero. *)
Definition eff_pitch (pitch : Z) : Z := if pitch =? 0 then 1 else pitch.
Definition eff_max (width pitch max : Z) : Z :=
  if max =? 0 then Z.ones width * eff_pitch pitch else max.

(** The image after the field at [idx], [shift], [width] was cleared and
    [x] was or-ed into its word. *)
Definition span_mask (shift width : Z) : Z := GENMASK (shift + width - 1) shift.
Definition packed (setup : list Z) (idx : nat) (shift width x : Z) : list Z :=
  <[idx := u16_or (u16_clear (word_at setup idx) (span_mask shift width)) x]> setup.

(** The bit span of a field, read back from its word.  The drivers never
    read a field back; this is the plain extraction of the span. *)
Definition field_bits (word shift width : Z) : Z :=
  Z.land (Z.shiftr word shift) (Z.ones width).

(** A descriptor of the tables is laid out inside the 16-bit word, with
    bounds that stay inside the C types and inside the field. *)
Definition iqs7219_prop_ok (d : Iqs7219.iqs7219_prop_desc) : bool :=
  let W := Iqs7219.reg_width d in
  let S := Iqs7219.reg_shift d in
  let pitch := eff_pitch (Iqs7219.val_pitch d) in
  (0 <? W) && (0 <=? S) && (S + W <=? 16) && (0 <? pitch) && (pitch <? 32768) &&
  (0 <=? Iqs7219.val_min d) && (Iqs7219.val_min d <? 2147483648) &&
  (0 <=? Iqs7219.val_max d) &&
  (Iqs7219.val_max d <=? Z.ones W * pitch).

Definition iqs323_prop_ok (d : Iqs323.iqs323_prop_desc) : bool :=
  let W := Iqs323.reg_width d in
  let S := Iqs323.reg_shift d in
  let pitch := eff_pitch (Iqs323.val_pitch d) in
  (0 <? W) && (0 <=? S) && (S + W <=? 16) && (0 <? pitch) && (pitch <? 32768) &&
  (0 <=? Iqs323.val_min d) && (Iqs323.val_min d <? 2147483648) &&
  (0 <=? Iqs323.val_max d) && (Iqs323.val_max d <? 2147483648) &&
  match Iqs323.val_subs d with
  | Some subs =>
      (0 <? Iqs323.val_max d) && (Iqs323.val_max d <? Z.of_nat (length subs)) &&
      forallb (fun x => (0 <=? x) && (Z.land x (Z.lnot (span_mask S W)) =? 0)) subs
  | None => Iqs323.val_max d <=? Z.ones W * pitch
  end.

(** Nothing but the field at [idx], [shift], [width] differs between the
    images [setup] and [setup']. *)
Definition outside_unchanged (setup setup' : list Z) (idx : nat)
           (shift width : Z) : Prop :=
  length setup' = length setup /\
  (forall k, 0 <= k -> k < shift \/ shift + width <= k ->
     Z.testbit (word_at setup' idx) k = Z.testbit (u16 (word_at setup idx)) k) /\
  (forall j, j <> idx -> word_at setup' j = word_at setup j).

(** The press timeout of the IQS323 touch event, counted in steps of
    512 ms. *)
Definition iqs323_press_timeout : Iqs323.iqs323_prop_desc :=
  Iqs323.mk_prop "azoteq,timeout-press-ms" Iqs323.IQS323_REG_GRP_GEN
                 Iqs323.IQS323_REG_KEY_TOUCH 2 8 8 None 512 0 0 false
                 (Some "press timeout"%string).

(** *** Burst transfers *)

(** The buffer and the world after [k] passes of the read loop that all
    ended in [continue]; [None] when one of them did not. *)
Fixpoint after_fails (force_comms : M world Z) (k : nat) (reg buf : list Z)
         (w : world) : option (list Z * world) :=
  match k with
  | O => Some (buf, w)
  | S k' =>
      match read_burst_body force_comms reg buf w with
      | Ok ((Continue, _, buf'), w') => after_fails force_comms k' reg buf' w'
      | _ => None
      end
  end.

(** A pass of the read loop from [buf] and [w] ends in [break]. *)
Definition pass_succeeds (force_comms : M world Z) (reg buf : list Z)
           (w : world) : Prop :=
  exists buf' w', read_burst_body force_comms reg buf w = Ok ((Break, 0, buf'), w').

(** What a burst read [read] with the handshake [force_comms] amounts
    to: it returns, with 0 or a negative error, after at most five bus
    transactions; with 0 exactly when one of the five passes succeeds,
    the earlier ones having failed; with a negative error exactly when
    five passes failed. *)
Definition burst_read_spec (read : M world (Z * list Z))
           (force_comms : M world Z) (reg val : list Z) (w : world) : Prop :=
  exists ret val' w',
    read w = Ok ((ret, val'), w') /\
    (ret = 0 \/ ret < 0) /\
    (xfer_n w' <= xfer_n w + NUM_RETRIES)%nat /\
    (ret = 0 <->
     exists k b wk, (k < NUM_RETRIES)%nat /\
                    after_fails force_comms k reg val w = Some (b, wk) /\
                    pass_succeeds force_comms reg b wk) /\
    (ret < 0 <->
     exists b w5, after_fails force_comms NUM_RETRIES reg val w = Some (b, w5)).

(** A pass is the handshake followed, unless the handshake fails, by
    exactly one transaction, which is the read of [reg]. *)
Definition pass_is_handshake_then_transfer (force_comms : M world Z)
           (reg : list Z) : Prop :=
  forall buf w,
    exists r w1,
      force_comms w = Ok (r, w1) /\
      if r <? 0 then
        read_burst_body force_comms reg buf w = Ok ((Continue, r, buf), w1)
      else
        exists c ret buf' w' tail,
          read_burst_body force_comms reg buf w = Ok ((c, ret, buf'), w') /\
          xfer_n w' = S (xfer_n w1) /\
          trace w' = trace w1 ++ EvXfer reg (length buf) :: tail.

(** A pass whose transaction goes through but reads the sentinel first
    ends in [continue] with -ENODATA, like a failed one. *)
Definition sentinel_is_retried (force_comms : M world Z) (reg : list Z) : Prop :=
  forall buf w r w1,
    force_comms w = Ok (r, w1) -> 0 <= r ->
    2 <= xfer_ret w1 (xfer_n w1) -> buf <> [] ->
    u16 (xfer_word w1 (xfer_n w1) 0) = COMMS_ERROR ->
    exists buf' w',
      read_burst_body force_comms reg buf w = Ok ((Continue, - ENODATA, buf'), w').

(** Descriptors of the tables used in examples. *)
Definition iqs7219_direction_enable : Iqs7219.iqs7219_prop_desc :=
  Iqs7219.mk_prop "azoteq,direction-enable" Iqs7219.IQS7219_REG_KEY_CHAN
                  0 6 1 0 0 0 false None.
Definition iqs7219_ati_mode : Iqs7219.iqs7219_prop_desc :=
  Iqs7219.mk_prop "azoteq,ati-mode" Iqs7219.IQS7219_REG_KEY_CHAN
                  8 0 3 0 0 5 false (Some "ATI mode"%string).
Definition iqs323_ati_band_tighten : Iqs323.iqs323_prop_desc :=
  Iqs323.mk_prop "azoteq,ati-band-tighten" Iqs323.IQS323_REG_GRP_SNSR
                 Iqs323.IQS323_REG_KEY_NONE 6 3 1 None 0 0 0 true None.
Definition iqs323_sense_mode : Iqs323.iqs323_prop_desc :=
  Iqs323.mk_prop "azoteq,sense-mode" Iqs323.IQS323_REG_GRP_SNSR
                 Iqs323.IQS323_REG_KEY_NONE 2 0 6 (Some Iqs323.iqs323_sense_modes)
                 0 0 3 false (Some "sensing mode"%string).

(** The status block at the head of [iqs7219_report_sync], as the world
    of [p] delivers it. *)
Definition status_of (p : Iqs7219.iqs7219_private)
  : list Z * Iqs7219.iqs7219_private :=
  match Iqs7219.with_io
          (Iqs7219.iqs7219_read_burst Iqs7219.IQS7219_SYS_STATUS
             (repeat 0 Iqs7219.IQS7219_NUM_COLS_STAT)) p with
  | Ok ((_, val_buf), p1) => (val_buf, p1)
  | _ => ([], p)
  end.

(** *** Worlds in which the bus works *)

(** RDY is asserted whenever it is sampled or polled, every message
    and every transfer goes through, and memory is found whenever a
    buffer is asked for. *)
Definition good (w : world) : Prop :=
  (forall k, 0 < rdy w k) /\ (forall k, send_ret w k = 1) /\
  (forall k, xfer_ret w k = 2) /\ (forall k, 0 < poll_val w k) /\
  (forall k, mem w k = true).

(** The first word of the [k]-th transfer from now. *)
Definition reads (w : world) (k : nat) : Z := u16 (xfer_word w (xfer_n w + k) 0).

(** *** ATI status words and the messages of the ATI trigger *)

Definition iqs7219_ati_active (sys_status : Z) : bool :=
  truthy (Z.land sys_status Iqs7219.IQS7219_SYS_STATUS_ATI_ACTIVE).
Definition iqs7219_ati_error (sys_status : Z) : bool :=
  truthy (Z.land sys_status Iqs7219.IQS7219_SYS_STATUS_ATI_ERROR).

Definition iqs323_reset (sys_status : Z) : bool :=
  truthy (Z.land sys_status Iqs323.IQS323_SYS_STATUS_RESET).
Definition iqs323_ati_error (sys_status : Z) : bool :=
  truthy (Z.land sys_status Iqs323.IQS323_SYS_STATUS_ATI_ERROR).
Definition iqs323_ati_active (sys_status : Z) : bool :=
  truthy (Z.land sys_status Iqs323.IQS323_SYS_STATUS_ATI_ACTIVE).

(** What [iqs7219_ati_trigger] writes to start an attempt and to leave
    after a success; [sys_setup] is its variable once the interface mode
    is masked out. *)
Definition iqs7219_redo_ati (sys_setup : Z) : bus_event :=
  EvSend (Iqs7219.IQS7219_SYS_SETUP ::
          le16_bytes
            (u16 (Z.lor
                    (Z.land sys_setup
                            (Z.lnot Iqs7219.IQS7219_SYS_SETUP_PWR_MODE_MASK))
                    Iqs7219.IQS7219_SYS_SETUP_REDO_ATI))).
Definition iqs7219_restore_mode (sys_setup intf_mode : Z) : bus_event :=
  EvSend (Iqs7219.IQS7219_SYS_SETUP :: le16_bytes (u16_or sys_setup intf_mode)).

(** One attempt of [iqs7219_ati_trigger] that ends at its first status
    read, and one attempt of [iqs323_ati_trigger]. *)
Definition iqs7219_ati_attempt (sys_setup : Z) : list bus_event :=
  [iqs7219_redo_ati sys_setup; EvSleep 50; EvSleep 1000;
   EvXfer [Iqs7219.IQS7219_SYS_STATUS] 1; EvSleep 50].

(** The word [iqs323_write_mode] writes to the system setup register. *)
Definition iqs323_mode_word (p : Iqs323.iqs323_private)
           (intf_mode : Iqs323.iqs323_intf_mode_id) (power_mode cmd : Z) : Z :=
  let sys_setup := u16 (Z.lor (word_at (Iqs323.sys_setup p) 0) cmd) in
  let sys_setup :=
    if decide (intf_mode = Iqs323.IQS323_INTF_MODE_EVENT)
    then u16_or sys_setup Iqs323.IQS323_SYS_SETUP_EVENT_MODE
    else u16_clear sys_setup Iqs323.IQS323_SYS_SETUP_EVENT_MODE in
  if negb (power_mode =? Iqs323.IQS323_POWER_MODE_USER) then
    u16_or (u16_clear sys_setup Iqs323.IQS323_SYS_SETUP_POWER_MODE_MASK)
           (Z.shiftl power_mode Iqs323.IQS323_SYS_SETUP_POWER_MODE_SHIFT)
  else sys_setup.
Definition iqs323_mode_write (p : Iqs323.iqs323_private)
           (intf_mode : Iqs323.iqs323_intf_mode_id) (power_mode cmd : Z)
  : bus_event :=
  EvSend (Iqs323.IQS323_SYS_SETUP ::
          le16_bytes (iqs323_mode_word p intf_mode power_mode cmd)).

Definition iqs323_redo_ati (p : Iqs323.iqs323_private) : bus_event :=
  iqs323_mode_write p Iqs323.IQS323_INTF_MODE_STREAM
                    Iqs323.IQS323_POWER_MODE_USER
                    Iqs323.IQS323_SYS_SETUP_REDO_ATI.
Definition iqs323_ati_attempt (p : Iqs323.iqs323_private) : list bus_event :=
  [iqs323_redo_ati p; EvSleep 2500; EvXfer [Iqs323.IQS323_SYS_STATUS] 1;
   EvSleep 2500].

(** Driver data for examples: the first device of the table in event
    mode, every register image zero. *)
Definition iqs323_example (w : world) : Iqs323.iqs323_private :=
  Iqs323.mk_private
    (nth 0 Iqs323.iqs323_devs
         (Iqs323.mk_dev 0 0 [] (fun _ => Iqs323.mk_grp 0 0 0)))
    false w Iqs323.IQS323_INTF_MODE_EVENT
    (repeat 0 9) (repeat 0 9) (repeat 0 7) 0 false (repeat 0 30)
    (repeat 0 15) (repeat 0 9) (repeat 0 7) (repeat 0 5) (repeat 0 6)
    (repeat 0 5) 0 [].

(** The same device set up as a wakeup source. *)
Definition iqs323_wakeup_example (w : world) : Iqs323.iqs323_private :=
  Iqs323.mk_private
    (nth 0 Iqs323.iqs323_devs
         (Iqs323.mk_dev 0 0 [] (fun _ => Iqs323.mk_grp 0 0 0)))
    true w Iqs323.IQS323_INTF_MODE_EVENT
    (repeat 0 9) (repeat 0 9) (repeat 0 7) 0 false (repeat 0 30)
    (repeat 0 15) (repeat 0 9) (repeat 0 7) (repeat 0 5) (repeat 0 6)
    (repeat 0 5) 0 [].

(** *** Recovery in the event decoders *)

(** A computation that, when it returns, has left the component [f] of
    the state as it was. *)
Definition keeps {S A B} (f : S -> B) (m : M S A) : Prop :=
  forall s a s', m s = Ok (a, s') -> f s' = f s.

(** A computation that returns and has left [f] as it was. *)
Definition steady {S A B} (f : S -> B) (m : M S A) : Prop :=
  forall s, exists a s', m s = Ok (a, s') /\ f s' = f s.

Definition iqs7219_reset (sys_flags : Z) : bool :=
  truthy (Z.land sys_flags Iqs7219.IQS7219_SYS_STATUS_RESET).

(** What [iqs7219_report_sync] hands to its caller when the recovery has
    returned [error]: [if (val && !error) error = -EAGAIN]. *)
Definition iqs7219_retry (val : option Z) (error : Z) : Z :=
  if non_null val && negb (truthy error) then - EAGAIN else error.

(** The status read of [iqs323_process_events] succeeds with [val_buf],
    leaving the driver as [p1]; and the word of the report that an
    unimplemented register fills. *)
Definition iqs323_status_read (p : Iqs323.iqs323_private) (val_buf0 val_buf : list Z)
           (p1 : Iqs323.iqs323_private) : Prop :=
  Iqs323.with_io (Iqs323.iqs323_read_burst Iqs323.IQS323_SYS_STATUS val_buf0) p
  = Ok ((0, val_buf), p1).
Definition iqs323_check_comms (val_buf : list Z) : Z :=
  nth (Iqs323.IQS323_MIN_REPORT_LEN - 1) val_buf 0.

(** *** Power management of the IQS323 *)

(** [w'] is a later state of the bus of [w]: the same device behind it,
    the same memory, no transfer taken back. *)
Definition same_bus (w w' : world) : Prop :=
  rdy w' = rdy w /\ send_ret w' = send_ret w /\ xfer_ret w' = xfer_ret w /\
  xfer_word w' = xfer_word w /\ poll_val w' = poll_val w /\
  (xfer_n w <= xfer_n w')%nat /\ mem w' = mem w.

(** From [w] to [w'] the driver did [evs] on the bus. *)
Definition runs_on (w w' : world) (evs : list bus_event) : Prop :=
  same_bus w w' /\ trace w' = trace w ++ evs.

(** Every read from now on yields a word with [P]. *)
Definition onward (P : Z -> Prop) (w : world) : Prop := forall k, P (reads w k).

(** A status word without the reset, ATI-error and ATI-active flags. *)
Definition iqs323_quiet (sys_status : Z) : Prop :=
  iqs323_reset sys_status = false /\ iqs323_ati_error sys_status = false /\
  iqs323_ati_active sys_status = false.

(** What [iqs323_dev_init] does on the bus: writes, delays and reads of
    the status. *)
Definition init_event (e : bus_event) : bool :=
  match e with
  | EvSend _ | EvSleep _ => true
  | EvXfer [reg] _ => reg =? Iqs323.IQS323_SYS_STATUS
  | _ => false
  end.

(** A read of the product number; the RDY/MCLR pin driven to reset. *)
Definition is_identity_read (e : bus_event) : bool :=
  match e with
  | EvXfer [reg] _ => reg =? Iqs323.IQS323_PROD_NUM
  | _ => false
  end.
Definition is_reset (e : bus_event) : bool :=
  match e with
  | EvGpioSet RDY_GPIO v => v =? 1
  | _ => false
  end.
Definition count (f : bus_event -> bool) (evs : list bus_event) : nat :=
  length (List.filter f evs).

(** What one pass of the loop of [iqs323_runtime_pm] towards halt does
    on the bus up to its identity check: the mode is written, the
    driver waits 50 ms and reads the product number. *)
Definition iqs323_identity_pass (q : Iqs323.iqs323_private) : list bus_event :=
  [iqs323_mode_write q (Iqs323.intf_mode q) Iqs323.IQS323_POWER_MODE_HALT 0;
   EvSleep 2500; EvSleep (COMMS_RETRY_MS * 1000);
   EvXfer [Iqs323.IQS323_PROD_NUM] 1; EvSleep 2500].

(** The reset of the IQS323 by its pin. *)
Definition iqs323_pin_reset : list bus_event :=
  [EvGpioSet RDY_GPIO 1; EvSleep (Iqs323.IQS323_RESET_TIMEOUT_MS * 1000);
   EvGpioSet RDY_GPIO 0; EvSleep 2500].

(** [k] passes of that loop, begun with the driver data [q], that each
    end in a recovery: the identity pass, the reset by the pin, and a
    run of [iqs323_dev_init] in the write direction that returns 0 and
    hands its driver data to the next pass.  [evs] is all they do on the
    bus and [q''] the driver data they leave. *)
Inductive iqs323_rounds
  : nat -> Iqs323.iqs323_private -> list bus_event -> Iqs323.iqs323_private -> Prop :=
| rounds_none q : iqs323_rounds 0 q [] q
| rounds_more k q w q' evs_init evs q'' :
    runs_on (Iqs323.io q) w (iqs323_identity_pass q ++ iqs323_pin_reset) ->
    Iqs323.iqs323_dev_init Iqs323.WRITE (Iqs323.set_io w q) = Ok (0, q') ->
    runs_on w (Iqs323.io q') evs_init ->
    iqs323_rounds k q' evs q'' ->
    iqs323_rounds (S k) q
                  (iqs323_identity_pass q ++ iqs323_pin_reset ++ evs_init ++ evs)
                  q''.

(** The messages among what went over the bus. *)
Definition is_send (e : bus_event) : bool :=
  match e with EvSend _ => true | _ => false end.
Definition sends (evs : list bus_event) : list bus_event := List.filter is_send evs.

(** A bus that works, behind it a device whose system setup reads 0x40
    and whose every later read shows ATI both active and failed. *)
Definition stuck_in_ati : world :=
  mkWorld (fun _ => 1) 0 (fun _ => 1) 0 (fun _ => 2)
          (fun k _ => match k with O => 0x40 | S _ => 0x300 end) 0
          (fun _ => 1) 0 (fun _ => 0%nat) 0 0 [] (fun _ => true) 0.

(** A status word of the IQS7219A without the ATI-active and ATI-error
    flags. *)
Definition iqs7219_quiet (sys_status : Z) : Prop :=
  iqs7219_ati_active sys_status = false /\ iqs7219_ati_error sys_status = false.

(** *** Burst writes *)

(** The world after [k] passes of the write loop that all ended in
    [continue]; [None] when one of them did not. *)
Fixpoint write_after_fails (force_comms : M world Z) (k : nat) (msg : list Z)
         (w : world) : option world :=
  match k with
  | O => Some w
  | S k' =>
      match write_burst_body force_comms msg w with
      | Ok ((Continue, _), w') => write_after_fails force_comms k' msg w'
      | _ => None
      end
  end.

(** A pass of the write loop from [w] ends in [break]. *)
Definition write_pass_succeeds (force_comms : M world Z) (msg : list Z)
           (w : world) : Prop :=
  exists w', write_burst_body force_comms msg w = Ok ((Break, 0), w').

(** What the driver does on the wire during a transfer: messages and
    delays. *)
Definition is_wire (e : bus_event) : bool :=
  match e with EvSend _ | EvSleep _ => true | _ => false end.

(** [m] adds to the trace only events with [f]. *)
Definition emits {A} (f : bus_event -> bool) (m : M world A) : Prop :=
  forall w a w', m w = Ok (a, w') ->
    exists evs, trace w' = trace w ++ evs /\ Forall (fun e => f e = true) evs.

(** What the passes of a burst write of the message [msg] amount to
    from [w] on, [o] being how the write ends, with the handshake
    [force_comms] and a settle delay of [us] microseconds. *)
Definition write_passes_spec (o : outcome (Z * world)) (force_comms : M world Z)
           (us : Z) (msg : list Z) (w : world) : Prop :=
  exists ret w',
    o = Ok (ret, w') /\
    (ret = 0 \/ ret < 0) /\
    xfer_n w' = xfer_n w /\
    (ret = 0 <->
     exists k wk, (k < NUM_RETRIES)%nat /\
                  write_after_fails force_comms k msg w = Some wk /\
                  write_pass_succeeds force_comms msg wk) /\
    (ret < 0 <->
     exists w5, write_after_fails force_comms NUM_RETRIES msg w = Some w5) /\
    (exists evs, trace w' = trace w ++ evs ++ [EvSleep us] /\
                 Forall (fun e => is_wire e = true) evs /\
                 (ret = 0 -> exists evs0, evs = evs0 ++ [EvSend msg])).

(** What a burst write [write] of the message [msg] amounts to.  When
    there is no memory for the message it returns -ENOMEM at once:
    nothing is sent and there is no settle delay.  Otherwise the passes
    follow. *)
Definition burst_write_spec (write : M world Z) (force_comms : M world Z)
           (us : Z) (msg : list Z) (w : world) : Prop :=
  if mem w (mem_n w)
  then write_passes_spec (write w) force_comms us msg (allocated w)
  else write w = Ok (- ENOMEM, allocated w).

(** *** The RDY poll of the IQS7219A *)

Definition is_sleep (e : bus_event) : bool :=
  match e with EvSleep _ => true | _ => false end.

(** What a poll of RDY that took [S n] samples from [w] and ended in
    [w'] with [r] amounts to: a millisecond of sleep before each sample,
    every sample but the last 0, and the last sample deciding the
    result; [deadline] is the time after which a poll gives up. *)
Definition rdy_poll_spec (deadline : Z) (w : world) (r : Z) (n : nat)
           (w' : world) : Prop :=
  rdy_n w' = (rdy_n w + S n)%nat /\
  rdy w' = rdy w /\ send_n w' = send_n w /\ xfer_n w' = xfer_n w /\
  trace w' = trace w ++ repeat (EvSleep 1000) (S n) /\
  (forall j, (j < n)%nat -> rdy w (rdy_n w + j)%nat = 0) /\
  ((0 < n)%nat -> now w + 1000 * Z.of_nat n < deadline) /\
  let last := rdy w (rdy_n w + n)%nat in
  (last < 0 -> r = last) /\
  (0 < last -> r = 0) /\
  (last = 0 -> r = - EBUSY /\ deadline <= now w').

(** *** What a read returns *)

(** The transfers a world holds in store. *)
Definition xfers (w : world) : (nat -> Z) * (nat -> nat -> Z) :=
  (xfer_ret w, xfer_word w).

(** The [n] words that the [k]-th transfer of [w] reads. *)
Definition words_of (w : world) (k n : nat) : list Z :=
  map (fun j => u16 (xfer_word w k j)) (seq 0 n).

(** What a burst read into [val] hands back: a buffer of the same
    length; after a success the words of the last transfer made, which
    went through and did not begin with the sentinel 0xEEEE. *)
Definition burst_read_data (read : M world (Z * list Z)) (val : list Z)
           (w : world) : Prop :=
  exists ret val' w',
    read w = Ok ((ret, val'), w') /\
    length val' = length val /\
    (ret = 0 ->
     (xfer_n w < xfer_n w')%nat /\
     2 <= xfer_ret w (pred (xfer_n w')) /\
     val' = words_of w (pred (xfer_n w')) (length val) /\
     (val <> [] -> first_word val' <> COMMS_ERROR)).

(** What a word read hands back in [*val], which held [val]: after an
    error [val] still, after a success the first word of the last
    transfer made, which is not the sentinel. *)
Definition word_read_data (read : M world (Z * Z)) (val : Z) (w : world) : Prop :=
  exists error v w',
    read w = Ok ((error, v), w') /\
    (error = 0 \/ error < 0) /\
    (error < 0 -> v = val) /\
    (error = 0 ->
     (xfer_n w < xfer_n w')%nat /\
     2 <= xfer_ret w (pred (xfer_n w')) /\
     v = u16 (xfer_word w (pred (xfer_n w')) 0) /\
     v <> COMMS_ERROR).

(** *** The sampling rate of the IQS7219A *)

(** From [w] to [w'] the driver disabled the interrupt, did [evs] and
    enabled the interrupt again. *)
Definition irq_bracket (w w' : world) (evs : list bus_event) : Prop :=
  trace w' = trace w ++ [EvIrq false] ++ evs ++ [EvIrq true].

(** What an accepted rate leaves behind: the period [rate_ms] goes to
    the register 0x85 in one burst write, with the interrupt off, and
    reaches [sys_setup[5]] only when the write succeeds.  When there is
    no memory for the message the write returns -ENOMEM and nothing
    happens between [disable_irq] and [enable_irq]; otherwise the
    settle delay of the write comes last. *)
Definition rate_written (rate_ms : Z) (p : Iqs7219.iqs7219_private)
           (o : outcome (Z * Iqs7219.iqs7219_private)) : Prop :=
  exists error w' evs,
    o = Ok (error,
            Iqs7219.set_io w'
              (if error =? 0
               then Iqs7219.set_sys_setup
                      (<[5%nat := rate_ms]> (Iqs7219.sys_setup p)) p
               else p)) /\
    (error = 0 \/ error < 0) /\
    irq_bracket (Iqs7219.io p) w' evs /\
    Forall (fun e => is_wire e = true) evs /\
    if mem (Iqs7219.io p) (mem_n (Iqs7219.io p))
    then exists evs1,
           evs = evs1 ++ [EvSleep 50] /\
           (error = 0 ->
            exists evs0,
              evs1 = evs0 ++ [EvSend [0x85; rate_ms mod 256; rate_ms / 256]])
    else error = - ENOMEM /\ evs = [].

(** Driver data of the IQS7219A for examples, on a bus that works. *)
Definition iqs7219_on_good_bus : Iqs7219.iqs7219_private :=
  iqs7219_example (stub [] 1 [] 1 [] 2 [] [] 1) 0 [false; false].

(** *** Event and trigger enables of the IQS7219A *)

(** What a transfer does on the bus: messages, reads and delays, no
    GPIO written and no interrupt switched. *)
Definition is_bus (e : bus_event) : bool :=
  match e with EvSend _ | EvSleep _ | EvXfer _ _ => true | _ => false end.

(** How a callback that changes the enables ends, the new enables being
    those of [p_new]: the event mask that [iqs7219_dev_init] would
    compute for [p_new] went to [iqs7219_write_comms] with the interrupt
    disabled, and the driver data are [p_new] when that returned 0 and
    as before otherwise. *)
Definition enables_written (p p_new : Iqs7219.iqs7219_private)
           (o : outcome (Z * Iqs7219.iqs7219_private)) : Prop :=
  let event_mask :=
    Iqs7219.union_event_mask (seq 0 Iqs7219.IQS7219_NUM_CHAN) p_new
      Iqs7219.IQS7219_EVENT_MASK_ATI in
  exists error w1 evs,
    Iqs7219.iqs7219_write_comms event_mask
      (Iqs7219.set_io (log (EvIrq false) (Iqs7219.io p)) p)
    = Ok (error, Iqs7219.set_io w1 p) /\
    o = Ok (error, Iqs7219.set_io (log (EvIrq true) w1)
                     (if error =? 0 then p_new else p)) /\
    (error = 0 \/ error < 0) /\
    irq_bracket (Iqs7219.io p) (log (EvIrq true) w1) evs /\
    Forall (fun e => is_bus e = true) evs.

(** *** The buffer and the raw channel of the IQS7219A *)

(** The channels that [active_scan_mask] selects, in order. *)
Definition active_chans (active_scan_mask : Z) : list nat :=
  List.filter (fun i => Z.testbit active_scan_mask (Z.of_nat i))
              (seq 0 Iqs7219.IQS7219_NUM_CHAN).

(** The scan that goes to the buffer: the data of the active channels
    side by side from the first element on, zeros behind them. *)
Definition packed_scan (active_scan_mask : Z) (p : Iqs7219.iqs7219_private)
  : list Z :=
  let act := active_chans active_scan_mask in
  map (fun i => u32 (word_at (Iqs7219.scan_data p) i)) act
  ++ repeat 0 (Iqs7219.IQS7219_NUM_CHAN - length act).

(** An active channel has a valid trigger. *)
Definition any_trig_valid (active_scan_mask : Z) (p : Iqs7219.iqs7219_private)
  : bool :=
  existsb (fun i => default false (Iqs7219.trig_valid p !! i))
          (active_chans active_scan_mask).

(** The driver data with the interrupt just disabled, and just enabled. *)
Definition irq_off (p : Iqs7219.iqs7219_private) : Iqs7219.iqs7219_private :=
  Iqs7219.set_io (log (EvIrq false) (Iqs7219.io p)) p.
Definition irq_on (p : Iqs7219.iqs7219_private) : Iqs7219.iqs7219_private :=
  Iqs7219.set_io (log (EvIrq true) (Iqs7219.io p)) p.

(** *** Pin lists of the IQS7219A *)

(** Bit [k] of a word whose field of [limit] bits at [bit_base] holds
    one bit per pin of [pins], the rest of the word being [old]. *)
Definition pin_bit (pins : list Z) (limit : nat) (bit_base : Z) (old : Z)
           (k : Z) : bool :=
  if (bit_base <=? k) && (k <? bit_base + Z.of_nat limit)
  then existsb (Z.eqb (k - bit_base)) pins
  else Z.testbit old k.

(** The node [node] lists under [key] the pins [pins]. *)
Definition lists_pins (node : fwnode) (key : string) (pins : list Z) : Prop :=
  fw_present node key = true /\
  fw_count_u32 node key = Z.of_nat (length pins) /\
  fw_read_u32_array node key (length pins) = (0, pins) /\
  Forall (fun pin => 0 <= pin < 4294967296) pins.

(** *** The interface mode that the configuration selects *)

(** The node of channel [i] under the device's node. *)
Definition chan_node_of (dev : fwnode) (i : nat) : option fwnode :=
  fw_child dev
    (default EmptyString
       (Iqs7219.iqs7219_reg_grp_names (Iqs7219.IQS7219_REG_GRP_CHAN_0 + i))
     ++ "-" ++ decimal i)%string.

(** An event of the channel behind [chan_node] selects a GPIO. *)
Definition selects_gpio_from (events : list string) (chan_node : fwnode) : bool :=
  existsb (fun event_name =>
             match fw_child chan_node event_name with
             | Some event_node => fw_present event_node "azoteq,gpio-select"
             | None => false
             end) events.
Definition chan_selects_gpio (dev : fwnode) (i : nat) : bool :=
  match chan_node_of dev i with
  | Some chan_node => selects_gpio_from Iqs7219.iqs7219_pxs_events chan_node
  | None => false
  end.
Definition selects_gpio (dev : fwnode) : bool :=
  existsb (chan_selects_gpio dev) (seq 0 Iqs7219.IQS7219_NUM_CHAN).

(** What the configuration builder does not write: the bus and the
    state of the running driver. *)
Definition iqs7219_run_state (p : Iqs7219.iqs7219_private) :=
  (Iqs7219.reset_gpio p, Iqs7219.io p, Iqs7219.pxs_flags p,
   Iqs7219.comms_setup p, Iqs7219.scan_data p, Iqs7219.event_enable p,
   Iqs7219.trig_valid p, Iqs7219.trig_enable p, Iqs7219.timestamp p,
   Iqs7219.pushed p, Iqs7219.trig_polls p).

(** [f] together with the interface mode. *)
Definition with_mode {B} (f : Iqs7219.iqs7219_private -> B)
           (p : Iqs7219.iqs7219_private) : B * Z :=
  (f p, Iqs7219.intf_mode p).

(** [m] returns and leaves [f] alone; it leaves the interface mode alone
    or makes it stand-alone, the latter when it returns 0 and [g]
    holds. *)
Definition mode_after {B} (f : Iqs7219.iqs7219_private -> B) (g : bool)
           (m : M Iqs7219.iqs7219_private Z) : Prop :=
  forall p, exists e p',
    m p = Ok (e, p') /\ f p' = f p /\
    (Iqs7219.intf_mode p' = Iqs7219.intf_mode p \/
     Iqs7219.intf_mode p' = Iqs7219.IQS7219_SYS_SETUP_INTF_MODE_STAND) /\
    (e = 0 -> Iqs7219.intf_mode p' =
              if g then Iqs7219.IQS7219_SYS_SETUP_INTF_MODE_STAND
              else Iqs7219.intf_mode p).

(** *** The mode word of the IQS323 *)

(** From [w] to [w'] one burst write with a settle delay of [us]
    microseconds took place and ended with [error], 0 or a negative
    error.  Without memory for the message the error is -ENOMEM and
    nothing reached the bus; otherwise only messages and delays did,
    the settle delay last, and after a success the last message is
    [msg]. *)
Definition burst_written (us : Z) (msg : bus_event) (w : world) (error : Z)
           (w' : world) : Prop :=
  (error = 0 \/ error < 0) /\
  exists evs,
    trace w' = trace w ++ evs /\
    Forall (fun e => is_wire e = true) evs /\
    if mem w (mem_n w)
    then exists evs1,
           evs = evs1 ++ [EvSleep us] /\
           (error = 0 -> exists evs0, evs1 = evs0 ++ [msg])
    else error = - ENOMEM /\ evs = [].

(** Driver data of the IQS323 for examples, on a bus that works. *)
Definition iqs323_on_good_bus : Iqs323.iqs323_private :=
  iqs323_example (stub [] 1 [] 1 [] 2 [] [] 1).

(** *** The interrupt around a status read *)

(** [m], run on driver data whose bus is [io_of], adds to the trace only
    events with [f]. *)
Definition emits_in {S A} (io_of : S -> world) (f : bus_event -> bool)
           (m : M S A) : Prop :=
  forall s a s', m s = Ok (a, s') ->
    exists evs, trace (io_of s') = trace (io_of s) ++ evs /\
                Forall (fun e => f e = true) evs.

(** Anything but switching the interrupt. *)
Definition not_irq (e : bus_event) : bool :=
  match e with EvIrq _ => false | _ => true end.

(** *** The interrupt of the IQS323 *)

(** [m] returns, having added to the trace only events with [f]. *)
Definition runs_emitting {S A} (io_of : S -> world) (f : bus_event -> bool)
           (m : M S A) : Prop :=
  forall s, exists a s' evs,
    m s = Ok (a, s') /\ trace (io_of s') = trace (io_of s) ++ evs /\
    Forall (fun e => f e = true) evs.

(** The bus of a world is the world. *)
Definition the_world (w : world) : world := w.

(** *** When the IQS7219A fires its trigger *)

(** Event [j] of channel [i] changed: its mask bit is set in
    [event_mask[i]] and its status bit differs from the cached one. *)
Definition changes (p : Iqs7219.iqs7219_private) (flags : Z) (i j : nat) : bool :=
  Z.testbit (word_at (Iqs7219.event_mask p) i) (Z.of_nat j) &&
  xorb (Z.testbit flags (event_bit i j))
       (Z.testbit (Iqs7219.pxs_flags p) (event_bit i j)).

(** The trigger of channel [i] is valid after a status read with
    [flags]: the trigger is enabled, and the device streams or an event
    of the channel changed. *)
Definition trig_valid_of (p : Iqs7219.iqs7219_private) (flags : Z) (i : nat)
  : bool :=
  Iqs7219.trig_enable p &&
  (negb (truthy (Iqs7219.intf_mode p)) ||
   existsb (changes p flags i) (seq 0 (length Iqs7219.iqs7219_pxs_events))).

(** The value that the multiplexer of channel [i] selects. *)
Definition selected_scan (p : Iqs7219.iqs7219_private) (val_buf : list Z)
           (flags : Z) (i : nat) : Z :=
  nth (Z.to_nat (word_at (Iqs7219.scan_mux p) i)) (Iqs7219.scan_of val_buf flags i) 0.

(** *** What the IQS323 reports *)

(** The interface mode that a report asks for: streaming while the
    slider is touched and the input device takes positions. *)
Definition iqs323_streaming (p : Iqs323.iqs323_private) (val_buf : list Z) : bool :=
  (nth 2 val_buf 0 <? Iqs323.U16_MAX) && Iqs323.kp_has_abs p.
Definition iqs323_target_mode (p : Iqs323.iqs323_private) (val_buf : list Z)
  : Iqs323.iqs323_intf_mode_id :=
  if iqs323_streaming p val_buf then Iqs323.IQS323_INTF_MODE_STREAM
  else Iqs323.IQS323_INTF_MODE_EVENT.

(** What [iqs323_process_events] reports for the status block
    [val_buf]: the keys of the channels, the position while streaming,
    the keys of the slider and, when a momentary gesture is left in the
    slider status, a synchronisation and the release of the momentary
    gestures; a synchronisation closes the report. *)
Definition iqs323_report_of (p : Iqs323.iqs323_private) (val_buf : list Z)
  : list Iqs323.input_ev :=
  let sys_status := nth 0 val_buf 0 in
  let sldr_pos := nth 2 val_buf 0 in
  let sldr_status :=
    u16_clear (Z.land (nth 1 val_buf 0) Iqs323.U8_MAX)
              Iqs323.IQS323_SLDR_STATUS_EVENT in
  let sl := Iqs323.sl_events_of Iqs323.iqs323_sl_events 0 sldr_status sldr_pos p in
  flat_map (fun i => Iqs323.kp_events_of Iqs323.iqs323_kp_events i 0 sys_status p)
           (seq 0 Iqs323.IQS323_NUM_CHAN)
  ++ (if iqs323_streaming p val_buf
      then [Iqs323.InputAbs (Iqs323.sl_axis p) sldr_pos] else [])
  ++ fst sl
  ++ (if truthy (Z.land (snd sl) (Z.lnot Iqs323.IQS323_SLDR_STATUS_BUSY))
      then Iqs323.InputSync :: Iqs323.sl_release_of Iqs323.iqs323_sl_events 0 p
      else [])
  ++ [Iqs323.InputSync].

(** *** Keys of the IQS323 *)

(** The report of the keypad event at index [k] of [kp_type] and
    [kp_code]: nothing when no type is configured. *)
Definition kp_key (p : Iqs323.iqs323_private) (k : nat) (v : bool)
  : list Iqs323.input_ev :=
  if truthy (word_at (Iqs323.kp_type p) k)
  then [Iqs323.InputEvent (word_at (Iqs323.kp_type p) k)
                          (word_at (Iqs323.kp_code p) k) (if v then 1 else 0)]
  else [].

(** The report of slider key [i]. *)
Definition sl_key (p : Iqs323.iqs323_private) (i : nat) (v : bool)
  : Iqs323.input_ev :=
  Iqs323.InputKey (word_at (Iqs323.sl_code p) i) v.

(** The keys that channel [i] of the IQS323 reports for the system
    status: proximity from bit [8 + 2 i], touch from bit [9 + 2 i], and
    the movement key always released. *)
Definition iqs323_chan_keys (p : Iqs323.iqs323_private) (sys_status : Z) (i : nat)
  : list Iqs323.input_ev :=
  kp_key p (i * 3) (Z.testbit sys_status (8 + 2 * Z.of_nat i))
  ++ kp_key p (i * 3 + 1) (Z.testbit sys_status (9 + 2 * Z.of_nat i))
  ++ kp_key p (i * 3 + 2) false.

(** *** Hard resets *)

(** The pulse on the reset line: raised, held for a millisecond,
    released. *)
Definition reset_pulse : list bus_event :=
  [EvGpioSet RESET_GPIO 1; EvSleep 1000; EvGpioSet RESET_GPIO 0].

(** What a poll through [readx_poll_timeout] returns for the last
    sample [v]. *)
Definition poll_result (v : Z) : Z :=
  if v <? 0 then v else if v =? 0 then - ETIMEDOUT else 0.

(** *** Communication modes of the IQS9150 *)

(** How often a world was asked for RDY: samples and polls. *)
Definition handshakes (w : world) : nat * nat := (rdy_n w, poll_n w).

(** *** Bursts longer than a page *)

(** The number of chunks of at most [m] that [n] splits into. *)
Definition div_up (n m : nat) : nat := ((n + m - 1) / m)%nat.

(** Chunk [k] of [val] cut into chunks of [m] bytes. *)
Definition chunk_of (m : nat) (val : list Z) (k : nat) : list Z :=
  firstn m (skipn (k * m) val).

(** The writes [write k] for the [k] of [ks] in turn, up to the first
    that fails. *)
Fixpoint write_each (write : nat -> M world Z) (ks : list nat) : M world Z :=
  match ks with
  | [] => pure 0
  | k :: rest =>
      error <- write k ;;
      if truthy error then pure error else write_each write rest
  end.

(** *** Reading the configuration of the IQS7219A *)

(** The images have the sizes that the driver data declares. *)
Definition iqs7219_images_sized (p : Iqs7219.iqs7219_private) : Prop :=
  length (Iqs7219.ati_setup p) = 10%nat /\
  length (Iqs7219.sys_setup p) = 10%nat /\
  length (Iqs7219.pxs_setup p) = 2%nat /\
  map length (Iqs7219.event_setup p) = [15; 15]%nat /\
  map length (Iqs7219.chan_setup p) = [13; 13]%nat.

(** A read word that is not the sentinel 0xEEEE. *)
Definition is_data (s : Z) : Prop := s <> COMMS_ERROR.

(** The reads of the communication setup that one [iqs7219_write_comms]
    makes. *)
Definition comms_reads (p : Iqs7219.iqs7219_private) : nat :=
  if truthy (Iqs7219.comms_setup p) then 1%nat else 0%nat.

(** *** What the builder leaves in an image *)

(** Bit [k] of word [idx] of an image. *)
Definition bit_at (setup : list Z) (idx : nat) (k : Z) : bool :=
  Z.testbit (word_at setup idx) k.

(** Bit [k] of word [i] lies in the field at [idx], [shift], [width]. *)
Definition in_span (idx : nat) (shift width : Z) (i : nat) (k : Z) : Prop :=
  i = idx /\ shift <= k < shift + width.

(** Two fields share no bit. *)
Definition spans_apart (i1 : nat) (s1 w1 : Z) (i2 : nat) (s2 w2 : Z) : bool :=
  negb ((i1 =? i2)%nat && (s1 <? s2 + w2) && (s2 <? s1 + w1)).

(** [r] holds between every element of a list and every later one. *)
Fixpoint pairwise {A} (r : A -> A -> bool) (l : list A) : bool :=
  match l with
  | [] => true
  | a :: rest => forallb (r a) rest && pairwise r rest
  end.

(** The descriptors that one call of the builder processes address no
    bit twice. *)
Definition iqs7219_props_apart : bool :=
  pairwise (fun a b =>
              negb (bool_decide (Iqs7219.reg_key a = Iqs7219.reg_key b)) ||
              spans_apart (Iqs7219.reg_offset a) (Iqs7219.reg_shift a)
                          (Iqs7219.reg_width a)
                          (Iqs7219.reg_offset b) (Iqs7219.reg_shift b)
                          (Iqs7219.reg_width b))
           Iqs7219.iqs7219_props.

Definition iqs323_props_apart : bool :=
  pairwise (fun a b =>
              negb (bool_decide (Iqs323.reg_grp a = Iqs323.reg_grp b /\
                                 Iqs323.reg_key a = Iqs323.reg_key b)) ||
              spans_apart (Iqs323.reg_offset a) (Iqs323.reg_shift a)
                          (Iqs323.reg_width a)
                          (Iqs323.reg_offset b) (Iqs323.reg_shift b)
                          (Iqs323.reg_width b))
           Iqs323.iqs323_props.

(** An image of [len] words holds every word that the descriptors of
    the key address from [off] on. *)
Definition iqs7219_image_fits (key : Iqs7219.iqs7219_reg_key_id)
           (off len : nat) : bool :=
  forallb (fun d => negb (bool_decide (Iqs7219.reg_key d = key)) ||
                    (off + Iqs7219.reg_offset d <? len)%nat)
          Iqs7219.iqs7219_props.

Definition iqs323_image_fits (grp : Iqs323.iqs323_reg_grp_id)
           (key : Iqs323.iqs323_reg_key_id) (off len : nat) : bool :=
  forallb (fun d => negb (bool_decide (Iqs323.reg_grp d = grp /\
                                       Iqs323.reg_key d = key)) ||
                    (off + Iqs323.reg_offset d <? len)%nat)
          Iqs323.iqs323_props.

(** The node whose keys [iqs7219_parse_props] reads for the group
    [reg_grp]: the device's own for the system and the capacitance
    group; for the others the caller's if there is one, else the child
    of the device named after the group and the index, which may not
    exist. *)
Definition iqs7219_props_node (dev : fwnode) (child_node : option fwnode)
           (child_index reg_grp : nat) : option fwnode :=
  if bool_decide (reg_grp = Iqs7219.IQS7219_REG_GRP_SYS \/
                  reg_grp = Iqs7219.IQS7219_REG_GRP_CAP)
  then Some dev
  else match child_node with
       | Some reg_grp_node => Some reg_grp_node
       | None =>
           fw_child dev
             (default EmptyString (Iqs7219.iqs7219_reg_grp_names reg_grp) ++ "-" ++
              decimal child_index)%string
       end.

(** The node with every integer cut to 32 bits, the width of what
    [fwnode_property_read_u32] stores. *)
Definition fw_cut_u32 (node : fwnode) : fwnode :=
  mk_fwnode (fw_present node)
            (fun k => (fst (fw_read_u32 node k), u32 (snd (fw_read_u32 node k))))
            (fw_count_u32 node) (fw_read_u32_array node) (fw_child node).

(** The value that a scalar descriptor reads for its key, and whether
    the bounds check of the builder rejects it. *)
Definition iqs7219_value (node : fwnode) (d : Iqs7219.iqs7219_prop_desc) : Z :=
  u32 (snd (fw_read_u32 node (Iqs7219.name d))).
Definition iqs7219_out_of_range (node : fwnode) (d : Iqs7219.iqs7219_prop_desc)
  : bool :=
  (iqs7219_value node d <? Iqs7219.val_min d) ||
  (eff_max (Iqs7219.reg_width d) (Iqs7219.val_pitch d) (Iqs7219.val_max d)
   <? iqs7219_value node d).
Definition iqs323_value (node : fwnode) (d : Iqs323.iqs323_prop_desc) : Z :=
  u32 (snd (fw_read_u32 node (Iqs323.name d))).
Definition iqs323_out_of_range (node : fwnode) (d : Iqs323.iqs323_prop_desc)
  : bool :=
  (iqs323_value node d <? Iqs323.val_min d) ||
  (eff_max (Iqs323.reg_width d) (Iqs323.val_pitch d) (Iqs323.val_max d)
   <? iqs323_value node d).

(** What is or-ed into the cleared span of a scalar field. *)
Definition iqs7219_encoded (node : fwnode) (d : Iqs7219.iqs7219_prop_desc) : Z :=
  Z.shiftl (iqs7219_value node d / eff_pitch (Iqs7219.val_pitch d))
           (Iqs7219.reg_shift d).
Definition iqs323_encoded (node : fwnode) (d : Iqs323.iqs323_prop_desc) : Z :=
  match Iqs323.val_subs d with
  | Some subs => nth (Z.to_nat (iqs323_value node d)) subs 0
  | None => Z.shiftl (iqs323_value node d / eff_pitch (Iqs323.val_pitch d))
                     (Iqs323.reg_shift d)
  end.

(** What a loop over the descriptors [l] leaves of the image [s], as the
    result [r] and the image [s']: the length; every bit outside the
    fields of the selected descriptors; on the span of a selected
    descriptor what its own pass makes of [s], unless the loop failed
    and the span is as it was; and a result that is not 0 exactly when
    the pass of some selected descriptor fails on [s], whose error it
    then is. *)
Definition loop_leaves {D} (sel : D -> bool)
           (step : D -> list Z -> option Z * list Z)
           (idx : D -> nat) (lo wd : D -> Z)
           (l : list D) (s : list Z) (r : Z) (s' : list Z) : Prop :=
  length s' = length s /\
  (forall i k, 0 <= k < 16 ->
     (forall d, In d l -> sel d = true -> ~ in_span (idx d) (lo d) (wd d) i k) ->
     bit_at s' i k = bit_at s i k) /\
  (forall d, In d l -> sel d = true ->
     (forall k, lo d <= k < lo d + wd d ->
        bit_at s' (idx d) k = bit_at (snd (step d s)) (idx d) k) \/
     (r <> 0 /\
      forall k, lo d <= k < lo d + wd d ->
        bit_at s' (idx d) k = bit_at s (idx d) k)) /\
  (r = 0 ->
   forall d, In d l -> sel d = true ->
     fst (step d s) = None /\
     forall k, lo d <= k < lo d + wd d ->
       bit_at s' (idx d) k = bit_at (snd (step d s)) (idx d) k) /\
  (forall d e, In d l -> sel d = true -> fst (step d s) = Some e -> r <> 0) /\
  (r <> 0 ->
   exists d, In d l /\ sel d = true /\ fst (step d s) = Some r).

(** * Properties *)

(** ** Bits *)

Lemma u16_range x : 0 <= u16 x < 65536.
Proof. unfold u16. apply Z.mod_pos_bound. lia. Qed.

Lemma u16_small x : 0 <= x < 65536 -> u16 x = x.
Proof. intros. unfold u16. apply Z.mod_small. lia. Qed.

Lemma testbit_u16 x k : 0 <= k -> Z.testbit (u16 x) k = (k <? 16) && Z.testbit x k.
Proof.
  intros Hk. unfold u16. change 65536 with (2 ^ 16).
  destruct (Z.ltb_spec k 16).
  - rewrite Z.mod_pow2_bits_low by lia. reflexivity.
  - rewrite Z.mod_pow2_bits_high by lia. reflexivity.
Qed.

Lemma testbit_BIT n k : 0 <= n -> Z.testbit (BIT n) k = (k =? n).
Proof.
  intros Hn. unfold BIT. rewrite Z.shiftl_1_l.
  rewrite Z.pow2_bits_eqb by lia. apply Z.eqb_sym.
Qed.

Lemma testbit_GENMASK h l k :
  0 <= l -> l <= h + 1 -> 0 <= k ->
  Z.testbit (GENMASK h l) k = (l <=? k) && (k <=? h).
Proof.
  intros Hl Hh Hk. unfold GENMASK.
  destruct (Z.leb_spec l k).
  - rewrite Z.shiftl_spec by lia.
    destruct (Z.leb_spec k h).
    + rewrite Z.ones_spec_low by lia. reflexivity.
    + rewrite Z.ones_spec_high by lia. reflexivity.
  - rewrite Z.shiftl_spec_low by lia. reflexivity.
Qed.

Lemma testbit_u16_or x m k :
  0 <= k -> Z.testbit (u16_or x m) k = (k <? 16) && (Z.testbit x k || Z.testbit m k).
Proof. intros. unfold u16_or. rewrite testbit_u16, Z.lor_spec by lia. reflexivity. Qed.

Lemma testbit_u16_clear x m k :
  0 <= k ->
  Z.testbit (u16_clear x m) k = (k <? 16) && (Z.testbit x k && negb (Z.testbit m k)).
Proof.
  intros. unfold u16_clear.
  rewrite testbit_u16, Z.land_spec, Z.lnot_spec by lia. reflexivity.
Qed.

(** ** The monad *)

Lemma bind_ok {S A B} (m : M S A) (k : A -> M S B) s a s' :
  m s = Ok (a, s') -> bind m k s = k a s'.
Proof. intros H. unfold bind. rewrite H. reflexivity. Qed.

Lemma bind_inv {S A B} (m : M S A) (k : A -> M S B) s b s'' :
  bind m k s = Ok (b, s'') ->
  exists a s', m s = Ok (a, s') /\ k a s' = Ok (b, s'').
Proof.
  unfold bind. destruct (m s) as [[a s']| |]; try discriminate.
  intros H. exists a, s'. split; [reflexivity | exact H].
Qed.

Lemma truthy_0 : truthy 0 = false.
Proof. reflexivity. Qed.

Lemma truthy_false x : truthy x = false <-> x = 0.
Proof.
  unfold truthy. destruct (Z.eqb_spec x 0); cbn; split; intros; congruence.
Qed.

Lemma truthy_true x : truthy x = true <-> x <> 0.
Proof.
  unfold truthy. destruct (Z.eqb_spec x 0); cbn; split; intros; congruence.
Qed.

Lemma in_or_out (chans : list nat) (x : Z) :
  (exists j, In j chans /\ Z.of_nat j = x) \/
  (forall j, In j chans -> Z.of_nat j <> x).
Proof.
  induction chans as [|c chans IH].
  - right. intros j [].
  - destruct (Z.eq_dec (Z.of_nat c) x) as [E|E].
    + left. exists c. split; [now left|exact E].
    + destruct IH as [(j & Hj & Hje)|IH].
      * left. exists j. split; [now right|exact Hje].
      * right. intros j [<-|Hj]; [exact E|now apply IH].
Qed.

(** ** IQS7219A: what the channel loop of the status decoder leaves behind *)

Section Iqs7219Decode.
Import Iqs7219.

Lemma decode_frame_refl p : decode_frame p p.
Proof. repeat split. Qed.

Lemma decode_frame_trans p q r :
  decode_frame p q -> decode_frame q r -> decode_frame p r.
Proof. unfold decode_frame. intuition congruence. Qed.

Lemma report_events_frame js i flags p q tv :
  decode_frame p q ->
  report_events js i flags q tv = report_events js i flags p tv.
Proof.
  intros (H1 & H2 & H3 & H4 & _).
  revert tv. induction js as [|j js IH]; intros tv; cbn -[Z.shiftl Z.land BIT]; [reflexivity|].
  rewrite H1, H2, H3, H4.
  repeat (rewrite IH). reflexivity.
Qed.

Lemma scan_at_any {S T} scan idx (s : S) x s' (t : T) :
  scan_at scan idx s = Ok (x, s') -> scan_at scan idx t = Ok (x, t).
Proof.
  unfold scan_at, pure, fault. destruct (_ && _); [|discriminate].
  intros H. inversion H. reflexivity.
Qed.

Lemma report_chans_ok chans : forall val_buf flags scan_id chan_index val tp p val' tp' p',
  report_chans chans val_buf flags scan_id chan_index val tp p = Ok ((val', tp'), p') ->
  decode_frame p p' /\
  pushed p' = pushed p ++ flat_map (chan_events p flags) chans /\
  (forall i, In i chans -> Z.of_nat i = chan_index ->
             exists x, val' = Some x /\
                       scan_at (S := unit) (scan_of val_buf flags i) scan_id tt = Ok (x, tt)) /\
  ((forall i, In i chans -> Z.of_nat i <> chan_index) -> val' = val).
Proof.
  induction chans as [|i chans IH]; intros val_buf flags scan_id chan_index val tp p val' tp' p' H.
  - cbn in H. unfold pure in H. inversion H; subst.
    split; [apply decode_frame_refl|]. split; [cbn; now rewrite app_nil_r|].
    split; [intros i []|reflexivity].
  - cbn [report_chans] in H.
    unfold bind at 1 in H. unfold get at 1 in H.
    unfold bind at 1 in H.
    destruct (scan_at (scan_of val_buf flags i) (word_at (scan_mux p) i) p)
      as [[x p0]| |] eqn:Hx; try discriminate.
    assert (p0 = p) as ->.
    { unfold scan_at in Hx. destruct (_ && _); [|discriminate]. now inversion Hx. }
    unfold bind at 1 in H. unfold modify at 1 in H.
    set (p1 := set_scan_data _ p) in H.
    unfold bind at 1 in H.
    match type of H with
    | match ?m p1 with _ => _ end = _ => destruct (m p1) as [[v p2]| |] eqn:Hv; try discriminate
    end.
    assert (p2 = p1) as ->.
    { destruct (Z.of_nat i =? chan_index); [|now inversion Hv].
      destruct val; [|discriminate].
      unfold bind in Hv. unfold scan_at in Hv.
      destruct (_ && _); [|discriminate]. now inversion Hv. }
    unfold bind at 1 in H. unfold get at 1 in H.
    unfold bind at 1 in H. unfold modify at 1 in H.
    match type of H with
    | report_chans _ _ _ _ _ _ _ ?q = _ => remember q as p3 eqn:Ep3
    end.
    apply IH in H. destruct H as (Hf & Hp & Hv1 & Hv2).
    assert (F13 : decode_frame p p3) by (subst p3; repeat split).
    assert (F1 : decode_frame p p1) by (repeat split).
    split; [exact (decode_frame_trans _ _ _ F13 Hf)|].
    split.
    { rewrite Hp. cbn [flat_map].
      replace (pushed p3) with (pushed p ++ chan_events p flags i)
        by (subst p3; reflexivity).
      rewrite <- app_assoc. do 2 f_equal.
      apply flat_map_ext. intros a. unfold chan_events.
      rewrite (report_events_frame _ _ _ p p3) by exact F13.
      destruct F13 as (_ & _ & _ & -> & -> & _). reflexivity. }
    split.
    { intros i' [->|Hin] Hi'.
      - rewrite Hi', Z.eqb_refl in Hv.
        destruct val as [v0|]; [|discriminate].
        unfold bind in Hv.
        destruct (scan_at (scan_of val_buf flags i') scan_id p1) as [[y q]| |] eqn:Hy;
          try discriminate.
        inversion Hv; subst v.
        destruct (in_or_out chans chan_index) as [Hin'|Hnot].
        + destruct Hin' as (j & Hj & Hje). destruct (Hv1 j Hj Hje) as (x' & -> & Hx').
          exists x'. split; [reflexivity|].
          assert (j = i') by lia. subst j. exact Hx'.
        + rewrite (Hv2 Hnot). exists y. split; [reflexivity|].
          eapply scan_at_any, Hy.
      - apply Hv1; assumption. }
    { intros Hnot. rewrite Hv2 by (intros j Hj; apply Hnot; now right).
      destruct (Z.eqb_spec (Z.of_nat i) chan_index) as [E|E].
      - exfalso. apply (Hnot i); [now left|exact E].
      - now inversion Hv. }
Qed.

End Iqs7219Decode.

Section Iqs7219Report.
Import Iqs7219.

Lemma land_BIT x n : 0 <= n -> Z.land x (BIT n) = if Z.testbit x n then BIT n else 0.
Proof.
  intros Hn. apply Z.bits_inj'. intros k Hk.
  rewrite Z.land_spec, testbit_BIT by lia.
  destruct (Z.testbit x n) eqn:E.
  - rewrite testbit_BIT by lia.
    destruct (Z.eqb_spec k n) as [->|]; [rewrite E; reflexivity|apply andb_false_r].
  - rewrite Z.bits_0.
    destruct (Z.eqb_spec k n) as [->|]; [rewrite E; reflexivity|apply andb_false_r].
Qed.

Lemma BIT_nonzero n : 0 <= n -> BIT n <> 0.
Proof.
  intros Hn. unfold BIT. rewrite Z.shiftl_1_l.
  apply Z.pow_nonzero; lia.
Qed.

Lemma event_mask_bit em i j :
  (i < 2)%nat -> (j < 3)%nat ->
  u16 (Z.shiftl (Z.land em (BIT (Z.of_nat j))) (Z.of_nat i * 4)) =
  if Z.testbit em (Z.of_nat j) then BIT (event_bit i j) else 0.
Proof.
  intros Hi Hj. rewrite land_BIT by lia.
  destruct (Z.testbit em (Z.of_nat j)).
  - unfold BIT, event_bit. rewrite Z.shiftl_shiftl by lia.
    replace (Z.of_nat j + Z.of_nat i * 4) with (Z.of_nat i * 4 + Z.of_nat j) by lia.
    apply u16_small.
    destruct i as [|[|]]; try lia; destruct j as [|[|[|]]]; try lia;
      vm_compute; (split; [discriminate|reflexivity]).
  - rewrite Z.shiftl_0_l. reflexivity.
Qed.

Lemma lxor_BIT_cases (a b : bool) n :
  0 <= n ->
  truthy (Z.lxor (if a then BIT n else 0) (if b then BIT n else 0)) = xorb a b.
Proof.
  intros Hn. destruct a, b; cbn [xorb].
  - rewrite Z.lxor_nilpotent. reflexivity.
  - rewrite Z.lxor_0_r. apply truthy_true, BIT_nonzero, Hn.
  - rewrite Z.lxor_0_l. apply truthy_true, BIT_nonzero, Hn.
  - reflexivity.
Qed.

Lemma report_events_spec js i flags p tv :
  (i < 2)%nat -> Forall (fun j => (j < 3)%nat) js ->
  fst (report_events js i flags p tv) =
  flat_map (fun j => if fires p flags i j then [mk_event i (direction flags i j)] else []) js.
Proof.
  intros Hi Hjs. revert tv.
  induction Hjs as [|j js Hj _ IH]; intros tv; [reflexivity|].
  cbn [report_events flat_map].
  rewrite event_mask_bit by assumption.
  set (rest := flat_map _ js) in *.
  unfold fires, direction.
  assert (Hb : 0 <= event_bit i j) by (unfold event_bit; lia).
  destruct (Z.testbit (word_at (event_mask p) i) (Z.of_nat j)) eqn:Em; cbn [andb].
  - rewrite !land_BIT by exact Hb.
    rewrite lxor_BIT_cases by exact Hb.
    destruct (xorb _ _) eqn:Ex; cbn [negb andb].
    + destruct (default false (event_enable p !! i)); cbn [negb fst app].
      * rewrite IH. f_equal. f_equal.
        destruct (Z.testbit flags (event_bit i j)).
        -- assert (truthy (BIT (event_bit i j)) = true) as ->
             by (apply truthy_true, BIT_nonzero, Hb). reflexivity.
        -- reflexivity.
      * apply IH.
    + apply IH.
  - rewrite !Z.land_0_r. cbn. apply IH.
Qed.

Lemma chan_events_spec p flags i :
  (i < 2)%nat ->
  chan_events p flags i =
  flat_map (fun j => if fires p flags i j then [mk_event i (direction flags i j)] else [])
           [0; 1; 2]%nat.
Proof.
  intros Hi. unfold chan_events.
  apply report_events_spec; [exact Hi|].
  repeat constructor.
Qed.

Lemma fires_same p i j : fires p (pxs_flags p) i j = false.
Proof. unfold fires. rewrite xorb_nilpotent, andb_false_r. reflexivity. Qed.

Lemma report_chans_total chans : forall val_buf flags scan_id chan_index val tp p,
  (forall i, In i chans -> 0 <= word_at (scan_mux p) i < IQS7219_NUM_SCAN) ->
  ((exists i, In i chans /\ Z.of_nat i = chan_index) ->
   non_null val = true /\ 0 <= scan_id < IQS7219_NUM_SCAN) ->
  exists val' tp' p',
    report_chans chans val_buf flags scan_id chan_index val tp p = Ok ((val', tp'), p').
Proof.
  induction chans as [|i chans IH]; intros val_buf flags scan_id chan_index val tp p Hmux Hval.
  - cbn. unfold pure. eauto.
  - cbn [report_chans].
    assert (Hs : forall (q : iqs7219_private) idx, 0 <= idx < IQS7219_NUM_SCAN ->
              scan_at (scan_of val_buf flags i) idx q
              = Ok (nth (Z.to_nat idx) (scan_of val_buf flags i) 0, q)).
    { intros q idx Hidx. unfold scan_at, scan_of. cbn [length].
      unfold IQS7219_NUM_SCAN in Hidx.
      destruct (Z.leb_spec 0 idx); [|lia].
      destruct (Z.ltb_spec idx (Z.of_nat 6)); [|lia]. reflexivity. }
    unfold bind at 1. unfold get at 1.
    unfold bind at 1. rewrite Hs by (apply Hmux; now left).
    unfold bind at 1. unfold modify at 1.
    unfold bind at 1.
    destruct (Z.eqb_spec (Z.of_nat i) chan_index) as [E|E].
    + destruct Hval as [Hnn Hsid]; [exists i; split; [now left|exact E]|].
      destruct val as [v0|]; [|discriminate].
      unfold bind at 1. rewrite Hs by exact Hsid. unfold pure at 1.
      unfold bind at 1. unfold get at 1. unfold bind at 1. unfold modify at 1.
      apply IH.
      * intros j Hj. apply Hmux. now right.
      * intros _. split; [reflexivity|exact Hsid].
    + unfold pure at 1.
      unfold bind at 1. unfold get at 1. unfold bind at 1. unfold modify at 1.
      apply IH.
      * intros j Hj. apply Hmux. now right.
      * intros (j & Hj & Hje). apply Hval. exists j. split; [now right|exact Hje].
Qed.

(** On the decode path [iqs7219_report_sync] is the channel loop followed
    by the update of the cached flags. *)
Lemma report_sync_decode scan_id chan_index val p val_buf p1 val' tp' p2 :
  status_read p val_buf p1 -> no_flags (nth 0 val_buf 0) ->
  report_chans (seq 0 IQS7219_NUM_CHAN) val_buf (nth 1 val_buf 0)
               scan_id chan_index val false p1 = Ok ((val', tp'), p2) ->
  exists p',
    iqs7219_report_sync scan_id chan_index val p = Ok ((0, val'), p') /\
    pxs_flags p' = nth 1 val_buf 0 /\
    pushed p' = pushed p2 /\ event_mask p' = event_mask p2 /\
    event_enable p' = event_enable p2 /\ scan_mux p' = scan_mux p2.
Proof.
  intros Hread (Hr & He & Ha) Hch.
  unfold iqs7219_report_sync.
  unfold bind at 1. unfold get at 1.
  unfold status_read in Hread. rewrite (bind_ok _ _ _ _ _ Hread).
  cbn [fst snd]. rewrite truthy_0.
  rewrite Hr, He, Ha, truthy_0.
  rewrite (bind_ok _ _ _ _ _ Hch). cbn [fst snd].
  unfold bind at 1. unfold modify at 1.
  unfold bind at 1.
  destruct tp'; cbn [negb andb]; unfold modify, pure, bind;
    (eexists; split; [reflexivity|]); repeat split.
Qed.

End Iqs7219Report.

Section Iqs7219Claims.
Import Iqs7219.

Lemma with_io_frame {A} (m : M world A) p r p1 :
  with_io m p = Ok (r, p1) -> p1 = set_io (io p1) p.
Proof.
  unfold with_io. destruct (m (io p)) as [[a w]| |]; try discriminate.
  intros H. inversion H. reflexivity.
Qed.

(** The decode path of [iqs7219_report_sync], start to end. *)
Lemma report_sync_decode_ok scan_id chan_index val p val_buf p1 :
  status_read p val_buf p1 -> no_flags (nth 0 val_buf 0) ->
  report_args_ok p scan_id chan_index val ->
  exists val' p',
    iqs7219_report_sync scan_id chan_index val p = Ok ((0, val'), p') /\
    pxs_flags p' = nth 1 val_buf 0 /\
    pushed p' = pushed p ++ flat_map (chan_events p (nth 1 val_buf 0)) [0; 1]%nat /\
    event_mask p' = event_mask p /\ event_enable p' = event_enable p /\
    scan_mux p' = scan_mux p /\
    (forall i, (i < 2)%nat -> Z.of_nat i = chan_index ->
       val' = Some (nth (Z.to_nat scan_id) (scan_of val_buf (nth 1 val_buf 0) i) 0)).
Proof.
  intros Hread Hnf [Hmux Hval].
  pose proof (with_io_frame _ _ _ _ Hread) as Hp1.
  destruct (report_chans_total (seq 0 IQS7219_NUM_CHAN) val_buf (nth 1 val_buf 0)
              scan_id chan_index val false p1) as (val' & tp' & p2 & Hch).
  { intros i Hi. rewrite Hp1. cbn [scan_mux set_io]. apply Hmux.
    apply in_seq in Hi. lia. }
  { intros (i & Hi & Hie). apply Hval. apply in_seq in Hi. cbn in Hi. lia. }
  destruct (report_sync_decode _ _ _ _ _ _ _ _ _ Hread Hnf Hch)
    as (p' & Hrun & Hc & Hpu & Hem & Hee & Hsm).
  destruct (report_chans_ok _ _ _ _ _ _ _ _ _ _ _ Hch) as (Hf & Hpush & Hv1 & _).
  destruct Hf as (F1 & F2 & F3 & F4 & F5 & F6 & F7).
  exists val', p'. split; [exact Hrun|]. split; [exact Hc|].
  split.
  { rewrite Hpu, Hpush, Hp1. reflexivity. }
  split; [rewrite Hem, F2, Hp1; reflexivity|].
  split; [rewrite Hee, F3, Hp1; reflexivity|].
  split; [rewrite Hsm, F6, Hp1; reflexivity|].
  intros i Hi Hie.
  destruct (Hv1 i) as (x & -> & Hx);
    [apply in_seq; unfold IQS7219_NUM_CHAN; lia|exact Hie|].
  f_equal. unfold scan_at in Hx.
  destruct (_ && _); [|discriminate]. unfold pure in Hx. inversion Hx. reflexivity.
Qed.

(** C8. On every status read that reaches the channel loop, the delta of
    each channel is the long-term average minus the filtered counts,
    clamped at zero: it is what a caller asking for the delta receives,
    and it is never negative. *)
Theorem iqs7219_delta_is_clamped p val_buf p1 (chan : nat) v0 :
  status_read p val_buf p1 -> no_flags (nth 0 val_buf 0) ->
  (chan < IQS7219_NUM_CHAN)%nat ->
  report_args_ok p IQS7219_SCAN_DELTA (Z.of_nat chan) (Some v0) ->
  let lta := nth (3 + chan * 2) val_buf 0 in
  let filt := nth (2 + chan * 2) val_buf 0 in
  let delta := nth (Z.to_nat IQS7219_SCAN_DELTA)
                   (scan_of val_buf (nth 1 val_buf 0) chan) 0 in
  delta = Z.max (lta - filt) 0 /\ 0 <= delta /\
  (lta = 100 -> filt = 150 -> delta = 0) /\
  (lta = 150 -> filt = 100 -> delta = 50) /\
  exists p', iqs7219_report_sync IQS7219_SCAN_DELTA (Z.of_nat chan) (Some v0) p
             = Ok ((0, Some delta), p').
Proof.
  intros Hread Hnf Hchan Hargs. cbv zeta.
  change (nth (Z.to_nat IQS7219_SCAN_DELTA) (scan_of val_buf (nth 1 val_buf 0) chan) 0)
    with (Z.max (nth (3 + chan * 2) val_buf 0 - nth (2 + chan * 2) val_buf 0) 0).
  split; [reflexivity|]. split; [lia|].
  split; [intros -> ->; reflexivity|]. split; [intros -> ->; reflexivity|].
  destruct (report_sync_decode_ok _ _ _ _ _ _ Hread Hnf Hargs)
    as (val' & p' & Hrun & _ & _ & _ & _ & _ & Hval).
  exists p'. rewrite Hrun. rewrite (Hval chan) by (unfold IQS7219_NUM_CHAN in Hchan; lia).
  reflexivity.
Qed.

Lemma flat_map_nil {A B} (f : A -> list B) l :
  (forall a, In a l -> f a = []) -> flat_map f l = [].
Proof.
  induction l as [|a l IH]; intros H; [reflexivity|].
  cbn. rewrite (H a) by now left. apply IH. intros b Hb. apply H. now right.
Qed.

Lemma no_change_no_events p flags :
  (forall i j, (i < 2)%nat -> (j < 3)%nat ->
     Z.testbit flags (event_bit i j) = Z.testbit (pxs_flags p) (event_bit i j)) ->
  flat_map (chan_events p flags) [0; 1]%nat = [].
Proof.
  intros Hsame. apply flat_map_nil. intros i Hi.
  assert (Hi2 : (i < 2)%nat) by (cbn in Hi; intuition lia).
  rewrite chan_events_spec by exact Hi2.
  apply flat_map_nil. intros j Hj.
  assert (Hj3 : (j < 3)%nat) by (cbn in Hj; intuition lia).
  unfold fires. rewrite (Hsame i j Hi2 Hj3), xorb_nilpotent, andb_false_r.
  reflexivity.
Qed.

Lemma one_change_one_event p flags i0 j0 :
  (i0 < 2)%nat -> (j0 < 3)%nat ->
  fires p flags i0 j0 = true ->
  (forall i j, (i < 2)%nat -> (j < 3)%nat -> (i, j) <> (i0, j0) ->
               fires p flags i j = false) ->
  flat_map (chan_events p flags) [0; 1]%nat = [mk_event i0 (direction flags i0 j0)].
Proof.
  intros Hi Hj Hfire Hrest.
  cbn [flat_map]. rewrite !chan_events_spec by lia. cbn [flat_map].
  destruct i0 as [|[|]]; try lia; destruct j0 as [|[|[|]]]; try lia;
    rewrite Hfire;
    rewrite ?(Hrest 0%nat 0%nat), ?(Hrest 0%nat 1%nat), ?(Hrest 0%nat 2%nat),
            ?(Hrest 1%nat 0%nat), ?(Hrest 1%nat 1%nat), ?(Hrest 1%nat 2%nat)
      by (lia || congruence);
    reflexivity.
Qed.

(** C3. On a status read that reaches the channel loop: the cached flags
    become the flags just read, whatever the event enables are; when no
    event bit differs from the cache nothing is pushed; when exactly one
    enabled event is due, exactly one event is pushed, rising if its new
    bit is set and falling otherwise; and a following read that carries
    the same flags pushes nothing. *)
Theorem iqs7219_events_debounced scan_id chan_index val p val_buf p1 :
  status_read p val_buf p1 -> no_flags (nth 0 val_buf 0) ->
  report_args_ok p scan_id chan_index val ->
  let flags := nth 1 val_buf 0 in
  exists val' p',
    iqs7219_report_sync scan_id chan_index val p = Ok ((0, val'), p') /\
    pxs_flags p' = flags /\
    event_mask p' = event_mask p /\ event_enable p' = event_enable p /\
    ((forall i j, (i < 2)%nat -> (j < 3)%nat ->
        Z.testbit flags (event_bit i j) = Z.testbit (pxs_flags p) (event_bit i j)) ->
     pushed p' = pushed p) /\
    (forall i0 j0, (i0 < 2)%nat -> (j0 < 3)%nat ->
       fires p flags i0 j0 = true ->
       (forall i j, (i < 2)%nat -> (j < 3)%nat -> (i, j) <> (i0, j0) ->
                    fires p flags i j = false) ->
       pushed p' = pushed p ++ [mk_event i0 (direction flags i0 j0)]) /\
    (forall val_buf2 p1',
       status_read p' val_buf2 p1' -> no_flags (nth 0 val_buf2 0) ->
       nth 1 val_buf2 0 = flags ->
       exists val'' p'',
         iqs7219_report_sync scan_id chan_index val p' = Ok ((0, val''), p'') /\
         pushed p'' = pushed p').
Proof.
  intros Hread Hnf Hargs flags.
  destruct (report_sync_decode_ok _ _ _ _ _ _ Hread Hnf Hargs)
    as (val' & p' & Hrun & Hc & Hpu & Hem & Hee & Hsm & _).
  exists val', p'. fold flags in Hc, Hpu.
  split; [exact Hrun|]. split; [exact Hc|]. split; [exact Hem|]. split; [exact Hee|].
  split.
  { intros Hsame. rewrite Hpu, no_change_no_events by exact Hsame. apply app_nil_r. }
  split.
  { intros i0 j0 Hi Hj Hfire Hrest.
    rewrite Hpu, (one_change_one_event _ _ i0 j0) by assumption. reflexivity. }
  intros val_buf2 p1' Hread2 Hnf2 Hflags2.
  assert (Hargs' : report_args_ok p' scan_id chan_index val).
  { destruct Hargs as [Hmux Hval]. split; [|exact Hval].
    intros i Hi. rewrite Hsm. apply Hmux, Hi. }
  destruct (report_sync_decode_ok _ _ _ _ _ _ Hread2 Hnf2 Hargs')
    as (val'' & p'' & Hrun2 & _ & Hpu2 & _).
  exists val'', p''. split; [exact Hrun2|].
  rewrite Hpu2, Hflags2, no_change_no_events; [apply app_nil_r|].
  intros i j _ _. rewrite Hc. reflexivity.
Qed.

End Iqs7219Claims.

(** ** Register images *)

Lemma word_at_insert_eq (l : list Z) i v :
  (i < length l)%nat -> word_at (<[i := v]> l) i = v.
Proof. intros H. unfold word_at. rewrite list_lookup_insert_eq by exact H. reflexivity. Qed.

Lemma word_at_insert_ne (l : list Z) i j v :
  i <> j -> word_at (<[i := v]> l) j = word_at l j.
Proof. intros H. unfold word_at. rewrite list_lookup_insert_ne by exact H. reflexivity. Qed.

Lemma testbit_set_bit l i s k :
  (i < length l)%nat -> 0 <= s -> 0 <= k ->
  Z.testbit (word_at (set_bit l i s) i) k
  = (k <? 16) && (Z.testbit (word_at l i) k || (k =? s)).
Proof.
  intros Hi Hs Hk. unfold set_bit. rewrite word_at_insert_eq by exact Hi.
  rewrite testbit_u16_or, testbit_BIT by lia. reflexivity.
Qed.

Lemma testbit_clear_bit l i s k :
  (i < length l)%nat -> 0 <= s -> 0 <= k ->
  Z.testbit (word_at (clear_bit l i s) i) k
  = (k <? 16) && (Z.testbit (word_at l i) k && negb (k =? s)).
Proof.
  intros Hi Hs Hk. unfold clear_bit. rewrite word_at_insert_eq by exact Hi.
  rewrite testbit_u16_clear, testbit_BIT by lia. reflexivity.
Qed.

Lemma length_set_bit l i s : length (set_bit l i s) = length l.
Proof. unfold set_bit. apply length_insert. Qed.

Lemma length_clear_bit l i s : length (clear_bit l i s) = length l.
Proof. unfold clear_bit. apply length_insert. Qed.

Lemma word_at_set_bit_ne l i j s : i <> j -> word_at (set_bit l i s) j = word_at l j.
Proof. apply word_at_insert_ne. Qed.

Lemma word_at_clear_bit_ne l i j s : i <> j -> word_at (clear_bit l i s) j = word_at l j.
Proof. apply word_at_insert_ne. Qed.

(** Forcing a bit and then, the key being present, setting it the other
    way. *)
Lemma force_then_set setup idx shift (invert present : bool) :
  (idx < length setup)%nat -> 0 <= shift < 16 ->
  let forced := if invert then set_bit setup idx shift
                else clear_bit setup idx shift in
  let final := if present
               then if invert then clear_bit forced idx shift
                    else set_bit forced idx shift
               else forced in
  bool_field_result (None, final) setup idx shift invert present.
Proof.
  intros Hidx Hs forced final. unfold bool_field_result. cbn [fst snd].
  assert (Hf : length forced = length setup)
    by (subst forced; destruct invert; [apply length_set_bit|apply length_clear_bit]).
  split; [reflexivity|].
  split.
  { subst final. destruct present; [|exact Hf].
    destruct invert; rewrite ?length_clear_bit, ?length_set_bit; exact Hf. }
  assert (Hb : forall k, 0 <= k ->
            Z.testbit (word_at final idx) k =
            (k <? 16) && (if k =? shift then (if present then negb invert else invert)
                          else Z.testbit (word_at setup idx) k)).
  { intros k Hk. subst final forced.
    destruct present, invert;
      rewrite ?testbit_clear_bit, ?testbit_set_bit
        by (rewrite ?length_set_bit, ?length_clear_bit; lia);
      rewrite ?testbit_clear_bit, ?testbit_set_bit by lia;
      destruct (k <? 16), (k =? shift), (Z.testbit (word_at setup idx) k);
      reflexivity. }
  split.
  { rewrite Hb by lia. rewrite Z.eqb_refl.
    destruct (Z.ltb_spec shift 16); [reflexivity|lia]. }
  split.
  { intros k Hk Hne. rewrite Hb by exact Hk. rewrite testbit_u16 by exact Hk.
    destruct (Z.eqb_spec k shift); [contradiction|reflexivity]. }
  intros j Hj. subst final forced.
  destruct present, invert;
    repeat first [rewrite word_at_clear_bit_ne by congruence
                 |rewrite word_at_set_bit_ne by congruence];
    reflexivity.
Qed.

Lemma iqs7219_props_ok : forallb iqs7219_prop_ok Iqs7219.iqs7219_props = true.
Proof. vm_compute. reflexivity. Qed.

Lemma iqs323_props_ok : forallb iqs323_prop_ok Iqs323.iqs323_props = true.
Proof. vm_compute. reflexivity. Qed.

(** ** Scalar fields *)

Lemma u32_small x : 0 <= x < 4294967296 -> u32 x = x.
Proof. intros. unfold u32. apply Z.mod_small. lia. Qed.

Lemma s32_small x : - 2147483648 <= x < 2147483648 -> s32 x = x.
Proof. intros. unfold s32. rewrite Z.mod_small by lia. lia. Qed.

Lemma GENMASK_low W : GENMASK (W - 1) 0 = Z.ones W.
Proof.
  unfold GENMASK. rewrite Z.shiftl_0_r. f_equal. lia.
Qed.

Lemma ones_bound W : 0 < W <= 16 -> 0 < Z.ones W <= 65535.
Proof.
  intros H. rewrite Z.ones_equiv.
  assert (2 ^ 1 <= 2 ^ W) by (apply Z.pow_le_mono_r; lia).
  assert (2 ^ W <= 2 ^ 16) by (apply Z.pow_le_mono_r; lia).
  change (2 ^ 1) with 2 in *. change (2 ^ 16) with 65536 in *. lia.
Qed.

Lemma pack_steps setup idx m x :
  (idx < length setup)%nat ->
  <[idx := u16_or (word_at (<[idx := u16_clear (word_at setup idx) m]> setup) idx) x]>
    (<[idx := u16_clear (word_at setup idx) m]> setup)
  = <[idx := u16_or (u16_clear (word_at setup idx) m) x]> setup.
Proof.
  intros H. rewrite word_at_insert_eq by exact H.
  apply list_insert_insert_eq.
Qed.

(** The quotient of an in-range value by the pitch fits the field. *)
Lemma quotient_fits v pitch W :
  0 < pitch -> 0 <= v <= Z.ones W * pitch -> 0 <= v / pitch <= Z.ones W.
Proof.
  intros Hp Hv. split.
  - apply Z.div_pos; lia.
  - apply Z.div_le_upper_bound; lia.
Qed.

Lemma shifted_fits x S W :
  0 <= S -> 0 < W -> S + W <= 16 -> 0 <= x <= Z.ones W ->
  0 <= Z.shiftl x S < 65536.
Proof.
  intros HS HW HSW Hx. rewrite Z.shiftl_mul_pow2 by lia.
  rewrite Z.ones_equiv in Hx.
  assert (0 < 2 ^ S) by (apply Z.pow_pos_nonneg; lia).
  assert (2 ^ W * 2 ^ S <= 65536).
  { rewrite <- Z.pow_add_r by lia. change 65536 with (2 ^ 16).
    apply Z.pow_le_mono_r; lia. }
  nia.
Qed.

Section ScalarSteps.
Variable node : fwnode.
Variable off : nat.
Variable setup : list Z.

Lemma iqs7219_prop_ok_in d :
  In d Iqs7219.iqs7219_props -> iqs7219_prop_ok d = true.
Proof.
  intros H. pose proof iqs7219_props_ok as Hall.
  rewrite forallb_forall in Hall. apply Hall, H.
Qed.

Lemma iqs323_prop_ok_in d :
  In d Iqs323.iqs323_props -> iqs323_prop_ok d = true.
Proof.
  intros H. pose proof iqs323_props_ok as Hall.
  rewrite forallb_forall in Hall. apply Hall, H.
Qed.

Lemma iqs7219_prop_ok_spec d :
  iqs7219_prop_ok d = true ->
  let W := Iqs7219.reg_width d in
  let S := Iqs7219.reg_shift d in
  let pitch := eff_pitch (Iqs7219.val_pitch d) in
  0 < W /\ 0 <= S /\ S + W <= 16 /\ 0 < pitch < 32768 /\
  0 <= Iqs7219.val_min d < 2147483648 /\
  0 <= Iqs7219.val_max d <= Z.ones W * pitch.
Proof.
  unfold iqs7219_prop_ok. cbv zeta. intros H.
  repeat (apply andb_prop in H; destruct H as [H ?]).
  repeat match goal with
         | H : (_ <? _) = true |- _ => apply Z.ltb_lt in H
         | H : (_ <=? _) = true |- _ => apply Z.leb_le in H
         end.
  lia.
Qed.

Lemma iqs323_prop_ok_spec d :
  iqs323_prop_ok d = true ->
  let W := Iqs323.reg_width d in
  let S := Iqs323.reg_shift d in
  let pitch := eff_pitch (Iqs323.val_pitch d) in
  0 < W /\ 0 <= S /\ S + W <= 16 /\ 0 < pitch < 32768 /\
  0 <= Iqs323.val_min d < 2147483648 /\
  0 <= Iqs323.val_max d < 2147483648 /\
  match Iqs323.val_subs d with
  | Some subs =>
      0 < Iqs323.val_max d < Z.of_nat (length subs) /\
      Forall (fun x => 0 <= x /\ Z.land x (Z.lnot (span_mask S W)) = 0) subs
  | None => Iqs323.val_max d <= Z.ones W * pitch
  end.
Proof.
  unfold iqs323_prop_ok. cbv zeta. intros H.
  apply andb_prop in H. destruct H as [H Hsubs].
  repeat (apply andb_prop in H; destruct H as [H ?]).
  repeat match goal with
         | H : (_ <? _) = true |- _ => apply Z.ltb_lt in H
         | H : (_ <=? _) = true |- _ => apply Z.leb_le in H
         end.
  repeat (split; [lia|]).
  destruct (Iqs323.val_subs d) as [subs|].
  - apply andb_prop in Hsubs. destruct Hsubs as [Hsubs Hall].
    apply andb_prop in Hsubs. destruct Hsubs as [Hpos Hlen].
    apply Z.ltb_lt in Hpos, Hlen. split; [lia|].
    apply List.Forall_forall. intros x Hx.
    rewrite forallb_forall in Hall. specialize (Hall x Hx).
    apply andb_prop in Hall. destruct Hall as [Ha Hb].
    apply Z.leb_le in Ha. apply Z.eqb_eq in Hb. split; assumption.
  - apply Z.leb_le in Hsubs. exact Hsubs.
Qed.

Lemma iqs7219_scalar_step d v :
  iqs7219_prop_ok d = true -> Iqs7219.reg_width d <> 1 ->
  (off + Iqs7219.reg_offset d < length setup)%nat ->
  fw_present node (Iqs7219.name d) = true ->
  fw_read_u32 node (Iqs7219.name d) = (0, v) -> 0 <= v < 4294967296 ->
  let W := Iqs7219.reg_width d in
  let S := Iqs7219.reg_shift d in
  let pitch := eff_pitch (Iqs7219.val_pitch d) in
  let max := eff_max W (Iqs7219.val_pitch d) (Iqs7219.val_max d) in
  Iqs7219.parse_prop node d off setup =
  if (v <? Iqs7219.val_min d) || (max <? v) then (Some (- EINVAL), setup)
  else (None, packed setup (off + Iqs7219.reg_offset d) S W (Z.shiftl (v / pitch) S)).
Proof.
  intros Hok HW Hoff Hpres Hread Hv W S pitch max.
  apply iqs7219_prop_ok_spec in Hok. cbv zeta in Hok. fold W S pitch in Hok.
  destruct Hok as (HW0 & HS & HSW & Hp & Hmin & Hmx).
  pose proof (ones_bound W ltac:(lia)) as Hones.
  unfold Iqs7219.parse_prop. fold W S. fold (eff_pitch (Iqs7219.val_pitch d)). fold pitch.
  destruct (Z.eqb_spec W 1) as [E|_]; [contradiction|].
  rewrite Hpres, Hread. cbn [negb fst snd]. rewrite truthy_0.
  rewrite (u32_small v) by exact Hv.
  rewrite (u32_small (Iqs7219.val_min d)) by lia.
  rewrite (u32_small pitch) by lia.
  assert (Hmax : u32 (if Iqs7219.val_max d =? 0 then s32 (GENMASK (W - 1) 0 * pitch)
                      else Iqs7219.val_max d) = max).
  { unfold max, eff_max. fold pitch. rewrite GENMASK_low.
    destruct (Iqs7219.val_max d =? 0).
    - rewrite s32_small by nia. apply u32_small. nia.
    - apply u32_small. nia. }
  rewrite Hmax. rewrite Z.gtb_ltb.
  destruct ((v <? Iqs7219.val_min d) || (max <? v)) eqn:Hrange; [reflexivity|].
  apply orb_false_elim in Hrange. destruct Hrange as [Hlo Hhi].
  apply Z.ltb_ge in Hlo, Hhi.
  assert (Hmaxle : max <= Z.ones W * pitch).
  { unfold max, eff_max. fold pitch. destruct (Iqs7219.val_max d =? 0); lia. }
  pose proof (quotient_fits v pitch W ltac:(lia) ltac:(lia)) as Hq.
  pose proof (shifted_fits _ S W ltac:(lia) ltac:(lia) ltac:(lia) Hq) as Hsh.
  rewrite (u32_small (Z.shiftl _ _)) by lia.
  unfold packed, span_mask. rewrite pack_steps by exact Hoff. reflexivity.
Qed.

Lemma iqs323_scalar_step d v :
  iqs323_prop_ok d = true -> Iqs323.reg_width d <> 1 ->
  (off + Iqs323.reg_offset d < length setup)%nat ->
  fw_read_u32 node (Iqs323.name d) = (0, v) -> 0 <= v < 4294967296 ->
  let W := Iqs323.reg_width d in
  let S := Iqs323.reg_shift d in
  let pitch := eff_pitch (Iqs323.val_pitch d) in
  let max := eff_max W (Iqs323.val_pitch d) (Iqs323.val_max d) in
  Iqs323.parse_prop node d off setup =
  if (v <? Iqs323.val_min d) || (max <? v) then (Some (- EINVAL), setup)
  else (None, packed setup (off + Iqs323.reg_offset d) S W
                match Iqs323.val_subs d with
                | Some subs => nth (Z.to_nat v) subs 0
                | None => Z.shiftl (v / pitch) S
                end).
Proof.
  intros Hok HW Hoff Hread Hv W S pitch max.
  apply iqs323_prop_ok_spec in Hok. cbv zeta in Hok. fold W S pitch in Hok.
  destruct Hok as (HW0 & HS & HSW & Hp & Hmin & Hmx & Hsubs).
  pose proof (ones_bound W ltac:(lia)) as Hones.
  unfold Iqs323.parse_prop. fold W S. fold (eff_pitch (Iqs323.val_pitch d)). fold pitch.
  destruct (Z.eqb_spec W 1) as [E|_]; [contradiction|].
  rewrite Hread. cbn [fst snd]. rewrite truthy_0.
  change (0 =? - EINVAL) with false. cbv iota.
  rewrite (u32_small v) by exact Hv.
  rewrite (u32_small (Iqs323.val_min d)) by lia.
  rewrite (u32_small pitch) by lia.
  assert (Hmax : u32 (if Iqs323.val_max d =? 0 then s32 (GENMASK (W - 1) 0 * pitch)
                      else Iqs323.val_max d) = max).
  { unfold max, eff_max. fold pitch. rewrite GENMASK_low.
    destruct (Iqs323.val_max d =? 0).
    - rewrite s32_small by nia. apply u32_small. nia.
    - apply u32_small. lia. }
  rewrite Hmax. rewrite Z.gtb_ltb.
  destruct ((v <? Iqs323.val_min d) || (max <? v)) eqn:Hrange; [reflexivity|].
  apply orb_false_elim in Hrange. destruct Hrange as [Hlo Hhi].
  apply Z.ltb_ge in Hlo, Hhi.
  destruct (Iqs323.val_subs d) as [subs|].
  - unfold packed, span_mask. rewrite pack_steps by exact Hoff. reflexivity.
  - assert (Hmaxle : max <= Z.ones W * pitch).
    { unfold max, eff_max. fold pitch. destruct (Iqs323.val_max d =? 0); lia. }
    pose proof (quotient_fits v pitch W ltac:(lia) ltac:(lia)) as Hq.
    pose proof (shifted_fits _ S W ltac:(lia) ltac:(lia) ltac:(lia) Hq) as Hsh.
    rewrite (u32_small (Z.shiftl _ _)) by lia.
    unfold packed, span_mask. rewrite pack_steps by exact Hoff. reflexivity.
Qed.

End ScalarSteps.

(** ** Reading a field back *)

Lemma testbit_ones W k : 0 <= W -> 0 <= k -> Z.testbit (Z.ones W) k = (k <? W).
Proof.
  intros HW Hk. destruct (Z.ltb_spec k W).
  - apply Z.ones_spec_low. lia.
  - apply Z.ones_spec_high. lia.
Qed.

Lemma testbit_span_mask S W k :
  0 <= S -> 0 <= W -> 0 <= k ->
  Z.testbit (span_mask S W) k = (S <=? k) && (k <? S + W).
Proof.
  intros HS HW Hk. unfold span_mask. rewrite testbit_GENMASK by lia.
  f_equal. destruct (Z.leb_spec k (S + W - 1)), (Z.ltb_spec k (S + W)); lia || reflexivity.
Qed.

Lemma packed_field setup idx S W x :
  (idx < length setup)%nat -> 0 <= S -> 0 < W -> S + W <= 16 ->
  Z.land x (Z.lnot (span_mask S W)) = 0 ->
  field_bits (word_at (packed setup idx S W x) idx) S W = Z.shiftr x S /\
  outside_unchanged setup (packed setup idx S W x) idx S W.
Proof.
  intros Hidx HS HW HSW Hx.
  assert (Hin : forall k, 0 <= k -> Z.testbit x k = true ->
                          Z.testbit (span_mask S W) k = true).
  { intros k Hk Hb. apply (f_equal (fun z => Z.testbit z k)) in Hx.
    rewrite Z.land_spec, Z.lnot_spec, Z.bits_0, Hb in Hx by exact Hk.
    destruct (Z.testbit (span_mask S W) k); [reflexivity|discriminate]. }
  assert (Hbit : forall k, 0 <= k ->
            Z.testbit (word_at (packed setup idx S W x) idx) k =
            (k <? 16) && ((Z.testbit (word_at setup idx) k
                           && negb (Z.testbit (span_mask S W) k))
                          || Z.testbit x k)).
  { intros k Hk. unfold packed. rewrite word_at_insert_eq by exact Hidx.
    rewrite testbit_u16_or, testbit_u16_clear by exact Hk.
    destruct (k <? 16); reflexivity. }
  split.
  - unfold field_bits. apply Z.bits_inj'. intros k Hk.
    rewrite Z.land_spec, !Z.shiftr_spec, testbit_ones, Hbit by lia.
    rewrite testbit_span_mask by lia.
    destruct (Z.ltb_spec k W).
    + destruct (Z.leb_spec S (k + S)); [|lia].
      destruct (Z.ltb_spec (k + S) (S + W)); [|lia].
      destruct (Z.ltb_spec (k + S) 16); [|lia].
      cbn. rewrite andb_false_r, andb_true_r. reflexivity.
    + rewrite andb_false_r.
      destruct (Z.testbit x (k + S)) eqn:E; [|reflexivity].
      apply Hin in E; [|lia]. rewrite testbit_span_mask in E by lia.
      apply andb_prop in E. destruct E as [_ E]. apply Z.ltb_lt in E. lia.
  - split; [apply length_insert|]. split.
    + intros k Hk Hout. rewrite Hbit, testbit_u16 by exact Hk.
      assert (Hm : Z.testbit (span_mask S W) k = false).
      { rewrite testbit_span_mask by lia.
        destruct (Z.leb_spec S k), (Z.ltb_spec k (S + W)); lia || reflexivity. }
      assert (Hxk : Z.testbit x k = false).
      { destruct (Z.testbit x k) eqn:E; [|reflexivity].
        apply Hin in E; [congruence|exact Hk]. }
      rewrite Hm, Hxk. cbn. rewrite orb_false_r, andb_true_r. reflexivity.
    + intros j Hj. unfold packed. apply word_at_insert_ne. congruence.
Qed.

Lemma shifted_in_span q S W :
  0 <= S -> 0 < W -> 0 <= q <= Z.ones W ->
  Z.land (Z.shiftl q S) (Z.lnot (span_mask S W)) = 0 /\
  Z.shiftr (Z.shiftl q S) S = q.
Proof.
  intros HS HW Hq. split.
  - apply Z.bits_inj'. intros k Hk.
    rewrite Z.land_spec, Z.lnot_spec, testbit_span_mask, Z.bits_0 by lia.
    destruct (Z.leb_spec S k).
    + rewrite Z.shiftl_spec by lia.
      destruct (Z.ltb_spec k (S + W)); [apply andb_false_r|].
      cbn. rewrite andb_true_r.
      rewrite Z.ones_equiv in Hq.
      apply Z.bits_above_log2; [lia|].
      destruct (Z.eq_dec q 0) as [->|Hne]; [cbn; lia|].
      apply Z.log2_lt_pow2; [lia|].
      assert (2 ^ W <= 2 ^ (k - S)) by (apply Z.pow_le_mono_r; lia). lia.
    + rewrite Z.shiftl_spec_low by lia. reflexivity.
  - rewrite Z.shiftr_shiftl_l by lia. rewrite Z.sub_diag. apply Z.shiftl_0_r.
Qed.

Lemma iqs7219_pitch_is_one :
  forallb (fun d => Iqs7219.val_pitch d =? 0) Iqs7219.iqs7219_props = true.
Proof. vm_compute. reflexivity. Qed.

(** The press timeout of the IQS323 is packed in steps of 512: 0 and 1,
    both inside its bounds, leave the same image, so that nothing that
    reads the image can give back both.  Encoding followed by decoding
    does not yield [v] for every [v] in [[min, max]]. *)
Lemma press_timeout_does_not_round_trip :
  In iqs323_press_timeout Iqs323.iqs323_props /\
  (let d := iqs323_press_timeout in
   let max := eff_max (Iqs323.reg_width d) (Iqs323.val_pitch d) (Iqs323.val_max d) in
   Iqs323.val_min d <= 0 <= max /\ Iqs323.val_min d <= 1 <= max) /\
  (forall setup : list Z,
     (2 < length setup)%nat ->
     let encode v :=
       Iqs323.parse_prop (node_of [(Iqs323.name iqs323_press_timeout, [v])] [])
                         iqs323_press_timeout 0 setup in
     encode 0 = encode 1 /\
     ~ exists decode : list Z -> Z,
         decode (snd (encode 0)) = 0 /\ decode (snd (encode 1)) = 1).
Proof.
  split; [vm_compute; tauto|].
  split; [vm_compute; intuition discriminate|].
  intros setup Hlen encode.
  assert (E : encode 0 = encode 1).
  { subst encode. cbv beta.
    rewrite (iqs323_scalar_step _ 0 setup iqs323_press_timeout 0);
      [|reflexivity|discriminate|exact Hlen|reflexivity|lia].
    rewrite (iqs323_scalar_step _ 0 setup iqs323_press_timeout 1);
      [|reflexivity|discriminate|exact Hlen|reflexivity|lia].
    reflexivity. }
  split; [exact E|].
  intros (decode & H0 & H1). rewrite E in H0. congruence.
Qed.

(** C6, amended. For every scalar descriptor of the two tables and every
    [v] inside its bounds, packing [v] changes no bit outside the span of
    the field and no other word, and the span then holds [v / pitch], or
    the substitution entry of [v] where the descriptor has a table.  The
    pitch is 1 throughout the IQS7219A table, whose fields therefore read
    back as [v] itself. *)
Theorem scalar_fields_read_back
        (node : fwnode) (off : nat) (setup : list Z)
        (d7 : Iqs7219.iqs7219_prop_desc) (d3 : Iqs323.iqs323_prop_desc)
        (v7 v3 : Z) :
  In d7 Iqs7219.iqs7219_props -> Iqs7219.reg_width d7 <> 1 ->
  (off + Iqs7219.reg_offset d7 < length setup)%nat ->
  fw_present node (Iqs7219.name d7) = true ->
  fw_read_u32 node (Iqs7219.name d7) = (0, v7) ->
  Iqs7219.val_min d7 <= v7 <=
    eff_max (Iqs7219.reg_width d7) (Iqs7219.val_pitch d7) (Iqs7219.val_max d7) ->
  In d3 Iqs323.iqs323_props -> Iqs323.reg_width d3 <> 1 ->
  (off + Iqs323.reg_offset d3 < length setup)%nat ->
  fw_read_u32 node (Iqs323.name d3) = (0, v3) ->
  Iqs323.val_min d3 <= v3 <=
    eff_max (Iqs323.reg_width d3) (Iqs323.val_pitch d3) (Iqs323.val_max d3) ->
  let r7 := Iqs7219.parse_prop node d7 off setup in
  let r3 := Iqs323.parse_prop node d3 off setup in
  (fst r7 = None /\
   field_bits (word_at (snd r7) (off + Iqs7219.reg_offset d7))
              (Iqs7219.reg_shift d7) (Iqs7219.reg_width d7) = v7 /\
   outside_unchanged setup (snd r7) (off + Iqs7219.reg_offset d7)
                     (Iqs7219.reg_shift d7) (Iqs7219.reg_width d7)) /\
  (fst r3 = None /\
   field_bits (word_at (snd r3) (off + Iqs323.reg_offset d3))
              (Iqs323.reg_shift d3) (Iqs323.reg_width d3) =
   match Iqs323.val_subs d3 with
   | Some subs => Z.shiftr (nth (Z.to_nat v3) subs 0) (Iqs323.reg_shift d3)
   | None => v3 / eff_pitch (Iqs323.val_pitch d3)
   end /\
   outside_unchanged setup (snd r3) (off + Iqs323.reg_offset d3)
                     (Iqs323.reg_shift d3) (Iqs323.reg_width d3)).
Proof.
  intros In7 W7 O7 P7 R7 B7 In3 W3 O3 R3 B3 r7 r3.
  split.
  - pose proof (iqs7219_prop_ok_in _ In7) as Hok.
    pose proof (iqs7219_prop_ok_spec _ Hok) as Hs. cbv zeta in Hs.
    destruct Hs as (HW0 & HS & HSW & Hp & Hmin & Hmx).
    assert (Hpitch : Iqs7219.val_pitch d7 = 0).
    { pose proof iqs7219_pitch_is_one as Hall. rewrite forallb_forall in Hall.
      apply Z.eqb_eq, Hall, In7. }
    assert (Hmaxle : eff_max (Iqs7219.reg_width d7) (Iqs7219.val_pitch d7)
                             (Iqs7219.val_max d7)
                     <= Z.ones (Iqs7219.reg_width d7) * eff_pitch (Iqs7219.val_pitch d7)).
    { unfold eff_max. destruct (Iqs7219.val_max d7 =? 0); lia. }
    pose proof (ones_bound (Iqs7219.reg_width d7) ltac:(lia)) as Hones.
    subst r7.
    rewrite (iqs7219_scalar_step node off setup d7 v7 Hok W7 O7 P7 R7) by nia.
    destruct (Z.ltb_spec v7 (Iqs7219.val_min d7)); [lia|].
    destruct (Z.ltb_spec (eff_max (Iqs7219.reg_width d7) (Iqs7219.val_pitch d7)
                                  (Iqs7219.val_max d7)) v7); [lia|].
    cbn [orb fst snd]. split; [reflexivity|].
    rewrite Hpitch in *. change (eff_pitch 0) with 1 in *. rewrite Z.div_1_r.
    destruct (shifted_in_span v7 (Iqs7219.reg_shift d7) (Iqs7219.reg_width d7))
      as [Hspan Hback]; [lia|lia|lia|].
    destruct (packed_field setup (off + Iqs7219.reg_offset d7)
                (Iqs7219.reg_shift d7) (Iqs7219.reg_width d7)
                (Z.shiftl v7 (Iqs7219.reg_shift d7)) O7 HS HW0 HSW Hspan)
      as [Hget Hout].
    rewrite Hget, Hback. split; [reflexivity|exact Hout].
  - pose proof (iqs323_prop_ok_in _ In3) as Hok.
    pose proof (iqs323_prop_ok_spec _ Hok) as Hs. cbv zeta in Hs.
    destruct Hs as (HW0 & HS & HSW & Hp & Hmin & Hmx & Hsubs).
    pose proof (ones_bound (Iqs323.reg_width d3) ltac:(lia)) as Hones.
    assert (Hv : 0 <= v3 < 4294967296).
    { unfold eff_max in B3. destruct (Iqs323.val_max d3 =? 0); nia. }
    subst r3.
    rewrite (iqs323_scalar_step node off setup d3 v3 Hok W3 O3 R3 Hv).
    destruct (Z.ltb_spec v3 (Iqs323.val_min d3)); [lia|].
    destruct (Z.ltb_spec (eff_max (Iqs323.reg_width d3) (Iqs323.val_pitch d3)
                                  (Iqs323.val_max d3)) v3); [lia|].
    cbn [orb fst snd]. split; [reflexivity|].
    destruct (Iqs323.val_subs d3) as [subs|].
    + assert (Hx : Z.land (nth (Z.to_nat v3) subs 0)
                          (Z.lnot (span_mask (Iqs323.reg_shift d3) (Iqs323.reg_width d3))) = 0).
      { destruct Hsubs as [_ Hall]. rewrite List.Forall_forall in Hall.
        destruct (Nat.lt_ge_cases (Z.to_nat v3) (length subs)) as [Hlt|Hge].
        - apply Hall, nth_In, Hlt.
        - rewrite nth_overflow by exact Hge. apply Z.land_0_l. }
      exact (packed_field setup _ _ _ _ O3 HS HW0 HSW Hx).
    + assert (Hmaxle : eff_max (Iqs323.reg_width d3) (Iqs323.val_pitch d3)
                               (Iqs323.val_max d3)
                       <= Z.ones (Iqs323.reg_width d3) * eff_pitch (Iqs323.val_pitch d3)).
      { unfold eff_max. destruct (Iqs323.val_max d3 =? 0); lia. }
      pose proof (quotient_fits v3 (eff_pitch (Iqs323.val_pitch d3))
                    (Iqs323.reg_width d3) ltac:(lia) ltac:(lia)) as Hq.
      destruct (shifted_in_span _ (Iqs323.reg_shift d3) (Iqs323.reg_width d3)
                  HS HW0 Hq) as [Hspan Hback].
      destruct (packed_field setup (off + Iqs323.reg_offset d3)
                  (Iqs323.reg_shift d3) (Iqs323.reg_width d3) _ O3 HS HW0 HSW Hspan)
        as [Hget Hout].
      rewrite Hget, Hback. split; [reflexivity|exact Hout].
Qed.

(** ** The scan multiplexer *)

Section Iqs7219ScanMux.
Import Iqs7219.

(** A selector equal to the number of scan values indexes past the end
    of [scan]. *)
Lemma scan_mux_overrun scan_id chan_index val p val_buf p1 :
  status_read p val_buf p1 -> no_flags (nth 0 val_buf 0) ->
  word_at (scan_mux p) 0 = IQS7219_NUM_SCAN ->
  iqs7219_report_sync scan_id chan_index val p = OutOfBounds.
Proof.
  intros Hread (Hr & He & Ha) Hmux.
  pose proof (with_io_frame _ _ _ _ Hread) as Hp1.
  unfold iqs7219_report_sync.
  unfold bind at 1. unfold get at 1.
  unfold status_read in Hread. rewrite (bind_ok _ _ _ _ _ Hread).
  cbn [fst snd]. rewrite truthy_0, Hr, He, Ha, truthy_0.
  unfold bind at 1. cbn [seq IQS7219_NUM_CHAN report_chans].
  unfold bind at 1. unfold get at 1. unfold bind at 1.
  rewrite Hp1. cbn [scan_mux set_io]. rewrite Hmux. reflexivity.
Qed.

(** C10. The bounds checks of [iqs7219_parse_chan] and
    [iqs7219_scan_mux_set] let the selector 6 through; with it stored, the
    next status read indexes the six-element [scan] at 6. *)
Theorem scan_mux_six_is_accepted_and_overruns :
  let chan_node := node_of [("azoteq,scan-mux"%string, [6])] [] in
  let dev := node_of [] [("channel-0"%string, chan_node)] in
  let p := iqs7219_example (stub [] 1 [] 1 [] 2 [] [] 1) 0 [false; false] in
  (forall q channel, result_of (iqs7219_scan_mux_set channel 6 q) = Some 0) /\
  exists p',
    iqs7219_parse_chan dev 0 p = Ok (0, p') /\
    word_at (scan_mux p') 0 = 6 /\
    length (scan_of [] 0 0) = 6%nat /\
    iqs7219_report_sync (-1) (-1) None p' = OutOfBounds.
Proof.
  cbv zeta. split; [intros q channel; reflexivity|].
  eexists. split; [vm_compute; reflexivity|].
  split; [reflexivity|]. split; [reflexivity|].
  vm_compute. reflexivity.
Qed.

End Iqs7219ScanMux.

(** ** Burst reads *)

Section BurstProps.
Variable force_comms : M world Z.
Variable settle : M world unit.
Variable reg : list Z.

(** The handshake and the settle delay return, and make no transaction
    of their own. *)
Hypothesis force_comms_total :
  forall w, exists r w', force_comms w = Ok (r, w') /\ xfer_n w' = xfer_n w.
Hypothesis settle_total :
  forall w, exists w', settle w = Ok (tt, w') /\ xfer_n w' = xfer_n w.

Lemma read_burst_body_cases buf w :
  exists c ret buf' w',
    read_burst_body force_comms reg buf w = Ok ((c, ret, buf'), w') /\
    (xfer_n w' <= S (xfer_n w))%nat /\
    ((c = Continue /\ ret < 0) \/ (c = Break /\ ret = 0)).
Proof using force_comms_total.
  unfold read_burst_body.
  destruct (force_comms_total w) as (r & w1 & Hfc & Hx1).
  rewrite (bind_ok _ _ _ _ _ Hfc).
  destruct (Z.ltb_spec r 0).
  - exists Continue, r, buf, w1. unfold pure. repeat split; [lia|left; split; [reflexivity|lia]].
  - unfold bind at 1. unfold i2c_transfer at 1. cbv zeta. cbn [fst snd].
    destruct (Z.ltb_spec (xfer_ret w1 (xfer_n w1)) 2).
    + unfold msleep, sleep_us, bind, pure.
      do 4 eexists. split; [reflexivity|]. cbn [xfer_n log slept xferred sent sampled polled allocated].
      split; [lia|]. left. split; [reflexivity|].
      destruct (Z.geb_spec (xfer_ret w1 (xfer_n w1)) 0); unfold EIO; lia.
    + destruct (first_word _ =? COMMS_ERROR); unfold pure;
        do 4 eexists; (split; [reflexivity|]); cbn [xfer_n log slept xferred sent sampled polled allocated]; (split; [lia|]).
      * left. split; [reflexivity|]. unfold ENODATA. lia.
      * right. split; reflexivity.
Qed.

Lemma after_fails_step k buf w b wk :
  after_fails force_comms k reg buf w = Some (b, wk) ->
  forall ret b' w',
    read_burst_body force_comms reg b wk = Ok ((Continue, ret, b'), w') ->
    after_fails force_comms (S k) reg buf w = Some (b', w').
Proof.
  revert buf w. induction k as [|k IH]; intros buf w H ret b' w' Hbody.
  - cbn in H. inversion H; subst. cbn. rewrite Hbody. reflexivity.
  - cbn [after_fails] in H |- *.
    destruct (read_burst_body force_comms reg buf w) as [[[[c r0] b0] w0]| |];
      try discriminate.
    destruct c; [|discriminate].
    apply (IH _ _ H _ _ _ Hbody).
Qed.

Lemma after_fails_prefix n : forall k buf w b w',
  after_fails force_comms n reg buf w = Some (b, w') -> (k < n)%nat ->
  exists bk wk ret b1 w1,
    after_fails force_comms k reg buf w = Some (bk, wk) /\
    read_burst_body force_comms reg bk wk = Ok ((Continue, ret, b1), w1).
Proof.
  induction n as [|n IH]; intros k buf w b w' H Hk; [lia|].
  cbn [after_fails] in H.
  destruct (read_burst_body force_comms reg buf w) as [[[[c r0] b0] w0]| |] eqn:Hb;
    try discriminate.
  destruct c; [|discriminate].
  destruct k as [|k].
  - exists buf, w, r0, b0, w0. split; [reflexivity|exact Hb].
  - destruct (IH k b0 w0 b w' H ltac:(lia)) as (bk & wk & ret & b1 & w1 & Hk1 & Hk2).
    exists bk, wk, ret, b1, w1. split; [|exact Hk2].
    cbn [after_fails]. rewrite Hb. exact Hk1.
Qed.

Lemma read_burst_loop_spec n : forall i ret buf w,
  exists i' ret' buf' w',
    read_burst_loop force_comms n reg i ret buf w = Ok ((i', ret', buf'), w') /\
    (xfer_n w' <= xfer_n w + n)%nat /\
    ((exists k b wk, (k < n)%nat /\
        after_fails force_comms k reg buf w = Some (b, wk) /\
        read_burst_body force_comms reg b wk = Ok ((Break, 0, buf'), w') /\
        ret' = 0 /\ i' = (i + k + 1)%nat) \/
     (after_fails force_comms n reg buf w = Some (buf', w') /\
      i' = (i + n)%nat /\ (n = 0%nat -> ret' = ret) /\ ((0 < n)%nat -> ret' < 0))).
Proof using force_comms_total.
  induction n as [|n IH]; intros i ret buf w.
  - exists i, ret, buf, w. cbn. unfold pure. split; [reflexivity|].
    split; [lia|]. right. repeat split; (lia || reflexivity).
  - cbn [read_burst_loop].
    destruct (read_burst_body_cases buf w) as (c & r & b1 & w1 & Hbody & Hx & Hc).
    rewrite (bind_ok _ _ _ _ _ Hbody).
    destruct Hc as [[-> Hneg]|[-> ->]].
    + destruct (IH (S i) r b1 w1) as (i' & ret' & buf' & w' & Hrun & Hx' & Hcase).
      exists i', ret', buf', w'. split; [exact Hrun|]. split; [lia|].
      destruct Hcase as [(k & b & wk & Hk & Haf & Hbk & -> & ->)|(Haf & -> & H0 & Hpos)].
      * left. exists (S k), b, wk. split; [lia|].
        split; [cbn [after_fails]; rewrite Hbody; exact Haf|].
        split; [exact Hbk|]. split; [reflexivity|lia].
      * right. split; [cbn [after_fails]; rewrite Hbody; exact Haf|].
        split; [lia|]. split; [lia|]. intros _.
        destruct n as [|n]; [rewrite H0 by reflexivity; exact Hneg|apply Hpos; lia].
    + exists (S i), 0, b1, w1. unfold pure. split; [reflexivity|]. split; [lia|].
      left. exists 0%nat, buf, w. split; [lia|]. split; [reflexivity|].
      split; [exact Hbody|]. split; [reflexivity|lia].
Qed.

Lemma read_burst_meets_spec val w :
  burst_read_spec (read_burst force_comms settle reg val) force_comms reg val w.
Proof using force_comms_total settle_total.
  unfold burst_read_spec, read_burst.
  destruct (read_burst_loop_spec NUM_RETRIES 0 0 val w)
    as (i' & ret' & buf' & w' & Hrun & Hx & Hcase).
  rewrite (bind_ok _ _ _ _ _ Hrun).
  destruct (settle_total w') as (w'' & Hs & Hxs).
  rewrite (bind_ok _ _ _ _ _ Hs). unfold pure.
  exists ret', buf', w''. split; [reflexivity|].
  destruct Hcase as [(k & b & wk & Hk & Haf & Hbk & -> & ->)|(Haf & -> & _ & Hneg)].
  - split; [left; reflexivity|]. split; [lia|]. split.
    + split; [intros _|reflexivity].
      exists k, b, wk. split; [exact Hk|]. split; [exact Haf|].
      exists buf', w'. exact Hbk.
    + split; [lia|]. intros (b5 & w5 & H5).
      destruct (after_fails_prefix _ k _ _ _ _ H5 Hk)
        as (bk & wk' & r & b1 & w1 & Hk1 & Hk2).
      rewrite Haf in Hk1. inversion Hk1; subst. rewrite Hbk in Hk2. discriminate.
  - specialize (Hneg ltac:(unfold NUM_RETRIES; lia)).
    split; [right; exact Hneg|]. split; [lia|]. split.
    + split; [lia|]. intros (k & b & wk & Hk & Hafk & (b' & wb & Hsucc)).
      destruct (after_fails_prefix _ k _ _ _ _ Haf Hk)
        as (bk & wk' & r & b1 & w1 & Hk1 & Hk2).
      rewrite Hafk in Hk1. inversion Hk1; subst. rewrite Hsucc in Hk2. discriminate.
    + split; [intros _|intros _; exact Hneg].
      exists buf', w'. exact Haf.
Qed.

Lemma pass_shape : pass_is_handshake_then_transfer force_comms reg.
Proof using force_comms_total.
  intros buf w. destruct (force_comms_total w) as (r & w1 & Hfc & _).
  exists r, w1. split; [exact Hfc|].
  unfold read_burst_body. rewrite (bind_ok _ _ _ _ _ Hfc).
  destruct (r <? 0); [reflexivity|].
  unfold bind at 1. unfold i2c_transfer at 1. cbv zeta. cbn [fst snd].
  destruct (_ <? 2).
  - unfold msleep, sleep_us, bind, pure. do 5 eexists.
    split; [reflexivity|]. cbn [xfer_n trace log slept xferred sent sampled polled allocated].
    split; [reflexivity|]. rewrite <- app_assoc. reflexivity.
  - destruct (first_word _ =? COMMS_ERROR); unfold pure; do 4 eexists; exists [];
      (split; [reflexivity|]); cbn [xfer_n trace log slept xferred sent sampled polled allocated]; split; reflexivity.
Qed.

Lemma sentinel_retried : sentinel_is_retried force_comms reg.
Proof.
  intros buf w r w1 Hfc Hr Hx Hbuf Hword.
  unfold read_burst_body. rewrite (bind_ok _ _ _ _ _ Hfc).
  destruct (Z.ltb_spec r 0); [lia|].
  unfold bind at 1. unfold i2c_transfer at 1. cbv zeta. cbn [fst snd].
  destruct (Z.ltb_spec (xfer_ret w1 (xfer_n w1)) 2); [lia|].
  destruct (Z.leb_spec 2 (xfer_ret w1 (xfer_n w1))); [|lia].
  destruct buf as [|b0 buf]; [contradiction|].
  cbn [length seq map first_word nth]. rewrite Hword, Z.eqb_refl.
  unfold pure. eauto.
Qed.

End BurstProps.

(** ** The handshakes return *)

Lemma sleep_us_spec us w :
  exists w', sleep_us us w = Ok (tt, w') /\ xfer_n w' = xfer_n w /\
             rdy w' = rdy w /\ now w + us <= now w'.
Proof.
  eexists. split; [reflexivity|]. cbn. repeat split. lia.
Qed.

(** With a pass of fuel for each millisecond before the deadline, the
    RDY poll of the IQS7219A returns: 0, a GPIO error or -EBUSY. *)
Lemma irq_poll_loop_total fuel : forall irq_timeout w,
  (0 < fuel)%nat -> irq_timeout - now w <= 1000 * Z.of_nat fuel ->
  exists r w', Iqs7219.irq_poll_loop fuel irq_timeout w = Ok (r, w') /\
               r <= 0 /\ xfer_n w' = xfer_n w /\ now w + 1000 <= now w'.
Proof.
  induction fuel as [|fuel IH]; intros irq_timeout w Hpos Hfuel; [lia|].
  cbn [Iqs7219.irq_poll_loop]. unfold usleep_range.
  destruct (sleep_us_spec 1000 w) as (w1 & Hs & Hx1 & _ & Ht1).
  rewrite (bind_ok _ _ _ _ _ Hs).
  unfold bind at 1. unfold gpiod_get_value_cansleep at 1.
  set (w2 := sampled w1).
  assert (Hw2 : xfer_n w2 = xfer_n w /\ now w2 = now w1) by (split; [exact Hx1|reflexivity]).
  destruct Hw2 as [Hx2 Ht2].
  destruct (Z.ltb_spec (rdy w1 (rdy_n w1)) 0).
  - unfold pure. do 2 eexists. split; [reflexivity|]. repeat split; lia.
  - destruct (Z.gtb_spec (rdy w1 (rdy_n w1)) 0).
    + unfold pure. do 2 eexists. split; [reflexivity|]. repeat split; lia.
    + unfold bind, ktime_get.
      destruct (Z.ltb_spec (now w2) irq_timeout).
      * destruct (IH irq_timeout w2) as (r & w' & Hrun & Hr & Hx & Ht); [lia|lia|].
        exists r, w'. split; [exact Hrun|]. repeat split; lia.
      * unfold pure. do 2 eexists. split; [reflexivity|].
        unfold EBUSY. repeat split; lia.
Qed.

Lemma iqs7219_irq_poll_total timeout_ms w :
  exists r w', Iqs7219.iqs7219_irq_poll timeout_ms w = Ok (r, w') /\
               r <= 0 /\ xfer_n w' = xfer_n w /\ now w + 1000 <= now w'.
Proof.
  unfold Iqs7219.iqs7219_irq_poll, bind, ktime_get.
  apply irq_poll_loop_total; lia.
Qed.

Lemma iqs7219_force_comms_total w :
  exists r w', Iqs7219.iqs7219_force_comms w = Ok (r, w') /\ xfer_n w' = xfer_n w.
Proof.
  unfold Iqs7219.iqs7219_force_comms. cbv zeta.
  unfold bind at 1. unfold gpiod_get_value_cansleep at 1.
  destruct (_ <? 0); [unfold pure; eauto|].
  destruct (_ >? 0); [unfold pure; eauto|].
  unfold bind at 1. unfold i2c_master_send at 1. cbv zeta.
  match goal with |- context [if ?c then _ else _] => destruct c end.
  - unfold msleep, sleep_us, bind, pure. eauto.
  - match goal with
    | |- context [Iqs7219.iqs7219_irq_poll ?t ?w0] =>
        destruct (iqs7219_irq_poll_total t w0) as (r & w' & Hrun & _ & Hx & _)
    end.
    exists r, w'. split; [exact Hrun|exact Hx].
Qed.

Lemma iqs9150_force_comms_total mode w :
  exists r w', Iqs9150.iqs9150_force_comms mode w = Ok (r, w') /\ xfer_n w' = xfer_n w.
Proof.
  unfold Iqs9150.iqs9150_force_comms. cbv zeta. destruct mode.
  - unfold Iqs9150.iqs9150_irq_poll, readx_poll_timeout, bind, pure. eauto.
  - unfold pure. eauto.
  - unfold bind at 1. unfold gpiod_get_value_cansleep at 1.
    destruct (_ <? 0); [unfold pure; eauto|].
    destruct (_ >? 0); [unfold pure; eauto|].
    unfold bind at 1. unfold i2c_master_send at 1. cbv zeta.
    match goal with |- context [if ?c then _ else _] => destruct c end.
    + unfold msleep, sleep_us, bind, pure. eauto.
    + unfold Iqs9150.iqs9150_irq_wait, usleep_range, sleep_us,
        Iqs9150.iqs9150_irq_poll, readx_poll_timeout, bind, pure. eauto.
Qed.

Lemma usleep_range_total lo hi w :
  exists w', usleep_range lo hi w = Ok (tt, w') /\ xfer_n w' = xfer_n w.
Proof. unfold usleep_range, sleep_us. eauto. Qed.

(** C2. A burst read of the IQS7219A or of the IQS9150 makes at most
    five passes, each the forced-communication handshake followed, when
    the handshake succeeds, by one bus transaction; a transaction that
    reads the sentinel 0xEEEE first counts as failed and is retried; the
    read returns 0 exactly when one of the five passes succeeds and a
    negative error when all five fail.  With a bus that fails four
    transactions and then delivers, the read succeeds on the fifth; with
    a bus that always fails, it gives up after exactly five. *)
Theorem burst_read_retries_five_times
        (mode : Iqs9150.iqs9150_comms_mode) (reg : Z) (val : list Z) (w : world) :
  burst_read_spec (Iqs7219.iqs7219_read_burst reg val)
                  Iqs7219.iqs7219_force_comms [reg] val w /\
  burst_read_spec (Iqs9150.__iqs9150_read_burst mode reg val)
                  (Iqs9150.iqs9150_force_comms mode) (le16_bytes reg) val w /\
  pass_is_handshake_then_transfer Iqs7219.iqs7219_force_comms [reg] /\
  pass_is_handshake_then_transfer (Iqs9150.iqs9150_force_comms mode) (le16_bytes reg) /\
  sentinel_is_retried Iqs7219.iqs7219_force_comms [reg] /\
  sentinel_is_retried (Iqs9150.iqs9150_force_comms mode) (le16_bytes reg) /\
  (let late := stub [] 1 [] 1 [0; 0; 2; - 5; 2] 0
                    [[]; []; [COMMS_ERROR]; []; [0x1234]] [] 1 in
   let r := Iqs7219.iqs7219_read_burst 0x10 [0] late in
   result_of r = Some (0, [0x1234]) /\ option_map xfer_n (final_of r) = Some 5%nat) /\
  (let dead := stub [] 1 [] 1 [] 0 [] [] 1 in
   let r := Iqs7219.iqs7219_read_burst 0x10 [0] dead in
   result_of r = Some (- EIO, [0]) /\ option_map xfer_n (final_of r) = Some 5%nat).
Proof.
  split.
  { apply read_burst_meets_spec;
      [apply iqs7219_force_comms_total|intros w0; apply usleep_range_total]. }
  split.
  { apply read_burst_meets_spec;
      [apply iqs9150_force_comms_total|intros w0; apply usleep_range_total]. }
  split; [apply pass_shape, iqs7219_force_comms_total|].
  split; [apply pass_shape, iqs9150_force_comms_total|].
  split; [apply sentinel_retried|]. split; [apply sentinel_retried|].
  split; cbv zeta; split; vm_compute; reflexivity.
Qed.

(** ** The theorems at concrete inputs *)

Lemma iqs7219_delta_is_clamped_witness :
  let p := iqs7219_example (stub [] 1 [] 1 [] 2 [[0; 0; 150; 100]] [] 1) 0 [true; true] in
  exists p', Iqs7219.iqs7219_report_sync Iqs7219.IQS7219_SCAN_DELTA 0 (Some 7) p
             = Ok ((0, Some 0), p').
Proof.
  cbv zeta.
  set (p := iqs7219_example _ 0 [true; true]).
  destruct (iqs7219_delta_is_clamped p (fst (status_of p)) (snd (status_of p)) 0 7)
    as (_ & _ & _ & _ & p' & H).
  - vm_compute. reflexivity.
  - vm_compute. repeat split.
  - unfold Iqs7219.IQS7219_NUM_CHAN. lia.
  - split.
    + intros i Hi. unfold Iqs7219.IQS7219_NUM_CHAN in Hi.
      destruct i as [|[|]]; [vm_compute; split; [discriminate|reflexivity]..|lia].
    + intros _. split; [reflexivity|]. vm_compute. split; [discriminate|reflexivity].
  - exists p'. exact H.
Defined.

Lemma iqs7219_events_debounced_witness :
  let p := iqs7219_example (stub [] 1 [] 1 [] 2 [[0; 2]] [] 1) 0 [true; true] in
  exists val' p',
    Iqs7219.iqs7219_report_sync (-1) (-1) None p = Ok ((0, val'), p') /\
    Iqs7219.pxs_flags p' = 2 /\
    Iqs7219.pushed p' = [Iqs7219.mk_event 0 Iqs7219.IIO_EV_DIR_RISING].
Proof.
  cbv zeta.
  set (p := iqs7219_example _ 0 [true; true]).
  destruct (iqs7219_events_debounced (-1) (-1) None p (fst (status_of p)) (snd (status_of p)))
    as (val' & p' & Hrun & Hc & _ & _ & _ & Hone & _).
  - vm_compute. reflexivity.
  - vm_compute. repeat split.
  - split.
    + intros i Hi. unfold Iqs7219.IQS7219_NUM_CHAN in Hi.
      destruct i as [|[|]]; [vm_compute; split; [discriminate|reflexivity]..|lia].
    + unfold Iqs7219.IQS7219_NUM_CHAN. cbn. lia.
  - exists val', p'. split; [exact Hrun|]. split; [exact Hc|].
    apply (Hone 0%nat 1%nat); [lia|lia|reflexivity|].
    intros i j Hi Hj Hne.
    destruct i as [|[|]]; try lia; destruct j as [|[|[|]]]; try lia;
      try reflexivity; congruence.
Defined.

Lemma scalar_fields_read_back_witness :
  let node := node_of [("azoteq,ati-mode"%string, [4]);
                       ("azoteq,sense-mode"%string, [1])] [] in
  let setup := repeat 0xFFFF 13 in
  field_bits (word_at (snd (Iqs7219.parse_prop node iqs7219_ati_mode 0 setup)) 8) 0 3 = 4 /\
  field_bits (word_at (snd (Iqs323.parse_prop node iqs323_sense_mode 0 setup)) 2) 0 6 = 0x13.
Proof.
  cbv zeta.
  destruct (scalar_fields_read_back
              (node_of [("azoteq,ati-mode"%string, [4]);
                        ("azoteq,sense-mode"%string, [1])] [])
              0 (repeat 0xFFFF 13) iqs7219_ati_mode iqs323_sense_mode 4 1)
    as ((_ & H7 & _) & (_ & H3 & _));
    [vm_compute; tauto|discriminate|cbn; lia|reflexivity|reflexivity
    |vm_compute; intuition discriminate
    |vm_compute; tauto|discriminate|cbn; lia|reflexivity
    |vm_compute; intuition discriminate|].
  split; [exact H7|exact H3].
Defined.

(** ** Transfers over a bus that works *)

Lemma reads_0 w : reads w 0 = u16 (xfer_word w (xfer_n w) 0).
Proof. unfold reads. rewrite Nat.add_0_r. reflexivity. Qed.

Section GoodBurst.
Variable force_comms : M world Z.
Variables lo hi : Z.
Hypothesis force_comms_good : forall w, good w -> force_comms w = Ok (0, sampled w).

Lemma read_burst_body_good reg buf w :
  good w -> buf <> [] -> reads w 0 <> COMMS_ERROR ->
  read_burst_body force_comms reg buf w =
  Ok ((Break, 0, map (fun j => u16 (xfer_word w (xfer_n w) j)) (seq 0 (length buf))),
      xferred reg (length buf) (sampled w)).
Proof using force_comms_good.
  intros Hg Hbuf Hword. rewrite reads_0 in Hword.
  unfold read_burst_body.
  rewrite (bind_ok _ _ _ _ _ (force_comms_good w Hg)).
  cbn [Z.ltb Z.compare].
  unfold bind, i2c_transfer. cbv zeta. cbn [fst snd].
  destruct Hg as (_ & _ & Hx & _).
  change (xfer_ret (sampled w)) with (xfer_ret w).
  change (xfer_n (sampled w)) with (xfer_n w).
  change (xfer_word (sampled w)) with (xfer_word w).
  rewrite Hx. cbn [Z.ltb Z.leb Z.compare Pos.compare Pos.compare_cont].
  destruct buf as [|b0 buf]; [contradiction|].
  cbn [length seq map first_word nth].
  destruct (Z.eqb_spec (u16 (xfer_word w (xfer_n w) 0)) COMMS_ERROR) as [E|_];
    [contradiction|].
  reflexivity.
Qed.

Lemma read_burst_good reg buf w :
  good w -> buf <> [] -> reads w 0 <> COMMS_ERROR ->
  read_burst force_comms (usleep_range lo hi) reg buf w =
  Ok ((0, map (fun j => u16 (xfer_word w (xfer_n w) j)) (seq 0 (length buf))),
      slept lo (xferred reg (length buf) (sampled w))).
Proof using force_comms_good.
  intros Hg Hbuf Hword.
  unfold read_burst, NUM_RETRIES.
  assert (read_burst_loop force_comms 5 reg 0 0 buf w =
          Ok ((1%nat, 0, map (fun j => u16 (xfer_word w (xfer_n w) j))
                              (seq 0 (length buf))),
              xferred reg (length buf) (sampled w))) as L.
  { cbn [read_burst_loop].
    rewrite (bind_ok _ _ _ _ _ (read_burst_body_good reg buf w Hg Hbuf Hword)).
    reflexivity. }
  rewrite (bind_ok _ _ _ _ _ L). reflexivity.
Qed.

Lemma write_burst_body_good msg w :
  good w ->
  write_burst_body force_comms msg w = Ok ((Break, 0), sent msg (sampled w)).
Proof using force_comms_good.
  intros Hg. unfold write_burst_body.
  rewrite (bind_ok _ _ _ _ _ (force_comms_good w Hg)).
  cbn [Z.ltb Z.compare].
  unfold bind, i2c_master_send. cbv zeta.
  destruct Hg as (_ & Hs & _ & _).
  change (send_ret (sampled w)) with (send_ret w).
  change (send_n (sampled w)) with (send_n w).
  rewrite Hs. cbn [Z.eqb Pos.eqb]. rewrite Z.ltb_irrefl.
  reflexivity.
Qed.

Lemma write_burst_good reg val w :
  good w ->
  write_burst force_comms (usleep_range lo hi) reg val w =
  Ok (0, slept lo (sent (reg ++ flat_map le16_bytes val)
                        (sampled (allocated w)))).
Proof using force_comms_good.
  intros Hg. unfold write_burst, NUM_RETRIES.
  unfold bind at 1. unfold kzalloc at 1.
  destruct Hg as (G1 & G2 & G3 & G4 & G5). rewrite G5. cbn [negb]. cbv zeta.
  assert (Hg : good (allocated w)) by (repeat split; assumption).
  assert (write_burst_loop force_comms 5 (reg ++ flat_map le16_bytes val) 0
            (allocated w) =
          Ok (0, sent (reg ++ flat_map le16_bytes val) (sampled (allocated w)))) as L.
  { cbn [write_burst_loop].
    rewrite (bind_ok _ _ _ _ _ (write_burst_body_good _ _ Hg)).
    reflexivity. }
  rewrite (bind_ok _ _ _ _ _ L). reflexivity.
Qed.

Lemma read_word_good reg val w :
  good w -> reads w 0 <> COMMS_ERROR ->
  read_word force_comms (usleep_range lo hi) reg val w =
  Ok ((0, reads w 0), slept lo (xferred reg 1 (sampled w))).
Proof using force_comms_good.
  intros Hg Hword. unfold read_word.
  rewrite (bind_ok _ _ _ _ _ (read_burst_good reg [0] w Hg ltac:(discriminate) Hword)).
  cbn [fst snd length seq map first_word nth]. rewrite truthy_0, reads_0. reflexivity.
Qed.

Lemma write_word_good reg val w :
  good w ->
  write_word force_comms (usleep_range lo hi) reg val w =
  Ok (0, slept lo (sent (reg ++ le16_bytes val) (sampled (allocated w)))).
Proof using force_comms_good.
  intros Hg. unfold write_word. rewrite write_burst_good by exact Hg.
  cbn [flat_map]. rewrite app_nil_r. reflexivity.
Qed.

End GoodBurst.

Lemma iqs7219_force_comms_good w :
  good w -> Iqs7219.iqs7219_force_comms w = Ok (0, sampled w).
Proof.
  intros (Hr & _). unfold Iqs7219.iqs7219_force_comms. cbv zeta.
  unfold bind, gpiod_get_value_cansleep.
  specialize (Hr (rdy_n w)).
  destruct (Z.ltb_spec (rdy w (rdy_n w)) 0); [lia|].
  destruct (Z.gtb_spec (rdy w (rdy_n w)) 0); [reflexivity|lia].
Qed.

Lemma iqs323_force_comms_good w :
  good w -> Iqs323.iqs323_force_comms w = Ok (0, sampled w).
Proof.
  intros (Hr & _). unfold Iqs323.iqs323_force_comms. cbv zeta.
  unfold bind, gpiod_get_value_cansleep.
  specialize (Hr (rdy_n w)).
  destruct (Z.ltb_spec (rdy w (rdy_n w)) 0); [lia|].
  destruct (Z.gtb_spec (rdy w (rdy_n w)) 0); [reflexivity|lia].
Qed.

Lemma iqs7219_irq_poll_good timeout_ms w :
  good w -> Iqs7219.iqs7219_irq_poll timeout_ms w = Ok (0, sampled (slept 1000 w)).
Proof.
  intros (Hr & _). unfold Iqs7219.iqs7219_irq_poll.
  unfold bind at 1. unfold ktime_get at 1.
  cbn [Iqs7219.irq_poll_loop]. unfold usleep_range, sleep_us.
  unfold bind, gpiod_get_value_cansleep.
  change (rdy (slept 1000 w)) with (rdy w).
  specialize (Hr (rdy_n (slept 1000 w))).
  destruct (Z.ltb_spec (rdy w (rdy_n (slept 1000 w))) 0); [lia|].
  destruct (Z.gtb_spec (rdy w (rdy_n (slept 1000 w))) 0); [reflexivity|lia].
Qed.

Lemma iqs323_irq_poll_good timeout_us w :
  good w -> Iqs323.iqs323_irq_poll timeout_us w = Ok (0, polled w).
Proof.
  intros (_ & _ & _ & Hp & _). unfold Iqs323.iqs323_irq_poll, readx_poll_timeout, bind, pure.
  cbn [fst snd]. specialize (Hp (poll_n w)).
  destruct (Z.ltb_spec (poll_val w (poll_n w)) 0); [lia|].
  assert (truthy (poll_val w (poll_n w)) = true) as -> by (apply truthy_true; lia).
  reflexivity.
Qed.

(** ** Later states of the bus *)

Lemma same_bus_refl w : same_bus w w.
Proof. repeat split; lia. Qed.

Lemma same_bus_trans w1 w2 w3 : same_bus w1 w2 -> same_bus w2 w3 -> same_bus w1 w3.
Proof.
  intros (A1 & A2 & A3 & A4 & A5 & A6 & A7) (B1 & B2 & B3 & B4 & B5 & B6 & B7).
  repeat split; try congruence. lia.
Qed.

Lemma good_same_bus w w' : good w -> same_bus w w' -> good w'.
Proof.
  intros (G1 & G2 & G3 & G4 & G5) (A1 & A2 & A3 & A4 & A5 & A6 & A7).
  unfold good. rewrite A1, A2, A3, A5, A7. repeat split; assumption.
Qed.

Lemma onward_same_bus P w w' : onward P w -> same_bus w w' -> onward P w'.
Proof.
  intros H (A1 & A2 & A3 & A4 & A5 & A6) k.
  specialize (H (k + (xfer_n w' - xfer_n w))%nat). unfold reads in *.
  rewrite A4.
  replace (xfer_n w' + k)%nat with (xfer_n w + (k + (xfer_n w' - xfer_n w)))%nat
    by lia.
  exact H.
Qed.

Lemma runs_on_refl w : runs_on w w [].
Proof. split; [apply same_bus_refl|]. rewrite app_nil_r. reflexivity. Qed.

Lemma runs_on_trans w1 w2 w3 evs1 evs2 :
  runs_on w1 w2 evs1 -> runs_on w2 w3 evs2 -> runs_on w1 w3 (evs1 ++ evs2).
Proof.
  intros (S1 & T1) (S2 & T2). split; [exact (same_bus_trans _ _ _ S1 S2)|].
  rewrite T2, T1, app_assoc. reflexivity.
Qed.

(** A burst write begins with the allocation of the message. *)
Lemma write_burst_alloc force_comms settle reg val w :
  write_burst force_comms settle reg val w =
  if mem w (mem_n w)
  then (ret <- write_burst_loop force_comms NUM_RETRIES
                 (reg ++ flat_map le16_bytes val) 0 ;;
        settle ;; pure ret) (allocated w)
  else Ok (- ENOMEM, allocated w).
Proof.
  unfold write_burst. unfold bind at 1. unfold kzalloc.
  destruct (mem w (mem_n w)); reflexivity.
Qed.

Lemma iqs9150_write_burst_alloc mode reg val w :
  Iqs9150.__iqs9150_write_burst mode reg val w =
  if mem w (mem_n w)
  then (ret <- write_burst_loop (Iqs9150.iqs9150_force_comms mode) NUM_RETRIES
                 (le16_bytes reg ++ val) 0 ;;
        Iqs9150.iqs9150_irq_wait ;; pure ret) (allocated w)
  else Ok (- ENOMEM, allocated w).
Proof.
  unfold Iqs9150.__iqs9150_write_burst. unfold bind at 1. unfold kzalloc.
  destruct (mem w (mem_n w)); reflexivity.
Qed.

(** With memory at hand every buffer is obtained. *)
Lemma good_allocated w : good w -> good (allocated w).
Proof. intros Hg. exact Hg. Qed.

Lemma kzalloc_good w : good w -> kzalloc w = Ok (true, allocated w).
Proof. intros (_ & _ & _ & _ & Hm). unfold kzalloc. rewrite Hm. reflexivity. Qed.

Lemma iqs7219_kzalloc_good p :
  good (Iqs7219.io p) ->
  Iqs7219.with_io kzalloc p
  = Ok (true, Iqs7219.set_io (allocated (Iqs7219.io p)) p).
Proof.
  intros Hg. unfold Iqs7219.with_io. rewrite (kzalloc_good _ Hg). reflexivity.
Qed.

Lemma iqs323_kzalloc_good p :
  good (Iqs323.io p) ->
  Iqs323.with_io kzalloc p
  = Ok (true, Iqs323.set_io (allocated (Iqs323.io p)) p).
Proof.
  intros Hg. unfold Iqs323.with_io. rewrite (kzalloc_good _ Hg). reflexivity.
Qed.

(** The steps of the world stay on the bus. *)
Lemma runs_on_sampled w : runs_on w (sampled w) [].
Proof. split; [repeat split; cbn; lia|]. cbn. rewrite app_nil_r. reflexivity. Qed.

Lemma runs_on_polled w : runs_on w (polled w) [].
Proof. split; [repeat split; cbn; lia|]. cbn. rewrite app_nil_r. reflexivity. Qed.

Lemma runs_on_allocated w : runs_on w (allocated w) [].
Proof. split; [repeat split; cbn; lia|]. cbn. rewrite app_nil_r. reflexivity. Qed.

Lemma runs_on_sent msg w : runs_on w (sent msg w) [EvSend msg].
Proof. split; [repeat split; cbn; lia|]. reflexivity. Qed.

Lemma runs_on_slept us w : runs_on w (slept us w) [EvSleep us].
Proof. split; [repeat split; cbn; lia|]. reflexivity. Qed.

Lemma runs_on_log e w : runs_on w (log e w) [e].
Proof. split; [repeat split; cbn; lia|]. reflexivity. Qed.

Lemma runs_on_xferred reg n w : runs_on w (xferred reg n w) [EvXfer reg n].
Proof. split; [repeat split; cbn; lia|]. reflexivity. Qed.

(** A later state of the bus that is written out. *)
Ltac runs_on_explicit :=
  split;
  [ repeat split; cbn; lia
  | cbn [Iqs323.io Iqs323.set_io Iqs323.set_intf_mode
         trace slept xferred sent sampled polled log allocated];
    repeat rewrite <- app_assoc; reflexivity ].

(** ** The ATI trigger of the IQS7219A *)

Lemma reads_xferred reg n w j : reads (xferred reg n w) j = reads w (S j).
Proof.
  unfold reads. cbn [xferred xfer_n xfer_word]. rewrite Nat.add_succ_r.
  reflexivity.
Qed.

Section Iqs7219Ati.
Import Iqs7219.
Variables intf_mode sys_setup : Z.

(** One pass of the do-while on a bus that works. *)
Lemma ati_wait_step fuel ati_timeout sys_status w :
  good w -> reads w 0 <> COMMS_ERROR ->
  let w1 := slept 50 (xferred [IQS7219_SYS_STATUS] 1
                        (sampled (sampled (slept 1000 w)))) in
  ati_wait (S fuel) intf_mode ati_timeout sys_setup sys_status w =
  if iqs7219_ati_active (reads w 0) then
    if now w1 <? ati_timeout
    then ati_wait fuel intf_mode ati_timeout sys_setup (reads w 0) w1
    else Ok (AtiFailed (reads w 0), w1)
  else if iqs7219_ati_error (reads w 0) then Ok (AtiFailed (reads w 0), w1)
  else Ok (AtiReturn 0,
           slept 50 (sent (IQS7219_SYS_SETUP ::
                           le16_bytes (u16_or sys_setup intf_mode))
                          (sampled (allocated w1)))).
Proof.
  intros Hg Hword w1. cbn [ati_wait].
  rewrite (bind_ok _ _ _ _ _ (iqs7219_irq_poll_good _ w Hg)).
  rewrite truthy_0. unfold iqs7219_read_word.
  rewrite (bind_ok _ _ _ _ _
             (read_word_good iqs7219_force_comms 50 100 iqs7219_force_comms_good
                [IQS7219_SYS_STATUS] sys_status (sampled (slept 1000 w)) Hg Hword)).
  cbn [fst snd]. rewrite truthy_0.
  change (reads (sampled (slept 1000 w)) 0) with (reads w 0).
  unfold iqs7219_ati_active, iqs7219_ati_error.
  destruct (truthy (Z.land (reads w 0) IQS7219_SYS_STATUS_ATI_ACTIVE)).
  - unfold bind at 1. unfold ktime_get. fold w1.
    destruct (now w1 <? ati_timeout); reflexivity.
  - destruct (truthy (Z.land (reads w 0) IQS7219_SYS_STATUS_ATI_ERROR));
      [reflexivity|].
    unfold iqs7219_write_word.
    rewrite (bind_ok _ _ _ _ _
               (write_word_good iqs7219_force_comms 50 100 iqs7219_force_comms_good
                  [IQS7219_SYS_SETUP] (u16_or sys_setup intf_mode) w1 Hg)).
    reflexivity.
Qed.

(** The start of an attempt on a bus that works. *)
Lemma ati_attempts_step n sys_status w :
  good w ->
  let w1 := slept 50 (sent (IQS7219_SYS_SETUP ::
                            le16_bytes
                              (u16 (Z.lor
                                      (Z.land sys_setup
                                              (Z.lnot IQS7219_SYS_SETUP_PWR_MODE_MASK))
                                      IQS7219_SYS_SETUP_REDO_ATI)))
                           (sampled (allocated w))) in
  ati_attempts (S n) intf_mode sys_setup sys_status w =
  bind (ati_wait (S (Z.to_nat IQS7219_ATI_TIMEOUT_MS)) intf_mode
                 (now w1 + IQS7219_ATI_TIMEOUT_MS * 1000) sys_setup sys_status)
       (fun x => match x with
                 | AtiReturn error => pure error
                 | AtiFailed sys_status =>
                     ati_attempts n intf_mode sys_setup sys_status
                 end) w1.
Proof.
  intros Hg w1. cbn [ati_attempts]. unfold iqs7219_write_word.
  rewrite (bind_ok _ _ _ _ _
             (write_word_good iqs7219_force_comms 50 100 iqs7219_force_comms_good
                [IQS7219_SYS_SETUP] _ w Hg)).
  rewrite truthy_0. unfold bind at 1. unfold ktime_get at 1. reflexivity.
Qed.

(** Attempts that each read a status with the error flag and without the
    active flag use up the loop. *)
Lemma ati_attempts_errors n : forall sys_status w,
  good w ->
  (forall j, (j < n)%nat ->
     iqs7219_ati_active (reads w j) = false /\
     iqs7219_ati_error (reads w j) = true /\
     reads w j <> COMMS_ERROR) ->
  exists w',
    ati_attempts n intf_mode sys_setup sys_status w = Ok (- ETIMEDOUT, w') /\
    trace w' = trace w ++ concat (repeat (iqs7219_ati_attempt sys_setup) n).
Proof.
  induction n as [|n IH]; intros sys_status w Hg Hst.
  - exists w. split; [reflexivity|]. cbn. rewrite app_nil_r. reflexivity.
  - destruct (Hst 0%nat ltac:(lia)) as (Ha & He & Hw).
    rewrite (ati_attempts_step n sys_status w Hg). cbv zeta.
    unfold bind at 1.
    rewrite ati_wait_step by (try exact Hg; exact Hw). cbv zeta.
    match goal with |- context [iqs7219_ati_active ?r] =>
      change r with (reads w 0) end.
    rewrite Ha.
    match goal with |- context [iqs7219_ati_error ?r] =>
      change r with (reads w 0) end.
    rewrite He.
    match goal with |- context [ati_attempts n _ _ ?s ?w1] =>
      destruct (IH s w1) as (w' & Hrun & Htr) end.
    + exact Hg.
    + intros j Hj.
      specialize (Hst (S j) ltac:(lia)).
      match goal with |- context [reads ?w1 j] =>
        change (reads w1 j) with (reads (xferred [IQS7219_SYS_STATUS] 1 w) j) end.
      rewrite reads_xferred. exact Hst.
    + exists w'. split; [exact Hrun|]. rewrite Htr.
      cbn [repeat concat trace slept xferred sent sampled allocated].
      unfold iqs7219_ati_attempt, iqs7219_redo_ati.
      repeat rewrite <- app_assoc. reflexivity.
Qed.

(** Status reads that show ATI active [k] times and then neither flag:
    the wait goes on, within the attempt or in the next one when the
    deadline of the attempt has passed, and ends with the write that
    restores the interface mode. *)
Lemma ati_wait_actives k : forall fuel n ati_timeout sys_status w,
  (k < fuel)%nat -> (k <= n)%nat -> (n <= Z.to_nat IQS7219_ATI_TIMEOUT_MS)%nat ->
  good w ->
  (forall j, (j < k)%nat -> iqs7219_ati_active (reads w j) = true) ->
  iqs7219_ati_active (reads w k) = false ->
  iqs7219_ati_error (reads w k) = false ->
  exists w' mid,
    bind (ati_wait fuel intf_mode ati_timeout sys_setup sys_status)
         (fun x => match x with
                   | AtiReturn error => pure error
                   | AtiFailed sys_status =>
                       ati_attempts n intf_mode sys_setup sys_status
                   end) w = Ok (0, w') /\
    xfer_n w' = (xfer_n w + S k)%nat /\
    trace w' = trace w ++ mid ++
               [iqs7219_restore_mode sys_setup intf_mode; EvSleep 50].
Proof.
  assert (Hbit8 : forall s, iqs7219_ati_active s = true -> s <> COMMS_ERROR).
  { intros s Hs ->. vm_compute in Hs. discriminate. }
  assert (Hbit9 : forall s, iqs7219_ati_error s = false -> s <> COMMS_ERROR).
  { intros s Hs ->. vm_compute in Hs. discriminate. }
  induction k as [|k IH];
    intros fuel n ati_timeout sys_status w Hf Hn Hn' Hg Hact Hna Hne;
    (destruct fuel as [|fuel]; [lia|]).
  - unfold bind.
    rewrite ati_wait_step by (try exact Hg; apply Hbit9; exact Hne).
    cbv zeta. rewrite Hna, Hne. unfold pure.
    eexists. exists [EvSleep 1000; EvXfer [IQS7219_SYS_STATUS] 1; EvSleep 50].
    split; [reflexivity|]. split.
    + cbn [xfer_n slept xferred sent sampled allocated]. lia.
    + cbn [trace slept xferred sent sampled allocated]. unfold iqs7219_restore_mode.
      repeat rewrite <- app_assoc. reflexivity.
  - pose proof (Hact 0%nat ltac:(lia)) as Ha0.
    unfold bind.
    rewrite ati_wait_step by (try exact Hg; apply Hbit8; exact Ha0).
    cbv zeta. rewrite Ha0.
    set (w1 := slept 50 (xferred [IQS7219_SYS_STATUS] 1
                           (sampled (sampled (slept 1000 w))))).
    assert (Hact1 : forall j, (j < k)%nat -> iqs7219_ati_active (reads w1 j) = true).
    { intros j Hj.
      change (reads w1 j) with (reads (xferred [IQS7219_SYS_STATUS] 1 w) j).
      rewrite reads_xferred. apply Hact. lia. }
    assert (Hna1 : iqs7219_ati_active (reads w1 k) = false).
    { change (reads w1 k) with (reads (xferred [IQS7219_SYS_STATUS] 1 w) k).
      rewrite reads_xferred. exact Hna. }
    assert (Hne1 : iqs7219_ati_error (reads w1 k) = false).
    { change (reads w1 k) with (reads (xferred [IQS7219_SYS_STATUS] 1 w) k).
      rewrite reads_xferred. exact Hne. }
    assert (Hx1 : xfer_n w1 = S (xfer_n w)) by reflexivity.
    assert (Ht1 : trace w1 = trace w ++ [EvSleep 1000;
                                         EvXfer [IQS7219_SYS_STATUS] 1; EvSleep 50]).
    { unfold w1. cbn [trace slept xferred sent sampled allocated].
      repeat rewrite <- app_assoc. reflexivity. }
    destruct (now w1 <? ati_timeout).
    + destruct (IH fuel n ati_timeout (reads w 0) w1)
        as (w' & mid & Hrun & Hx & Htr); try assumption; try lia.
      unfold bind in Hrun. exists w'.
      exists ([EvSleep 1000; EvXfer [IQS7219_SYS_STATUS] 1; EvSleep 50] ++ mid).
      split; [exact Hrun|].
      split; [lia|]. rewrite Htr, Ht1. repeat rewrite <- app_assoc.
      reflexivity.
    + destruct n as [|n]; [lia|].
      rewrite (ati_attempts_step n (reads w 0) w1 Hg). cbv zeta.
      match goal with |- context [bind (ati_wait ?f _ ?t _ ?s) _ ?w2] =>
        destruct (IH f n t s w2) as (w' & mid & Hrun & Hx & Htr);
        try assumption; try lia; set (w2' := w2) in * end.
      exists w'.
      exists ([EvSleep 1000; EvXfer [IQS7219_SYS_STATUS] 1; EvSleep 50;
               iqs7219_redo_ati sys_setup; EvSleep 50] ++ mid).
      split; [exact Hrun|].
      split; [rewrite Hx; cbn [xfer_n slept sent sampled w2' allocated]; lia|].
      rewrite Htr. unfold w2'. cbn [trace slept sent sampled allocated]. rewrite Ht1.
      repeat rewrite <- app_assoc. reflexivity.
Qed.

(** Status reads that all show the ATI error flag, with or without the
    active flag: the wait never ends in a success, and it ends, each pass
    taking more than a millisecond of the time that is left. *)
Lemma ati_wait_error_shown fuel : forall ati_timeout sys_status w,
  good w ->
  onward (fun s => iqs7219_ati_error s = true /\ s <> COMMS_ERROR) w ->
  ati_timeout - now w <= Z.of_nat fuel * 1000 + 1000 ->
  exists sys_status' w' evs,
    ati_wait (S fuel) intf_mode ati_timeout sys_setup sys_status w =
    Ok (AtiFailed sys_status', w') /\
    runs_on w w' evs /\ sends evs = [].
Proof.
  induction fuel as [|fuel IH]; intros ati_timeout sys_status w Hg Hst Ht;
    destruct (Hst 0%nat) as (He & Hw);
    rewrite ati_wait_step by (try exact Hg; exact Hw); cbv zeta; rewrite He;
    set (w1 := slept 50 (xferred [IQS7219_SYS_STATUS] 1
                           (sampled (sampled (slept 1000 w)))));
    assert (Hon : runs_on w w1 [EvSleep 1000; EvXfer [IQS7219_SYS_STATUS] 1;
                                EvSleep 50])
      by (split; [repeat split; cbn; lia|];
          unfold w1; cbn [trace slept xferred sampled allocated];
          repeat rewrite <- app_assoc; reflexivity);
    assert (Hnow : now w + 1050 <= now w1)
      by (unfold w1; cbn [now slept xferred sampled lag lag_n allocated]; lia).
  - assert (Hlate : (now w1 <? ati_timeout) = false) by (apply Z.ltb_ge; lia).
    rewrite Hlate.
    destruct (iqs7219_ati_active (reads w 0));
      exists (reads w 0), w1; eexists; (split; [reflexivity|]);
      (split; [exact Hon|reflexivity]).
  - destruct (iqs7219_ati_active (reads w 0)).
    + destruct (Z.ltb_spec (now w1) ati_timeout) as [Hlt|Hge].
      * destruct (IH ati_timeout (reads w 0) w1) as (s' & w' & evs & Hrun & Hon' & Hs).
        { exact Hg. }
        { exact (onward_same_bus _ _ _ Hst (proj1 Hon)). }
        { lia. }
        exists s', w'. eexists. split; [exact Hrun|]. split.
        -- exact (runs_on_trans _ _ _ _ _ Hon Hon').
        -- unfold sends in *. rewrite List.filter_app, Hs. reflexivity.
      * exists (reads w 0), w1. eexists. split; [reflexivity|].
        split; [exact Hon|reflexivity].
    + exists (reads w 0), w1. eexists. split; [reflexivity|].
      split; [exact Hon|reflexivity].
Qed.

Lemma ati_attempts_error_shown n : forall sys_status w,
  good w ->
  onward (fun s => iqs7219_ati_error s = true /\ s <> COMMS_ERROR) w ->
  exists w' evs,
    ati_attempts n intf_mode sys_setup sys_status w = Ok (- ETIMEDOUT, w') /\
    runs_on w w' evs /\ sends evs = repeat (iqs7219_redo_ati sys_setup) n.
Proof.
  induction n as [|n IH]; intros sys_status w Hg Hst.
  - exists w, []. split; [reflexivity|]. split; [apply runs_on_refl|reflexivity].
  - rewrite (ati_attempts_step n sys_status w Hg). cbv zeta.
    match goal with |- context [bind (ati_wait _ _ ?t _ _) _ ?w1] =>
      set (w1' := w1);
      assert (Hon1 : runs_on w w1' [iqs7219_redo_ati sys_setup; EvSleep 50])
        by (split; [repeat split; cbn; lia|];
            unfold w1'; cbn [trace slept sent sampled allocated];
            repeat rewrite <- app_assoc; reflexivity);
      destruct (ati_wait_error_shown (Z.to_nat IQS7219_ATI_TIMEOUT_MS) t
                  sys_status w1' Hg (onward_same_bus _ _ _ Hst (proj1 Hon1)))
        as (s' & w2 & evs2 & Hrun2 & Hon2 & Hs2)
    end.
    { unfold w1', IQS7219_ATI_TIMEOUT_MS. cbn [now slept sent sampled allocated]. lia. }
    rewrite (bind_ok _ _ _ _ _ Hrun2).
    assert (Hb2 : same_bus w w2)
      by exact (same_bus_trans _ _ _ (proj1 Hon1) (proj1 Hon2)).
    destruct (IH s' w2 (good_same_bus _ _ Hg Hb2) (onward_same_bus _ _ _ Hst Hb2))
      as (w' & evs & Hrun & Hon & Hs).
    exists w'. eexists. split; [exact Hrun|]. split.
    + exact (runs_on_trans _ _ _ _ _ (runs_on_trans _ _ _ _ _ Hon1 Hon2) Hon).
    + unfold sends in *. rewrite !List.filter_app, Hs2, Hs. reflexivity.
Qed.

End Iqs7219Ati.

Lemma iqs7219_ati_succeeds intf_mode k w :
  good w -> reads w 0 <> COMMS_ERROR -> (k < NUM_RETRIES)%nat ->
  (forall j, (j < k)%nat -> iqs7219_ati_active (reads w (S j)) = true) ->
  iqs7219_ati_active (reads w (S k)) = false ->
  iqs7219_ati_error (reads w (S k)) = false ->
  let sys_setup :=
    u16_clear (reads w 0) Iqs7219.IQS7219_SYS_SETUP_INTF_MODE_MASK in
  exists w' mid,
    Iqs7219.iqs7219_ati_trigger intf_mode w = Ok (0, w') /\
    xfer_n w' = (xfer_n w + (k + 2))%nat /\
    trace w' = trace w ++
               [EvXfer [Iqs7219.IQS7219_SYS_SETUP] 1; EvSleep 50;
                iqs7219_redo_ati sys_setup; EvSleep 50] ++ mid ++
               [iqs7219_restore_mode sys_setup intf_mode; EvSleep 50].
Proof.
  intros Hg Hword Hk Hact Hna Hne sys_setup.
  unfold Iqs7219.iqs7219_ati_trigger, Iqs7219.iqs7219_read_word.
  rewrite (bind_ok _ _ _ _ _
             (read_word_good _ 50 100 iqs7219_force_comms_good
                [Iqs7219.IQS7219_SYS_SETUP] 0 w Hg Hword)).
  cbn [fst snd]. rewrite truthy_0. fold sys_setup.
  set (w0 := slept 50 (xferred [Iqs7219.IQS7219_SYS_SETUP] 1 (sampled w))).
  unfold NUM_RETRIES in *.
  rewrite (ati_attempts_step intf_mode sys_setup 4 0 w0 Hg). cbv zeta.
  match goal with |- context [bind (Iqs7219.ati_wait ?f _ ?t _ ?s) _ ?w1] =>
    destruct (ati_wait_actives intf_mode sys_setup k f 4%nat t s w1)
      as (w' & mid & Hrun & Hx & Htr); set (w1' := w1) in * end.
  - unfold Iqs7219.IQS7219_ATI_TIMEOUT_MS. lia.
  - lia.
  - unfold Iqs7219.IQS7219_ATI_TIMEOUT_MS. lia.
  - exact Hg.
  - intros j Hj.
    change (reads w1' j) with (reads (xferred [Iqs7219.IQS7219_SYS_SETUP] 1 w) j).
    rewrite reads_xferred. apply Hact. exact Hj.
  - change (reads w1' k) with (reads (xferred [Iqs7219.IQS7219_SYS_SETUP] 1 w) k).
    rewrite reads_xferred. exact Hna.
  - change (reads w1' k) with (reads (xferred [Iqs7219.IQS7219_SYS_SETUP] 1 w) k).
    rewrite reads_xferred. exact Hne.
  - exists w', mid. split; [exact Hrun|]. split.
    + rewrite Hx. unfold w1', w0. cbn [xfer_n slept xferred sent sampled allocated]. lia.
    + rewrite Htr. unfold w1', w0. cbn [trace slept xferred sent sampled allocated].
      unfold iqs7219_redo_ati. repeat rewrite <- app_assoc. reflexivity.
Qed.

Lemma iqs7219_ati_fails intf_mode w :
  good w -> reads w 0 <> COMMS_ERROR ->
  (forall j, (j < NUM_RETRIES)%nat ->
     iqs7219_ati_active (reads w (S j)) = false /\
     iqs7219_ati_error (reads w (S j)) = true /\
     reads w (S j) <> COMMS_ERROR) ->
  let sys_setup :=
    u16_clear (reads w 0) Iqs7219.IQS7219_SYS_SETUP_INTF_MODE_MASK in
  exists w',
    Iqs7219.iqs7219_ati_trigger intf_mode w = Ok (- ETIMEDOUT, w') /\
    trace w' = trace w ++
               [EvXfer [Iqs7219.IQS7219_SYS_SETUP] 1; EvSleep 50] ++
               concat (repeat (iqs7219_ati_attempt sys_setup) NUM_RETRIES).
Proof.
  intros Hg Hword Hst sys_setup.
  unfold Iqs7219.iqs7219_ati_trigger, Iqs7219.iqs7219_read_word.
  rewrite (bind_ok _ _ _ _ _
             (read_word_good _ 50 100 iqs7219_force_comms_good
                [Iqs7219.IQS7219_SYS_SETUP] 0 w Hg Hword)).
  cbn [fst snd]. rewrite truthy_0. fold sys_setup.
  set (w0 := slept 50 (xferred [Iqs7219.IQS7219_SYS_SETUP] 1 (sampled w))).
  destruct (ati_attempts_errors intf_mode sys_setup NUM_RETRIES 0 w0 Hg)
    as (w' & Hrun & Htr).
  - intros j Hj.
    change (reads w0 j) with (reads (xferred [Iqs7219.IQS7219_SYS_SETUP] 1 w) j).
    rewrite reads_xferred. apply Hst. exact Hj.
  - exists w'. split; [exact Hrun|]. rewrite Htr. unfold w0.
    cbn [trace slept xferred sent sampled allocated]. repeat rewrite <- app_assoc.
    reflexivity.
Qed.

Lemma iqs7219_ati_error_shown intf_mode w :
  good w -> reads w 0 <> COMMS_ERROR ->
  (forall j, iqs7219_ati_error (reads w (S j)) = true /\
             reads w (S j) <> COMMS_ERROR) ->
  let sys_setup :=
    u16_clear (reads w 0) Iqs7219.IQS7219_SYS_SETUP_INTF_MODE_MASK in
  exists w' evs,
    Iqs7219.iqs7219_ati_trigger intf_mode w = Ok (- ETIMEDOUT, w') /\
    runs_on w w' evs /\
    sends evs = repeat (iqs7219_redo_ati sys_setup) NUM_RETRIES.
Proof.
  intros Hg Hword Hst sys_setup.
  unfold Iqs7219.iqs7219_ati_trigger, Iqs7219.iqs7219_read_word.
  rewrite (bind_ok _ _ _ _ _
             (read_word_good _ 50 100 iqs7219_force_comms_good
                [Iqs7219.IQS7219_SYS_SETUP] 0 w Hg Hword)).
  cbn [fst snd]. rewrite truthy_0. fold sys_setup.
  set (w0 := slept 50 (xferred [Iqs7219.IQS7219_SYS_SETUP] 1 (sampled w))).
  assert (Hon0 : runs_on w w0 [EvXfer [Iqs7219.IQS7219_SYS_SETUP] 1; EvSleep 50]).
  { split; [repeat split; cbn; lia|]. unfold w0.
    cbn [trace slept xferred sampled allocated]. repeat rewrite <- app_assoc. reflexivity. }
  destruct (ati_attempts_error_shown intf_mode sys_setup NUM_RETRIES 0 w0 Hg)
    as (w' & evs & Hrun & Hon & Hs).
  - intros j.
    change (reads w0 j) with (reads (xferred [Iqs7219.IQS7219_SYS_SETUP] 1 w) j).
    rewrite reads_xferred. apply Hst.
  - exists w'. eexists. split; [exact Hrun|]. split.
    + exact (runs_on_trans _ _ _ _ _ Hon0 Hon).
    + unfold sends in *. rewrite List.filter_app, Hs. reflexivity.
Qed.

(** ** The ATI trigger of the IQS323 *)

Section Iqs323Ati.
Import Iqs323.

Lemma iqs323_write_mode_good mode power_mode cmd p :
  good (io p) ->
  iqs323_write_mode mode power_mode cmd p =
  Ok (0, set_intf_mode mode
           (set_io (slept 2500
                      (sent (IQS323_SYS_SETUP ::
                             le16_bytes (iqs323_mode_word p mode power_mode cmd))
                            (sampled (allocated (io p))))) p)).
Proof.
  intros Hg. unfold iqs323_write_mode. unfold bind at 1. unfold get.
  unfold bind at 1. unfold with_io at 1. unfold iqs323_write_word.
  rewrite (write_word_good iqs323_force_comms 2500 2600 iqs323_force_comms_good
             [IQS323_SYS_SETUP] _ (io p) Hg).
  rewrite truthy_0. reflexivity.
Qed.

(** One pass of the for loop on a bus that works. *)
Lemma iqs323_ati_attempts_step n error sys_status p :
  good (io p) -> reads (io p) 0 <> COMMS_ERROR ->
  let w3 := slept 2500
              (xferred [IQS323_SYS_STATUS] 1
                 (sampled
                    (polled
                       (slept 2500
                          (sent (IQS323_SYS_SETUP ::
                                 le16_bytes
                                   (iqs323_mode_word p IQS323_INTF_MODE_STREAM
                                      IQS323_POWER_MODE_USER
                                      IQS323_SYS_SETUP_REDO_ATI))
                                (sampled (allocated (io p)))))))) in
  let p3 := set_intf_mode IQS323_INTF_MODE_STREAM (set_io w3 p) in
  let s := reads (io p) 0 in
  ati_attempts (S n) error sys_status p =
  if iqs323_reset s then Ok (0, p3)
  else if iqs323_ati_error s then ati_attempts n (- EIO) s p3
  else if iqs323_ati_active s then ati_attempts n (- EBUSY) s p3
  else Ok (0, p3).
Proof.
  intros Hg Hword w3 p3 s. cbn [ati_attempts].
  rewrite (bind_ok _ _ _ _ _ (iqs323_write_mode_good _ _ _ p Hg)).
  rewrite truthy_0.
  unfold bind at 1. unfold with_io at 1. cbn [io set_io set_intf_mode].
  rewrite iqs323_irq_poll_good by exact Hg. rewrite truthy_0.
  unfold bind at 1. unfold with_io at 1. cbn [io set_io set_intf_mode].
  unfold iqs323_read_word, iqs323_irq_wait.
  match goal with |- context [read_word _ _ _ _ ?w] =>
    rewrite (read_word_good iqs323_force_comms 2500 2600 iqs323_force_comms_good
               [IQS323_SYS_STATUS] sys_status w Hg Hword);
    change (reads w 0) with s end.
  cbn [fst snd]. rewrite truthy_0.
  unfold iqs323_reset, iqs323_ati_error, iqs323_ati_active.
  destruct (truthy (Z.land s IQS323_SYS_STATUS_RESET)); [reflexivity|].
  destruct (truthy (Z.land s IQS323_SYS_STATUS_ATI_ERROR)); [reflexivity|].
  destruct (truthy (Z.land s IQS323_SYS_STATUS_ATI_ACTIVE)); reflexivity.
Qed.

(** Within the loop the image of the system setup stays as it is, so
    every attempt writes the same word. *)
Lemma iqs323_ati_actives k : forall n error sys_status p,
  (k < n)%nat -> good (io p) ->
  (forall j, (j <= k)%nat ->
     iqs323_reset (reads (io p) j) = false /\
     iqs323_ati_error (reads (io p) j) = false) ->
  (forall j, (j < k)%nat -> iqs323_ati_active (reads (io p) j) = true) ->
  iqs323_ati_active (reads (io p) k) = false ->
  exists p',
    ati_attempts n error sys_status p = Ok (0, p') /\
    intf_mode p' = IQS323_INTF_MODE_STREAM /\
    trace (io p') = trace (io p) ++ concat (repeat (iqs323_ati_attempt p) (S k)).
Proof.
  assert (Hbit7 : forall s, iqs323_reset s = false -> s <> COMMS_ERROR).
  { intros s Hs ->. vm_compute in Hs. discriminate. }
  induction k as [|k IH]; intros n error sys_status p Hn Hg Hre Hact Hna;
    (destruct n as [|n]; [lia|]);
    destruct (Hre 0%nat ltac:(lia)) as (Hr0 & He0);
    rewrite iqs323_ati_attempts_step by (try exact Hg; apply Hbit7; exact Hr0);
    cbv zeta; rewrite Hr0, He0.
  - rewrite Hna. eexists. split; [reflexivity|]. split; [reflexivity|].
    cbn [io set_io set_intf_mode trace slept xferred sent sampled polled
         repeat concat allocated].
    unfold iqs323_ati_attempt, iqs323_redo_ati, iqs323_mode_write.
    repeat rewrite <- app_assoc. reflexivity.
  - rewrite (Hact 0%nat ltac:(lia)).
    match goal with |- context [ati_attempts n ?e ?s ?p3] =>
      destruct (IH n e s p3) as (p' & Hrun & Hm & Htr); set (q := p3) in * end.
    + lia.
    + exact Hg.
    + intros j Hj.
      change (reads (io q) j)
        with (reads (xferred [IQS323_SYS_STATUS] 1 (io p)) j).
      rewrite reads_xferred. apply Hre. lia.
    + intros j Hj.
      change (reads (io q) j)
        with (reads (xferred [IQS323_SYS_STATUS] 1 (io p)) j).
      rewrite reads_xferred. apply Hact. lia.
    + change (reads (io q) k)
        with (reads (xferred [IQS323_SYS_STATUS] 1 (io p)) k).
      rewrite reads_xferred. exact Hna.
    + exists p'. split; [exact Hrun|]. split; [exact Hm|]. rewrite Htr.
      change (iqs323_ati_attempt q) with (iqs323_ati_attempt p).
      unfold q.
      cbn [io set_io set_intf_mode trace slept xferred sent sampled polled allocated].
      change (repeat (iqs323_ati_attempt p) (S (S k)))
        with (iqs323_ati_attempt p :: repeat (iqs323_ati_attempt p) (S k)).
      cbn [concat].
      unfold iqs323_ati_attempt at 2. unfold iqs323_redo_ati, iqs323_mode_write.
      repeat rewrite <- app_assoc. reflexivity.
Qed.

Lemma iqs323_ati_errors n : forall error sys_status p,
  good (io p) ->
  (forall j, (j < n)%nat ->
     iqs323_reset (reads (io p) j) = false /\
     iqs323_ati_error (reads (io p) j) = true) ->
  exists p',
    ati_attempts n error sys_status p =
    Ok (match n with O => error | S _ => - EIO end, p') /\
    trace (io p') = trace (io p) ++ concat (repeat (iqs323_ati_attempt p) n).
Proof.
  assert (Hbit7 : forall s, iqs323_reset s = false -> s <> COMMS_ERROR).
  { intros s Hs ->. vm_compute in Hs. discriminate. }
  induction n as [|n IH]; intros error sys_status p Hg Hst.
  - exists p. split; [reflexivity|]. cbn. rewrite app_nil_r. reflexivity.
  - destruct (Hst 0%nat ltac:(lia)) as (Hr0 & He0).
    rewrite iqs323_ati_attempts_step by (try exact Hg; apply Hbit7; exact Hr0).
    cbv zeta. rewrite Hr0, He0.
    match goal with |- context [ati_attempts n ?e ?s ?p3] =>
      destruct (IH e s p3) as (p' & Hrun & Htr); set (q := p3) in * end.
    + exact Hg.
    + intros j Hj.
      change (reads (io q) j)
        with (reads (xferred [IQS323_SYS_STATUS] 1 (io p)) j).
      rewrite reads_xferred. apply Hst. lia.
    + exists p'. split.
      * rewrite Hrun. destruct n; reflexivity.
      * rewrite Htr.
        change (iqs323_ati_attempt q) with (iqs323_ati_attempt p).
        unfold q.
        cbn [io set_io set_intf_mode trace slept xferred sent sampled polled allocated].
        change (repeat (iqs323_ati_attempt p) (S n))
          with (iqs323_ati_attempt p :: repeat (iqs323_ati_attempt p) n).
        cbn [concat].
        unfold iqs323_ati_attempt at 2. unfold iqs323_redo_ati, iqs323_mode_write.
        repeat rewrite <- app_assoc. reflexivity.
Qed.

End Iqs323Ati.

Lemma good_stub xwords :
  good (stub [] 1 [] 1 [] 2 xwords [] 1).
Proof.
  unfold good, stub, script. cbn [rdy send_ret xfer_ret poll_val mem].
  repeat split; intros k; try reflexivity; destruct k; cbn; lia.
Qed.

(** Without memory for the message a write returns -ENOMEM at once. *)
Lemma write_word_enomem force_comms settle reg val w :
  mem w (mem_n w) = false ->
  write_word force_comms settle reg val w = Ok (- ENOMEM, allocated w).
Proof.
  intros Hm. unfold write_word. rewrite write_burst_alloc, Hm. reflexivity.
Qed.

Lemma iqs7219_ati_enomem intf_mode w v w1 :
  Iqs7219.iqs7219_read_word Iqs7219.IQS7219_SYS_SETUP 0 w = Ok ((0, v), w1) ->
  mem w1 (mem_n w1) = false ->
  Iqs7219.iqs7219_ati_trigger intf_mode w = Ok (- ENOMEM, allocated w1).
Proof.
  intros Hr Hm. unfold Iqs7219.iqs7219_ati_trigger.
  rewrite (bind_ok _ _ _ _ _ Hr). cbn [fst snd]. rewrite truthy_0.
  unfold NUM_RETRIES. cbn [Iqs7219.ati_attempts].
  unfold bind at 1. unfold Iqs7219.iqs7219_write_word.
  rewrite write_word_enomem by exact Hm. reflexivity.
Qed.

Lemma iqs323_write_mode_enomem intf_mode power_mode cmd p :
  mem (Iqs323.io p) (mem_n (Iqs323.io p)) = false ->
  Iqs323.iqs323_write_mode intf_mode power_mode cmd p
  = Ok (- ENOMEM,
        Iqs323.set_intf_mode Iqs323.IQS323_INTF_MODE_ERROR
          (Iqs323.set_io (allocated (Iqs323.io p)) p)).
Proof.
  intros Hm. unfold Iqs323.iqs323_write_mode.
  unfold bind at 1. unfold get at 1. cbv zeta.
  unfold bind at 1. unfold Iqs323.with_io at 1. unfold Iqs323.iqs323_write_word.
  rewrite write_word_enomem by exact Hm. reflexivity.
Qed.

Lemma iqs323_ati_enomem p :
  mem (Iqs323.io p) (mem_n (Iqs323.io p)) = false ->
  Iqs323.iqs323_ati_trigger p
  = Ok (- ENOMEM,
        Iqs323.set_intf_mode Iqs323.IQS323_INTF_MODE_ERROR
          (Iqs323.set_io (allocated (Iqs323.io p)) p)).
Proof.
  intros Hm. unfold Iqs323.iqs323_ati_trigger, NUM_RETRIES.
  cbn [Iqs323.ati_attempts].
  rewrite (bind_ok _ _ _ _ _ (iqs323_write_mode_enomem _ _ _ p Hm)).
  reflexivity.
Qed.

(** C1, as the two drivers have it.  On a bus that works and with
    memory for every message,
    [iqs7219_ati_trigger] reads the system setup, writes it back with the
    redo-ATI command, and polls RDY and reads the status until ATI is no
    longer active: after [k] < 5 reads that show ATI active, a read that
    shows neither flag ends the call with 0 after [k + 1] status reads, the
    last write being the system setup with the configured interface mode;
    five attempts whose status read shows the error flag without the
    active flag end it with -ETIMEDOUT, and so do status reads that all
    show the error flag, with the active flag or without, after five
    writes of the redo-ATI command.  [iqs323_ati_trigger] writes the
    redo-ATI command in streaming mode at every attempt and reads the
    status once per attempt: after [k] < 5 attempts that show ATI active,
    one that shows no flag ends the call with 0, the driver left in
    streaming mode and nothing written after the last status read; five
    attempts that show the error flag end it with -EIO.  Without memory
    for the message of the redo-ATI command both triggers return
    -ENOMEM with nothing written, the IQS323 marked as being in no
    known mode. *)
Theorem ati_trigger_outcomes :
  (forall intf_mode k w,
     good w -> reads w 0 <> COMMS_ERROR -> (k < NUM_RETRIES)%nat ->
     (forall j, (j < k)%nat -> iqs7219_ati_active (reads w (S j)) = true) ->
     iqs7219_ati_active (reads w (S k)) = false ->
     iqs7219_ati_error (reads w (S k)) = false ->
     let sys_setup :=
       u16_clear (reads w 0) Iqs7219.IQS7219_SYS_SETUP_INTF_MODE_MASK in
     exists w' mid,
       Iqs7219.iqs7219_ati_trigger intf_mode w = Ok (0, w') /\
       xfer_n w' = (xfer_n w + (k + 2))%nat /\
       trace w' = trace w ++
                  [EvXfer [Iqs7219.IQS7219_SYS_SETUP] 1; EvSleep 50;
                   iqs7219_redo_ati sys_setup; EvSleep 50] ++ mid ++
                  [iqs7219_restore_mode sys_setup intf_mode; EvSleep 50]) /\
  (forall intf_mode w,
     good w -> reads w 0 <> COMMS_ERROR ->
     (forall j, (j < NUM_RETRIES)%nat ->
        iqs7219_ati_active (reads w (S j)) = false /\
        iqs7219_ati_error (reads w (S j)) = true /\
        reads w (S j) <> COMMS_ERROR) ->
     let sys_setup :=
       u16_clear (reads w 0) Iqs7219.IQS7219_SYS_SETUP_INTF_MODE_MASK in
     exists w',
       Iqs7219.iqs7219_ati_trigger intf_mode w = Ok (- ETIMEDOUT, w') /\
       trace w' = trace w ++
                  [EvXfer [Iqs7219.IQS7219_SYS_SETUP] 1; EvSleep 50] ++
                  concat (repeat (iqs7219_ati_attempt sys_setup) NUM_RETRIES)) /\
  (forall intf_mode w,
     good w -> reads w 0 <> COMMS_ERROR ->
     (forall j, iqs7219_ati_error (reads w (S j)) = true /\
                reads w (S j) <> COMMS_ERROR) ->
     let sys_setup :=
       u16_clear (reads w 0) Iqs7219.IQS7219_SYS_SETUP_INTF_MODE_MASK in
     exists w' evs,
       Iqs7219.iqs7219_ati_trigger intf_mode w = Ok (- ETIMEDOUT, w') /\
       runs_on w w' evs /\
       sends evs = repeat (iqs7219_redo_ati sys_setup) NUM_RETRIES) /\
  (forall k p,
     good (Iqs323.io p) -> (k < NUM_RETRIES)%nat ->
     (forall j, (j <= k)%nat ->
        iqs323_reset (reads (Iqs323.io p) j) = false /\
        iqs323_ati_error (reads (Iqs323.io p) j) = false) ->
     (forall j, (j < k)%nat ->
        iqs323_ati_active (reads (Iqs323.io p) j) = true) ->
     iqs323_ati_active (reads (Iqs323.io p) k) = false ->
     exists p',
       Iqs323.iqs323_ati_trigger p = Ok (0, p') /\
       Iqs323.intf_mode p' = Iqs323.IQS323_INTF_MODE_STREAM /\
       trace (Iqs323.io p') =
       trace (Iqs323.io p) ++ concat (repeat (iqs323_ati_attempt p) (S k))) /\
  (forall p,
     good (Iqs323.io p) ->
     (forall j, (j < NUM_RETRIES)%nat ->
        iqs323_reset (reads (Iqs323.io p) j) = false /\
        iqs323_ati_error (reads (Iqs323.io p) j) = true) ->
     exists p',
       Iqs323.iqs323_ati_trigger p = Ok (- EIO, p') /\
       trace (Iqs323.io p') =
       trace (Iqs323.io p) ++
       concat (repeat (iqs323_ati_attempt p) NUM_RETRIES)) /\
  (forall intf_mode w v w1,
     Iqs7219.iqs7219_read_word Iqs7219.IQS7219_SYS_SETUP 0 w = Ok ((0, v), w1) ->
     mem w1 (mem_n w1) = false ->
     Iqs7219.iqs7219_ati_trigger intf_mode w = Ok (- ENOMEM, allocated w1)) /\
  (forall p,
     mem (Iqs323.io p) (mem_n (Iqs323.io p)) = false ->
     Iqs323.iqs323_ati_trigger p
     = Ok (- ENOMEM,
           Iqs323.set_intf_mode Iqs323.IQS323_INTF_MODE_ERROR
             (Iqs323.set_io (allocated (Iqs323.io p)) p))).
Proof.
  split; [|split; [|split; [|split; [|split; [|split]]]]];
    [| | | | |exact iqs7219_ati_enomem|exact iqs323_ati_enomem].
  - intros intf_mode k w. apply iqs7219_ati_succeeds.
  - intros intf_mode w. apply iqs7219_ati_fails.
  - intros intf_mode w. apply iqs7219_ati_error_shown.
  - intros k p Hg Hk Hre Hact Hna. unfold Iqs323.iqs323_ati_trigger.
    apply iqs323_ati_actives; assumption.
  - intros p Hg Hst. unfold Iqs323.iqs323_ati_trigger.
    exact (iqs323_ati_errors NUM_RETRIES 0 0 p Hg Hst).
Qed.

(** Five attempts of [iqs323_ati_trigger] that show the ATI error flag
    end with -EIO, not -ETIMEDOUT; and after reads that show active,
    active, neither the driver configured for event mode is in streaming
    mode, its last write being the third redo-ATI command. *)
Lemma iqs323_ati_ends_with_eio_and_in_stream_mode :
  let failing := iqs323_example
                   (stub [] 1 [] 1 [] 2 [[0x40]; [0x40]; [0x40]; [0x40]; [0x40]]
                         [] 1) in
  let settling := iqs323_example
                    (stub [] 1 [] 1 [] 2 [[0x20]; [0x20]; [0]] [] 1) in
  result_of (Iqs323.iqs323_ati_trigger failing) = Some (- EIO) /\
  - EIO <> - ETIMEDOUT /\
  Iqs323.intf_mode settling = Iqs323.IQS323_INTF_MODE_EVENT /\
  result_of (Iqs323.iqs323_ati_trigger settling) = Some 0 /\
  option_map (fun p => (Iqs323.intf_mode p, trace (Iqs323.io p)))
             (final_of (Iqs323.iqs323_ati_trigger settling)) =
  Some (Iqs323.IQS323_INTF_MODE_STREAM,
        [EvSend [0xC0; 0x04; 0x00]; EvSleep 2500; EvXfer [0x10] 1; EvSleep 2500;
         EvSend [0xC0; 0x04; 0x00]; EvSleep 2500; EvXfer [0x10] 1; EvSleep 2500;
         EvSend [0xC0; 0x04; 0x00]; EvSleep 2500; EvXfer [0x10] 1; EvSleep 2500]).
Proof.
  cbv zeta. repeat split; try (vm_compute; reflexivity).
  vm_compute. discriminate.
Qed.

Lemma ati_trigger_outcomes_witness :
  let settling := stub [] 1 [] 1 [] 2 [[0x40]; [0x100]; [0x100]; [0]] [] 1 in
  let failing :=
    stub [] 1 [] 1 [] 2 [[0x40]; [0x200]; [0x200]; [0x200]; [0x200]; [0x200]]
         [] 1 in
  let settling' := iqs323_example
                     (stub [] 1 [] 1 [] 2 [[0x20]; [0x20]; [0]] [] 1) in
  let failing' := iqs323_example
                    (stub [] 1 [] 1 [] 2
                          [[0x40]; [0x40]; [0x40]; [0x40]; [0x40]] [] 1) in
  (exists w' mid,
     Iqs7219.iqs7219_ati_trigger Iqs7219.IQS7219_SYS_SETUP_INTF_MODE_EVENT
                                 settling = Ok (0, w') /\
     xfer_n w' = 4%nat /\
     trace w' = [EvXfer [0x80] 1; EvSleep 50; iqs7219_redo_ati 0; EvSleep 50] ++
                mid ++
                [iqs7219_restore_mode 0 Iqs7219.IQS7219_SYS_SETUP_INTF_MODE_EVENT;
                 EvSleep 50]) /\
  (exists w',
     Iqs7219.iqs7219_ati_trigger Iqs7219.IQS7219_SYS_SETUP_INTF_MODE_EVENT
                                 failing = Ok (- ETIMEDOUT, w') /\
     trace w' = [EvXfer [0x80] 1; EvSleep 50] ++
                concat (repeat (iqs7219_ati_attempt 0) 5)) /\
  (exists w' evs,
     Iqs7219.iqs7219_ati_trigger Iqs7219.IQS7219_SYS_SETUP_INTF_MODE_EVENT
                                 stuck_in_ati = Ok (- ETIMEDOUT, w') /\
     runs_on stuck_in_ati w' evs /\
     sends evs = repeat (iqs7219_redo_ati 0) 5) /\
  (exists p',
     Iqs323.iqs323_ati_trigger settling' = Ok (0, p') /\
     Iqs323.intf_mode p' = Iqs323.IQS323_INTF_MODE_STREAM /\
     trace (Iqs323.io p') = concat (repeat (iqs323_ati_attempt settling') 3)) /\
  (exists p',
     Iqs323.iqs323_ati_trigger failing' = Ok (- EIO, p') /\
     trace (Iqs323.io p') = concat (repeat (iqs323_ati_attempt failing') 5)).
Proof.
  cbv zeta.
  destruct ati_trigger_outcomes as (H1 & H2 & H2' & H3 & H4 & _).
  split; [|split; [|split; [|split]]].
  - apply (H1 Iqs7219.IQS7219_SYS_SETUP_INTF_MODE_EVENT 2%nat
              (stub [] 1 [] 1 [] 2 [[0x40]; [0x100]; [0x100]; [0]] [] 1)).
    + apply good_stub.
    + vm_compute. discriminate.
    + unfold NUM_RETRIES. lia.
    + intros j Hj. destruct j as [|[|j]]; [reflexivity|reflexivity|lia].
    + reflexivity.
    + reflexivity.
  - apply (H2 Iqs7219.IQS7219_SYS_SETUP_INTF_MODE_EVENT
              (stub [] 1 [] 1 [] 2
                    [[0x40]; [0x200]; [0x200]; [0x200]; [0x200]; [0x200]] [] 1)).
    + apply good_stub.
    + vm_compute. discriminate.
    + unfold NUM_RETRIES. intros j Hj.
      destruct j as [|[|[|[|[|j]]]]]; try lia;
        (split; [reflexivity|split; [reflexivity|vm_compute; discriminate]]).
  - apply (H2' Iqs7219.IQS7219_SYS_SETUP_INTF_MODE_EVENT stuck_in_ati).
    + unfold good, stuck_in_ati. cbn. repeat split; intros; try reflexivity; lia.
    + vm_compute. discriminate.
    + intros j. split; [reflexivity|vm_compute; discriminate].
  - apply (H3 2%nat (iqs323_example
                       (stub [] 1 [] 1 [] 2 [[0x20]; [0x20]; [0]] [] 1))).
    + apply good_stub.
    + unfold NUM_RETRIES. lia.
    + intros j Hj. destruct j as [|[|[|j]]]; try lia; split; reflexivity.
    + intros j Hj. destruct j as [|[|j]]; [reflexivity|reflexivity|lia].
    + reflexivity.
  - apply (H4 (iqs323_example
                 (stub [] 1 [] 1 [] 2
                       [[0x40]; [0x40]; [0x40]; [0x40]; [0x40]] [] 1))).
    + apply good_stub.
    + unfold NUM_RETRIES. intros j Hj.
      destruct j as [|[|[|[|[|j]]]]]; try lia; split; reflexivity.
Defined.

(** ** The initialisation of the IQS323 on a bus that works *)

Section Iqs323Init.
Import Iqs323.

Lemma iqs323_write_burst_runs reg val p :
  good (io p) ->
  with_io (iqs323_write_burst reg val) p =
  Ok (0, set_io (slept 2500 (sent ([reg] ++ flat_map le16_bytes val)
                                  (sampled (allocated (io p))))) p).
Proof.
  intros Hg. unfold with_io, iqs323_write_burst, iqs323_irq_wait.
  rewrite (write_burst_good iqs323_force_comms 2500 2600 iqs323_force_comms_good
             [reg] val (io p) Hg).
  reflexivity.
Qed.

Lemma reads_later w w' d j :
  same_bus w w' -> xfer_n w' = (xfer_n w + d)%nat -> reads w' j = reads w (d + j).
Proof.
  intros (_ & _ & _ & Hw & _) Hn. unfold reads. rewrite Hw, Hn.
  rewrite Nat.add_assoc. reflexivity.
Qed.

Lemma iqs323_dev_init_rows_write b stride num_col rows :
  forall reg off val_buf p,
  good (io p) ->
  exists p' evs,
    dev_init_rows rows WRITE b stride num_col reg off val_buf 0 p = Ok (0, p') /\
    runs_on (io p) (io p') evs /\ forallb init_event evs = true /\
    xfer_n (io p') = xfer_n (io p).
Proof.
  induction rows as [|rows IH]; intros reg off val_buf p Hg.
  - exists p, []. split; [reflexivity|].
    split; [apply runs_on_refl|split; reflexivity].
  - cbn [dev_init_rows]. unfold bind at 1. unfold get at 1.
    change (WRITE =? READ) with false. change (WRITE =? WRITE) with true.
    cbv iota.
    pose proof (bind_ok _ (fun error => pure (error, take num_col (drop off (get_buf b p))))
                  _ _ _ (iqs323_write_burst_runs reg
                           (take num_col (drop off (get_buf b p))) p Hg)) as Hw.
    rewrite (bind_ok _ _ _ _ _ Hw). cbn [fst snd]. rewrite truthy_0.
    match goal with |- context [dev_init_rows rows _ _ _ _ ?r ?o ?v 0 ?q] =>
      destruct (IH r o v q Hg) as (p' & evs & Hrun & Hon & Hev & Hx);
      set (q' := q) in * end.
    exists p'. eexists. split; [exact Hrun|]. split; [|split].
    + eapply runs_on_trans; [|exact Hon].
      eapply runs_on_trans; [apply runs_on_allocated|].
      eapply runs_on_trans; [apply runs_on_sampled|].
      eapply runs_on_trans; [apply runs_on_sent|apply runs_on_slept].
    + cbn [app forallb init_event andb]. exact Hev.
    + rewrite Hx. reflexivity.
Qed.

Lemma iqs323_dev_init_grps_write grps : forall p,
  good (io p) ->
  exists p' evs,
    dev_init_grps grps WRITE p = Ok (0, p') /\
    runs_on (io p) (io p') evs /\ forallb init_event evs = true /\
    xfer_n (io p') = xfer_n (io p).
Proof.
  induction grps as [|i rest IH]; intros p Hg.
  - exists p, []. split; [reflexivity|].
    split; [apply runs_on_refl|split; reflexivity].
  - cbn [dev_init_grps]. unfold bind at 1. unfold get at 1.
    destruct (num_col (reg_grps (dev_desc p) i) =? 0)%nat; [exact (IH p Hg)|].
    destruct (iqs323_setup i 0) as [[b off]|]; [|exact (IH p Hg)].
    rewrite (bind_ok _ _ _ _ _ (iqs323_kzalloc_good p Hg)). cbn [negb].
    set (p0 := set_io (allocated (io p)) p).
    assert (Hg0 : good (io p0)) by exact Hg.
    match goal with |- context [dev_init_rows ?n _ _ ?st ?nc ?r ?o ?v 0] =>
      destruct (iqs323_dev_init_rows_write b st nc n r o v p0 Hg0)
        as (p1 & evs1 & Hrun1 & Hon1 & Hev1 & Hx1) end.
    rewrite (bind_ok _ _ _ _ _ Hrun1). rewrite truthy_0.
    destruct (IH p1 (good_same_bus _ _ Hg0 (proj1 Hon1)))
      as (p' & evs & Hrun & Hon & Hev & Hx).
    exists p', (evs1 ++ evs). split; [exact Hrun|]. split; [|split].
    + eapply runs_on_trans; [|exact Hon].
      exact (runs_on_trans _ _ _ _ _ (runs_on_allocated (io p)) Hon1).
    + rewrite forallb_app, Hev1, Hev. reflexivity.
    + rewrite Hx, Hx1. reflexivity.
Qed.

Lemma iqs323_quiet_is_data s : iqs323_quiet s -> s <> COMMS_ERROR.
Proof. intros (Hr & _) ->. vm_compute in Hr. discriminate. Qed.

(** The initialisation on a bus that works, the status read by its ATI
    trigger being quiet. *)
Lemma iqs323_dev_init_write p :
  good (io p) -> iqs323_quiet (reads (io p) 0) ->
  exists p' evs,
    iqs323_dev_init WRITE p = Ok (0, p') /\
    runs_on (io p) (io p') evs /\ forallb init_event evs = true /\
    xfer_n (io p') = S (xfer_n (io p)).
Proof.
  intros Hg Hq. unfold iqs323_dev_init.
  change (WRITE =? WRITE) with true. change (WRITE =? READ) with false.
  cbv iota.
  rewrite (bind_ok _ _ _ _ _ (iqs323_write_mode_good _ _ _ p Hg)).
  rewrite truthy_0.
  match goal with |- context [bind (dev_init_grps _ _) _ ?q] =>
    set (p1 := q) end.
  destruct (iqs323_dev_init_grps_write iqs323_reg_grp_ids p1 Hg)
    as (p2 & evs2 & Hrun2 & Hon2 & Hev2 & Hx2).
  rewrite (bind_ok _ _ _ _ _ Hrun2). rewrite truthy_0.
  assert (Hg2 : good (io p2)) by exact (good_same_bus _ _ Hg (proj1 Hon2)).
  assert (Hon1 : runs_on (io p) (io p1)
                   [EvSend (IQS323_SYS_SETUP ::
                            le16_bytes (iqs323_mode_word p IQS323_INTF_MODE_STREAM
                                          IQS323_POWER_MODE_USER
                                          IQS323_SYS_SETUP_ACK_RESET));
                    EvSleep 2500]).
  { unfold p1. runs_on_explicit. }
  assert (Hx1 : xfer_n (io p2) = (xfer_n (io p) + 0)%nat).
  { rewrite Hx2. unfold p1. cbn [io set_io set_intf_mode xfer_n slept sent sampled allocated].
    lia. }
  assert (Hq2 : iqs323_quiet (reads (io p2) 0)).
  { rewrite (reads_later (io p) (io p2) 0 0
               (same_bus_trans _ _ _ (proj1 Hon1) (proj1 Hon2)) Hx1).
    exact Hq. }
  destruct Hq2 as (Hr & He & Ha).
  unfold iqs323_ati_trigger, NUM_RETRIES.
  rewrite iqs323_ati_attempts_step
    by (try exact Hg2; apply iqs323_quiet_is_data; repeat split; assumption).
  cbv zeta. rewrite Hr, He, Ha.
  eexists.
  exists (([EvSend (IQS323_SYS_SETUP ::
                    le16_bytes (iqs323_mode_word p IQS323_INTF_MODE_STREAM
                                  IQS323_POWER_MODE_USER
                                  IQS323_SYS_SETUP_ACK_RESET));
            EvSleep 2500] ++ evs2) ++
          [EvSend (IQS323_SYS_SETUP ::
                   le16_bytes (iqs323_mode_word p2 IQS323_INTF_MODE_STREAM
                                 IQS323_POWER_MODE_USER
                                 IQS323_SYS_SETUP_REDO_ATI));
           EvSleep 2500; EvXfer [IQS323_SYS_STATUS] 1; EvSleep 2500]).
  split; [reflexivity|]. split; [|split].
  - apply runs_on_trans with (w2 := io p2).
    + exact (runs_on_trans _ _ _ _ _ Hon1 Hon2).
    + runs_on_explicit.
  - rewrite !forallb_app, Hev2. reflexivity.
  - cbn [io set_io set_intf_mode xfer_n slept xferred sent sampled polled allocated].
    lia.
Qed.

Lemma iqs323_hard_reset_good w :
  good w ->
  iqs323_hard_reset w =
  Ok (0, polled (slept 2500
                   (log (EvGpioSet RDY_GPIO 0)
                      (slept (IQS323_RESET_TIMEOUT_MS * 1000)
                         (log (EvGpioSet RDY_GPIO 1) w))))).
Proof.
  intros Hg. unfold iqs323_hard_reset.
  unfold bind at 1. unfold gpiod_set_value_cansleep at 1. unfold modify at 1.
  unfold bind at 1. unfold msleep, sleep_us at 1.
  unfold bind at 1. unfold gpiod_set_value_cansleep at 1. unfold modify at 1.
  unfold bind at 1. unfold iqs323_irq_wait, usleep_range, sleep_us at 1.
  rewrite iqs323_irq_poll_good by exact Hg. reflexivity.
Qed.

End Iqs323Init.

(** ** What the recovery paths leave alone *)

Lemma keeps_pure {S A B} (f : S -> B) (a : A) : keeps f (pure a).
Proof. intros s a' s' H. inversion H. reflexivity. Qed.

Lemma keeps_get {S B} (f : S -> B) : keeps f get.
Proof. intros s a' s' H. inversion H. reflexivity. Qed.

Lemma keeps_modify {S B} (f : S -> B) (g : S -> S) :
  (forall s, f (g s) = f s) -> keeps f (modify g).
Proof. intros Hg s a' s' H. inversion H. apply Hg. Qed.

Lemma keeps_bind {S A C B} (f : S -> B) (m : M S A) (k : A -> M S C) :
  keeps f m -> (forall a, keeps f (k a)) -> keeps f (bind m k).
Proof.
  intros Hm Hk s c s'' H. apply bind_inv in H. destruct H as (a & s' & H1 & H2).
  rewrite (Hk a _ _ _ H2). exact (Hm _ _ _ H1).
Qed.

Lemma keeps_if {S A B} (f : S -> B) (c : bool) (m1 m2 : M S A) :
  keeps f m1 -> keeps f m2 -> keeps f (if c then m1 else m2).
Proof. destruct c; trivial. Qed.

Section Iqs7219Recovery.
Import Iqs7219.
Context {B : Type} (f : iqs7219_private -> B).
Hypothesis f_io : forall w p, f (set_io w p) = f p.
Hypothesis f_buf : forall b l p, f (set_buf b l p) = f p.

Lemma iqs7219_keeps_with_io {A} (m : M world A) : keeps f (with_io m).
Proof using f_io.
  intros p a p' H. unfold with_io in H.
  destruct (m (io p)) as [[a' w]| |]; inversion H. apply f_io.
Qed.

Lemma iqs7219_write_comms_keeps event_mask : keeps f (iqs7219_write_comms event_mask).
Proof using f_io.
  unfold iqs7219_write_comms.
  apply keeps_bind; [apply keeps_get|intros p].
  apply keeps_if; [apply keeps_pure|].
  apply keeps_bind; [apply iqs7219_keeps_with_io|intros r].
  apply keeps_if; [apply keeps_pure|apply iqs7219_keeps_with_io].
Qed.

Lemma iqs7219_dev_init_grps_keeps dir grps : keeps f (dev_init_grps grps dir).
Proof using f_io f_buf.
  induction grps as [|i rest IH]; cbn [dev_init_grps]; [apply keeps_pure|].
  destruct (iqs7219_reg_grps !! i); [|exact IH].
  destruct (iqs7219_setup i 0) as [[b off]|]; [|exact IH].
  apply keeps_bind; [apply iqs7219_keeps_with_io|intros val_buf].
  apply keeps_if; [apply keeps_pure|].
  apply keeps_bind; [apply keeps_get|intros p].
  apply keeps_bind; [|intros e; apply keeps_if; [apply keeps_pure|exact IH]].
  apply keeps_if.
  - apply keeps_bind; [apply iqs7219_keeps_with_io|intros r].
    apply keeps_bind; [|intros; apply keeps_pure].
    apply keeps_modify. intros q. apply f_buf.
  - apply keeps_if; [apply iqs7219_keeps_with_io|apply keeps_pure].
Qed.

Lemma iqs7219_dev_init_keeps dir : keeps f (iqs7219_dev_init dir).
Proof using f_io f_buf.
  unfold iqs7219_dev_init.
  apply keeps_bind; [apply keeps_get|intros p].
  apply keeps_bind;
    [apply keeps_if; [apply iqs7219_keeps_with_io|apply keeps_pure]|intros e1].
  apply keeps_if; [apply keeps_pure|].
  apply keeps_bind; [apply iqs7219_write_comms_keeps|intros e2].
  apply keeps_if; [apply keeps_pure|].
  apply keeps_bind; [apply iqs7219_dev_init_grps_keeps|intros e3].
  apply keeps_if; [apply keeps_pure|].
  apply keeps_bind; [apply keeps_get|intros p'].
  apply keeps_bind; [apply iqs7219_write_comms_keeps|intros e4].
  apply keeps_if; [apply keeps_pure|].
  apply keeps_if; [apply keeps_pure|apply iqs7219_keeps_with_io].
Qed.

End Iqs7219Recovery.

(** ** The initialisation of the IQS7219A on a bus that works *)

Section Iqs7219Init.
Import Iqs7219.

Lemma iqs7219_write_word_runs reg val p :
  good (io p) ->
  with_io (iqs7219_write_word reg val) p =
  Ok (0, set_io (slept 50 (sent ([reg] ++ le16_bytes val) (sampled (allocated (io p))))) p).
Proof.
  intros Hg. unfold with_io, iqs7219_write_word, iqs7219_settle.
  rewrite (write_word_good iqs7219_force_comms 50 100 iqs7219_force_comms_good
             [reg] val (io p) Hg).
  reflexivity.
Qed.

Lemma iqs7219_write_burst_runs reg val p :
  good (io p) ->
  with_io (iqs7219_write_burst reg val) p =
  Ok (0, set_io (slept 50 (sent ([reg] ++ flat_map le16_bytes val)
                                (sampled (allocated (io p))))) p).
Proof.
  intros Hg. unfold with_io, iqs7219_write_burst, iqs7219_settle.
  rewrite (write_burst_good iqs7219_force_comms 50 100 iqs7219_force_comms_good
             [reg] val (io p) Hg).
  reflexivity.
Qed.

Lemma iqs7219_dev_init_grps_write grps : forall p,
  good (io p) ->
  exists p', dev_init_grps grps WRITE p = Ok (0, p') /\
             same_bus (io p) (io p') /\ xfer_n (io p') = xfer_n (io p).
Proof.
  induction grps as [|i rest IH]; intros p Hg.
  - exists p. split; [reflexivity|]. split; [apply same_bus_refl|reflexivity].
  - cbn [dev_init_grps].
    destruct (iqs7219_reg_grps !! i); [|exact (IH p Hg)].
    destruct (iqs7219_setup i 0) as [[b off]|]; [|exact (IH p Hg)].
    rewrite (bind_ok _ _ _ _ _ (iqs7219_kzalloc_good p Hg)). cbn [negb].
    unfold bind at 1. unfold get at 1.
    change (WRITE =? READ) with false. change (WRITE =? WRITE) with true.
    cbv iota.
    match goal with |- context [bind (with_io (iqs7219_write_burst _ _)) _ ?q] =>
      rewrite (bind_ok _ _ _ _ _ (iqs7219_write_burst_runs _ _ q Hg)) end.
    rewrite truthy_0.
    match goal with |- context [dev_init_grps rest WRITE ?q] =>
      destruct (IH q Hg) as (p' & Hrun & Hb & Hx); set (q' := q) in * end.
    exists p'. split; [exact Hrun|]. split.
    + apply same_bus_trans with (w2 := io q'); [|exact Hb].
      repeat split; cbn; lia.
    + rewrite Hx. reflexivity.
Qed.

End Iqs7219Init.

(** ** Recoveries of the IQS7219A, read by read *)

Lemma reads_after w w' d k :
  xfer_word w' = xfer_word w -> xfer_n w' = (d + xfer_n w)%nat ->
  reads w' k = reads w (d + k).
Proof.
  intros Hw Hn. unfold reads. rewrite Hw, Hn.
  replace (d + xfer_n w + k)%nat with (xfer_n w + (d + k))%nat by lia.
  reflexivity.
Qed.

(** [iqs7219_write_comms] reads the communication setup back once when
    the device has one, and needs that read to be answered. *)
Lemma iqs7219_write_comms_later event_mask p :
  good (Iqs7219.io p) ->
  (truthy (Iqs7219.comms_setup p) = true -> is_data (reads (Iqs7219.io p) 0)) ->
  exists p',
    Iqs7219.iqs7219_write_comms event_mask p = Ok (0, p') /\
    same_bus (Iqs7219.io p) (Iqs7219.io p') /\
    xfer_n (Iqs7219.io p') = (comms_reads p + xfer_n (Iqs7219.io p))%nat /\
    Iqs7219.comms_setup p' = Iqs7219.comms_setup p /\
    Iqs7219.intf_mode p' = Iqs7219.intf_mode p.
Proof.
  intros Hg Hd. unfold Iqs7219.iqs7219_write_comms, comms_reads.
  unfold bind at 1. unfold get at 1.
  destruct (truthy (Iqs7219.comms_setup p)); cbn [negb].
  2:{ exists p. split; [reflexivity|]. split; [apply same_bus_refl|].
      repeat split. }
  unfold bind at 1. unfold Iqs7219.with_io at 1.
  unfold Iqs7219.iqs7219_read_word, Iqs7219.iqs7219_settle.
  rewrite (read_word_good Iqs7219.iqs7219_force_comms 50 100 iqs7219_force_comms_good
             [Iqs7219.comms_setup p] 0 (Iqs7219.io p) Hg (Hd eq_refl)).
  cbn [fst snd]. rewrite truthy_0.
  rewrite iqs7219_write_word_runs by exact Hg.
  eexists. split; [reflexivity|].
  split; [repeat split; cbn; lia|]. destruct p; repeat split.
Qed.

(** The initialisation of the IQS7219A goes through when the reads of
    the communication setup and of the system setup are answered and the
    first status read of the ATI trigger shows neither ATI flag. *)
Lemma iqs7219_dev_init_write_later p :
  good (Iqs7219.io p) ->
  (forall j, (j <= 2 * comms_reads p)%nat -> is_data (reads (Iqs7219.io p) j)) ->
  iqs7219_quiet (reads (Iqs7219.io p) (S (2 * comms_reads p))) ->
  exists p', Iqs7219.iqs7219_dev_init Iqs7219.WRITE p = Ok (0, p').
Proof.
  intros Hg Hd Hq. unfold Iqs7219.iqs7219_dev_init.
  unfold bind at 1. unfold get at 1.
  change (Iqs7219.WRITE =? Iqs7219.WRITE) with true.
  change (Iqs7219.WRITE =? Iqs7219.READ) with false. cbv iota.
  rewrite (bind_ok _ _ _ _ _ (iqs7219_write_word_runs _ _ p Hg)).
  rewrite truthy_0.
  match goal with |- context [bind (Iqs7219.iqs7219_write_comms _) _ ?q] =>
    set (p1 := q) end.
  assert (Hb1 : same_bus (Iqs7219.io p) (Iqs7219.io p1))
    by (unfold p1; destruct p; repeat split; cbn; lia).
  assert (Hx1 : xfer_n (Iqs7219.io p1) = xfer_n (Iqs7219.io p))
    by (unfold p1; destruct p; reflexivity).
  assert (Hc1 : Iqs7219.comms_setup p1 = Iqs7219.comms_setup p)
    by (unfold p1; destruct p; reflexivity).
  assert (Hr : forall q d k,
            same_bus (Iqs7219.io p) (Iqs7219.io q) ->
            xfer_n (Iqs7219.io q) = (d + xfer_n (Iqs7219.io p))%nat ->
            reads (Iqs7219.io q) k = reads (Iqs7219.io p) (d + k)).
  { intros q d k (_ & _ & _ & Hw & _) Hn. apply reads_after; assumption. }
  assert (Hcr : forall q, Iqs7219.comms_setup q = Iqs7219.comms_setup p ->
                          comms_reads q = comms_reads p)
    by (intros q E; unfold comms_reads; rewrite E; reflexivity).
  clearbody p1.
  destruct (iqs7219_write_comms_later Iqs7219.IQS7219_COMMS_HOLD p1
              (good_same_bus _ _ Hg Hb1))
    as (p2 & Hrun2 & Hb2 & Hx2 & Hc2 & _).
  { intros _. rewrite (Hr p1 0%nat 0%nat Hb1 Hx1). apply Hd. lia. }
  rewrite (bind_ok _ _ _ _ _ Hrun2). rewrite truthy_0.
  assert (Hb02 : same_bus (Iqs7219.io p) (Iqs7219.io p2))
    by exact (same_bus_trans _ _ _ Hb1 Hb2).
  rewrite (Hcr p1 Hc1), Hx1 in Hx2.
  destruct (iqs7219_dev_init_grps_write (seq 0 Iqs7219.IQS7219_NUM_REG_GRPS) p2
              (good_same_bus _ _ Hg Hb02)) as (p3 & Hrun3 & Hb3 & Hx3).
  rewrite (bind_ok _ _ _ _ _ Hrun3). rewrite truthy_0.
  assert (Hb03 : same_bus (Iqs7219.io p) (Iqs7219.io p3))
    by exact (same_bus_trans _ _ _ Hb02 Hb3).
  assert (Hc3 : Iqs7219.comms_setup p3 = Iqs7219.comms_setup p).
  { rewrite (iqs7219_dev_init_grps_keeps Iqs7219.comms_setup
               ltac:(intros w q; reflexivity)
               ltac:(intros [] l q; reflexivity) _ _ _ _ _ Hrun3).
    congruence. }
  rewrite Hx2 in Hx3.
  unfold bind at 1. unfold get at 1.
  destruct (iqs7219_write_comms_later
              (Iqs7219.union_event_mask (seq 0 Iqs7219.IQS7219_NUM_CHAN) p3
                 Iqs7219.IQS7219_EVENT_MASK_ATI)
              p3 (good_same_bus _ _ Hg Hb03))
    as (p4 & Hrun4 & Hb4 & Hx4 & _).
  { intros Hc. rewrite (Hr p3 _ 0%nat Hb03 Hx3). apply Hd.
    unfold comms_reads. rewrite <- Hc3, Hc. lia. }
  rewrite (bind_ok _ _ _ _ _ Hrun4). rewrite truthy_0.
  assert (Hb04 : same_bus (Iqs7219.io p) (Iqs7219.io p4))
    by exact (same_bus_trans _ _ _ Hb03 Hb4).
  rewrite (Hcr p3 Hc3), Hx3 in Hx4.
  assert (Hx4' : xfer_n (Iqs7219.io p4)
                 = (2 * comms_reads p + xfer_n (Iqs7219.io p))%nat) by lia.
  pose proof (good_same_bus _ _ Hg Hb04) as Hg4.
  destruct (iqs7219_ati_succeeds (Iqs7219.intf_mode p3) 0 (Iqs7219.io p4) Hg4)
    as (w' & mid & Hati & _).
  - rewrite (Hr p4 _ 0%nat Hb04 Hx4'). apply Hd. lia.
  - unfold NUM_RETRIES. lia.
  - intros j Hj. lia.
  - rewrite (Hr p4 _ 1%nat Hb04 Hx4').
    replace (2 * comms_reads p + 1)%nat with (S (2 * comms_reads p)) by lia.
    exact (proj1 Hq).
  - rewrite (Hr p4 _ 1%nat Hb04 Hx4').
    replace (2 * comms_reads p + 1)%nat with (S (2 * comms_reads p)) by lia.
    exact (proj2 Hq).
  - unfold Iqs7219.with_io. rewrite Hati. eexists. reflexivity.
Qed.

(** Without memory for its first message the initialisation returns
    -ENOMEM at once. *)
Lemma iqs7219_dev_init_write_enomem p :
  mem (Iqs7219.io p) (mem_n (Iqs7219.io p)) = false ->
  Iqs7219.iqs7219_dev_init Iqs7219.WRITE p
  = Ok (- ENOMEM, Iqs7219.set_io (allocated (Iqs7219.io p)) p).
Proof.
  intros Hm. unfold Iqs7219.iqs7219_dev_init.
  unfold bind at 1. unfold get at 1.
  change (Iqs7219.WRITE =? Iqs7219.WRITE) with true. cbv iota.
  unfold bind at 1. unfold Iqs7219.with_io at 1.
  unfold Iqs7219.iqs7219_write_word.
  rewrite write_word_enomem by exact Hm. reflexivity.
Qed.

Lemma iqs323_dev_init_write_enomem p :
  mem (Iqs323.io p) (mem_n (Iqs323.io p)) = false ->
  Iqs323.iqs323_dev_init Iqs323.WRITE p
  = Ok (- ENOMEM,
        Iqs323.set_intf_mode Iqs323.IQS323_INTF_MODE_ERROR
          (Iqs323.set_io (allocated (Iqs323.io p)) p)).
Proof.
  intros Hm. unfold Iqs323.iqs323_dev_init.
  change (Iqs323.WRITE =? Iqs323.WRITE) with true. cbv iota.
  rewrite (bind_ok _ _ _ _ _ (iqs323_write_mode_enomem _ _ _ p Hm)).
  reflexivity.
Qed.

Section Iqs7219ReportRecovery.
Import Iqs7219.

Lemma iqs7219_report_sync_recovers scan_id chan_index val p val_buf p1 :
  status_read p val_buf p1 ->
  let sys_flags := nth 0 val_buf 0 in
  let run := iqs7219_report_sync scan_id chan_index val p in
  (iqs7219_reset sys_flags = true ->
   run = bind (iqs7219_dev_init WRITE)
              (fun error => pure (iqs7219_retry val error, val)) p1) /\
  (iqs7219_reset sys_flags = false -> iqs7219_ati_error sys_flags = true ->
   run = bind (with_io (iqs7219_ati_trigger (intf_mode p)))
              (fun error => pure (iqs7219_retry val error, val)) p1) /\
  (iqs7219_reset sys_flags = false -> iqs7219_ati_error sys_flags = false ->
   iqs7219_ati_active sys_flags = true ->
   run = Ok ((iqs7219_retry val 0, val), p1)) /\
  (iqs7219_reset sys_flags || iqs7219_ati_error sys_flags
   || iqs7219_ati_active sys_flags = true ->
   forall r p', run = Ok (r, p') ->
     pushed p' = pushed p /\ pxs_flags p' = pxs_flags p /\
     scan_data p' = scan_data p).
Proof.
  intros Hread sys_flags run.
  assert (Hrun : run =
    (if iqs7219_reset sys_flags then
       bind (iqs7219_dev_init WRITE)
            (fun error => pure (iqs7219_retry val error, val)) p1
     else if iqs7219_ati_error sys_flags then
       bind (with_io (iqs7219_ati_trigger (intf_mode p)))
            (fun error => pure (iqs7219_retry val error, val)) p1
     else if iqs7219_ati_active sys_flags then
       Ok ((iqs7219_retry val 0, val), p1)
     else run)).
  { unfold run at 1. unfold iqs7219_report_sync.
    unfold bind at 1. unfold get at 1.
    unfold status_read in Hread. rewrite (bind_ok _ _ _ _ _ Hread).
    cbn [fst snd]. rewrite truthy_0.
    unfold iqs7219_reset, iqs7219_ati_error, iqs7219_ati_active.
    fold sys_flags.
    destruct (truthy (Z.land sys_flags IQS7219_SYS_STATUS_RESET)) eqn:Er;
      [reflexivity|].
    destruct (truthy (Z.land sys_flags IQS7219_SYS_STATUS_ATI_ERROR)) eqn:Ee;
      [reflexivity|].
    destruct (truthy (Z.land sys_flags IQS7219_SYS_STATUS_ATI_ACTIVE)) eqn:Ea.
    - unfold iqs7219_retry. rewrite truthy_0. destruct val; reflexivity.
    - symmetry. unfold run, iqs7219_report_sync.
      unfold bind at 1. unfold get at 1.
      rewrite (bind_ok _ _ _ _ _ Hread).
      cbn [fst snd]. rewrite truthy_0. fold sys_flags.
      rewrite Er, Ee, Ea. reflexivity. }
  assert (Hp1 : pushed p1 = pushed p /\ pxs_flags p1 = pxs_flags p /\
                scan_data p1 = scan_data p).
  { rewrite (with_io_frame _ _ _ _ Hread). repeat split. }
  split; [|split; [|split]].
  - intros Hr. rewrite Hrun, Hr. reflexivity.
  - intros Hr He. rewrite Hrun, Hr, He. reflexivity.
  - intros Hr He Ha. rewrite Hrun, Hr, He, Ha. reflexivity.
  - intros Hany r p' Hok. rewrite Hrun in Hok.
    destruct Hp1 as (P1 & P2 & P3).
    destruct (iqs7219_reset sys_flags).
    + apply bind_inv in Hok. destruct Hok as (e & p2 & Hd & Hret).
      inversion Hret; subst p'.
      rewrite <- P1, <- P2, <- P3. repeat split.
      * apply (iqs7219_dev_init_keeps pushed) in Hd; auto.
        intros [] l q; reflexivity.
      * apply (iqs7219_dev_init_keeps pxs_flags) in Hd; auto.
        intros [] l q; reflexivity.
      * apply (iqs7219_dev_init_keeps scan_data) in Hd; auto.
        intros [] l q; reflexivity.
    + destruct (iqs7219_ati_error sys_flags).
      * apply bind_inv in Hok. destruct Hok as (e & p2 & Hd & Hret).
        inversion Hret; subst p'.
        rewrite (with_io_frame _ _ _ _ Hd). exact (conj P1 (conj P2 P3)).
      * destruct (iqs7219_ati_active sys_flags); [|discriminate].
        inversion Hok; subst p'. exact (conj P1 (conj P2 P3)).
Qed.

(** With a bus that works, memory for every buffer and a device that
    is quiet after the status read, the recovery goes through and the
    caller is told to retry.  The device is quiet when it answers the
    reads of the communication setup and of the system setup that the
    recovery makes, and shows neither ATI flag in the status read that
    follows them. *)
Lemma iqs7219_report_sync_retries scan_id chan_index val p val_buf p1 :
  status_read p val_buf p1 ->
  good (io p1) ->
  let c := if iqs7219_reset (nth 0 val_buf 0)
           then (2 * comms_reads p)%nat else 0%nat in
  (forall j, (j <= c)%nat -> is_data (reads (io p1) j)) ->
  iqs7219_quiet (reads (io p1) (S c)) ->
  iqs7219_reset (nth 0 val_buf 0) || iqs7219_ati_error (nth 0 val_buf 0) = true ->
  exists p',
    iqs7219_report_sync scan_id chan_index val p =
    Ok ((if non_null val then - EAGAIN else 0, val), p').
Proof.
  intros Hread Hg c Hd Hq Hflag.
  destruct (iqs7219_report_sync_recovers scan_id chan_index val p val_buf p1 Hread)
    as (Hreset & Herror & _).
  assert (Hretry : iqs7219_retry val 0 = if non_null val then - EAGAIN else 0).
  { unfold iqs7219_retry. rewrite truthy_0. destruct val; reflexivity. }
  assert (Hc : comms_reads p1 = comms_reads p).
  { unfold status_read in Hread. rewrite (with_io_frame _ _ _ _ Hread).
    reflexivity. }
  subst c.
  destruct (iqs7219_reset (nth 0 val_buf 0)) eqn:Er.
  - rewrite (Hreset eq_refl). rewrite <- Hc in Hd, Hq.
    destruct (iqs7219_dev_init_write_later p1 Hg Hd Hq) as (p' & Hinit).
    rewrite (bind_ok _ _ _ _ _ Hinit). rewrite Hretry. exists p'. reflexivity.
  - cbn [orb] in Hflag. rewrite (Herror eq_refl Hflag).
    destruct (iqs7219_ati_succeeds (intf_mode p) 0 (io p1) Hg
                (Hd 0%nat (Nat.le_refl _)))
      as (w' & mid & Hati & _).
    + unfold NUM_RETRIES. lia.
    + intros j Hj. lia.
    + exact (proj1 Hq).
    + exact (proj2 Hq).
    + unfold bind, with_io. rewrite Hati. rewrite Hretry. eexists. reflexivity.
Qed.

End Iqs7219ReportRecovery.

Section Iqs323Recovery.
Import Iqs323.
Context {B : Type} (f : iqs323_private -> B).
Hypothesis f_io : forall w p, f (set_io w p) = f p.
Hypothesis f_mode : forall m p, f (set_intf_mode m p) = f p.
Hypothesis f_buf : forall b l p, f (set_buf b l p) = f p.

Lemma iqs323_keeps_with_io {A} (m : M world A) : keeps f (with_io m).
Proof using f_io.
  intros p a p' H. unfold with_io in H.
  destruct (m (io p)) as [[a' w]| |]; inversion H. apply f_io.
Qed.

Lemma iqs323_write_mode_keeps mode power_mode cmd :
  keeps f (iqs323_write_mode mode power_mode cmd).
Proof using f_io f_mode.
  unfold iqs323_write_mode.
  apply keeps_bind; [apply keeps_get|intros p].
  apply keeps_bind; [apply iqs323_keeps_with_io|intros e].
  apply keeps_bind; [|intros; apply keeps_pure].
  apply keeps_if; apply keeps_modify; intros q; apply f_mode.
Qed.

Lemma iqs323_ati_attempts_keeps n : forall error sys_status,
  keeps f (ati_attempts n error sys_status).
Proof using f_io f_mode.
  induction n as [|n IH]; intros error sys_status; cbn [ati_attempts];
    [apply keeps_pure|].
  apply keeps_bind; [apply iqs323_write_mode_keeps|intros e1].
  apply keeps_if; [apply keeps_pure|].
  apply keeps_bind; [apply iqs323_keeps_with_io|intros e2].
  apply keeps_if; [apply IH|].
  apply keeps_bind; [apply iqs323_keeps_with_io|intros r].
  apply keeps_if; [apply keeps_pure|].
  apply keeps_if; [apply keeps_pure|].
  apply keeps_if; [apply IH|].
  apply keeps_if; [apply IH|apply keeps_pure].
Qed.

Lemma iqs323_dev_init_rows_keeps dir b stride num_col rows :
  forall reg off val_buf error,
  keeps f (dev_init_rows rows dir b stride num_col reg off val_buf error).
Proof using f_io f_buf.
  induction rows as [|rows IH]; intros reg off val_buf error;
    cbn [dev_init_rows]; [apply keeps_pure|].
  apply keeps_bind; [apply keeps_get|intros p].
  apply keeps_bind; [|intros r; apply keeps_if; [apply keeps_pure|apply IH]].
  apply keeps_if.
  - apply keeps_bind; [apply iqs323_keeps_with_io|intros r].
    apply keeps_bind; [|intros; apply keeps_pure].
    apply keeps_modify. intros q. apply f_buf.
  - apply keeps_if; [|apply keeps_pure].
    apply keeps_bind; [apply iqs323_keeps_with_io|intros; apply keeps_pure].
Qed.

Lemma iqs323_dev_init_grps_keeps dir grps : keeps f (dev_init_grps grps dir).
Proof using f_io f_buf.
  induction grps as [|i rest IH]; cbn [dev_init_grps]; [apply keeps_pure|].
  apply keeps_bind; [apply keeps_get|intros p].
  apply keeps_if; [exact IH|].
  destruct (iqs323_setup i 0) as [[b off]|]; [|exact IH].
  apply keeps_bind; [apply iqs323_keeps_with_io|intros val_buf].
  apply keeps_if; [apply keeps_pure|].
  apply keeps_bind; [apply iqs323_dev_init_rows_keeps|intros e].
  apply keeps_if; [apply keeps_pure|exact IH].
Qed.

Lemma iqs323_dev_init_keeps dir : keeps f (iqs323_dev_init dir).
Proof using f_io f_mode f_buf.
  unfold iqs323_dev_init.
  apply keeps_bind;
    [apply keeps_if; [apply iqs323_write_mode_keeps|apply keeps_pure]|intros e1].
  apply keeps_if; [apply keeps_pure|].
  apply keeps_bind; [apply iqs323_dev_init_grps_keeps|intros e2].
  apply keeps_if; [apply keeps_pure|].
  apply keeps_if; [apply keeps_pure|apply iqs323_ati_attempts_keeps].
Qed.

End Iqs323Recovery.

Section Iqs323ProcessRecovery.
Import Iqs323.

Lemma iqs323_process_events_recovers val_buf0 p val_buf p1 :
  iqs323_status_read p val_buf0 val_buf p1 ->
  let sys_status := nth 0 val_buf 0 in
  let valid := iqs323_check_comms val_buf =? COMMS_ERROR in
  let run := iqs323_process_events val_buf0 p in
  (valid = false ->
   run = bind (with_io iqs323_hard_reset)
              (fun error =>
                 if truthy error then pure (error, val_buf) else
                 bind (iqs323_dev_init WRITE)
                      (fun error => pure (elvis error (- EAGAIN), val_buf))) p1) /\
  (valid = true -> iqs323_reset sys_status = true ->
   run = bind (iqs323_dev_init WRITE)
              (fun error => pure (elvis error (- EAGAIN), val_buf)) p1) /\
  (valid = true -> iqs323_reset sys_status = false ->
   iqs323_ati_error sys_status = true ->
   run = bind iqs323_ati_trigger
              (fun error => pure (elvis error (- EAGAIN), val_buf)) p1) /\
  (valid = true -> iqs323_reset sys_status = false ->
   iqs323_ati_error sys_status = false -> iqs323_ati_active sys_status = true ->
   run = Ok ((- EAGAIN, val_buf), p1)) /\
  (negb valid || iqs323_reset sys_status || iqs323_ati_error sys_status
   || iqs323_ati_active sys_status = true ->
   forall r p', run = Ok (r, p') -> reported p' = reported p).
Proof.
  intros Hread sys_status valid run.
  assert (Hrun : run =
    (if negb valid then
       bind (with_io iqs323_hard_reset)
            (fun error =>
               if truthy error then pure (error, val_buf) else
               bind (iqs323_dev_init WRITE)
                    (fun error => pure (elvis error (- EAGAIN), val_buf))) p1
     else if iqs323_reset sys_status then
       bind (iqs323_dev_init WRITE)
            (fun error => pure (elvis error (- EAGAIN), val_buf)) p1
     else if iqs323_ati_error sys_status then
       bind iqs323_ati_trigger
            (fun error => pure (elvis error (- EAGAIN), val_buf)) p1
     else if iqs323_ati_active sys_status then Ok ((- EAGAIN, val_buf), p1)
     else run)).
  { unfold run at 1. unfold iqs323_process_events.
    unfold iqs323_status_read in Hread. rewrite (bind_ok _ _ _ _ _ Hread).
    cbn [fst snd]. rewrite truthy_0.
    unfold iqs323_reset, iqs323_ati_error, iqs323_ati_active.
    fold (iqs323_check_comms val_buf). fold valid. fold sys_status.
    destruct valid eqn:Ev; cbn [negb].
    2:{ unfold bind. destruct (with_io iqs323_hard_reset p1) as [[e q]| |];
          [|reflexivity..].
        destruct (truthy e); reflexivity. }
    destruct (truthy (Z.land sys_status IQS323_SYS_STATUS_RESET)) eqn:Er;
      [reflexivity|].
    destruct (truthy (Z.land sys_status IQS323_SYS_STATUS_ATI_ERROR)) eqn:Ee;
      [reflexivity|].
    destruct (truthy (Z.land sys_status IQS323_SYS_STATUS_ATI_ACTIVE)) eqn:Ea;
      [reflexivity|].
    symmetry. unfold run, iqs323_process_events.
    rewrite (bind_ok _ _ _ _ _ Hread).
    cbn [fst snd]. rewrite truthy_0.
    fold (iqs323_check_comms val_buf). fold valid. fold sys_status.
    rewrite Ev, Er, Ee, Ea. reflexivity. }
  assert (Hp1 : reported p1 = reported p).
  { unfold iqs323_status_read, with_io in Hread.
    destruct (iqs323_read_burst IQS323_SYS_STATUS val_buf0 (io p)) as [[a w]| |];
      inversion Hread. reflexivity. }
  assert (Hinit : keeps reported (iqs323_dev_init WRITE)).
  { apply iqs323_dev_init_keeps; [reflexivity|reflexivity|].
    intros [] l q; reflexivity. }
  split; [|split; [|split; [|split]]].
  - intros Hv. rewrite Hrun, Hv. reflexivity.
  - intros Hv Hr. rewrite Hrun, Hv, Hr. reflexivity.
  - intros Hv Hr He. rewrite Hrun, Hv, Hr, He. reflexivity.
  - intros Hv Hr He Ha. rewrite Hrun, Hv, Hr, He, Ha. reflexivity.
  - intros Hany r p' Hok. rewrite Hrun in Hok. rewrite <- Hp1.
    destruct valid; cbn [negb] in Hok, Hany.
    2:{ revert Hok. apply keeps_bind.
        - apply iqs323_keeps_with_io. reflexivity.
        - intros e. apply keeps_if; [apply keeps_pure|].
          apply keeps_bind; [exact Hinit|intros; apply keeps_pure]. }
    destruct (iqs323_reset sys_status).
    { revert Hok. apply keeps_bind; [exact Hinit|intros; apply keeps_pure]. }
    destruct (iqs323_ati_error sys_status).
    { revert Hok. apply keeps_bind; [|intros; apply keeps_pure].
      apply iqs323_ati_attempts_keeps; reflexivity. }
    destruct (iqs323_ati_active sys_status); [|discriminate].
    inversion Hok. reflexivity.
Qed.

Lemma iqs323_process_events_retries val_buf0 p val_buf p1 :
  iqs323_status_read p val_buf0 val_buf p1 ->
  good (io p1) -> iqs323_quiet (reads (io p1) 0) ->
  negb (iqs323_check_comms val_buf =? COMMS_ERROR)
  || iqs323_reset (nth 0 val_buf 0) || iqs323_ati_error (nth 0 val_buf 0) = true ->
  exists p',
    iqs323_process_events val_buf0 p = Ok ((- EAGAIN, val_buf), p').
Proof.
  intros Hread Hg Hq Hflag.
  destruct (iqs323_process_events_recovers val_buf0 p val_buf p1 Hread)
    as (Hinvalid & Hreset & Herror & _).
  destruct (iqs323_check_comms val_buf =? COMMS_ERROR) eqn:Ev; cbn [negb orb] in Hflag.
  2:{ rewrite (Hinvalid eq_refl).
      unfold bind at 1. unfold with_io at 1.
      rewrite iqs323_hard_reset_good by exact Hg. rewrite truthy_0.
      match goal with |- context [bind (iqs323_dev_init WRITE) _ ?q] =>
        destruct (iqs323_dev_init_write q Hg) as (p' & evs & Hinit & _);
        [|rewrite (bind_ok _ _ _ _ _ Hinit); exists p'; reflexivity] end.
      exact Hq. }
  destruct (iqs323_reset (nth 0 val_buf 0)) eqn:Er.
  - rewrite (Hreset eq_refl eq_refl).
    destruct (iqs323_dev_init_write p1 Hg Hq) as (p' & evs & Hinit & _).
    rewrite (bind_ok _ _ _ _ _ Hinit). exists p'. reflexivity.
  - cbn [orb] in Hflag. rewrite (Herror eq_refl eq_refl Hflag).
    destruct Hq as (Hr & He & Ha).
    unfold bind, iqs323_ati_trigger, NUM_RETRIES.
    rewrite iqs323_ati_attempts_step
      by (try exact Hg; apply iqs323_quiet_is_data; repeat split; assumption).
    cbv zeta. rewrite Hr, He, Ha. eexists. reflexivity.
Qed.

End Iqs323ProcessRecovery.

(** C7, as the two decoders have it.  Once the status read has succeeded,
    [iqs7219_report_sync] looks at the reset, ATI-error and ATI-active
    flags in this order.  With the reset flag set it is
    [iqs7219_dev_init (WRITE)], with the ATI-error flag set it is
    [iqs7219_ati_trigger], and the caller gets the error of that call, or
    -EAGAIN when the call returned 0 and the caller passed [val]; with the
    ATI-active flag set nothing more is done and a caller that passed
    [val] gets -EAGAIN.  [iqs323_process_events] first checks the word of
    the report that an unimplemented register fills: when it is not
    0xEEEE the device is reset by its pin and initialised again, whatever
    the flags; otherwise the three flags are looked at in the same order,
    and the caller gets the error of the recovery, or -EAGAIN when it
    returned 0.  On all these paths no event is dispatched and the cached
    flags stay as they were.  On a bus that works, with memory for every
    buffer and a device that is quiet after the status read, the
    recovery returns 0: the caller of [iqs7219_report_sync] that passed
    [val] and the caller of [iqs323_process_events] get -EAGAIN.  The
    IQS7219A is quiet when it answers the reads of the communication
    setup and of the system setup that the recovery makes, whatever
    their bits, and shows neither ATI flag in the status read that
    follows; the IQS323 when its next status read shows none of the
    three flags.  Without memory for the first message of the recovery
    the caller gets -ENOMEM. *)
Theorem decoder_recovers_in_priority_order :
  (forall scan_id chan_index val p val_buf p1,
     status_read p val_buf p1 ->
     let sys_flags := nth 0 val_buf 0 in
     let run := Iqs7219.iqs7219_report_sync scan_id chan_index val p in
     (iqs7219_reset sys_flags = true ->
      run = bind (Iqs7219.iqs7219_dev_init Iqs7219.WRITE)
                 (fun error => pure (iqs7219_retry val error, val)) p1) /\
     (iqs7219_reset sys_flags = false -> iqs7219_ati_error sys_flags = true ->
      run = bind (Iqs7219.with_io
                    (Iqs7219.iqs7219_ati_trigger (Iqs7219.intf_mode p)))
                 (fun error => pure (iqs7219_retry val error, val)) p1) /\
     (iqs7219_reset sys_flags = false -> iqs7219_ati_error sys_flags = false ->
      iqs7219_ati_active sys_flags = true ->
      run = Ok ((iqs7219_retry val 0, val), p1)) /\
     (iqs7219_reset sys_flags || iqs7219_ati_error sys_flags
      || iqs7219_ati_active sys_flags = true ->
      forall r p', run = Ok (r, p') ->
        Iqs7219.pushed p' = Iqs7219.pushed p /\
        Iqs7219.pxs_flags p' = Iqs7219.pxs_flags p /\
        Iqs7219.scan_data p' = Iqs7219.scan_data p) /\
     (good (Iqs7219.io p1) ->
      let c := if iqs7219_reset sys_flags
               then (2 * comms_reads p)%nat else 0%nat in
      (forall j, (j <= c)%nat -> is_data (reads (Iqs7219.io p1) j)) ->
      iqs7219_quiet (reads (Iqs7219.io p1) (S c)) ->
      iqs7219_reset sys_flags || iqs7219_ati_error sys_flags = true ->
      exists p', run = Ok ((if non_null val then - EAGAIN else 0, val), p')) /\
     (iqs7219_reset sys_flags = true ->
      mem (Iqs7219.io p1) (mem_n (Iqs7219.io p1)) = false ->
      run = Ok ((- ENOMEM, val),
                Iqs7219.set_io (allocated (Iqs7219.io p1)) p1))) /\
  (forall val_buf0 p val_buf p1,
     iqs323_status_read p val_buf0 val_buf p1 ->
     let sys_status := nth 0 val_buf 0 in
     let valid := iqs323_check_comms val_buf =? COMMS_ERROR in
     let run := Iqs323.iqs323_process_events val_buf0 p in
     (valid = false ->
      run = bind (Iqs323.with_io Iqs323.iqs323_hard_reset)
                 (fun error =>
                    if truthy error then pure (error, val_buf) else
                    bind (Iqs323.iqs323_dev_init Iqs323.WRITE)
                         (fun error =>
                            pure (Iqs323.elvis error (- EAGAIN), val_buf))) p1) /\
     (valid = true -> iqs323_reset sys_status = true ->
      run = bind (Iqs323.iqs323_dev_init Iqs323.WRITE)
                 (fun error => pure (Iqs323.elvis error (- EAGAIN), val_buf)) p1) /\
     (valid = true -> iqs323_reset sys_status = false ->
      iqs323_ati_error sys_status = true ->
      run = bind Iqs323.iqs323_ati_trigger
                 (fun error => pure (Iqs323.elvis error (- EAGAIN), val_buf)) p1) /\
     (valid = true -> iqs323_reset sys_status = false ->
      iqs323_ati_error sys_status = false ->
      iqs323_ati_active sys_status = true ->
      run = Ok ((- EAGAIN, val_buf), p1)) /\
     (negb valid || iqs323_reset sys_status || iqs323_ati_error sys_status
      || iqs323_ati_active sys_status = true ->
      forall r p', run = Ok (r, p') ->
        Iqs323.reported p' = Iqs323.reported p) /\
     (good (Iqs323.io p1) -> iqs323_quiet (reads (Iqs323.io p1) 0) ->
      negb valid || iqs323_reset sys_status || iqs323_ati_error sys_status = true ->
      exists p', run = Ok ((- EAGAIN, val_buf), p')) /\
     (valid = true ->
      iqs323_reset sys_status || iqs323_ati_error sys_status = true ->
      mem (Iqs323.io p1) (mem_n (Iqs323.io p1)) = false ->
      run = Ok ((- ENOMEM, val_buf),
                Iqs323.set_intf_mode Iqs323.IQS323_INTF_MODE_ERROR
                  (Iqs323.set_io (allocated (Iqs323.io p1)) p1)))).
Proof.
  split.
  - intros scan_id chan_index val p val_buf p1 Hread.
    destruct (iqs7219_report_sync_recovers scan_id chan_index val p val_buf p1 Hread)
      as (H1 & H2 & H3 & H4).
    cbv zeta. split; [exact H1|]. split; [exact H2|]. split; [exact H3|].
    split; [exact H4|].
    split;
      [exact (iqs7219_report_sync_retries scan_id chan_index val p val_buf p1 Hread)|].
    intros Hr Hm. rewrite (H1 Hr).
    rewrite (bind_ok _ _ _ _ _ (iqs7219_dev_init_write_enomem p1 Hm)).
    unfold iqs7219_retry. destruct val; reflexivity.
  - intros val_buf0 p val_buf p1 Hread.
    destruct (iqs323_process_events_recovers val_buf0 p val_buf p1 Hread)
      as (H0 & H1 & H2 & H3 & H4).
    cbv zeta. split; [exact H0|]. split; [exact H1|]. split; [exact H2|].
    split; [exact H3|]. split; [exact H4|].
    split; [exact (iqs323_process_events_retries val_buf0 p val_buf p1 Hread)|].
    intros Hv Hflag Hm.
    destruct (iqs323_reset (nth 0 val_buf 0)) eqn:Er.
    + rewrite (H1 Hv eq_refl).
      rewrite (bind_ok _ _ _ _ _ (iqs323_dev_init_write_enomem p1 Hm)).
      reflexivity.
    + cbn [orb] in Hflag. rewrite (H2 Hv eq_refl Hflag).
      rewrite (bind_ok _ _ _ _ _ (iqs323_ati_enomem p1 Hm)).
      reflexivity.
Qed.

(** A status with the reset flag read by [iqs7219_report_sync] for a
    caller that passed [val], on a bus whose writes all fail: the caller
    gets -EIO, not -EAGAIN.  A status with the ATI-active flag and a zero
    in place of 0xEEEE read by [iqs323_process_events] on a bus that
    works: the device is reset by its pin and initialised again; and
    [iqs323_report_sync] hands 0 to its caller. *)
Lemma recovery_error_reaches_the_caller :
  let p := iqs7219_example (stub [] 1 [] 0 [] 2 [[0x800]] [] 1) 0 [true; true] in
  let q := iqs323_example (stub [] 1 [] 1 [] 2 [[0x20]] [] 1) in
  iqs7219_reset 0x800 = true /\
  result_of (Iqs7219.iqs7219_report_sync 0 0 (Some 0) p) = Some (- EIO, Some 0) /\
  - EIO <> - EAGAIN /\
  iqs323_reset 0x20 = false /\ iqs323_ati_error 0x20 = false /\
  iqs323_ati_active 0x20 = true /\
  option_map (fun q' => firstn 8 (trace (Iqs323.io q')))
             (final_of (Iqs323.iqs323_process_events (repeat 0 10) q)) =
  Some [EvXfer [0x10] 10; EvSleep 2500; EvGpioSet RDY_GPIO 1; EvSleep 300000;
        EvGpioSet RDY_GPIO 0; EvSleep 2500; EvSend [0xC0; 0x01; 0x00];
        EvSleep 2500] /\
  result_of (Iqs323.iqs323_report_sync q) = Some 0.
Proof.
  cbv zeta. repeat split; try (vm_compute; reflexivity).
  vm_compute. discriminate.
Qed.

Lemma decoder_recovers_in_priority_order_witness :
  let p := iqs7219_with_comms
             (iqs7219_example
                (stub [] 1 [] 1 [] 2 [[0x800]; [0x100]; [0x100]; [0x300]; [0]] [] 1)
                0 [true; true]) in
  let w := stub [] 1 [] 1 [] 2 [[0x20; 0; 0; 0; 0; 0; 0; 0; 0; 0xEEEE]] [] 1 in
  let q := iqs323_example w in
  let val_buf := [0x20; 0; 0; 0; 0; 0; 0; 0; 0; 0xEEEE] in
  let q1 := Iqs323.set_io (slept 2500 (xferred [0x10] 10 (sampled w))) q in
  Iqs7219.iqs7219_report_sync 0 0 (Some 0) p =
  bind (Iqs7219.iqs7219_dev_init Iqs7219.WRITE)
       (fun error => pure (iqs7219_retry (Some 0) error, Some 0))
       (snd (status_of p)) /\
  (exists p', Iqs7219.iqs7219_report_sync 0 0 (Some 0) p =
              Ok ((- EAGAIN, Some 0), p')) /\
  Iqs323.iqs323_process_events (repeat 0 10) q = Ok ((- EAGAIN, val_buf), q1) /\
  (exists q',
     Iqs323.iqs323_process_events
       (repeat 0 10)
       (iqs323_example
          (stub [] 1 [] 1 [] 2 [[0x80; 0; 0; 0; 0; 0; 0; 0; 0; 0xEEEE]] [] 1)) =
     Ok ((- EAGAIN, [0x80; 0; 0; 0; 0; 0; 0; 0; 0; 0xEEEE]), q')).
Proof.
  cbv zeta.
  destruct decoder_recovers_in_priority_order as (H7219 & H323).
  split; [|split; [|split]].
  - set (p := iqs7219_with_comms _).
    destruct (H7219 0 0 (Some 0) p (fst (status_of p)) (snd (status_of p)))
      as (Hreset & _).
    + vm_compute. reflexivity.
    + apply Hreset. vm_compute. reflexivity.
  - set (p := iqs7219_with_comms _).
    destruct (H7219 0 0 (Some 0) p (fst (status_of p)) (snd (status_of p)))
      as (_ & _ & _ & _ & Hretry & _).
    + vm_compute. reflexivity.
    + apply Hretry.
      * apply good_stub.
      * intros j Hj. vm_compute in Hj.
        do 3 (destruct j as [|j]; [vm_compute; discriminate|]). lia.
      * vm_compute. split; reflexivity.
      * vm_compute. reflexivity.
  - set (w := stub [] 1 [] 1 [] 2 _ [] 1).
    destruct (H323 (repeat 0 10) (iqs323_example w)
                [0x20; 0; 0; 0; 0; 0; 0; 0; 0; 0xEEEE]
                (Iqs323.set_io (slept 2500 (xferred [0x10] 10 (sampled w)))
                               (iqs323_example w)))
      as (_ & _ & _ & Hactive & _).
    + vm_compute. reflexivity.
    + apply Hactive; vm_compute; reflexivity.
  - set (w := stub [] 1 [] 1 [] 2 _ [] 1).
    destruct (H323 (repeat 0 10) (iqs323_example w)
                [0x80; 0; 0; 0; 0; 0; 0; 0; 0; 0xEEEE]
                (Iqs323.set_io (slept 2500 (xferred [0x10] 10 (sampled w)))
                               (iqs323_example w)))
      as (_ & _ & _ & _ & _ & Hretry & _).
    + vm_compute. reflexivity.
    + apply Hretry.
      * apply good_stub.
      * repeat split.
      * vm_compute. reflexivity.
Defined.

(** ** Suspend and resume of the IQS323 *)

Lemma count_app f evs1 evs2 : count f (evs1 ++ evs2) = (count f evs1 + count f evs2)%nat.
Proof. unfold count. rewrite List.filter_app, List.length_app. reflexivity. Qed.

Lemma count_init_events f evs :
  (forall e, init_event e = true -> f e = false) ->
  forallb init_event evs = true -> count f evs = 0%nat.
Proof.
  intros Hf. unfold count. induction evs as [|e evs IH]; [reflexivity|].
  cbn [forallb List.filter]. intros H. apply andb_prop in H. destruct H as (He & Hr).
  rewrite (Hf e He). exact (IH Hr).
Qed.

Lemma init_event_not_identity e : init_event e = true -> is_identity_read e = false.
Proof.
  destruct e as [l v|m|reg n|us|b]; cbn; try reflexivity.
  destruct reg as [|r [|r' reg]]; try reflexivity.
  intros H. apply Z.eqb_eq in H. subst r. reflexivity.
Qed.

Lemma init_event_not_reset e : init_event e = true -> is_reset e = false.
Proof. destruct e as [l v|m|reg n|us|b]; cbn; try reflexivity. discriminate. Qed.

Section Iqs323Pm.
Import Iqs323.

(** One pass of the loop of [iqs323_runtime_pm] towards halt on a bus
    that works: the identity is read 50 ms after the mode is written, and a
    word that is not the product number sends the driver through the
    reset and the initialisation before the next pass. *)
Lemma runtime_pm_loop_step n error val p :
  good (io p) -> reads (io p) 0 <> COMMS_ERROR ->
  let w3 := slept 2500
              (xferred [IQS323_PROD_NUM] 1
                 (sampled
                    (slept (COMMS_RETRY_MS * 1000)
                       (slept 2500
                          (sent (IQS323_SYS_SETUP ::
                                 le16_bytes
                                   (iqs323_mode_word p (intf_mode p)
                                      IQS323_POWER_MODE_HALT 0))
                                (sampled (allocated (io p)))))))) in
  let p3 := set_io w3 p in
  runtime_pm_loop (S n) IQS323_POWER_MODE_HALT error val p =
  if reads (io p) 0 =? prod_num (dev_desc p) then Ok ((true, 0), p3)
  else
    bind (with_io iqs323_hard_reset)
         (fun error =>
            if truthy error then pure (true, error) else
            bind (iqs323_dev_init WRITE)
                 (fun error =>
                    if truthy error then pure (true, error) else
                    runtime_pm_loop n IQS323_POWER_MODE_HALT error
                                    (reads (io p) 0))) p3.
Proof.
  intros Hg Hword w3 p3. cbn [runtime_pm_loop].
  unfold bind at 1. unfold get at 1.
  rewrite (bind_ok _ _ _ _ _ (iqs323_write_mode_good _ _ _ p Hg)).
  rewrite truthy_0.
  change (IQS323_POWER_MODE_HALT =? IQS323_POWER_MODE_USER) with false.
  cbn [orb].
  unfold bind at 1. unfold with_io at 1. unfold msleep, sleep_us at 1.
  cbn [io set_io set_intf_mode].
  unfold bind at 1. unfold with_io at 1. cbn [io set_io set_intf_mode].
  unfold iqs323_read_word, iqs323_irq_wait.
  match goal with |- context [read_word _ _ _ _ ?w] =>
    rewrite (read_word_good iqs323_force_comms 2500 2600 iqs323_force_comms_good
               [IQS323_PROD_NUM] val w Hg Hword);
    change (reads w 0) with (reads (io p) 0) end.
  cbn [fst snd]. rewrite truthy_0. cbn [orb dev_desc set_io set_intf_mode].
  destruct (reads (io p) 0 =? prod_num (dev_desc p)).
  - destruct p; reflexivity.
  - destruct p; reflexivity.
Qed.

(** Each pass that ends in a new initialisation makes two reads. *)
Lemma reads_two_later w w' j :
  same_bus w w' -> xfer_n w' = (xfer_n w + 2)%nat ->
  reads w' (2 * j) = reads w (2 * S j) /\
  reads w' (2 * j + 1) = reads w (2 * S j + 1).
Proof.
  intros Hb Hx. rewrite !(reads_later _ _ 2 _ Hb Hx). split; f_equal; lia.
Qed.

(** While the identity read yields a word that is not the product number
    and the ATI trigger of the initialisation that follows reads a quiet
    status, every pass ends in a reset and a new initialisation: [k] such
    passes and one that reads the product number end the loop by [break]
    with 0, and [n] such passes use up a loop of [n]. *)
Lemma runtime_pm_round n error val p :
  good (io p) ->
  reads (io p) 0 <> COMMS_ERROR ->
  reads (io p) 0 <> prod_num (dev_desc p) ->
  iqs323_quiet (reads (io p) 1) ->
  exists w p5 ev2,
    runs_on (io p) w (iqs323_identity_pass p ++ iqs323_pin_reset) /\
    iqs323_dev_init WRITE (set_io w p) = Ok (0, p5) /\
    runs_on w (io p5) ev2 /\ forallb init_event ev2 = true /\
    xfer_n (io p5) = (xfer_n (io p) + 2)%nat /\
    dev_desc p5 = dev_desc p /\
    runtime_pm_loop (S n) IQS323_POWER_MODE_HALT error val p =
    runtime_pm_loop n IQS323_POWER_MODE_HALT 0 (reads (io p) 0) p5.
Proof.
  intros Hg Hd0 Hid0 Hq0.
  rewrite runtime_pm_loop_step by (try exact Hg; exact Hd0).
  cbv zeta. destruct (Z.eqb_spec (reads (io p) 0) (prod_num (dev_desc p)));
    [contradiction|].
  match goal with |- context [bind (with_io iqs323_hard_reset) _ ?q] =>
    set (p3 := q) end.
  unfold bind at 1. unfold with_io at 1.
  rewrite iqs323_hard_reset_good by exact Hg.
  rewrite truthy_0.
  match goal with |- context [bind (iqs323_dev_init WRITE) _ ?q] =>
    set (p4 := q) end.
  assert (Hon4 : runs_on (io p) (io p4) (iqs323_identity_pass p ++ iqs323_pin_reset)).
  { unfold p4, p3, iqs323_identity_pass, iqs323_pin_reset, iqs323_mode_write.
    cbn [app]. runs_on_explicit. }
  assert (Hp4 : p4 = set_io (io p4) p) by (unfold p4, p3; destruct p; reflexivity).
  assert (Hg4 : good (io p4)) by exact Hg.
  assert (Hx4 : xfer_n (io p4) = (xfer_n (io p) + 1)%nat).
  { unfold p4, p3.
    cbn [io set_io xfer_n slept xferred sent sampled polled log allocated]. lia. }
  destruct (iqs323_dev_init_write p4 Hg4) as (p5 & ev2 & Hinit & Hon5 & Hev2 & Hx5).
  { rewrite (reads_later _ _ 1 0 (proj1 Hon4) Hx4). exact Hq0. }
  rewrite (bind_ok _ _ _ _ _ Hinit). rewrite truthy_0.
  assert (Hdesc : dev_desc p5 = dev_desc p).
  { apply (iqs323_dev_init_keeps dev_desc) in Hinit;
      [exact Hinit|reflexivity|reflexivity|intros [] l q; reflexivity]. }
  exists (io p4), p5, ev2. rewrite <- Hp4.
  split; [exact Hon4|]. split; [exact Hinit|]. split; [exact Hon5|].
  split; [exact Hev2|]. split; [lia|]. split; [exact Hdesc|reflexivity].
Qed.

Lemma count_identity_pass q :
  count is_identity_read (iqs323_identity_pass q) = 1%nat /\
  count is_reset (iqs323_identity_pass q) = 0%nat /\
  count is_identity_read iqs323_pin_reset = 0%nat /\
  count is_reset iqs323_pin_reset = 1%nat.
Proof. repeat split. Qed.

Lemma runtime_pm_loop_runs k : forall n error val p,
  good (io p) ->
  (forall j, (j < k)%nat ->
     reads (io p) (2 * j) <> COMMS_ERROR /\
     reads (io p) (2 * j) <> prod_num (dev_desc p) /\
     iqs323_quiet (reads (io p) (2 * j + 1))) ->
  (k < n)%nat ->
  reads (io p) (2 * k) <> COMMS_ERROR ->
  reads (io p) (2 * k) = prod_num (dev_desc p) ->
  exists p' evs q,
    runtime_pm_loop n IQS323_POWER_MODE_HALT error val p = Ok ((true, 0), p') /\
    iqs323_rounds k p evs q /\
    runs_on (io p) (io p') (evs ++ iqs323_identity_pass q) /\
    count is_identity_read (evs ++ iqs323_identity_pass q) = S k /\
    count is_reset (evs ++ iqs323_identity_pass q) = k.
Proof.
  induction k as [|k IH]; intros n error val p Hg Hpass Hlt Hdata Hmatch;
    (destruct n as [|n]; [lia|]).
  - rewrite runtime_pm_loop_step by (try exact Hg; exact Hdata).
    cbv zeta. change (2 * 0)%nat with 0%nat in Hmatch.
    rewrite Hmatch, Z.eqb_refl.
    eexists. exists [], p.
    split; [reflexivity|]. split; [constructor|].
    split; [|split; reflexivity].
    unfold iqs323_identity_pass, iqs323_mode_write. cbn [app]. runs_on_explicit.
  - destruct (Hpass 0%nat ltac:(lia)) as (Hd0 & Hid0 & Hq0).
    change (2 * 0)%nat with 0%nat in Hd0, Hid0.
    change (2 * 0 + 1)%nat with 1%nat in Hq0.
    destruct (runtime_pm_round n error val p Hg Hd0 Hid0 Hq0)
      as (w & p5 & ev2 & Hon4 & Hinit & Hon5 & Hev2 & Hx & Hdesc & Hstep).
    rewrite Hstep.
    assert (Hb5 : same_bus (io p) (io p5))
      by exact (same_bus_trans _ _ _ (proj1 Hon4) (proj1 Hon5)).
    destruct (IH n 0 (reads (io p) 0) p5)
      as (p' & ev3 & q & Hrun & Hrounds & Hon & Hc1 & Hc2).
    + exact (good_same_bus _ _ Hg Hb5).
    + intros j Hj. rewrite Hdesc.
      destruct (reads_two_later _ _ j Hb5 Hx) as (-> & ->).
      apply Hpass. lia.
    + lia.
    + rewrite (proj1 (reads_two_later _ _ k Hb5 Hx)). exact Hdata.
    + rewrite Hdesc, (proj1 (reads_two_later _ _ k Hb5 Hx)).
      exact Hmatch.
    + exists p', (iqs323_identity_pass p ++ iqs323_pin_reset ++ ev2 ++ ev3), q.
      split; [exact Hrun|].
      split; [exact (rounds_more _ _ _ _ _ _ _ Hon4 Hinit Hon5 Hrounds)|].
      assert (Hl : (iqs323_identity_pass p ++ iqs323_pin_reset ++ ev2 ++ ev3)
                   ++ iqs323_identity_pass q
                   = ((iqs323_identity_pass p ++ iqs323_pin_reset) ++ ev2)
                     ++ (ev3 ++ iqs323_identity_pass q))
        by (repeat rewrite <- app_assoc; reflexivity).
      rewrite Hl. split.
      * exact (runs_on_trans _ _ _ _ _ (runs_on_trans _ _ _ _ _ Hon4 Hon5) Hon).
      * rewrite !(count_app _ (_ ++ ev2)), Hc1, Hc2, !count_app.
        rewrite (count_init_events is_identity_read ev2 init_event_not_identity Hev2).
        rewrite (count_init_events is_reset ev2 init_event_not_reset Hev2).
        split; reflexivity.
Qed.

Lemma runtime_pm_loop_gives_up n : forall error val p,
  good (io p) ->
  (forall j, (j < n)%nat ->
     reads (io p) (2 * j) <> COMMS_ERROR /\
     reads (io p) (2 * j) <> prod_num (dev_desc p) /\
     iqs323_quiet (reads (io p) (2 * j + 1))) ->
  exists error' p' evs q,
    runtime_pm_loop n IQS323_POWER_MODE_HALT error val p = Ok ((false, error'), p') /\
    iqs323_rounds n p evs q /\
    runs_on (io p) (io p') evs /\
    count is_identity_read evs = n /\ count is_reset evs = n.
Proof.
  induction n as [|n IH]; intros error val p Hg Hpass.
  - exists error, p, [], p. split; [reflexivity|]. split; [constructor|].
    split; [apply runs_on_refl|]. split; reflexivity.
  - destruct (Hpass 0%nat ltac:(lia)) as (Hd0 & Hid0 & Hq0).
    change (2 * 0)%nat with 0%nat in Hd0, Hid0.
    change (2 * 0 + 1)%nat with 1%nat in Hq0.
    destruct (runtime_pm_round n error val p Hg Hd0 Hid0 Hq0)
      as (w & p5 & ev2 & Hon4 & Hinit & Hon5 & Hev2 & Hx & Hdesc & Hstep).
    rewrite Hstep.
    assert (Hb5 : same_bus (io p) (io p5))
      by exact (same_bus_trans _ _ _ (proj1 Hon4) (proj1 Hon5)).
    destruct (IH 0 (reads (io p) 0) p5)
      as (e' & p' & ev3 & q & Hrun & Hrounds & Hon & Hc1 & Hc2).
    + exact (good_same_bus _ _ Hg Hb5).
    + intros j Hj. rewrite Hdesc.
      destruct (reads_two_later _ _ j Hb5 Hx) as (-> & ->).
      apply Hpass. lia.
    + exists e', p', (iqs323_identity_pass p ++ iqs323_pin_reset ++ ev2 ++ ev3), q.
      split; [exact Hrun|].
      split; [exact (rounds_more _ _ _ _ _ _ _ Hon4 Hinit Hon5 Hrounds)|].
      assert (Hl : iqs323_identity_pass p ++ iqs323_pin_reset ++ ev2 ++ ev3
                   = ((iqs323_identity_pass p ++ iqs323_pin_reset) ++ ev2) ++ ev3)
        by (repeat rewrite <- app_assoc; reflexivity).
      rewrite Hl. split.
      * exact (runs_on_trans _ _ _ _ _ (runs_on_trans _ _ _ _ _ Hon4 Hon5) Hon).
      * rewrite !count_app, Hc1, Hc2.
        rewrite (count_init_events is_identity_read ev2 init_event_not_identity Hev2).
        rewrite (count_init_events is_reset ev2 init_event_not_reset Hev2).
        split; reflexivity.
Qed.

Lemma iqs323_runtime_pm_wakeup power_mode p :
  may_wakeup p = true -> iqs323_runtime_pm power_mode p = Ok (0, p).
Proof.
  intros H. unfold iqs323_runtime_pm. unfold bind at 1. unfold get at 1.
  rewrite H. reflexivity.
Qed.

(** Towards the mode of the user the loop is left after its first
    write. *)
Lemma runtime_pm_loop_user n error val p :
  good (io p) ->
  runtime_pm_loop (S n) IQS323_POWER_MODE_USER error val p =
  Ok ((true, 0),
      set_intf_mode (intf_mode p)
        (set_io (slept 2500
                   (sent (IQS323_SYS_SETUP ::
                          le16_bytes (iqs323_mode_word p (intf_mode p)
                                        IQS323_POWER_MODE_USER 0))
                         (sampled (allocated (io p))))) p)).
Proof.
  intros Hg. cbn [runtime_pm_loop].
  unfold bind at 1. unfold get at 1.
  rewrite (bind_ok _ _ _ _ _ (iqs323_write_mode_good _ _ _ p Hg)).
  rewrite truthy_0. rewrite Z.eqb_refl. reflexivity.
Qed.

Lemma iqs323_resume_good p :
  may_wakeup p = false -> good (io p) ->
  exists p',
    iqs323_resume p = Ok (0, p') /\
    runs_on (io p) (io p')
            [EvIrq false;
             iqs323_mode_write p (intf_mode p) IQS323_POWER_MODE_USER 0;
             EvSleep 2500; EvIrq true].
Proof.
  intros Hw Hg. unfold iqs323_resume, iqs323_runtime_pm.
  unfold bind at 1. unfold get at 1. rewrite Hw.
  unfold bind at 1. unfold with_io at 1. unfold disable_irq, modify at 1.
  unfold NUM_RETRIES.
  match goal with |- context [bind (runtime_pm_loop _ _ _ _) _ ?q] =>
    rewrite (bind_ok _ _ _ _ _ (runtime_pm_loop_user 4 0 0 q Hg)) end.
  unfold bind at 1. unfold with_io at 1. unfold enable_irq, modify at 1.
  cbn [fst snd].
  eexists. split; [reflexivity|].
  unfold iqs323_mode_write. runs_on_explicit.
Qed.

Lemma iqs323_suspend_runs k p :
  may_wakeup p = false -> good (io p) -> (k < NUM_RETRIES)%nat ->
  (forall j, (j < k)%nat ->
     reads (io p) (2 * j) <> COMMS_ERROR /\
     reads (io p) (2 * j) <> prod_num (dev_desc p) /\
     iqs323_quiet (reads (io p) (2 * j + 1))) ->
  reads (io p) (2 * k) <> COMMS_ERROR ->
  reads (io p) (2 * k) = prod_num (dev_desc p) ->
  exists p' evs q,
    iqs323_suspend p = Ok (0, p') /\
    iqs323_rounds k (set_io (log (EvIrq false) (io p)) p) evs q /\
    runs_on (io p) (io p')
            ([EvIrq false] ++ evs ++ iqs323_identity_pass q ++ [EvIrq true]) /\
    count is_identity_read evs = k /\ count is_reset evs = k.
Proof.
  intros Hw Hg Hk Hpass Hdata Hmatch. unfold iqs323_suspend, iqs323_runtime_pm.
  unfold bind at 1. unfold get at 1. rewrite Hw.
  unfold bind at 1. unfold with_io at 1. unfold disable_irq, modify at 1.
  match goal with |- context [bind (runtime_pm_loop _ _ _ _) _ ?q] =>
    change q with (set_io (log (EvIrq false) (io p)) p);
    set (p0 := set_io (log (EvIrq false) (io p)) p) end.
  destruct (runtime_pm_loop_runs k NUM_RETRIES 0 0 p0 Hg Hpass Hk Hdata Hmatch)
    as (p' & evs & q & Hrun & Hrounds & Hon & Hc1 & Hc2).
  rewrite (bind_ok _ _ _ _ _ Hrun).
  unfold bind at 1. unfold with_io at 1. unfold enable_irq, modify at 1.
  cbn [fst snd]. eexists. exists evs, q.
  split; [reflexivity|]. split; [exact Hrounds|]. split.
  - assert (Hl : [EvIrq false] ++ evs ++ iqs323_identity_pass q ++ [EvIrq true]
                 = ([EvIrq false] ++ (evs ++ iqs323_identity_pass q)) ++ [EvIrq true])
      by (repeat rewrite <- app_assoc; reflexivity).
    rewrite Hl.
    apply runs_on_trans with (w2 := io p'); [|runs_on_explicit].
    apply runs_on_trans with (w2 := io p0); [|exact Hon].
    unfold p0. runs_on_explicit.
  - rewrite count_app in Hc1, Hc2.
    destruct (count_identity_pass q) as (E1 & E2 & _).
    rewrite E1 in Hc1. rewrite E2 in Hc2. split; lia.
Qed.

Lemma iqs323_suspend_gives_up p :
  may_wakeup p = false -> good (io p) ->
  (forall j, (j < NUM_RETRIES)%nat ->
     reads (io p) (2 * j) <> COMMS_ERROR /\
     reads (io p) (2 * j) <> prod_num (dev_desc p) /\
     iqs323_quiet (reads (io p) (2 * j + 1))) ->
  exists p' evs q,
    iqs323_suspend p = Ok (- EIO, p') /\
    iqs323_rounds NUM_RETRIES (set_io (log (EvIrq false) (io p)) p) evs q /\
    runs_on (io p) (io p') ([EvIrq false] ++ evs ++ [EvIrq true]) /\
    count is_identity_read evs = NUM_RETRIES /\ count is_reset evs = NUM_RETRIES.
Proof.
  intros Hw Hg Hpass. unfold iqs323_suspend, iqs323_runtime_pm.
  unfold bind at 1. unfold get at 1. rewrite Hw.
  unfold bind at 1. unfold with_io at 1. unfold disable_irq, modify at 1.
  match goal with |- context [bind (runtime_pm_loop _ _ _ _) _ ?q] =>
    change q with (set_io (log (EvIrq false) (io p)) p);
    set (p0 := set_io (log (EvIrq false) (io p)) p) end.
  destruct (runtime_pm_loop_gives_up NUM_RETRIES 0 0 p0 Hg Hpass)
    as (e' & p' & evs & q & Hrun & Hrounds & Hon & Hc1 & Hc2).
  rewrite (bind_ok _ _ _ _ _ Hrun).
  unfold bind at 1. unfold with_io at 1. unfold enable_irq, modify at 1.
  cbn [fst snd]. eexists. exists evs, q.
  split; [reflexivity|]. split; [exact Hrounds|]. split.
  - assert (Hl : [EvIrq false] ++ evs ++ [EvIrq true]
                 = ([EvIrq false] ++ evs) ++ [EvIrq true])
      by (repeat rewrite <- app_assoc; reflexivity).
    rewrite Hl.
    apply runs_on_trans with (w2 := io p'); [|runs_on_explicit].
    apply runs_on_trans with (w2 := io p0); [|exact Hon].
    unfold p0. runs_on_explicit.
  - split; assumption.
Qed.

(** Without memory for the message of the mode the loop is left at its
    first write: suspend and resume return -ENOMEM with nothing sent. *)
Lemma runtime_pm_loop_enomem n power_mode error val p :
  mem (io p) (mem_n (io p)) = false ->
  runtime_pm_loop (S n) power_mode error val p
  = Ok ((true, - ENOMEM),
        set_intf_mode IQS323_INTF_MODE_ERROR (set_io (allocated (io p)) p)).
Proof.
  intros Hm. cbn [runtime_pm_loop].
  unfold bind at 1. unfold get at 1.
  rewrite (bind_ok _ _ _ _ _ (iqs323_write_mode_enomem _ _ _ p Hm)).
  reflexivity.
Qed.

Lemma iqs323_runtime_pm_enomem power_mode p :
  may_wakeup p = false ->
  mem (io p) (mem_n (io p)) = false ->
  exists p',
    iqs323_runtime_pm power_mode p = Ok (- ENOMEM, p') /\
    trace (io p') = trace (io p) ++ [EvIrq false; EvIrq true] /\
    xfer_n (io p') = xfer_n (io p).
Proof.
  intros Hw Hm. unfold iqs323_runtime_pm.
  unfold bind at 1. unfold get at 1. rewrite Hw.
  unfold bind at 1. unfold with_io at 1. unfold disable_irq, modify at 1.
  unfold NUM_RETRIES.
  match goal with |- context [bind (runtime_pm_loop _ _ _ _) _ ?q] =>
    rewrite (bind_ok _ _ _ _ _ (runtime_pm_loop_enomem 4 power_mode 0 0 q Hm)) end.
  unfold bind at 1. unfold with_io at 1. unfold enable_irq, modify at 1.
  cbn [fst snd]. eexists. split; [reflexivity|].
  split; [|reflexivity].
  cbn [io set_io set_intf_mode trace log allocated].
  rewrite <- app_assoc. reflexivity.
Qed.

End Iqs323Pm.

(** Whatever the bus does, a resume returns, makes no transfer and
    leaves the reset pin alone: what it does is made of samples of RDY,
    messages, delays and polls. *)
Lemma steady_pure {S A B} (f : S -> B) (a : A) : steady f (pure a).
Proof. intros s. exists a, s. split; reflexivity. Qed.

Lemma steady_get {S B} (f : S -> B) : steady f get.
Proof. intros s. exists s, s. split; reflexivity. Qed.

Lemma steady_modify {S B} (f : S -> B) (g : S -> S) :
  (forall s, f (g s) = f s) -> steady f (modify g).
Proof. intros Hg s. exists tt, (g s). split; [reflexivity|apply Hg]. Qed.

Lemma steady_bind {S A C B} (f : S -> B) (m : M S A) (k : A -> M S C) :
  steady f m -> (forall a, steady f (k a)) -> steady f (bind m k).
Proof.
  intros Hm Hk s. destruct (Hm s) as (a & s' & H1 & F1).
  destruct (Hk a s') as (c & s'' & H2 & F2).
  exists c, s''. split; [rewrite (bind_ok _ _ _ _ _ H1); exact H2|congruence].
Qed.

Lemma steady_if {S A B} (f : S -> B) (c : bool) (m1 m2 : M S A) :
  steady f m1 -> steady f m2 -> steady f (if c then m1 else m2).
Proof. destruct c; trivial. Qed.

Section Iqs323ResumeFrame.
Import Iqs323.
Context {B : Type} (f : world -> B).
Hypothesis f_sampled : forall w, f (sampled w) = f w.
Hypothesis f_sent : forall msg w, f (sent msg w) = f w.
Hypothesis f_slept : forall us w, f (slept us w) = f w.
Hypothesis f_polled : forall w, f (polled w) = f w.
Hypothesis f_irq : forall b w, f (log (EvIrq b) w) = f w.
Hypothesis f_allocated : forall w, f (allocated w) = f w.

Lemma steady_sample : steady f gpiod_get_value_cansleep.
Proof using f_sampled.
  intros w. eexists. eexists. split; [reflexivity|apply f_sampled].
Qed.

Lemma steady_send msg : steady f (i2c_master_send msg).
Proof using f_sent.
  intros w. eexists. eexists. split; [reflexivity|apply f_sent].
Qed.

Lemma steady_kzalloc : steady f kzalloc.
Proof using f_allocated.
  intros w. eexists. eexists. split; [reflexivity|apply f_allocated].
Qed.

Lemma steady_sleep us : steady f (sleep_us us).
Proof using f_slept.
  intros w. eexists. eexists. split; [reflexivity|apply f_slept].
Qed.

Lemma steady_irq_poll timeout_us : steady f (iqs323_irq_poll timeout_us).
Proof using f_polled.
  unfold iqs323_irq_poll. apply steady_bind; [|intros; apply steady_pure].
  intros w. eexists. eexists. split; [reflexivity|apply f_polled].
Qed.

Lemma steady_force_comms : steady f iqs323_force_comms.
Proof using f_sampled f_sent f_slept f_polled.
  unfold iqs323_force_comms. cbv zeta.
  apply steady_bind; [apply steady_sample|intros ret].
  apply steady_if; [apply steady_pure|].
  apply steady_if; [apply steady_pure|].
  apply steady_bind; [apply steady_send|intros ret'].
  apply steady_if.
  - apply steady_bind; [apply steady_sleep|intros; apply steady_pure].
  - apply steady_bind; [apply steady_sleep|intros; apply steady_irq_poll].
Qed.

Lemma steady_write_burst_loop msg n : forall ret,
  steady f (write_burst_loop iqs323_force_comms n msg ret).
Proof using f_sampled f_sent f_slept f_polled.
  induction n as [|n IH]; intros ret; cbn [write_burst_loop];
    [apply steady_pure|].
  apply steady_bind.
  - unfold write_burst_body.
    apply steady_bind; [apply steady_force_comms|intros r].
    apply steady_if; [apply steady_pure|].
    apply steady_bind; [apply steady_send|intros r'].
    apply steady_if; [|apply steady_pure].
    apply steady_bind; [apply steady_sleep|intros; apply steady_pure].
  - intros [c r]. cbn [fst snd]. destruct c; [apply IH|apply steady_pure].
Qed.

Lemma steady_write_word reg val : steady f (iqs323_write_word reg val).
Proof using f_sampled f_sent f_slept f_polled f_allocated.
  unfold iqs323_write_word, write_word, write_burst.
  apply steady_bind; [apply steady_kzalloc|intros msg_buf].
  apply steady_if; [apply steady_pure|]. cbv zeta.
  apply steady_bind; [apply steady_write_burst_loop|intros ret].
  apply steady_bind; [apply steady_sleep|intros; apply steady_pure].
Qed.

Lemma steady_lifted {A} (m : M world A) :
  steady f m -> steady (fun p => f (io p)) (with_io m).
Proof.
  intros Hm p. destruct (Hm (io p)) as (a & w & H & F).
  exists a, (set_io w p). unfold with_io. rewrite H. split; [reflexivity|exact F].
Qed.

Lemma runtime_pm_loop_user_steady n error val :
  steady (fun p => f (io p)) (runtime_pm_loop n IQS323_POWER_MODE_USER error val).
Proof using f_sampled f_sent f_slept f_polled f_allocated.
  destruct n as [|n]; cbn [runtime_pm_loop]; [apply steady_pure|].
  apply steady_bind; [apply steady_get|intros q].
  apply steady_bind.
  - unfold iqs323_write_mode.
    apply steady_bind; [apply steady_get|intros q'].
    apply steady_bind; [apply steady_lifted, steady_write_word|intros e].
    apply steady_bind; [|intros; apply steady_pure].
    apply steady_if; apply steady_modify; reflexivity.
  - intros e. rewrite Z.eqb_refl, orb_true_r. apply steady_pure.
Qed.

Lemma iqs323_resume_steady : steady (fun p => f (io p)) iqs323_resume.
Proof using f_sampled f_sent f_slept f_polled f_irq f_allocated.
  unfold iqs323_resume, iqs323_runtime_pm.
  apply steady_bind; [apply steady_get|intros p].
  apply steady_if; [apply steady_pure|].
  apply steady_bind.
  { apply steady_lifted. intros w. eexists. eexists.
    split; [reflexivity|apply f_irq]. }
  intros _. apply steady_bind; [apply runtime_pm_loop_user_steady|].
  intros r. apply steady_bind; [|intros; apply steady_pure].
  apply steady_lifted. intros w. eexists. eexists.
  split; [reflexivity|apply f_irq].
Qed.
End Iqs323ResumeFrame.

(** C9, as [iqs323_runtime_pm] has it.  When the device may wake the
    system neither suspend nor resume touches it.  Otherwise a resume
    writes the mode once: whatever the bus and the memory do it returns,
    having made no transfer, so read no identity, and left the reset pin
    alone; on a bus that works and with memory for the message it is the
    mode write between [disable_irq] and [enable_irq].  It is the
    suspend that checks the identity: on a bus that works, with memory
    for every buffer, each pass of its loop writes the mode, waits for
    the device, waits 50 ms and reads the product number; a pass that
    reads another word resets the device by its pin and runs
    [iqs323_dev_init] in the write direction before the next pass, which
    starts from the driver data that run leaves.  After [k] < 5 such
    passes a pass that reads the product number ends the suspend with
    0, [k + 1] identity reads and [k] resets made; five such passes end
    it with -EIO, five identity reads and five resets made.  Without
    memory for the message of the mode, suspend and resume return
    -ENOMEM with nothing sent. *)
Theorem suspend_checks_identity_resume_does_not :
  (forall power_mode p,
     Iqs323.may_wakeup p = true ->
     Iqs323.iqs323_runtime_pm power_mode p = Ok (0, p)) /\
  (forall p,
     exists r p',
       Iqs323.iqs323_resume p = Ok (r, p') /\
       xfer_n (Iqs323.io p') = xfer_n (Iqs323.io p) /\
       count is_reset (trace (Iqs323.io p')) =
       count is_reset (trace (Iqs323.io p))) /\
  (forall p,
     Iqs323.may_wakeup p = false -> good (Iqs323.io p) ->
     exists p',
       Iqs323.iqs323_resume p = Ok (0, p') /\
       runs_on (Iqs323.io p) (Iqs323.io p')
               [EvIrq false;
                iqs323_mode_write p (Iqs323.intf_mode p)
                                  Iqs323.IQS323_POWER_MODE_USER 0;
                EvSleep 2500; EvIrq true]) /\
  (forall k p,
     Iqs323.may_wakeup p = false -> good (Iqs323.io p) ->
     (k < NUM_RETRIES)%nat ->
     (forall j, (j < k)%nat ->
        reads (Iqs323.io p) (2 * j) <> COMMS_ERROR /\
        reads (Iqs323.io p) (2 * j) <> Iqs323.prod_num (Iqs323.dev_desc p) /\
        iqs323_quiet (reads (Iqs323.io p) (2 * j + 1))) ->
     reads (Iqs323.io p) (2 * k) <> COMMS_ERROR ->
     reads (Iqs323.io p) (2 * k) = Iqs323.prod_num (Iqs323.dev_desc p) ->
     exists p' evs q,
       Iqs323.iqs323_suspend p = Ok (0, p') /\
       iqs323_rounds k (Iqs323.set_io (log (EvIrq false) (Iqs323.io p)) p) evs q /\
       runs_on (Iqs323.io p) (Iqs323.io p')
               ([EvIrq false] ++ evs ++ iqs323_identity_pass q ++ [EvIrq true]) /\
       count is_identity_read evs = k /\ count is_reset evs = k) /\
  (forall p,
     Iqs323.may_wakeup p = false -> good (Iqs323.io p) ->
     (forall j, (j < NUM_RETRIES)%nat ->
        reads (Iqs323.io p) (2 * j) <> COMMS_ERROR /\
        reads (Iqs323.io p) (2 * j) <> Iqs323.prod_num (Iqs323.dev_desc p) /\
        iqs323_quiet (reads (Iqs323.io p) (2 * j + 1))) ->
     exists p' evs q,
       Iqs323.iqs323_suspend p = Ok (- EIO, p') /\
       iqs323_rounds NUM_RETRIES
                     (Iqs323.set_io (log (EvIrq false) (Iqs323.io p)) p) evs q /\
       runs_on (Iqs323.io p) (Iqs323.io p') ([EvIrq false] ++ evs ++ [EvIrq true]) /\
       count is_identity_read evs = NUM_RETRIES /\
       count is_reset evs = NUM_RETRIES) /\
  (forall power_mode p,
     Iqs323.may_wakeup p = false ->
     mem (Iqs323.io p) (mem_n (Iqs323.io p)) = false ->
     exists p',
       Iqs323.iqs323_runtime_pm power_mode p = Ok (- ENOMEM, p') /\
       trace (Iqs323.io p') = trace (Iqs323.io p) ++ [EvIrq false; EvIrq true] /\
       xfer_n (Iqs323.io p') = xfer_n (Iqs323.io p)).
Proof.
  split; [|split; [|split; [|split; [|split]]]].
  - exact iqs323_runtime_pm_wakeup.
  - intros p.
    destruct (iqs323_resume_steady
                (fun w => (xfer_n w, count is_reset (trace w)))) with (s := p)
      as (r & p' & Hrun & Hf);
      try (intros; cbv beta; cbn [xfer_n trace sampled polled sent slept log allocated];
           rewrite ?count_app; f_equal; cbn; lia).
    exists r, p'. split; [exact Hrun|]. inversion Hf. split; reflexivity.
  - exact iqs323_resume_good.
  - exact iqs323_suspend_runs.
  - exact iqs323_suspend_gives_up.
  - exact iqs323_runtime_pm_enomem.
Qed.

(** A resume of a device whose every register reads as zero, the product
    number included: the mode is written once between [disable_irq] and
    [enable_irq], and neither is the identity read nor the device reset. *)
Lemma resume_reads_no_identity :
  let p := iqs323_example (stub [] 1 [] 1 [] 2 [] [] 1) in
  Iqs323.may_wakeup p = false /\
  result_of (Iqs323.iqs323_resume p) = Some 0 /\
  option_map (fun p' => trace (Iqs323.io p')) (final_of (Iqs323.iqs323_resume p)) =
  Some [EvIrq false; EvSend [0xC0; 0x80; 0x00]; EvSleep 2500; EvIrq true] /\
  option_map (fun p' => count is_identity_read (trace (Iqs323.io p')))
             (final_of (Iqs323.iqs323_resume p)) = Some 0%nat.
Proof. cbv zeta. repeat split; vm_compute; reflexivity. Qed.

Lemma suspend_checks_identity_resume_does_not_witness :
  let awake := iqs323_wakeup_example (stub [] 1 [] 1 [] 2 [] [] 1) in
  let resumed := iqs323_example (stub [] 1 [] 1 [] 2 [] [] 1) in
  let recovering := iqs323_example (stub [] 1 [] 1 [] 2 [[0]; [0]; [1106]] [] 1) in
  let lost := iqs323_example (stub [] 1 [] 1 [] 2 [] [] 1) in
  Iqs323.iqs323_suspend awake = Ok (0, awake) /\
  (exists r p',
     Iqs323.iqs323_resume resumed = Ok (r, p') /\
     xfer_n (Iqs323.io p') = 0%nat) /\
  (exists p',
     Iqs323.iqs323_resume resumed = Ok (0, p') /\
     runs_on (Iqs323.io resumed) (Iqs323.io p')
             [EvIrq false;
              iqs323_mode_write resumed (Iqs323.intf_mode resumed)
                                Iqs323.IQS323_POWER_MODE_USER 0;
              EvSleep 2500; EvIrq true]) /\
  (exists p' evs q,
     Iqs323.iqs323_suspend recovering = Ok (0, p') /\
     iqs323_rounds 1 (Iqs323.set_io (log (EvIrq false) (Iqs323.io recovering))
                                    recovering) evs q /\
     runs_on (Iqs323.io recovering) (Iqs323.io p')
             ([EvIrq false] ++ evs ++ iqs323_identity_pass q ++ [EvIrq true]) /\
     count is_identity_read evs = 1%nat /\ count is_reset evs = 1%nat) /\
  (exists p' evs q,
     Iqs323.iqs323_suspend lost = Ok (- EIO, p') /\
     iqs323_rounds 5 (Iqs323.set_io (log (EvIrq false) (Iqs323.io lost)) lost)
                   evs q /\
     runs_on (Iqs323.io lost) (Iqs323.io p') ([EvIrq false] ++ evs ++ [EvIrq true]) /\
     count is_identity_read evs = 5%nat /\ count is_reset evs = 5%nat).
Proof.
  cbv zeta.
  destruct suspend_checks_identity_resume_does_not
    as (Hwake & Hany & Hres & Hrun & Hlost & _).
  split; [|split; [|split; [|split]]].
  - apply (Hwake Iqs323.IQS323_POWER_MODE_HALT). reflexivity.
  - destruct (Hany (iqs323_example (stub [] 1 [] 1 [] 2 [] [] 1)))
      as (r & p' & Hr & Hx & _).
    exists r, p'. split; [exact Hr|exact Hx].
  - apply Hres; [reflexivity|apply good_stub].
  - apply (Hrun 1%nat).
    + reflexivity.
    + apply good_stub.
    + unfold NUM_RETRIES. lia.
    + intros j Hj. destruct j as [|j]; [|lia].
      split; [vm_compute; discriminate|].
      split; [vm_compute; discriminate|]. repeat split.
    + vm_compute. discriminate.
    + reflexivity.
  - apply Hlost.
    + reflexivity.
    + apply good_stub.
    + unfold NUM_RETRIES. intros j Hj.
      destruct j as [|[|[|[|[|j]]]]]; try lia;
        (split; [vm_compute; discriminate|];
         split; [vm_compute; discriminate|]; repeat split).
Defined.

(** ** What reaches the trace *)

Lemma emits_pure {A} f (a : A) : emits f (pure a).
Proof.
  intros w a' w' H. inversion H; subst. exists []. split; [symmetry; apply app_nil_r|constructor].
Qed.

Lemma emits_bind {A B} f (m : M world A) (k : A -> M world B) :
  emits f m -> (forall a, emits f (k a)) -> emits f (bind m k).
Proof.
  intros Hm Hk w b w'' H.
  destruct (bind_inv _ _ _ _ _ H) as (a & w' & H1 & H2).
  destruct (Hm _ _ _ H1) as (e1 & Ht1 & Hf1).
  destruct (Hk a _ _ _ H2) as (e2 & Ht2 & Hf2).
  exists (e1 ++ e2). split; [rewrite Ht2, Ht1, app_assoc; reflexivity|].
  apply Forall_app; split; assumption.
Qed.

Lemma emits_if {A} f (c : bool) (m1 m2 : M world A) :
  emits f m1 -> emits f m2 -> emits f (if c then m1 else m2).
Proof. destruct c; auto. Qed.

Lemma emits_sample f : emits f gpiod_get_value_cansleep.
Proof.
  intros w a w' H. inversion H; subst. exists []. split; [symmetry; apply app_nil_r|constructor].
Qed.

Lemma emits_kzalloc f : emits f kzalloc.
Proof.
  intros w a w' H. inversion H; subst. exists []. split; [symmetry; apply app_nil_r|constructor].
Qed.

Lemma emits_ktime f : emits f ktime_get.
Proof.
  intros w a w' H. inversion H; subst. exists []. split; [symmetry; apply app_nil_r|constructor].
Qed.

Lemma emits_poll f timeout_us : emits f (readx_poll_timeout timeout_us).
Proof.
  intros w a w' H. inversion H; subst. exists []. split; [symmetry; apply app_nil_r|constructor].
Qed.

Lemma emits_send f msg : f (EvSend msg) = true -> emits f (i2c_master_send msg).
Proof.
  intros Hf w a w' H. inversion H; subst. exists [EvSend msg].
  split; [reflexivity|repeat constructor; exact Hf].
Qed.

Lemma emits_sleep f us : f (EvSleep us) = true -> emits f (sleep_us us).
Proof.
  intros Hf w a w' H. inversion H; subst. exists [EvSleep us].
  split; [reflexivity|repeat constructor; exact Hf].
Qed.

Lemma emits_xfer f reg buf :
  f (EvXfer reg (length buf)) = true -> emits f (i2c_transfer reg buf).
Proof.
  intros Hf w a w' H. inversion H; subst. exists [EvXfer reg (length buf)].
  split; [reflexivity|repeat constructor; exact Hf].
Qed.

Lemma emits_log f e : f e = true -> emits f (modify (log e)).
Proof.
  intros Hf w a w' H. inversion H; subst. exists [e].
  split; [reflexivity|repeat constructor; exact Hf].
Qed.

Lemma emits_weaken {A} (f g : bus_event -> bool) (m : M world A) :
  (forall e, f e = true -> g e = true) -> emits f m -> emits g m.
Proof.
  intros Hfg Hm w a w' H. destruct (Hm _ _ _ H) as (evs & Ht & Hf).
  exists evs. split; [exact Ht|]. eapply List.Forall_impl; [|exact Hf]. exact Hfg.
Qed.

Lemma irq_poll_loop_emits f fuel : forall irq_timeout,
  f (EvSleep 1000) = true -> emits f (Iqs7219.irq_poll_loop fuel irq_timeout).
Proof.
  induction fuel as [|fuel IH]; intros irq_timeout Hf.
  - intros w a w' H. discriminate.
  - cbn [Iqs7219.irq_poll_loop].
    apply emits_bind; [apply emits_sleep; exact Hf|intros _].
    apply emits_bind; [apply emits_sample|intros ret].
    apply emits_if; [apply emits_pure|].
    apply emits_if; [apply emits_pure|].
    apply emits_bind; [apply emits_ktime|intros t].
    apply emits_if; [apply IH; exact Hf|apply emits_pure].
Qed.

Lemma iqs7219_irq_poll_emits f timeout_ms :
  f (EvSleep 1000) = true -> emits f (Iqs7219.iqs7219_irq_poll timeout_ms).
Proof.
  intros Hf. unfold Iqs7219.iqs7219_irq_poll.
  apply emits_bind; [apply emits_ktime|intros t]. apply irq_poll_loop_emits. exact Hf.
Qed.

Lemma iqs7219_force_comms_emits : emits is_wire Iqs7219.iqs7219_force_comms.
Proof.
  unfold Iqs7219.iqs7219_force_comms. cbv zeta.
  apply emits_bind; [apply emits_sample|intros ret].
  apply emits_if; [apply emits_pure|].
  apply emits_if; [apply emits_pure|].
  apply emits_bind; [apply emits_send; reflexivity|intros r].
  apply emits_if.
  - apply emits_bind; [apply emits_sleep; reflexivity|intros _]. apply emits_pure.
  - apply iqs7219_irq_poll_emits. reflexivity.
Qed.

Lemma iqs323_irq_poll_emits f timeout_us : emits f (Iqs323.iqs323_irq_poll timeout_us).
Proof.
  unfold Iqs323.iqs323_irq_poll.
  apply emits_bind; [apply emits_poll|intros r]. apply emits_pure.
Qed.

Lemma iqs323_force_comms_emits : emits is_wire Iqs323.iqs323_force_comms.
Proof.
  unfold Iqs323.iqs323_force_comms. cbv zeta.
  apply emits_bind; [apply emits_sample|intros ret].
  apply emits_if; [apply emits_pure|].
  apply emits_if; [apply emits_pure|].
  apply emits_bind; [apply emits_send; reflexivity|intros r].
  apply emits_if.
  - apply emits_bind; [apply emits_sleep; reflexivity|intros _]. apply emits_pure.
  - apply emits_bind; [apply emits_sleep; reflexivity|intros _].
    apply iqs323_irq_poll_emits.
Qed.

Lemma iqs9150_irq_poll_emits f timeout_us : emits f (Iqs9150.iqs9150_irq_poll timeout_us).
Proof.
  unfold Iqs9150.iqs9150_irq_poll.
  apply emits_bind; [apply emits_poll|intros r]. apply emits_pure.
Qed.

Lemma iqs9150_force_comms_emits mode :
  emits is_wire (Iqs9150.iqs9150_force_comms mode).
Proof.
  unfold Iqs9150.iqs9150_force_comms. cbv zeta. destruct mode.
  - apply iqs9150_irq_poll_emits.
  - apply emits_pure.
  - apply emits_bind; [apply emits_sample|intros ret].
    apply emits_if; [apply emits_pure|].
    apply emits_if; [apply emits_pure|].
    apply emits_bind; [apply emits_send; reflexivity|intros r].
    apply emits_if.
    + apply emits_bind; [apply emits_sleep; reflexivity|intros _]. apply emits_pure.
    + apply emits_bind; [apply emits_sleep; reflexivity|intros _].
      apply iqs9150_irq_poll_emits.
Qed.

Lemma iqs323_force_comms_total w :
  exists r w', Iqs323.iqs323_force_comms w = Ok (r, w') /\ xfer_n w' = xfer_n w.
Proof.
  unfold Iqs323.iqs323_force_comms. cbv zeta.
  unfold bind at 1. unfold gpiod_get_value_cansleep at 1.
  destruct (_ <? 0); [unfold pure; eauto|].
  destruct (_ >? 0); [unfold pure; eauto|].
  unfold bind at 1. unfold i2c_master_send at 1. cbv zeta.
  match goal with |- context [if ?c then _ else _] => destruct c end.
  - unfold msleep, sleep_us, bind, pure. eauto.
  - unfold Iqs323.iqs323_irq_wait, usleep_range, sleep_us,
      Iqs323.iqs323_irq_poll, readx_poll_timeout, bind, pure. eauto.
Qed.

(** ** Burst writes *)

Section BurstWriteProps.
Variable force_comms : M world Z.
Variable us : Z.
Variable msg : list Z.

Hypothesis force_comms_total :
  forall w, exists r w', force_comms w = Ok (r, w') /\ xfer_n w' = xfer_n w.
Hypothesis force_comms_emits : emits is_wire force_comms.

Lemma write_burst_body_cases w :
  exists c ret w',
    write_burst_body force_comms msg w = Ok ((c, ret), w') /\
    xfer_n w' = xfer_n w /\
    exists evs, trace w' = trace w ++ evs /\
                Forall (fun e => is_wire e = true) evs /\
                ((c = Continue /\ ret < 0) \/
                 (c = Break /\ ret = 0 /\ exists evs0, evs = evs0 ++ [EvSend msg])).
Proof using force_comms_total force_comms_emits.
  unfold write_burst_body.
  destruct (force_comms_total w) as (r & w1 & Hfc & Hx1).
  destruct (force_comms_emits _ _ _ Hfc) as (e1 & Ht1 & Hf1).
  rewrite (bind_ok _ _ _ _ _ Hfc).
  destruct (Z.ltb_spec r 0).
  - exists Continue, r, w1. unfold pure. split; [reflexivity|]. split; [exact Hx1|].
    exists e1. split; [exact Ht1|]. split; [exact Hf1|]. left. split; [reflexivity|lia].
  - unfold bind at 1. unfold i2c_master_send at 1. cbv zeta.
    match goal with |- context [if ?c <? ?d then _ else _] => destruct (Z.ltb_spec c d) end.
    + unfold msleep, sleep_us, bind, pure. do 3 eexists. split; [reflexivity|].
      cbn [xfer_n trace slept sent]. split; [exact Hx1|].
      exists (e1 ++ [EvSend msg; EvSleep (COMMS_RETRY_MS * 1000)]).
      split; [rewrite Ht1, <- !app_assoc; reflexivity|].
      split; [apply Forall_app; split; [exact Hf1|repeat constructor]|].
      left. split; [reflexivity|].
      match goal with |- (if ?c >=? 0 then _ else _) < 0 =>
        destruct (Z.geb_spec c 0) end; unfold EIO; lia.
    + unfold pure. do 3 eexists. split; [reflexivity|].
      cbn [xfer_n trace slept sent]. split; [exact Hx1|].
      exists (e1 ++ [EvSend msg]). split; [rewrite Ht1, <- app_assoc; reflexivity|].
      split; [apply Forall_app; split; [exact Hf1|repeat constructor]|].
      right. split; [reflexivity|]. split; [reflexivity|]. exists e1. reflexivity.
Qed.

Lemma write_after_fails_prefix n : forall k w w',
  write_after_fails force_comms n msg w = Some w' -> (k < n)%nat ->
  exists wk ret w1,
    write_after_fails force_comms k msg w = Some wk /\
    write_burst_body force_comms msg wk = Ok ((Continue, ret), w1).
Proof.
  induction n as [|n IH]; intros k w w' H Hk; [lia|].
  cbn [write_after_fails] in H.
  destruct (write_burst_body force_comms msg w) as [[[c r0] w0]| |] eqn:Hb;
    try discriminate.
  destruct c; [|discriminate].
  destruct k as [|k].
  - exists w, r0, w0. split; [reflexivity|exact Hb].
  - destruct (IH k w0 w' H ltac:(lia)) as (wk & ret & w1 & Hk1 & Hk2).
    exists wk, ret, w1. split; [|exact Hk2].
    cbn [write_after_fails]. rewrite Hb. exact Hk1.
Qed.

Lemma write_burst_loop_spec n : forall ret w,
  exists ret' w',
    write_burst_loop force_comms n msg ret w = Ok (ret', w') /\
    xfer_n w' = xfer_n w /\
    exists evs, trace w' = trace w ++ evs /\
                Forall (fun e => is_wire e = true) evs /\
    ((exists k wk, (k < n)%nat /\
        write_after_fails force_comms k msg w = Some wk /\
        write_burst_body force_comms msg wk = Ok ((Break, 0), w') /\
        ret' = 0 /\ exists evs0, evs = evs0 ++ [EvSend msg]) \/
     (write_after_fails force_comms n msg w = Some w' /\
      (n = 0%nat -> ret' = ret) /\ ((0 < n)%nat -> ret' < 0))).
Proof using force_comms_total force_comms_emits.
  induction n as [|n IH]; intros ret w.
  - exists ret, w. cbn. unfold pure. split; [reflexivity|]. split; [reflexivity|].
    exists []. split; [symmetry; apply app_nil_r|]. split; [constructor|].
    right. repeat split; (lia || reflexivity).
  - cbn [write_burst_loop].
    destruct (write_burst_body_cases w)
      as (c & r & w1 & Hbody & Hx & e1 & Ht1 & Hf1 & Hc).
    rewrite (bind_ok _ _ _ _ _ Hbody). cbn [fst snd].
    destruct Hc as [[-> Hneg]|(-> & -> & evs0 & ->)].
    + destruct (IH r w1) as (ret' & w' & Hrun & Hx' & e2 & Ht2 & Hf2 & Hcase).
      exists ret', w'. split; [exact Hrun|]. split; [lia|].
      exists (e1 ++ e2). split; [rewrite Ht2, Ht1, app_assoc; reflexivity|].
      split; [apply Forall_app; split; assumption|].
      destruct Hcase as [(k & wk & Hk & Haf & Hbk & -> & evs0 & ->)|(Haf & H0 & Hpos)].
      * left. exists (S k), wk. split; [lia|].
        split; [cbn [write_after_fails]; rewrite Hbody; exact Haf|].
        split; [exact Hbk|]. split; [reflexivity|].
        exists (e1 ++ evs0). rewrite app_assoc. reflexivity.
      * right. split; [cbn [write_after_fails]; rewrite Hbody; exact Haf|].
        split; [lia|]. intros _.
        destruct n as [|n]; [rewrite H0 by reflexivity; exact Hneg|apply Hpos; lia].
    + exists 0, w1. unfold pure. split; [reflexivity|]. split; [exact Hx|].
      exists (evs0 ++ [EvSend msg]). split; [exact Ht1|]. split; [exact Hf1|].
      left. exists 0%nat, w. split; [lia|]. split; [reflexivity|].
      split; [exact Hbody|]. split; [reflexivity|]. exists evs0. reflexivity.
Qed.

Lemma write_burst_loop_meets_spec w :
  write_passes_spec
    ((ret <- write_burst_loop force_comms NUM_RETRIES msg 0 ;;
      sleep_us us ;; pure ret) w) force_comms us msg w.
Proof using force_comms_total force_comms_emits.
  unfold write_passes_spec.
  destruct (write_burst_loop_spec NUM_RETRIES 0 w)
    as (ret' & w' & Hrun & Hx & evs & Ht & Hf & Hcase).
  rewrite (bind_ok _ _ _ _ _ Hrun). unfold sleep_us, bind, pure.
  exists ret', (slept us w'). split; [reflexivity|].
  assert (Htr : exists evs1, trace (slept us w') = trace w ++ evs1 ++ [EvSleep us] /\
            Forall (fun e => is_wire e = true) evs1 /\
            (ret' = 0 -> (exists k wk, (k < NUM_RETRIES)%nat /\
               write_after_fails force_comms k msg w = Some wk /\
               write_burst_body force_comms msg wk = Ok ((Break, 0), w')) ->
             exists evs0, evs1 = evs0 ++ [EvSend msg])).
  { exists evs. cbn [trace slept]. split; [rewrite Ht, <- app_assoc; reflexivity|].
    split; [exact Hf|]. intros -> (k & wk & Hk & Hafk & Hsucc).
    destruct Hcase as [(k' & wk' & _ & _ & _ & _ & He)|(Haf & _ & Hneg)]; [exact He|].
    destruct (write_after_fails_prefix _ k _ _ Haf Hk) as (wk2 & r & w1 & Hk1 & Hk2).
    rewrite Hafk in Hk1. inversion Hk1; subst. rewrite Hsucc in Hk2. discriminate. }
  destruct Htr as (evs1 & Htr & Hf1 & Hlast).
  destruct Hcase as [(k & wk & Hk & Haf & Hbk & -> & _)|(Haf & _ & Hneg)].
  - split; [left; reflexivity|]. split; [exact Hx|]. split; [|split].
    + split; [intros _|reflexivity].
      exists k, wk. split; [exact Hk|]. split; [exact Haf|]. exists w'. exact Hbk.
    + split; [lia|]. intros (w5 & H5).
      destruct (write_after_fails_prefix _ k _ _ H5 Hk) as (wk' & r & w1 & Hk1 & Hk2).
      rewrite Haf in Hk1. inversion Hk1; subst. rewrite Hbk in Hk2. discriminate.
    + exists evs1. split; [exact Htr|]. split; [exact Hf1|]. intros _.
      apply Hlast; [reflexivity|]. exists k, wk. auto.
  - specialize (Hneg ltac:(unfold NUM_RETRIES; lia)).
    split; [right; exact Hneg|]. split; [exact Hx|]. split; [|split].
    + split; [lia|]. intros (k & wk & Hk & Hafk & (wb & Hsucc)).
      destruct (write_after_fails_prefix _ k _ _ Haf Hk) as (wk' & r & w1 & Hk1 & Hk2).
      rewrite Hafk in Hk1. inversion Hk1; subst. rewrite Hsucc in Hk2. discriminate.
    + split; [intros _|intros _; exact Hneg]. exists w'. exact Haf.
    + exists evs1. split; [exact Htr|]. split; [exact Hf1|]. lia.
Qed.
End BurstWriteProps.

(** The allocation of the message comes first. *)
Lemma write_burst_meets_spec force_comms us reg val w :
  (forall w, exists r w', force_comms w = Ok (r, w') /\ xfer_n w' = xfer_n w) ->
  emits is_wire force_comms ->
  burst_write_spec (write_burst force_comms (sleep_us us) reg val)
    force_comms us (reg ++ flat_map le16_bytes val) w.
Proof.
  intros Htot Hem. unfold burst_write_spec. rewrite write_burst_alloc.
  destruct (mem w (mem_n w)); [|reflexivity].
  apply (write_burst_loop_meets_spec force_comms us _ Htot Hem).
Qed.

(** X1. A burst write of the IQS7219A, of the IQS323 or of the IQS9150
    first asks for a buffer for the message.  Without memory it returns
    -ENOMEM at once: no pass is made, nothing is sent and there is no
    settle delay.  With the buffer it returns, with 0 or a negative
    error, and reads nothing: with 0 exactly when one of at most five
    passes sends the whole message, the earlier passes having failed,
    with a negative error exactly when five passes failed.  The message
    is the register address followed by the data, low byte first;
    between messages and delays nothing else reaches the bus, the
    settle delay comes last, and after a success the last message sent
    is the whole message. *)
Theorem burst_write_retries_five_times :
  (forall reg val w,
     burst_write_spec (Iqs7219.iqs7219_write_burst reg val)
       Iqs7219.iqs7219_force_comms 50 ([reg] ++ flat_map le16_bytes val) w) /\
  (forall reg val w,
     burst_write_spec (Iqs323.iqs323_write_burst reg val)
       Iqs323.iqs323_force_comms 2500 ([reg] ++ flat_map le16_bytes val) w) /\
  (forall mode reg val w,
     burst_write_spec (Iqs9150.__iqs9150_write_burst mode reg val)
       (Iqs9150.iqs9150_force_comms mode) 50 (le16_bytes reg ++ val) w).
Proof.
  split; [|split].
  - intros reg val w.
    apply (write_burst_meets_spec Iqs7219.iqs7219_force_comms 50 [reg] val w
             iqs7219_force_comms_total iqs7219_force_comms_emits).
  - intros reg val w.
    apply (write_burst_meets_spec Iqs323.iqs323_force_comms 2500 [reg] val w
             iqs323_force_comms_total iqs323_force_comms_emits).
  - intros mode reg val w.
    unfold burst_write_spec. rewrite iqs9150_write_burst_alloc.
    destruct (mem w (mem_n w)); [|reflexivity].
    apply (write_burst_loop_meets_spec (Iqs9150.iqs9150_force_comms mode) 50 _
             (iqs9150_force_comms_total mode) (iqs9150_force_comms_emits mode)).
Qed.

(** ** The RDY poll and the handshake of the IQS7219A *)

Lemma irq_poll_loop_spec fuel : forall irq_timeout w,
  (0 < fuel)%nat -> irq_timeout - now w <= 1000 * Z.of_nat fuel ->
  exists r n w',
    Iqs7219.irq_poll_loop fuel irq_timeout w = Ok (r, w') /\
    rdy_poll_spec irq_timeout w r n w'.
Proof.
  induction fuel as [|fuel IH]; intros irq_timeout w Hpos Hfuel; [lia|].
  cbn [Iqs7219.irq_poll_loop]. unfold usleep_range, sleep_us.
  unfold bind at 1. unfold bind at 1. unfold gpiod_get_value_cansleep at 1.
  set (w1 := slept 1000 w). set (w2 := sampled w1).
  change (rdy w1 (rdy_n w1)) with (rdy w (rdy_n w)).
  assert (Ht2 : now w + 1000 <= now w2) by (cbn; lia).
  destruct (Z.ltb_spec (rdy w (rdy_n w)) 0) as [Hneg|Hnn].
  - exists (rdy w (rdy_n w)), 0%nat, w2. split; [reflexivity|].
    unfold rdy_poll_spec. rewrite Nat.add_0_r.
    repeat split; cbn; try lia; try reflexivity.
  - destruct (Z.gtb_spec (rdy w (rdy_n w)) 0) as [Hgt|Hle].
    + exists 0, 0%nat, w2. split; [reflexivity|].
      unfold rdy_poll_spec. rewrite Nat.add_0_r.
      repeat split; cbn; try lia; try reflexivity.
    + assert (Hz : rdy w (rdy_n w) = 0) by lia.
      unfold bind at 1. unfold ktime_get at 1.
      destruct (Z.ltb_spec (now w2) irq_timeout) as [Hlt|Hge].
      * destruct (IH irq_timeout w2) as (r & n & w' & Hrun & Hspec); [lia|lia|].
        exists r, (S n), w'. split; [exact Hrun|].
        destruct Hspec as (Hn & Hr & Hs & Hx & Htr & Hzero & Hdl & Hlast).
        unfold rdy_poll_spec.
        change (rdy_n w2) with (S (rdy_n w)) in *.
        change (rdy w2) with (rdy w) in *.
        change (trace w2) with (trace w ++ [EvSleep 1000]) in Htr.
        split; [lia|]. split; [exact Hr|]. split; [exact Hs|]. split; [exact Hx|].
        split; [rewrite Htr, <- app_assoc; reflexivity|].
        split.
        { intros j Hj. destruct j as [|j]; [rewrite Nat.add_0_r; exact Hz|].
          replace (rdy_n w + S j)%nat with (S (rdy_n w) + j)%nat by lia.
          apply Hzero. lia. }
        split.
        { intros _. destruct n as [|n]; [lia|]. specialize (Hdl ltac:(lia)). lia. }
        replace (rdy_n w + S n)%nat with (S (rdy_n w) + n)%nat by lia.
        exact Hlast.
      * exists (- EBUSY), 0%nat, w2. split; [reflexivity|].
        unfold rdy_poll_spec. rewrite Nat.add_0_r.
        repeat split; try exact Hge; cbn; try lia; try reflexivity.
Qed.

(** X2. The RDY poll of the IQS7219A returns after at least one sample
    and, past the first, fewer samples than the timeout has
    milliseconds; it sleeps a millisecond before each sample and does
    nothing else on the bus.  It stops at the first sample that is not
    0, with 0 for an asserted line and with the error for a negative
    sample; it gives up, with -EBUSY, only on a sample of 0 taken once
    the deadline has passed. *)
Theorem iqs7219_irq_poll_spec timeout_ms w :
  exists r n w',
    Iqs7219.iqs7219_irq_poll timeout_ms w = Ok (r, w') /\
    rdy_poll_spec (now w + timeout_ms * 1000) w r n w' /\
    ((0 < n)%nat -> Z.of_nat n < timeout_ms).
Proof.
  unfold Iqs7219.iqs7219_irq_poll, bind, ktime_get.
  destruct (irq_poll_loop_spec (S (Z.to_nat timeout_ms)) (now w + timeout_ms * 1000) w)
    as (r & n & w' & Hrun & Hspec); [lia|lia|].
  exists r, n, w'. split; [exact Hrun|]. split; [exact Hspec|].
  intros Hn. destruct Hspec as (_ & _ & _ & _ & _ & _ & Hdl & _).
  specialize (Hdl Hn). lia.
Qed.

(** X3. The forced-communication handshake of the IQS7219A returns 0
    or a negative error.  When the first sample of RDY is not 0 it sends
    nothing and does not wait, and the result is 0 for an asserted line
    and the sample itself for an error.  When the first sample is 0 it
    sends one message, the command 0xFF 0x00, and apart from that only
    sleeps; a send that falls short gives -EIO, or the adapter's
    error, after a delay of 50 ms and without a poll of RDY; and a
    result of 0 means that a later sample of RDY was asserted. *)
Theorem iqs7219_force_comms_spec w :
  exists r w',
    Iqs7219.iqs7219_force_comms w = Ok (r, w') /\ r <= 0 /\
    let first := rdy w (rdy_n w) in
    let sent_ret := send_ret w (send_n w) in
    (first <> 0 -> w' = sampled w /\ r = if first <? 0 then first else 0) /\
    (first = 0 ->
     send_n w' = S (send_n w) /\
     (exists evs, trace w' = trace w ++ EvSend [0xFF; 0x00] :: evs /\
                  Forall (fun e => is_sleep e = true) evs) /\
     (sent_ret <> 1 -> sent_ret < 2 ->
      w' = slept (COMMS_RETRY_MS * 1000) (sent [0xFF; 0x00] (sampled w)) /\
      r = if sent_ret >=? 0 then - EIO else sent_ret) /\
     (r = 0 -> exists k, (rdy_n w < k < rdy_n w')%nat /\ 0 < rdy w k)).
Proof.
  unfold Iqs7219.iqs7219_force_comms. cbv zeta.
  unfold bind at 1. unfold gpiod_get_value_cansleep at 1.
  destruct (Z.ltb_spec (rdy w (rdy_n w)) 0) as [Hneg|Hnn].
  { exists (rdy w (rdy_n w)), (sampled w). unfold pure.
    split; [reflexivity|]. split; [lia|]. split; [|lia].
    intros _. split; [reflexivity|]. destruct (Z.ltb_spec (rdy w (rdy_n w)) 0); [reflexivity|lia]. }
  destruct (Z.gtb_spec (rdy w (rdy_n w)) 0) as [Hgt|Hle].
  { exists 0, (sampled w). unfold pure.
    split; [reflexivity|]. split; [lia|]. split; [|lia].
    intros _. split; [reflexivity|]. destruct (Z.ltb_spec (rdy w (rdy_n w)) 0); [lia|reflexivity]. }
  unfold bind at 1. unfold i2c_master_send at 1. cbv zeta.
  change (send_ret (sampled w) (send_n (sampled w))) with (send_ret w (send_n w)).
  set (w2 := sent [255; 0] (sampled w)).
  destruct (Z.eqb_spec (send_ret w (send_n w)) 1) as [H1|H1].
  - cbn [length Z.of_nat]. change (Z.pos (Pos.of_succ_nat 1) <? Z.pos (Pos.of_succ_nat 1)) with false.
    cbv iota.
    assert (Hpoll : exists r n w',
               Iqs7219.iqs7219_irq_poll Iqs7219.IQS7219_COMMS_TIMEOUT_MS w2
               = Ok (r, w') /\
               rdy_poll_spec (now w2 + Iqs7219.IQS7219_COMMS_TIMEOUT_MS * 1000)
                             w2 r n w').
    { unfold Iqs7219.iqs7219_irq_poll, bind, ktime_get.
      apply irq_poll_loop_spec; lia. }
    destruct Hpoll as (r & n & w' & Hrun & Hspec).
    destruct Hspec as (Hn & Hr & Hs & Hx & Htr & Hzero & Hdl & Hlast).
    cbv zeta in Hlast. destruct Hlast as (Hl1 & Hl2 & Hl3).
    exists r, w'. split; [exact Hrun|].
    change (rdy w2) with (rdy w) in *. change (rdy_n w2) with (S (rdy_n w)) in *.
    split.
    { destruct (Z.lt_trichotomy (rdy w (S (rdy_n w) + n)) 0) as [H|[H|H]].
      - rewrite (Hl1 H). lia.
      - destruct (Hl3 H) as [-> _]. unfold EBUSY. lia.
      - rewrite (Hl2 H). lia. }
    split; [lia|]. intros _.
    split; [exact Hs|].
    split.
    { exists (repeat (EvSleep 1000) (S n)). split; [rewrite Htr; cbn [trace w2 sent sampled allocated]; rewrite <- app_assoc; reflexivity|].
      apply List.Forall_forall. intros e He. apply repeat_spec in He. subst. reflexivity. }
    split; [lia|].
    intros ->. exists (S (rdy_n w) + n)%nat. split; [lia|].
    destruct (Z.lt_trichotomy (rdy w (S (rdy_n w) + n)) 0) as [H|[H|H]].
    + specialize (Hl1 H). lia.
    + destruct (Hl3 H) as [He _]. unfold EBUSY in He. lia.
    + exact H.
  - change (Z.of_nat (length [255; 0])) with 2.
    destruct (Z.ltb_spec (send_ret w (send_n w)) 2) as [Hlt|Hge].
    + unfold msleep, sleep_us, bind, pure.
      do 2 eexists. split; [reflexivity|].
      split; [destruct (Z.geb_spec (send_ret w (send_n w)) 0); unfold EIO; lia|].
      split; [lia|]. intros _. split; [reflexivity|].
      split.
      { exists [EvSleep (COMMS_RETRY_MS * 1000)]. split; [cbn; rewrite <- app_assoc; reflexivity|].
        repeat constructor. }
      split; [intros _ _; split; reflexivity|].
      intros H0. destruct (Z.geb_spec (send_ret w (send_n w)) 0); unfold EIO in H0; lia.
    + destruct (iqs7219_irq_poll_spec Iqs7219.IQS7219_COMMS_TIMEOUT_MS w2)
        as (r & n & w' & Hrun & Hspec & _).
      destruct Hspec as (Hn & Hr & Hs & Hx & Htr & Hzero & Hdl & Hlast).
      cbv zeta in Hlast. destruct Hlast as (Hl1 & Hl2 & Hl3).
      exists r, w'. split; [exact Hrun|].
      change (rdy w2) with (rdy w) in *. change (rdy_n w2) with (S (rdy_n w)) in *.
      split.
      { destruct (Z.lt_trichotomy (rdy w (S (rdy_n w) + n)) 0) as [H|[H|H]].
        - rewrite (Hl1 H). lia.
        - destruct (Hl3 H) as [-> _]. unfold EBUSY. lia.
        - rewrite (Hl2 H). lia. }
      split; [lia|]. intros _.
      split; [exact Hs|].
      split.
      { exists (repeat (EvSleep 1000) (S n)). split; [rewrite Htr; cbn [trace w2 sent sampled allocated]; rewrite <- app_assoc; reflexivity|].
        apply List.Forall_forall. intros e He. apply repeat_spec in He. subst. reflexivity. }
      split; [lia|].
      intros ->. exists (S (rdy_n w) + n)%nat. split; [lia|].
      destruct (Z.lt_trichotomy (rdy w (S (rdy_n w) + n)) 0) as [H|[H|H]].
      * specialize (Hl1 H). lia.
      * destruct (Hl3 H) as [He _]. unfold EBUSY in He. lia.
      * exact H.
Qed.

(** ** What a read returns *)

Lemma keeps_sample {B} (f : world -> B) :
  (forall w, f (sampled w) = f w) -> keeps f gpiod_get_value_cansleep.
Proof. intros Hf w a w' H. inversion H; subst. apply Hf. Qed.

Lemma keeps_send {B} (f : world -> B) msg :
  (forall w, f (sent msg w) = f w) -> keeps f (i2c_master_send msg).
Proof. intros Hf w a w' H. inversion H; subst. apply Hf. Qed.

Lemma keeps_sleep {B} (f : world -> B) us :
  (forall w, f (slept us w) = f w) -> keeps f (sleep_us us).
Proof. intros Hf w a w' H. inversion H; subst. apply Hf. Qed.

Lemma keeps_ktime {B} (f : world -> B) : keeps f ktime_get.
Proof. intros w a w' H. inversion H; subst. reflexivity. Qed.

Lemma keeps_kzalloc {B} (f : world -> B) :
  (forall w, f (allocated w) = f w) -> keeps f kzalloc.
Proof. intros Hf w a w' H. inversion H; subst. apply Hf. Qed.

Lemma keeps_poll {B} (f : world -> B) timeout_us :
  (forall w, f (polled w) = f w) -> keeps f (readx_poll_timeout timeout_us).
Proof. intros Hf w a w' H. inversion H; subst. apply Hf. Qed.

Lemma irq_poll_loop_keeps_xfers fuel : forall irq_timeout,
  keeps xfers (Iqs7219.irq_poll_loop fuel irq_timeout).
Proof.
  induction fuel as [|fuel IH]; intros irq_timeout.
  - intros w a w' H. discriminate.
  - cbn [Iqs7219.irq_poll_loop].
    apply keeps_bind; [apply keeps_sleep; reflexivity|intros _].
    apply keeps_bind; [apply keeps_sample; reflexivity|intros ret].
    apply keeps_if; [apply keeps_pure|].
    apply keeps_if; [apply keeps_pure|].
    apply keeps_bind; [apply keeps_ktime|intros t].
    apply keeps_if; [apply IH|apply keeps_pure].
Qed.

Lemma iqs7219_force_comms_keeps_xfers : keeps xfers Iqs7219.iqs7219_force_comms.
Proof.
  unfold Iqs7219.iqs7219_force_comms. cbv zeta.
  apply keeps_bind; [apply keeps_sample; reflexivity|intros ret].
  apply keeps_if; [apply keeps_pure|].
  apply keeps_if; [apply keeps_pure|].
  apply keeps_bind; [apply keeps_send; reflexivity|intros r].
  apply keeps_if.
  - apply keeps_bind; [apply keeps_sleep; reflexivity|intros _]. apply keeps_pure.
  - unfold Iqs7219.iqs7219_irq_poll.
    apply keeps_bind; [apply keeps_ktime|intros t]. apply irq_poll_loop_keeps_xfers.
Qed.

Lemma iqs323_force_comms_keeps_xfers : keeps xfers Iqs323.iqs323_force_comms.
Proof.
  unfold Iqs323.iqs323_force_comms. cbv zeta.
  apply keeps_bind; [apply keeps_sample; reflexivity|intros ret].
  apply keeps_if; [apply keeps_pure|].
  apply keeps_if; [apply keeps_pure|].
  apply keeps_bind; [apply keeps_send; reflexivity|intros r].
  apply keeps_if.
  - apply keeps_bind; [apply keeps_sleep; reflexivity|intros _]. apply keeps_pure.
  - apply keeps_bind; [apply keeps_sleep; reflexivity|intros _].
    unfold Iqs323.iqs323_irq_poll.
    apply keeps_bind; [apply keeps_poll; reflexivity|intros r']. apply keeps_pure.
Qed.

Lemma iqs9150_force_comms_keeps_xfers mode :
  keeps xfers (Iqs9150.iqs9150_force_comms mode).
Proof.
  unfold Iqs9150.iqs9150_force_comms, Iqs9150.iqs9150_irq_poll. cbv zeta.
  destruct mode.
  - apply keeps_bind; [apply keeps_poll; reflexivity|intros r']. apply keeps_pure.
  - apply keeps_pure.
  - apply keeps_bind; [apply keeps_sample; reflexivity|intros ret].
    apply keeps_if; [apply keeps_pure|].
    apply keeps_if; [apply keeps_pure|].
    apply keeps_bind; [apply keeps_send; reflexivity|intros r].
    apply keeps_if.
    + apply keeps_bind; [apply keeps_sleep; reflexivity|intros _]. apply keeps_pure.
    + apply keeps_bind; [apply keeps_sleep; reflexivity|intros _].
      apply keeps_bind; [apply keeps_poll; reflexivity|intros r']. apply keeps_pure.
Qed.

Lemma first_word_words_of w k n :
  (0 < n)%nat -> first_word (words_of w k n) = u16 (xfer_word w k 0).
Proof. destruct n as [|n]; [lia|]. reflexivity. Qed.

Lemma length_words_of w k n : length (words_of w k n) = n.
Proof. unfold words_of. rewrite length_map, length_seq. reflexivity. Qed.

Section BurstReadData.
Variable force_comms : M world Z.
Variable us : Z.
Variable reg : list Z.

Hypothesis force_comms_total :
  forall w, exists r w', force_comms w = Ok (r, w') /\ xfer_n w' = xfer_n w.
Hypothesis force_comms_keeps : keeps xfers force_comms.

(** A pass keeps the length of the buffer; one that ends in [break]
    made its transfer last, and hands back what it read. *)
Lemma read_burst_body_data buf w :
  exists c ret buf' w',
    read_burst_body force_comms reg buf w = Ok ((c, ret, buf'), w') /\
    xfers w' = xfers w /\ (xfer_n w <= xfer_n w')%nat /\
    length buf' = length buf /\
    ((c = Continue /\ ret < 0) \/
     (c = Break /\ ret = 0 /\ xfer_n w' = S (xfer_n w) /\
      2 <= xfer_ret w (xfer_n w) /\
      buf' = words_of w (xfer_n w) (length buf) /\
      first_word buf' <> COMMS_ERROR)).
Proof using force_comms_total force_comms_keeps.
  unfold read_burst_body.
  destruct (force_comms_total w) as (r & w1 & Hfc & Hx1).
  pose proof (force_comms_keeps _ _ _ Hfc) as Hk1.
  rewrite (bind_ok _ _ _ _ _ Hfc).
  assert (Hret : xfer_ret w1 = xfer_ret w) by (unfold xfers in Hk1; congruence).
  assert (Hword : xfer_word w1 = xfer_word w) by (unfold xfers in Hk1; congruence).
  destruct (Z.ltb_spec r 0).
  - exists Continue, r, buf, w1. unfold pure. split; [reflexivity|].
    split; [exact Hk1|]. split; [lia|]. split; [reflexivity|]. left. split; [reflexivity|lia].
  - unfold bind at 1. unfold i2c_transfer at 1. cbv zeta. cbn [fst snd].
    rewrite Hret, Hword, Hx1.
    destruct (Z.ltb_spec (xfer_ret w (xfer_n w)) 2) as [Hlt|Hge].
    + unfold msleep, sleep_us, bind, pure.
      do 4 eexists. split; [reflexivity|].
      unfold xfers. cbn [xfer_n xfer_ret xfer_word slept xferred].
      split; [rewrite Hret, Hword; reflexivity|]. split; [lia|].
      split.
      { destruct (Z.leb_spec 2 (xfer_ret w (xfer_n w))); [lia|reflexivity]. }
      left. split; [reflexivity|].
      destruct (Z.geb_spec (xfer_ret w (xfer_n w)) 0); unfold EIO; lia.
    + destruct (Z.leb_spec 2 (xfer_ret w (xfer_n w))); [|lia].
      fold (words_of w (xfer_n w) (length buf)).
      destruct (Z.eqb_spec (first_word (words_of w (xfer_n w) (length buf))) COMMS_ERROR)
        as [He|Hne]; unfold pure; do 4 eexists; (split; [reflexivity|]);
        unfold xfers; cbn [xfer_n xfer_ret xfer_word slept xferred];
        (split; [rewrite Hret, Hword; reflexivity|]); (split; [lia|]);
        (split; [apply length_words_of|]).
      * left. split; [reflexivity|]. unfold ENODATA. lia.
      * right. repeat split; lia.
Qed.

Lemma read_burst_loop_data n : forall i ret buf w,
  exists i' ret' buf' w',
    read_burst_loop force_comms n reg i ret buf w = Ok ((i', ret', buf'), w') /\
    xfers w' = xfers w /\ (xfer_n w <= xfer_n w')%nat /\
    length buf' = length buf /\
    ((ret' = 0 /\ (xfer_n w < xfer_n w')%nat /\
      2 <= xfer_ret w (pred (xfer_n w')) /\
      buf' = words_of w (pred (xfer_n w')) (length buf) /\
      first_word buf' <> COMMS_ERROR) \/
     ((n = 0%nat -> ret' = ret) /\ ((0 < n)%nat -> ret' < 0))).
Proof using force_comms_total force_comms_keeps.
  induction n as [|n IH]; intros i ret buf w.
  - exists i, ret, buf, w. cbn. unfold pure. split; [reflexivity|].
    split; [reflexivity|]. split; [lia|]. split; [reflexivity|]. right. split; [reflexivity|lia].
  - cbn [read_burst_loop].
    destruct (read_burst_body_data buf w)
      as (c & r & b1 & w1 & Hbody & Hk & Hx & Hlen & Hc).
    rewrite (bind_ok _ _ _ _ _ Hbody).
    assert (Hret : xfer_ret w1 = xfer_ret w) by (unfold xfers in Hk; congruence).
    assert (Hword : xfer_word w1 = xfer_word w) by (unfold xfers in Hk; congruence).
    destruct Hc as [[-> Hneg]|(-> & -> & Hn & H2 & Hb & Hs)].
    + destruct (IH (S i) r b1 w1)
        as (i' & ret' & buf' & w' & Hrun & Hk' & Hx' & Hlen' & Hcase).
      exists i', ret', buf', w'. split; [exact Hrun|].
      split; [rewrite Hk'; exact Hk|]. split; [lia|]. split; [lia|].
      destruct Hcase as [(-> & Hlt & H2 & Hb & Hs)|(H0 & Hpos)].
      * left. split; [reflexivity|]. split; [lia|].
        rewrite Hret in H2. split; [exact H2|]. split; [|exact Hs].
        rewrite Hb, Hlen. unfold words_of. rewrite Hword. reflexivity.
      * right. split; [lia|]. intros _.
        destruct n as [|n]; [rewrite H0 by reflexivity; exact Hneg|apply Hpos; lia].
    + exists (S i), 0, b1, w1. unfold pure. split; [reflexivity|].
      split; [exact Hk|]. split; [lia|]. split; [exact Hlen|].
      left. rewrite Hn. cbn [pred]. repeat split; try lia; assumption.
Qed.

Lemma read_burst_data val w :
  burst_read_data (read_burst force_comms (sleep_us us) reg val) val w.
Proof using force_comms_total force_comms_keeps.
  unfold burst_read_data, read_burst.
  destruct (read_burst_loop_data NUM_RETRIES 0 0 val w)
    as (i' & ret' & buf' & w' & Hrun & Hk & Hx & Hlen & Hcase).
  rewrite (bind_ok _ _ _ _ _ Hrun). unfold sleep_us, bind, pure.
  exists ret', buf', (slept us w'). split; [reflexivity|]. split; [exact Hlen|].
  intros ->. cbn [xfer_n slept].
  destruct Hcase as [(_ & Hlt & H2 & Hb & Hs)|(_ & Hneg)].
  - split; [exact Hlt|]. split; [exact H2|]. split; [exact Hb|]. intros _. exact Hs.
  - specialize (Hneg ltac:(unfold NUM_RETRIES; lia)). lia.
Qed.

Lemma read_burst_sign val w ret val' w' :
  read_burst force_comms (sleep_us us) reg val w = Ok ((ret, val'), w') ->
  ret = 0 \/ ret < 0.
Proof using force_comms_total force_comms_keeps.
  unfold read_burst.
  destruct (read_burst_loop_data NUM_RETRIES 0 0 val w)
    as (i' & r' & buf' & w1 & Hrun & _ & _ & _ & Hcase).
  rewrite (bind_ok _ _ _ _ _ Hrun). unfold sleep_us, bind, pure.
  intros H. inversion H; subst.
  destruct Hcase as [(-> & _)|(_ & Hneg)]; [left; reflexivity|].
  right. apply Hneg. unfold NUM_RETRIES. lia.
Qed.

Lemma read_word_data val w :
  word_read_data (read_word force_comms (sleep_us us) reg val) val w.
Proof using force_comms_total force_comms_keeps.
  unfold word_read_data, read_word.
  destruct (read_burst_data [0] w) as (ret & val' & w' & Hrun & Hlen & Hok).
  pose proof (read_burst_sign _ _ _ _ _ Hrun) as Hsign.
  rewrite (bind_ok _ _ _ _ _ Hrun). cbn [fst snd]. unfold truthy.
  destruct (Z.eqb_spec ret 0) as [->|Hne]; cbn [negb]; unfold pure.
  - exists 0, (first_word val'), w'. split; [reflexivity|].
    split; [left; reflexivity|]. split; [lia|]. intros _.
    destruct (Hok eq_refl) as (Hlt & H2 & Hb & Hs).
    split; [exact Hlt|]. split; [exact H2|].
    split; [rewrite Hb; reflexivity|]. apply Hs. discriminate.
  - exists ret, val, w'. split; [reflexivity|].
    split; [right; lia|]. split; [reflexivity|]. intros; lia.
Qed.
End BurstReadData.

(** X4. A burst read of any of the three devices hands back a buffer of
    the length it was given; when it returns 0 the buffer holds the
    words of the last transfer made, which the adapter carried out in
    full and whose first word is not the sentinel 0xEEEE.  A word read
    of the IQS7219A or of the IQS323 returns 0 or a negative error; after
    an error the caller's word is untouched, after a success it is the
    first word of that last transfer, hence never 0xEEEE. *)
Theorem reads_hand_back_the_last_transfer :
  (forall reg val w,
     burst_read_data (Iqs7219.iqs7219_read_burst reg val) val w /\
     burst_read_data (Iqs323.iqs323_read_burst reg val) val w) /\
  (forall mode reg val w,
     burst_read_data (Iqs9150.__iqs9150_read_burst mode reg val) val w) /\
  (forall reg val w,
     word_read_data (Iqs7219.iqs7219_read_word reg val) val w /\
     word_read_data (Iqs323.iqs323_read_word reg val) val w).
Proof.
  split; [|split].
  - intros reg val w. split.
    + apply (read_burst_data Iqs7219.iqs7219_force_comms 50 [reg]
               iqs7219_force_comms_total iqs7219_force_comms_keeps_xfers).
    + apply (read_burst_data Iqs323.iqs323_force_comms 2500 [reg]
               iqs323_force_comms_total iqs323_force_comms_keeps_xfers).
  - intros mode reg val w.
    apply (read_burst_data (Iqs9150.iqs9150_force_comms mode) 50 (le16_bytes reg)
             (iqs9150_force_comms_total mode) (iqs9150_force_comms_keeps_xfers mode)).
  - intros reg val w. split.
    + apply (read_word_data Iqs7219.iqs7219_force_comms 50 [reg]
               iqs7219_force_comms_total iqs7219_force_comms_keeps_xfers).
    + apply (read_word_data Iqs323.iqs323_force_comms 2500 [reg]
               iqs323_force_comms_total iqs323_force_comms_keeps_xfers).
Qed.

(** ** The sampling rate of the IQS7219A *)

Lemma iqs7219_with_io_ok {A} (m : M world A) p a w' :
  m (Iqs7219.io p) = Ok (a, w') ->
  Iqs7219.with_io m p = Ok (a, Iqs7219.set_io w' p).
Proof. intros H. unfold Iqs7219.with_io. rewrite H. reflexivity. Qed.

Lemma iqs7219_write_word_any reg val w :
  burst_write_spec (Iqs7219.iqs7219_write_word reg val)
    Iqs7219.iqs7219_force_comms 50 ([reg] ++ le16_bytes val) w.
Proof.
  apply (write_burst_meets_spec Iqs7219.iqs7219_force_comms 50 [reg] [val] w
           iqs7219_force_comms_total iqs7219_force_comms_emits).
Qed.

(** Whether or not there is memory, a burst write returns, with 0 or a
    negative error, and puts only messages and delays on the bus. *)
Lemma burst_write_spec_runs write force_comms us msg w :
  burst_write_spec write force_comms us msg w ->
  exists ret w' evs,
    write w = Ok (ret, w') /\ (ret = 0 \/ ret < 0) /\
    xfer_n w' = xfer_n w /\
    trace w' = trace w ++ evs /\
    Forall (fun e => is_wire e = true) evs.
Proof.
  unfold burst_write_spec. destruct (mem w (mem_n w)).
  - intros (ret & w' & Hrun & Hsign & Hx & _ & _ & evs & Htr & Hwire & _).
    exists ret, w', (evs ++ [EvSleep us]). split; [exact Hrun|].
    split; [exact Hsign|]. split; [exact Hx|]. split; [exact Htr|].
    apply Forall_app. split; [exact Hwire|]. repeat constructor.
  - intros Hrun. exists (- ENOMEM), (allocated w), [].
    split; [exact Hrun|]. split; [right; unfold ENOMEM; lia|].
    split; [reflexivity|]. split; [symmetry; apply app_nil_r|constructor].
Qed.

Lemma le16_bytes_u16 v : le16_bytes (u16 v) = le16_bytes v.
Proof.
  unfold le16_bytes. rewrite (u16_small (u16 v)) by apply u16_range. reflexivity.
Qed.

(** A rate that passes the three checks is written. *)
Lemma iqs7219_write_rate_accepts val val2 p :
  let rate_uhz := s32 (s32 (val * 1000000) + val2) in
  let rate_ms := Z.quot Iqs7219.IQS7219_UHZ_PER_MS rate_uhz in
  val <= Iqs7219.IQS7219_MAX_RATE_HZ -> rate_uhz <> 0 ->
  rate_ms <= Iqs7219.IQS7219_MAX_RATE_MS ->
  rate_written (u16 rate_ms) p (Iqs7219.iqs7219_write_rate val val2 p).
Proof.
  cbv zeta. intros Hval Hnz Hms. unfold Iqs7219.iqs7219_write_rate. cbv zeta.
  destruct (Z.gtb_spec val Iqs7219.IQS7219_MAX_RATE_HZ); [lia|].
  unfold truthy at 1.
  destruct (Z.eqb_spec (s32 (s32 (val * 1000000) + val2)) 0); [contradiction|].
  cbn [negb].
  match goal with |- context [?a >? Iqs7219.IQS7219_MAX_RATE_MS] =>
    destruct (Z.gtb_spec a Iqs7219.IQS7219_MAX_RATE_MS); [lia|] end.
  set (rate_ms := u16 (Z.quot _ _)).
  unfold bind at 1. unfold Iqs7219.with_io at 1, disable_irq, modify.
  set (p1 := Iqs7219.set_io _ p).
  pose proof (iqs7219_write_word_any (Iqs7219.IQS7219_SYS_SETUP + 5) rate_ms
                (Iqs7219.io p1)) as Hw.
  unfold burst_write_spec in Hw.
  change (mem (Iqs7219.io p1) (mem_n (Iqs7219.io p1)))
    with (mem (Iqs7219.io p) (mem_n (Iqs7219.io p))) in Hw.
  unfold rate_written.
  destruct (mem (Iqs7219.io p) (mem_n (Iqs7219.io p))).
  - destruct Hw as (ret & w1 & Hrun & Hsign & _ & _ & _ & evs & Htr & Hwire & Hlast).
    unfold bind at 1. rewrite (iqs7219_with_io_ok _ _ _ _ Hrun).
    exists ret, (log (EvIrq true) w1), (evs ++ [EvSleep 50]).
    split.
    { unfold truthy. destruct (Z.eqb_spec ret 0) as [->|Hne]; cbn [negb];
        unfold bind, modify, pure, Iqs7219.with_io, enable_irq; reflexivity. }
    split; [exact Hsign|]. split.
    { unfold irq_bracket. cbn [trace log]. rewrite Htr. subst p1.
      cbn [Iqs7219.io Iqs7219.set_io trace log allocated].
      rewrite <- !app_assoc. reflexivity. }
    split.
    { apply Forall_app. split; [exact Hwire|]. repeat constructor. }
    exists evs. split; [reflexivity|].
    intros Hok. destruct (Hlast Hok) as (evs0 & ->). exists evs0.
    subst rate_ms. unfold le16_bytes. rewrite (u16_small (u16 _)) by apply u16_range.
    reflexivity.
  - unfold bind at 1. rewrite (iqs7219_with_io_ok _ _ _ _ Hw).
    exists (- ENOMEM), (log (EvIrq true) (allocated (Iqs7219.io p1))), [].
    split; [reflexivity|]. split; [right; unfold ENOMEM; lia|]. split.
    { unfold irq_bracket. subst p1.
      cbn [Iqs7219.io Iqs7219.set_io trace log allocated].
      rewrite <- !app_assoc. reflexivity. }
    split; [constructor|]. split; reflexivity.
Qed.

Lemma iqs7219_rate_of_frequency val val2 :
  0 <= val <= 1000 -> 0 <= val2 < 1000000 ->
  s32 (s32 (val * 1000000) + val2) = val * 1000000 + val2.
Proof.
  intros Hv Hv2. rewrite (s32_small (val * 1000000)) by lia. apply s32_small. lia.
Qed.

(** X5. For a frequency of [val] Hz and [val2] millionths, neither
    negative: [iqs7219_write_rate] returns -EINVAL, with the bus, the
    interrupt and the driver data untouched, when the frequency is
    below 0.333223 Hz or [val] is above 1000; otherwise the period in
    milliseconds, 10^9 divided by the frequency in microhertz, is
    between 0 and 3000 and is written to register 0x85 in one burst
    write between [disable_irq] and [enable_irq], and [sys_setup[5]]
    takes it exactly when the write returns 0.  A write that finds no
    memory for its message returns -ENOMEM with nothing between
    [disable_irq] and [enable_irq]; otherwise the settle delay of the
    write is the last thing before [enable_irq]. *)
Theorem iqs7219_write_rate_spec val val2 p :
  0 <= val -> 0 <= val2 < 1000000 ->
  let rate_uhz := val * 1000000 + val2 in
  let rate_ms := 1000000000 / rate_uhz in
  (rate_uhz < 333223 \/ 1000 < val ->
   Iqs7219.iqs7219_write_rate val val2 p = Ok (- EINVAL, p)) /\
  (333223 <= rate_uhz -> val <= 1000 ->
   0 <= rate_ms <= 3000 /\
   rate_written rate_ms p (Iqs7219.iqs7219_write_rate val val2 p)).
Proof.
  intros Hv Hv2. cbv zeta. split.
  - intros Hrej. unfold Iqs7219.iqs7219_write_rate. cbv zeta.
    destruct (Z.gtb_spec val Iqs7219.IQS7219_MAX_RATE_HZ) as [|Hle]; [reflexivity|].
    unfold Iqs7219.IQS7219_MAX_RATE_HZ in Hle.
    rewrite iqs7219_rate_of_frequency by lia.
    unfold truthy at 1.
    destruct (Z.eqb_spec (val * 1000000 + val2) 0) as [|Hnz]; [reflexivity|].
    cbn [negb].
    assert (Hlow : val * 1000000 + val2 < 333223) by lia.
    rewrite Z.quot_div_nonneg by (unfold Iqs7219.IQS7219_UHZ_PER_MS; lia).
    assert (3001 <= Iqs7219.IQS7219_UHZ_PER_MS / (val * 1000000 + val2)).
    { apply Z.div_le_lower_bound; [lia|]. unfold Iqs7219.IQS7219_UHZ_PER_MS. lia. }
    match goal with |- context [?a >? Iqs7219.IQS7219_MAX_RATE_MS] =>
      destruct (Z.gtb_spec a Iqs7219.IQS7219_MAX_RATE_MS) as [|Hc];
        [reflexivity|unfold Iqs7219.IQS7219_MAX_RATE_MS in Hc; lia] end.
  - intros Hlow Hhigh.
    assert (Hms : 0 <= 1000000000 / (val * 1000000 + val2) <= 3000).
    { split; [apply Z.div_pos; lia|].
      assert (1000000000 / (val * 1000000 + val2) < 3001); [|lia].
      apply Z.div_lt_upper_bound; lia. }
    split; [exact Hms|].
    pose proof (iqs7219_write_rate_accepts val val2 p) as H. cbv zeta in H.
    rewrite iqs7219_rate_of_frequency in H by lia.
    rewrite Z.quot_div_nonneg in H by (unfold Iqs7219.IQS7219_UHZ_PER_MS; lia).
    change Iqs7219.IQS7219_UHZ_PER_MS with 1000000000 in H.
    rewrite u16_small in H by lia.
    apply H; [unfold Iqs7219.IQS7219_MAX_RATE_HZ| |unfold Iqs7219.IQS7219_MAX_RATE_MS]; lia.
Qed.

Lemma iqs7219_write_rate_spec_witness :
  rate_written 100 iqs7219_on_good_bus
    (Iqs7219.iqs7219_write_rate 10 0 iqs7219_on_good_bus).
Proof.
  apply (iqs7219_write_rate_spec 10 0 iqs7219_on_good_bus); lia.
Defined.

(** X6. [iqs7219_write_rate] does not reject a negative frequency: for
    [val] from -2146 to -1 the division yields a period that is not
    positive, which passes the upper bound, and what is written to the
    device and kept in [sys_setup[5]] is that period reduced to 16
    bits; the write is the burst write between [disable_irq] and
    [enable_irq] of an accepted rate, which returns -ENOMEM with
    nothing sent when there is no memory for its message. *)
Theorem iqs7219_negative_rate_is_written val val2 p :
  - 2146 <= val < 0 -> - 1000000 < val2 < 1000000 ->
  let rate_ms := - (1000000000 / - (val * 1000000 + val2)) in
  rate_ms <= 0 /\
  rate_written (u16 rate_ms) p (Iqs7219.iqs7219_write_rate val val2 p).
Proof.
  intros Hv Hv2. cbv zeta.
  assert (Hq : Z.quot 1000000000 (val * 1000000 + val2)
               = - (1000000000 / - (val * 1000000 + val2))).
  { rewrite <- (Z.opp_involutive (val * 1000000 + val2)) at 1.
    rewrite Z.quot_opp_r by lia. rewrite Z.quot_div_nonneg by lia. reflexivity. }
  assert (Hr : 0 <= 1000000000 / - (val * 1000000 + val2))
    by (apply Z.div_pos; lia).
  split; [lia|].
  pose proof (iqs7219_write_rate_accepts val val2 p) as H. cbv zeta in H.
  rewrite (s32_small (val * 1000000)) in H by lia.
  rewrite (s32_small (val * 1000000 + val2)) in H by lia.
  change Iqs7219.IQS7219_UHZ_PER_MS with 1000000000 in H.
  rewrite Hq in H.
  apply H; [unfold Iqs7219.IQS7219_MAX_RATE_HZ| |unfold Iqs7219.IQS7219_MAX_RATE_MS]; lia.
Qed.

Lemma iqs7219_negative_rate_is_written_witness :
  rate_written 64536 iqs7219_on_good_bus
    (Iqs7219.iqs7219_write_rate (-1) 0 iqs7219_on_good_bus).
Proof.
  apply (iqs7219_negative_rate_is_written (-1) 0 iqs7219_on_good_bus); lia.
Defined.


Lemma iqs7219_read_rate_of_period p m :
  word_at (Iqs7219.sys_setup p) 5 = m -> 0 <= m <= 3000 ->
  let rate_uhz := 1000000000 / Z.max m 1 in
  Iqs7219.iqs7219_read_rate p = (rate_uhz / 1000000, rate_uhz mod 1000000) /\
  333333 <= rate_uhz <= 1000000000 /\
  1000000000 / rate_uhz = Z.max m 1.
Proof.
  intros Hm Hr. cbv zeta.
  set (k := Z.max m 1). assert (Hk : 1 <= k <= 3000) by lia.
  set (q := 1000000000 / k).
  assert (Hq : 333333 <= q <= 1000000000).
  { subst q. split; [apply Z.div_le_lower_bound; lia|].
    apply Z.div_le_upper_bound; lia. }
  split; [|split; [exact Hq|]].
  - unfold Iqs7219.iqs7219_read_rate. cbv zeta. rewrite Hm.
    replace (if truthy m then m else 1) with k
      by (unfold truthy; destruct (Z.eqb_spec m 0); cbn [negb]; lia).
    change Iqs7219.IQS7219_UHZ_PER_MS with 1000000000.
    rewrite (Z.quot_div_nonneg 1000000000 k) by lia. fold q.
    rewrite (Z.quot_div_nonneg q 1000000) by lia.
    pose proof (Z.div_mod q 1000000 ltac:(lia)) as Hdm.
    pose proof (Z.mod_pos_bound q 1000000 ltac:(lia)) as Hmod.
    assert (0 <= q / 1000000 <= 1000).
    { split; [apply Z.div_pos; lia|]. apply Z.div_le_upper_bound; lia. }
    rewrite (s32_small (q / 1000000 * 1000000)) by lia.
    rewrite s32_small by lia.
    f_equal. lia.
  - pose proof (Z.div_mod 1000000000 k ltac:(lia)) as Hdm.
    pose proof (Z.mod_pos_bound 1000000000 k ltac:(lia)) as Hmod.
    fold q in Hdm.
    symmetry. apply (Z.div_unique_pos 1000000000 q k (1000000000 - q * k)); nia.
Qed.

(** X7. After [iqs7219_write_rate] has stored an accepted frequency
    (sys_setup holding its six words), [iqs7219_read_rate] yields a
    frequency of at most 1000 Hz with less than a million millionths: 10^9
    divided by the stored period, a period of 0 counting as 1.  It is not
    below the frequency written unless that was above 1000 Hz, which reads
    back as 1000 Hz; and writing the frequency read back is the write of
    the same period again, between [disable_irq] and [enable_irq], which
    stores it when it returns 0 and returns -ENOMEM with nothing sent
    when there is no memory for its message. *)
Theorem iqs7219_rate_round_trip val val2 p :
  0 <= val <= 1000 -> 0 <= val2 < 1000000 ->
  333223 <= val * 1000000 + val2 ->
  (5 < length (Iqs7219.sys_setup p))%nat ->
  let rate_uhz := val * 1000000 + val2 in
  let period := Z.max (1000000000 / rate_uhz) 1 in
  exists error p',
    Iqs7219.iqs7219_write_rate val val2 p = Ok (error, p') /\
    (error = 0 ->
     let r := Iqs7219.iqs7219_read_rate p' in
     0 <= fst r <= 1000 /\ 0 <= snd r < 1000000 /\
     fst r * 1000000 + snd r = 1000000000 / period /\
     (rate_uhz <= 1000000000 -> rate_uhz <= fst r * 1000000 + snd r) /\
     (1000000000 < rate_uhz -> r = (1000, 0)) /\
     forall q, rate_written period q
                 (Iqs7219.iqs7219_write_rate (fst r) (snd r) q)).
Proof.
  intros Hv Hv2 Hlow Hlen. cbv zeta.
  set (rate := val * 1000000 + val2) in *.
  assert (Hms : 0 <= 1000000000 / rate <= 3000).
  { split; [apply Z.div_pos; lia|].
    assert (1000000000 / rate < 3001); [|lia].
    apply Z.div_lt_upper_bound; lia. }
  pose proof (iqs7219_write_rate_accepts val val2 p) as H. cbv zeta in H.
  rewrite iqs7219_rate_of_frequency in H by lia. fold rate in H.
  rewrite Z.quot_div_nonneg in H by (unfold Iqs7219.IQS7219_UHZ_PER_MS; lia).
  change Iqs7219.IQS7219_UHZ_PER_MS with 1000000000 in H.
  rewrite u16_small in H by lia.
  destruct H as (error & w' & evs & Hrun & _);
    [unfold Iqs7219.IQS7219_MAX_RATE_HZ; lia|lia|unfold Iqs7219.IQS7219_MAX_RATE_MS; lia|].
  eexists error, _. split; [exact Hrun|].
  intros ->. cbn [Z.eqb].
  match goal with |- context [Iqs7219.iqs7219_read_rate ?q] => set (p' := q) end.
  assert (Hword : word_at (Iqs7219.sys_setup p') 5 = 1000000000 / rate).
  { subst p'. cbn [Iqs7219.sys_setup Iqs7219.set_io Iqs7219.set_sys_setup].
    unfold word_at. rewrite list_lookup_insert_eq by exact Hlen. reflexivity. }
  destruct (iqs7219_read_rate_of_period p' _ Hword Hms) as (Hread & Hq & Hback).
  cbv zeta. rewrite Hread. cbn [fst snd].
  set (k := Z.max (1000000000 / rate) 1) in *.
  set (q := 1000000000 / k) in *.
  pose proof (Z.div_mod q 1000000 ltac:(lia)) as Hdm.
  pose proof (Z.mod_pos_bound q 1000000 ltac:(lia)) as Hmod.
  assert (Hhz : 0 <= q / 1000000 <= 1000).
  { split; [apply Z.div_pos; lia|]. apply Z.div_le_upper_bound; lia. }
  split; [exact Hhz|]. split; [exact Hmod|]. split; [lia|]. split; [|split].
  - intros Hle. replace (q / 1000000 * 1000000 + q mod 1000000) with q by lia.
    assert (Hk : k = 1000000000 / rate).
    { subst k. assert (1 <= 1000000000 / rate); [|lia].
      apply Z.div_le_lower_bound; lia. }
    subst q. apply Z.div_le_lower_bound; [lia|].
    rewrite Hk. rewrite Z.mul_comm. apply Z.mul_div_le. lia.
  - intros Hgt.
    assert (Hz : 1000000000 / rate = 0) by (apply Z.div_small; lia).
    assert (Hk : k = 1) by (subst k; lia).
    subst q. rewrite Hk. reflexivity.
  - intros q0.
    pose proof (iqs7219_write_rate_accepts (q / 1000000) (q mod 1000000) q0) as H.
    cbv zeta in H.
    rewrite iqs7219_rate_of_frequency in H by lia.
    replace (q / 1000000 * 1000000 + q mod 1000000) with q in H by lia.
    rewrite Z.quot_div_nonneg in H by (unfold Iqs7219.IQS7219_UHZ_PER_MS; lia).
    change Iqs7219.IQS7219_UHZ_PER_MS with 1000000000 in H.
    rewrite Hback in H. rewrite u16_small in H by lia.
    apply H; [unfold Iqs7219.IQS7219_MAX_RATE_HZ|
              |unfold Iqs7219.IQS7219_MAX_RATE_MS]; lia.
Qed.

Lemma iqs7219_rate_round_trip_witness :
  exists error p',
    Iqs7219.iqs7219_write_rate 3 0 iqs7219_on_good_bus = Ok (error, p') /\
    (error = 0 ->
     fst (Iqs7219.iqs7219_read_rate p') * 1000000
     + snd (Iqs7219.iqs7219_read_rate p') = 1000000000 / 333).
Proof.
  destruct (iqs7219_rate_round_trip 3 0 iqs7219_on_good_bus)
    as (error & p' & Hrun & Hok); [lia|lia|lia|cbn; lia|].
  exists error, p'. split; [exact Hrun|].
  intros H0. destruct (Hok H0) as (_ & _ & Hsum & _). exact Hsum.
Defined.

(** ** Event and trigger enables of the IQS7219A *)

Lemma is_wire_is_bus e : is_wire e = true -> is_bus e = true.
Proof. destruct e; cbn; congruence. Qed.

Section BurstReadEmits.
Variable force_comms : M world Z.
Variable us : Z.
Variable reg : list Z.
Hypothesis force_comms_emits : emits is_wire force_comms.

Lemma read_burst_body_emits buf : emits is_bus (read_burst_body force_comms reg buf).
Proof using force_comms_emits.
  unfold read_burst_body.
  apply emits_bind; [apply (emits_weaken is_wire); [exact is_wire_is_bus|exact force_comms_emits]|intros ret].
  apply emits_if; [apply emits_pure|].
  apply emits_bind; [apply emits_xfer; reflexivity|intros rb]. cbv zeta.
  apply emits_if.
  - apply emits_bind; [apply emits_sleep; reflexivity|intros _]. apply emits_pure.
  - apply emits_if; apply emits_pure.
Qed.

Lemma read_burst_loop_emits n : forall i ret buf,
  emits is_bus (read_burst_loop force_comms n reg i ret buf).
Proof using force_comms_emits.
  induction n as [|n IH]; intros i ret buf; cbn [read_burst_loop]; [apply emits_pure|].
  apply emits_bind; [apply read_burst_body_emits|intros [[c r] b]].
  destruct c; [apply IH|apply emits_pure].
Qed.

Lemma read_word_emits val :
  emits is_bus (read_word force_comms (sleep_us us) reg val).
Proof using force_comms_emits.
  unfold read_word, read_burst.
  apply emits_bind; [|intros r; apply emits_if; apply emits_pure].
  apply emits_bind; [apply read_burst_loop_emits|intros [[i r] b]].
  apply emits_bind; [apply emits_sleep; reflexivity|intros _]. apply emits_pure.
Qed.
End BurstReadEmits.

Lemma iqs7219_set_io_same p : Iqs7219.set_io (Iqs7219.io p) p = p.
Proof. destruct p. reflexivity. Qed.

(** [iqs7219_write_comms] returns, with 0 or a negative error, having
    changed nothing but the bus. *)
Lemma iqs7219_write_comms_any event_mask p :
  exists error w' evs,
    Iqs7219.iqs7219_write_comms event_mask p = Ok (error, Iqs7219.set_io w' p) /\
    (error = 0 \/ error < 0) /\
    trace w' = trace (Iqs7219.io p) ++ evs /\
    Forall (fun e => is_bus e = true) evs.
Proof.
  unfold Iqs7219.iqs7219_write_comms. unfold bind at 1, get at 1.
  destruct (truthy (Iqs7219.comms_setup p)); cbn [negb].
  2:{ exists 0, (Iqs7219.io p), []. rewrite iqs7219_set_io_same. unfold pure.
      split; [reflexivity|]. split; [left; reflexivity|].
      split; [symmetry; apply app_nil_r|constructor]. }
  destruct (read_word_data Iqs7219.iqs7219_force_comms 50 [Iqs7219.comms_setup p]
              iqs7219_force_comms_total iqs7219_force_comms_keeps_xfers 0 (Iqs7219.io p))
    as (error & v & w1 & Hrun & Hsign & _).
  change (read_word Iqs7219.iqs7219_force_comms (sleep_us 50) [Iqs7219.comms_setup p] 0)
    with (Iqs7219.iqs7219_read_word (Iqs7219.comms_setup p) 0) in Hrun.
  destruct (read_word_emits Iqs7219.iqs7219_force_comms 50 [Iqs7219.comms_setup p]
              iqs7219_force_comms_emits 0 _ _ _ Hrun) as (e1 & Ht1 & Hf1).
  unfold bind at 1. rewrite (iqs7219_with_io_ok _ _ _ _ Hrun). cbn [fst snd].
  unfold truthy. destruct (Z.eqb_spec error 0) as [->|Hne]; cbn [negb].
  2:{ exists error, w1, e1. unfold pure. split; [reflexivity|].
      split; [right; lia|]. split; [exact Ht1|exact Hf1]. }
  match goal with |- context [Iqs7219.iqs7219_write_word ?r ?x] =>
    destruct (burst_write_spec_runs _ _ _ _ _ (iqs7219_write_word_any r x w1))
      as (ret & w2 & e2 & Hw & Hs2 & _ & Ht2 & Hf2)
  end.
  exists ret, w2, (e1 ++ e2).
  split.
  { unfold Iqs7219.with_io. cbn [Iqs7219.io Iqs7219.set_io]. rewrite Hw. reflexivity. }
  split; [exact Hs2|]. split; [rewrite Ht2, Ht1, <- app_assoc; reflexivity|].
  apply Forall_app. split; [exact Hf1|].
  eapply List.Forall_impl; [|exact Hf2]. exact is_wire_is_bus.
Qed.

Lemma u16_or_bits a b k :
  0 <= k -> Z.testbit (u16_or a b) k = (k <? 16) && (Z.testbit a k || Z.testbit b k).
Proof. intros Hk. unfold u16_or. rewrite testbit_u16 by lia. rewrite Z.lor_spec. reflexivity. Qed.

Ltac u16_or_eq :=
  apply Z.bits_inj'; intros k Hk; rewrite ?u16_or_bits by lia;
  repeat match goal with |- context [Z.testbit ?x k] => destruct (Z.testbit x k) end;
  destruct (k <? 16); reflexivity.

(** The mask of [iqs7219_write_event_config] is the one that
    [iqs7219_dev_init] computes once the enable is stored. *)
Lemma event_config_mask_is_union channel state p :
  (channel < Iqs7219.IQS7219_NUM_CHAN)%nat ->
  length (Iqs7219.event_enable p) = Iqs7219.IQS7219_NUM_CHAN ->
  (let m := Iqs7219.event_config_mask (seq 0 Iqs7219.IQS7219_NUM_CHAN) channel p
              Iqs7219.IQS7219_EVENT_MASK_ATI in
   if truthy state then u16_or m (word_at (Iqs7219.event_mask p) channel) else m)
  = Iqs7219.union_event_mask (seq 0 Iqs7219.IQS7219_NUM_CHAN)
      (Iqs7219.set_event_enable
         (<[channel := truthy state]> (Iqs7219.event_enable p)) p)
      Iqs7219.IQS7219_EVENT_MASK_ATI.
Proof.
  intros Hc Hlen. unfold Iqs7219.IQS7219_NUM_CHAN in *.
  destruct p as [rg w pf im ati sys pxs cap es cs em comms sd en tv te ts sm pu tp].
  cbn [Iqs7219.event_enable] in Hlen.
  destruct en as [|e0 [|e1 [|e2 en]]]; try discriminate.
  cbv zeta. generalize (truthy state). intros b.
  destruct channel as [|[|channel]]; [| |lia];
    cbn [seq Iqs7219.event_config_mask Iqs7219.union_event_mask
         Iqs7219.trig_enable Iqs7219.event_enable Iqs7219.event_mask
         Iqs7219.set_event_enable Nat.eqb negb andb orb list_insert insert
         lookup list_lookup default from_option];
    generalize (word_at em 0), (word_at em 1), Iqs7219.IQS7219_EVENT_MASK_ATI;
    intros m0 m1 ati0;
    destruct te, e0, e1, b; cbv [id negb andb orb]; try reflexivity; u16_or_eq.
Qed.

Lemma with_io_disable_irq p :
  Iqs7219.with_io disable_irq p
  = Ok (tt, Iqs7219.set_io (log (EvIrq false) (Iqs7219.io p)) p).
Proof. reflexivity. Qed.

(** X8. [iqs7219_write_event_config] for one of the two channels, the
    enables holding their two flags: the event mask that goes to
    [iqs7219_write_comms], with the interrupt disabled, is the one that
    [iqs7219_dev_init] computes from the enables with the new state in
    place; the call returns what [iqs7219_write_comms] returns, 0 or a
    negative error, and nothing but transfers happens between
    [disable_irq] and [enable_irq]; the new state is stored exactly when
    the result is 0.  Once stored, [iqs7219_read_event_config] returns
    it, as 1 or 0, and the other channel's enable is as before. *)
Theorem iqs7219_write_event_config_spec channel state p :
  (channel < Iqs7219.IQS7219_NUM_CHAN)%nat ->
  length (Iqs7219.event_enable p) = Iqs7219.IQS7219_NUM_CHAN ->
  let p_new :=
    Iqs7219.set_event_enable
      (<[channel := truthy state]> (Iqs7219.event_enable p)) p in
  enables_written p p_new (Iqs7219.iqs7219_write_event_config channel state p) /\
  (forall w, Iqs7219.iqs7219_read_event_config channel (Iqs7219.set_io w p_new)
             = Ok (if truthy state then 1 else 0, Iqs7219.set_io w p_new)) /\
  (forall i, i <> channel ->
             Iqs7219.event_enable p_new !! i = Iqs7219.event_enable p !! i).
Proof.
  intros Hc Hlen. cbv zeta. split; [|split].
  - unfold enables_written. cbv zeta.
    rewrite <- (event_config_mask_is_union channel state p Hc Hlen). cbv zeta.
    set (mask := if truthy state then _ else _).
    set (p1 := Iqs7219.set_io (log (EvIrq false) (Iqs7219.io p)) p).
    destruct (iqs7219_write_comms_any mask p1) as (error & w1 & evs & Hrun & Hsign & Htr & Hbus).
    exists error, w1, evs.
    assert (Hp1 : Iqs7219.set_io w1 p1 = Iqs7219.set_io w1 p) by reflexivity.
    split; [rewrite Hrun, Hp1; reflexivity|].
    split.
    { unfold Iqs7219.iqs7219_write_event_config.
      destruct (Nat.leb_spec Iqs7219.IQS7219_NUM_CHAN channel); [lia|].
      unfold bind at 1. rewrite with_io_disable_irq. fold p1.
      unfold bind at 1, get at 1.
      change (Iqs7219.event_config_mask _ channel p1 _)
        with (Iqs7219.event_config_mask (seq 0 Iqs7219.IQS7219_NUM_CHAN) channel p
                Iqs7219.IQS7219_EVENT_MASK_ATI).
      change (word_at (Iqs7219.event_mask p1) channel)
        with (word_at (Iqs7219.event_mask p) channel).
      fold mask. unfold bind at 1. rewrite Hrun.
      unfold truthy at 1. destruct (Z.eqb_spec error 0) as [->|Hne]; cbn [negb];
        reflexivity. }
    split; [exact Hsign|]. split; [|exact Hbus].
    unfold irq_bracket. cbn [trace log]. rewrite Htr. subst p1.
    cbn [Iqs7219.io Iqs7219.set_io trace log]. rewrite <- !app_assoc. reflexivity.
  - intros w. unfold Iqs7219.iqs7219_read_event_config, bind, get.
    cbn [Iqs7219.event_enable Iqs7219.set_io Iqs7219.set_event_enable].
    rewrite list_lookup_insert_eq by (rewrite Hlen; exact Hc).
    destruct (truthy state); reflexivity.
  - intros i Hi. cbn [Iqs7219.event_enable Iqs7219.set_event_enable].
    apply list_lookup_insert_ne. congruence.
Qed.

Lemma iqs7219_write_event_config_spec_witness :
  enables_written iqs7219_on_good_bus
    (Iqs7219.set_event_enable [false; true] iqs7219_on_good_bus)
    (Iqs7219.iqs7219_write_event_config 1 1 iqs7219_on_good_bus).
Proof.
  apply (iqs7219_write_event_config_spec 1 1 iqs7219_on_good_bus);
    [unfold Iqs7219.IQS7219_NUM_CHAN; lia|reflexivity].
Defined.

(** The mask of [iqs7219_set_trigger_state] is the one that
    [iqs7219_dev_init] computes once the state is stored. *)
Lemma trigger_state_mask_is_union chans state p : forall m,
  Iqs7219.trigger_state_mask chans state p m
  = Iqs7219.union_event_mask chans (Iqs7219.set_trig_enable state p) m.
Proof.
  induction chans as [|i rest IH]; intros m; [reflexivity|].
  cbn [Iqs7219.trigger_state_mask Iqs7219.union_event_mask]. apply IH.
Qed.

(** X9. [iqs7219_set_trigger_state]: the event mask that goes to
    [iqs7219_write_comms], with the interrupt disabled, is the one that
    [iqs7219_dev_init] computes with the new trigger state in place; the
    call returns what [iqs7219_write_comms] returns, 0 or a negative
    error, nothing but transfers happens between [disable_irq] and
    [enable_irq], and [trig_enable] takes the new state exactly when the
    result is 0. *)
Theorem iqs7219_set_trigger_state_spec state p :
  enables_written p (Iqs7219.set_trig_enable state p)
    (Iqs7219.iqs7219_set_trigger_state state p).
Proof.
  unfold enables_written. cbv zeta.
  rewrite <- trigger_state_mask_is_union.
  set (p1 := Iqs7219.set_io (log (EvIrq false) (Iqs7219.io p)) p).
  change (Iqs7219.trigger_state_mask (seq 0 Iqs7219.IQS7219_NUM_CHAN) state p
            Iqs7219.IQS7219_EVENT_MASK_ATI)
    with (Iqs7219.trigger_state_mask (seq 0 Iqs7219.IQS7219_NUM_CHAN) state p1
            Iqs7219.IQS7219_EVENT_MASK_ATI).
  set (mask := Iqs7219.trigger_state_mask _ _ _ _).
  destruct (iqs7219_write_comms_any mask p1) as (error & w1 & evs & Hrun & Hsign & Htr & Hbus).
  exists error, w1, evs.
  assert (Hp1 : Iqs7219.set_io w1 p1 = Iqs7219.set_io w1 p) by reflexivity.
  split; [rewrite Hrun, Hp1; reflexivity|].
  split.
  { unfold Iqs7219.iqs7219_set_trigger_state.
    unfold bind at 1. rewrite with_io_disable_irq. fold p1.
    unfold bind at 1, get at 1. fold mask. unfold bind at 1. rewrite Hrun.
    unfold truthy at 1. destruct (Z.eqb_spec error 0) as [->|Hne]; cbn [negb];
      reflexivity. }
  split; [exact Hsign|]. split; [|exact Hbus].
  unfold irq_bracket. cbn [trace log]. rewrite Htr. subst p1.
  cbn [Iqs7219.io Iqs7219.set_io trace log]. rewrite <- !app_assoc. reflexivity.
Qed.

(** ** The buffer and the raw channel of the IQS7219A *)

Lemma consumer_scan_packs active_scan_mask p buffer_push :
  Iqs7219.consumer_scan (seq 0 Iqs7219.IQS7219_NUM_CHAN) active_scan_mask p
    buffer_push (repeat 0 Iqs7219.IQS7219_NUM_CHAN) 0
  = (buffer_push || any_trig_valid active_scan_mask p,
     packed_scan active_scan_mask p).
Proof.
  unfold packed_scan, any_trig_valid, active_chans, Iqs7219.IQS7219_NUM_CHAN.
  cbn [seq repeat Iqs7219.consumer_scan List.filter].
  destruct (Z.testbit active_scan_mask (Z.of_nat 0)),
           (Z.testbit active_scan_mask (Z.of_nat 1));
    cbn [negb map existsb length Nat.sub repeat app list_insert insert];
    rewrite ?orb_false_r, ?orb_assoc; reflexivity.
Qed.

Lemma iqs7219_report_async_run scan_id chan_index val p r p2 :
  Iqs7219.iqs7219_report_sync scan_id chan_index val (irq_off p) = Ok (r, p2) ->
  Iqs7219.iqs7219_report_async scan_id chan_index val p = Ok (r, irq_on p2).
Proof.
  intros H. unfold Iqs7219.iqs7219_report_async.
  unfold bind at 1. rewrite with_io_disable_irq. fold (irq_off p).
  unfold bind at 1. rewrite H. reflexivity.
Qed.

Lemma iqs7219_report_async_inv scan_id chan_index val p r p' :
  Iqs7219.iqs7219_report_async scan_id chan_index val p = Ok (r, p') ->
  exists p2,
    Iqs7219.iqs7219_report_sync scan_id chan_index val (irq_off p) = Ok (r, p2) /\
    p' = irq_on p2.
Proof.
  unfold Iqs7219.iqs7219_report_async.
  unfold bind at 1. rewrite with_io_disable_irq. fold (irq_off p).
  unfold bind at 1.
  destruct (Iqs7219.iqs7219_report_sync scan_id chan_index val (irq_off p))
    as [[r2 p2]| |]; try discriminate.
  intros H. inversion H; subst. exists p2. split; reflexivity.
Qed.

(** X10. [iqs7219_trigger_consumer] (two channels): coupled to its
    own trigger it reads nothing and leaves the driver data alone, and
    pushes exactly when an active channel has a valid trigger; coupled
    to another trigger it refreshes the data through
    [iqs7219_report_async] first, pushes nothing when that fails and
    always pushes when it succeeds.  What is pushed is the scan data of
    the active channels, side by side from the first element on and
    followed by zeros, two elements in all, with the stored
    timestamp. *)
Theorem iqs7219_trigger_consumer_spec active_scan_mask p :
  Iqs7219.iqs7219_trigger_consumer true active_scan_mask p
  = Ok (if any_trig_valid active_scan_mask p
        then Some (packed_scan active_scan_mask p, Iqs7219.timestamp p)
        else None, p) /\
  (forall r p2,
     Iqs7219.iqs7219_report_sync (-1) (-1) None (irq_off p) = Ok (r, p2) ->
     Iqs7219.iqs7219_trigger_consumer false active_scan_mask p
     = Ok (if truthy (fst r) then None
           else Some (packed_scan active_scan_mask (irq_on p2),
                      Iqs7219.timestamp p2), irq_on p2)) /\
  length (packed_scan active_scan_mask p) = Iqs7219.IQS7219_NUM_CHAN.
Proof.
  split; [|split].
  - unfold Iqs7219.iqs7219_trigger_consumer. cbv zeta. cbn [negb].
    unfold bind, get. rewrite consumer_scan_packs. cbn [fst snd orb].
    destruct (any_trig_valid active_scan_mask p); reflexivity.
  - intros r p2 Hrun.
    unfold Iqs7219.iqs7219_trigger_consumer. cbv zeta. cbn [negb].
    unfold bind at 1. rewrite (iqs7219_report_async_run _ _ _ _ _ _ Hrun).
    destruct (truthy (fst r)); [reflexivity|].
    unfold bind, get. rewrite consumer_scan_packs. reflexivity.
  - unfold packed_scan, active_chans, Iqs7219.IQS7219_NUM_CHAN.
    cbn [seq List.filter].
    destruct (Z.testbit active_scan_mask _), (Z.testbit active_scan_mask _); reflexivity.
Qed.

(** An error of [iqs7219_report_sync] leaves [*val] as it was. *)
Lemma iqs7219_report_sync_error_val scan_id chan_index val p error v' p2 :
  Iqs7219.iqs7219_report_sync scan_id chan_index val p = Ok ((error, v'), p2) ->
  error <> 0 -> v' = val.
Proof.
  unfold Iqs7219.iqs7219_report_sync. unfold bind at 1, get at 1.
  intros H Hne.
  apply bind_inv in H. destruct H as ([e vb] & p1 & _ & H). cbn [fst snd] in H.
  destruct (truthy e) eqn:He; [inversion H; reflexivity|].
  apply truthy_false in He. subst e.
  destruct (truthy (Z.land (nth 0 vb 0) Iqs7219.IQS7219_SYS_STATUS_RESET)).
  { apply bind_inv in H. destruct H as (e1 & p3 & _ & H). inversion H; reflexivity. }
  destruct (truthy (Z.land (nth 0 vb 0) Iqs7219.IQS7219_SYS_STATUS_ATI_ERROR)).
  { apply bind_inv in H. destruct H as (e1 & p3 & _ & H). inversion H; reflexivity. }
  destruct (truthy (Z.land (nth 0 vb 0) Iqs7219.IQS7219_SYS_STATUS_ATI_ACTIVE)).
  { inversion H; reflexivity. }
  apply bind_inv in H. destruct H as (r & p3 & _ & H).
  apply bind_inv in H. destruct H as (u1 & p4 & _ & H).
  apply bind_inv in H. destruct H as (u2 & p5 & _ & H).
  inversion H. congruence.
Qed.

(** X11. [iqs7219_read_raw]: the sampling frequency is answered from
    the driver data alone, as [iqs7219_read_rate] computes it, with
    IIO_VAL_INT_PLUS_MICRO; any other attribute but the raw value
    gives -EINVAL.  The raw value is read by [iqs7219_report_sync] for
    the delta of the channel, between [disable_irq] and [enable_irq]:
    an error of it is returned as it is, with the caller's value
    untouched; when the status read shows none of the reset and ATI
    flags the call returns IIO_VAL_INT and the value is the long-term
    average minus the filtered counts, clamped at 0, and the flags
    read are cached. *)
Theorem iqs7219_read_raw_spec val val2 p :
  (forall channel,
     Iqs7219.iqs7219_read_raw channel val val2 Iqs7219.IIO_CHAN_INFO_SAMP_FREQ p
     = Ok ((Iqs7219.IIO_VAL_INT_PLUS_MICRO,
            fst (Iqs7219.iqs7219_read_rate p),
            snd (Iqs7219.iqs7219_read_rate p)), p) /\
     Iqs7219.iqs7219_read_raw channel val val2 Iqs7219.IIO_CHAN_INFO_OTHER p
     = Ok ((- EINVAL, val, val2), p)) /\
  (forall channel error v p2,
     Iqs7219.iqs7219_report_sync Iqs7219.IQS7219_SCAN_DELTA channel (Some val)
       (irq_off p) = Ok ((error, v), p2) ->
     error <> 0 ->
     Iqs7219.iqs7219_read_raw channel val val2 Iqs7219.IIO_CHAN_INFO_RAW p
     = Ok ((error, val, val2), irq_on p2)) /\
  (forall (chan : nat) val_buf p1,
     (chan < Iqs7219.IQS7219_NUM_CHAN)%nat ->
     status_read (irq_off p) val_buf p1 -> no_flags (nth 0 val_buf 0) ->
     (forall i, (i < Iqs7219.IQS7219_NUM_CHAN)%nat ->
                0 <= word_at (Iqs7219.scan_mux p) i < Iqs7219.IQS7219_NUM_SCAN) ->
     let lta := nth (3 + chan * 2) val_buf 0 in
     let filt := nth (2 + chan * 2) val_buf 0 in
     exists p2,
       Iqs7219.iqs7219_read_raw (Z.of_nat chan) val val2
         Iqs7219.IIO_CHAN_INFO_RAW p
       = Ok ((Iqs7219.IIO_VAL_INT, Z.max (lta - filt) 0, val2), irq_on p2) /\
       Iqs7219.pxs_flags p2 = nth 1 val_buf 0).
Proof.
  split; [|split].
  - intros channel. split; reflexivity.
  - intros channel error v p2 Hrun Hne.
    rewrite (iqs7219_report_sync_error_val _ _ _ _ _ _ _ Hrun Hne) in Hrun.
    unfold Iqs7219.iqs7219_read_raw.
    unfold bind. rewrite (iqs7219_report_async_run _ _ _ _ _ _ Hrun).
    cbn [fst snd default from_option id]. unfold truthy, pure.
    destruct (Z.eqb_spec error 0); [contradiction|reflexivity].
  - intros chan val_buf p1 Hchan Hread Hnf Hmux. cbv zeta.
    assert (Hargs : report_args_ok (irq_off p) Iqs7219.IQS7219_SCAN_DELTA
                      (Z.of_nat chan) (Some val)).
    { split; [exact Hmux|]. intros _. split; [reflexivity|].
      unfold Iqs7219.IQS7219_SCAN_DELTA, Iqs7219.IQS7219_NUM_SCAN. lia. }
    destruct (report_sync_decode_ok _ _ _ _ _ _ Hread Hnf Hargs)
      as (val' & p2 & Hrun & Hflags & _ & _ & _ & _ & Hval).
    exists p2. split; [|exact Hflags].
    rewrite (Hval chan) in Hrun
      by (unfold Iqs7219.IQS7219_NUM_CHAN in Hchan; lia).
    unfold Iqs7219.iqs7219_read_raw.
    unfold bind. rewrite (iqs7219_report_async_run _ _ _ _ _ _ Hrun).
    reflexivity.
Qed.

Lemma iqs7219_read_raw_spec_witness :
  let p := iqs7219_example (stub [] 1 [] 1 [] 2 [[0; 0; 100; 150]] [] 1) 0
             [true; true] in
  exists p2,
    Iqs7219.iqs7219_read_raw 0 7 0 Iqs7219.IIO_CHAN_INFO_RAW p
    = Ok ((1, 50, 0), irq_on p2).
Proof.
  cbv zeta.
  set (p := iqs7219_example _ 0 [true; true]).
  destruct (iqs7219_read_raw_spec 7 0 p) as (_ & _ & H).
  destruct (H 0%nat (fst (status_of (irq_off p))) (snd (status_of (irq_off p))))
    as (p2 & Hrun & _).
  - unfold Iqs7219.IQS7219_NUM_CHAN. lia.
  - vm_compute. reflexivity.
  - vm_compute. repeat split.
  - intros i Hi. unfold Iqs7219.IQS7219_NUM_CHAN in Hi.
    destruct i as [|[|]]; [vm_compute; split; [discriminate|reflexivity]..|lia].
  - exists p2. exact Hrun.
Defined.

(** ** Pin lists of the IQS7219A *)

Lemma parse_pins_ok pins : forall limit bit_base i setup,
  Forall (fun pin => 0 <= pin < limit) pins ->
  (i < length setup)%nat -> 0 <= bit_base ->
  exists setup',
    Iqs7219.parse_pins pins limit bit_base i setup = (0, setup') /\
    length setup' = length setup /\
    (forall j, j <> i -> word_at setup' j = word_at setup j) /\
    (forall k, 0 <= k < 16 ->
       Z.testbit (word_at setup' i) k
       = Z.testbit (word_at setup i) k || existsb (Z.eqb (k - bit_base)) pins).
Proof.
  induction pins as [|pin rest IH]; intros limit bit_base i setup Hall Hi Hb.
  - exists setup. cbn. split; [reflexivity|]. split; [reflexivity|].
    split; [reflexivity|]. intros k _. rewrite orb_false_r. reflexivity.
  - inversion Hall as [|? ? Hpin Hrest]; subst.
    cbn [Iqs7219.parse_pins].
    destruct (Z.geb_spec pin limit); [lia|].
    destruct (IH limit bit_base i (set_bit setup i (pin + bit_base)) Hrest)
      as (setup' & Hrun & Hlen & Hother & Hbits);
      [rewrite length_set_bit; exact Hi|exact Hb|].
    exists setup'. split; [exact Hrun|].
    split; [rewrite Hlen; apply length_set_bit|].
    split.
    { intros j Hj. rewrite (Hother j Hj). apply word_at_set_bit_ne. congruence. }
    intros k Hk. rewrite (Hbits k Hk).
    rewrite testbit_set_bit by lia.
    destruct (Z.ltb_spec k 16); [|lia]. cbn [andb existsb].
    replace (k =? pin + bit_base) with (k - bit_base =? pin).
    + rewrite orb_assoc. reflexivity.
    + destruct (Z.eqb_spec (k - bit_base) pin), (Z.eqb_spec k (pin + bit_base));
        (reflexivity || lia).
Qed.

Lemma parse_pins_bad pins : forall limit bit_base i setup,
  Forall (fun pin => 0 <= pin) pins ->
  Exists (fun pin => limit <= pin) pins ->
  fst (Iqs7219.parse_pins pins limit bit_base i setup) = - EINVAL.
Proof.
  induction pins as [|pin rest IH]; intros limit bit_base i setup Hall Hex.
  - inversion Hex.
  - cbn [Iqs7219.parse_pins]. inversion Hall; subst.
    destruct (Z.geb_spec pin limit); [reflexivity|].
    apply IH; [assumption|]. inversion Hex; subst; [lia|assumption].
Qed.

Lemma map_u32_small pins :
  Forall (fun pin => 0 <= pin < 4294967296) pins -> map u32 pins = pins.
Proof.
  induction 1 as [|pin rest Hpin _ IH]; [reflexivity|].
  cbn [map]. rewrite IH. f_equal. unfold u32. apply Z.mod_small. exact Hpin.
Qed.

Lemma existsb_eqb_out (x : Z) pins :
  Forall (fun pin => pin <> x) pins -> existsb (Z.eqb x) pins = false.
Proof.
  induction 1 as [|pin rest Hpin _ IH]; [reflexivity|].
  cbn [existsb]. rewrite IH. destruct (Z.eqb_spec x pin); [congruence|reflexivity].
Qed.

(** X12. The pin lists of [iqs7219_parse_chan] (receivers: four pins
    at bit 8 of word 3; transmitters: nine pins at bit 0 of word 4).
    An absent list leaves the image alone; a list longer than the pin
    array is refused with -EINVAL before the image is touched, and a
    pin outside the array is refused with -EINVAL; otherwise the result
    is 0, the field holds a set bit for exactly the listed pins, and
    the other bits of the word and the other words are as before. *)
Theorem iqs7219_pin_list_spec node key (limit : nat) bit_base i setup :
  (i < length setup)%nat -> 0 <= bit_base -> bit_base + Z.of_nat limit <= 16 ->
  let r := Iqs7219.parse_pin_list node key limit bit_base i setup in
  (fw_present node key = false -> r = (0, setup)) /\
  (forall pins, lists_pins node key pins ->
     ((limit < length pins)%nat -> r = (- EINVAL, setup)) /\
     ((length pins <= limit)%nat ->
      Exists (fun pin => Z.of_nat limit <= pin) pins -> fst r = - EINVAL) /\
     ((length pins <= limit)%nat ->
      Forall (fun pin => pin < Z.of_nat limit) pins ->
      fst r = 0 /\ length (snd r) = length setup /\
      (forall j, j <> i -> word_at (snd r) j = word_at setup j) /\
      (forall k, 0 <= k < 16 ->
         Z.testbit (word_at (snd r) i) k
         = pin_bit pins limit bit_base (word_at setup i) k))).
Proof.
  intros Hi Hb Hfield. cbv zeta. split.
  - intros Habs. unfold Iqs7219.parse_pin_list. rewrite Habs. reflexivity.
  - intros pins (Hpres & Hcount & Hread & Hrange).
    unfold Iqs7219.parse_pin_list. rewrite Hpres, Hcount. cbn [negb].
    destruct (Z.ltb_spec (Z.of_nat (length pins)) 0); [lia|].
    rewrite Nat2Z.id, Hread. cbn [fst snd].
    rewrite firstn_all. change (truthy 0) with false. cbv iota.
    rewrite (map_u32_small _ Hrange).
    split; [|split].
    + intros Hmany. destruct (Z.gtb_spec (Z.of_nat (length pins)) (Z.of_nat limit));
        [reflexivity|lia].
    + intros Hfew Hex.
      destruct (Z.gtb_spec (Z.of_nat (length pins)) (Z.of_nat limit)); [lia|].
      apply parse_pins_bad; [|exact Hex].
      eapply List.Forall_impl; [|exact Hrange]. cbv beta. intros; lia.
    + intros Hfew Hall.
      destruct (Z.gtb_spec (Z.of_nat (length pins)) (Z.of_nat limit)); [lia|].
      set (cleared := <[i := _]> setup).
      assert (Hpins : Forall (fun pin => 0 <= pin < Z.of_nat limit) pins).
      { apply List.Forall_forall. intros pin Hin.
        pose proof (proj1 (List.Forall_forall _ _) Hrange pin Hin).
        pose proof (proj1 (List.Forall_forall _ _) Hall pin Hin). cbv beta in *. lia. }
      destruct (parse_pins_ok pins (Z.of_nat limit) bit_base i cleared Hpins)
        as (setup' & Hrun & Hlen & Hother & Hbits);
        [subst cleared; rewrite length_insert; exact Hi|exact Hb|].
      rewrite Hrun. cbn [fst snd].
      split; [reflexivity|].
      split; [rewrite Hlen; subst cleared; apply length_insert|].
      split.
      { intros j Hj. rewrite (Hother j Hj). subst cleared.
        apply word_at_insert_ne. congruence. }
      intros k Hk. rewrite (Hbits k Hk). subst cleared.
      rewrite word_at_insert_eq by exact Hi.
      rewrite testbit_u16_clear by lia.
      rewrite testbit_GENMASK by lia.
      unfold pin_bit.
      destruct (Z.ltb_spec k 16); [|lia]. cbn [andb].
      destruct (Z.leb_spec bit_base k), (Z.ltb_spec k (bit_base + Z.of_nat limit)),
               (Z.leb_spec k (bit_base + Z.of_nat limit - 1));
        try lia; cbn [andb negb orb]; rewrite ?andb_false_r, ?andb_true_r, ?orb_false_l;
        try reflexivity.
      * rewrite existsb_eqb_out; [apply orb_false_r|].
        eapply List.Forall_impl; [|exact Hpins]. cbv beta. intros; lia.
      * rewrite existsb_eqb_out; [apply orb_false_r|].
        eapply List.Forall_impl; [|exact Hpins]. cbv beta. intros; lia.
Qed.

Lemma iqs7219_pin_list_spec_witness :
  let node := node_of [("azoteq,rx-enable"%string, [0; 2])] [] in
  Iqs7219.parse_pin_list node "azoteq,rx-enable" 4 8 3 (repeat 0 13)
  = (0, [0; 0; 0; 0x500; 0; 0; 0; 0; 0; 0; 0; 0; 0]) /\
  Z.testbit 0x500 10 = pin_bit [0; 2] 4 8 0 10.
Proof.
  cbv zeta.
  destruct (iqs7219_pin_list_spec
              (node_of [("azoteq,rx-enable"%string, [0; 2])] [])
              "azoteq,rx-enable" 4 8 3 (repeat 0 13)) as (_ & H);
    [cbn; lia|lia|lia|].
  destruct (H [0; 2]) as (_ & _ & Hok).
  { repeat split; repeat constructor; lia. }
  destruct Hok as (_ & _ & _ & Hbits);
    [cbn; lia|repeat constructor; lia|].
  split; [vm_compute; reflexivity|]. apply (Hbits 10). lia.
Defined.

(** ** The interface mode that the configuration selects *)

Section Iqs7219ParseFrame.
Import Iqs7219.
Context {B : Type} (h : iqs7219_private -> B).
Hypothesis h_buf : forall b l p, h (set_buf b l p) = h p.
Hypothesis h_cap : forall v p, h (set_cap_setup v p) = h p.

Lemma iqs7219_parse_props_steady dev child_node child_index reg_grp :
  steady h (iqs7219_parse_props dev child_node child_index reg_grp).
Proof using h_buf.
  unfold iqs7219_parse_props. cbv zeta.
  assert (Hrun : forall (node : fwnode) (child : option fwnode),
            steady h
              match iqs7219_reg_grps !! reg_grp, iqs7219_setup reg_grp child_index
                    return M iqs7219_private (Z * option fwnode) with
              | Some g, Some (b, off) =>
                  p <- get ;;
                  let r := parse_props_loop iqs7219_props (grp_reg_key g) node
                             off (get_buf b p) in
                  modify (set_buf b (snd r)) ;;
                  pure (fst r, child)
              | _, _ => pure (- EINVAL, child)
              end).
  { intros node child.
    destruct (iqs7219_reg_grps !! reg_grp); [|apply steady_pure].
    destruct (iqs7219_setup reg_grp child_index) as [[b off]|]; [|apply steady_pure].
    apply steady_bind; [apply steady_get|intros p]. cbv zeta.
    apply steady_bind; [apply steady_modify; intros; apply h_buf|intros _].
    apply steady_pure. }
  destruct reg_grp as [|[|[|[|[|[|[|[|]]]]]]]];
    try apply steady_pure; try apply Hrun;
    (destruct child_node as [node|]; [apply Hrun|];
     destruct (fw_child dev _); [apply Hrun|apply steady_pure]).
Qed.

Lemma parse_cycles_steady dev cycles : steady h (parse_cycles cycles dev).
Proof using h_buf.
  induction cycles as [|i rest IH]; cbn [parse_cycles]; [apply steady_pure|].
  apply steady_bind; [apply iqs7219_parse_props_steady|intros r].
  apply steady_if; [apply steady_pure|exact IH].
Qed.

Lemma parse_sense_modes_steady dev modes : forall i,
  steady h (parse_sense_modes modes i dev).
Proof using h_cap.
  induction modes as [|mode rest IH]; intros i; cbn [parse_sense_modes];
    [apply steady_pure|].
  cbv zeta. destruct (fw_child dev mode) as [cap_node|]; [|apply IH].
  apply steady_bind; [apply steady_modify; intros; apply h_cap|intros _].
  apply steady_bind;
    [apply steady_if; [apply steady_modify; intros; apply h_cap|apply steady_pure]
    |intros _].
  apply steady_bind; [apply steady_modify; intros; apply h_cap|intros _].
  apply steady_bind;
    [apply steady_if; [apply steady_modify; intros; apply h_cap|apply steady_pure]
    |intros _].
  apply steady_if; [apply IH|].
  apply steady_if; [apply steady_pure|].
  apply steady_if; [apply steady_pure|].
  apply steady_bind; [apply steady_modify; intros; apply h_cap|intros _].
  apply steady_bind; [apply steady_modify; intros; apply h_cap|intros _]. apply IH.
Qed.
End Iqs7219ParseFrame.

(** The node that [iqs7219_parse_props] hands back for a channel. *)
Lemma iqs7219_parse_props_chan_node dev i p r p' :
  (i < Iqs7219.IQS7219_NUM_CHAN)%nat ->
  Iqs7219.iqs7219_parse_props dev None i (Iqs7219.IQS7219_REG_GRP_CHAN_0 + i) p
  = Ok (r, p') ->
  snd r = chan_node_of dev i.
Proof.
  intros Hi. unfold Iqs7219.IQS7219_NUM_CHAN in Hi. unfold chan_node_of.
  destruct i as [|[|i]]; [| |lia];
    unfold Iqs7219.iqs7219_parse_props; cbv zeta;
    cbn [Iqs7219.IQS7219_REG_GRP_CHAN_0 Nat.add lookup list_lookup
         Iqs7219.iqs7219_reg_grps Iqs7219.iqs7219_setup];
    destruct (fw_child dev _) as [node|];
    unfold bind, get, modify, pure; intros H; inversion H; reflexivity.
Qed.

Section Iqs7219ParseMode.
Import Iqs7219.
Context {B : Type} (f : iqs7219_private -> B).
Hypothesis f_buf : forall b l p, f (set_buf b l p) = f p.
Hypothesis f_cap : forall v p, f (set_cap_setup v p) = f p.
Hypothesis f_mask : forall v p, f (set_event_mask v p) = f p.
Hypothesis f_mux : forall v p, f (set_scan_mux v p) = f p.
Hypothesis f_mode : forall v p, f (set_intf_mode v p) = f p.

Lemma with_mode_buf b l p : with_mode f (set_buf b l p) = with_mode f p.
Proof using f_buf.
  unfold with_mode. rewrite f_buf. destruct b; reflexivity.
Qed.

Lemma with_mode_cap v p : with_mode f (set_cap_setup v p) = with_mode f p.
Proof using f_cap. unfold with_mode. rewrite f_cap. reflexivity. Qed.

Lemma mode_after_steady {A} g (m : M iqs7219_private A) (Q : A -> Prop) k :
  (forall p, exists a p',
      m p = Ok (a, p') /\ with_mode f p' = with_mode f p /\ Q a) ->
  (forall a, Q a -> mode_after f g (k a)) -> mode_after f g (bind m k).
Proof.
  intros Hm Hk p. destruct (Hm p) as (a & p1 & H1 & Hw & Hq).
  destruct (Hk a Hq p1) as (e & p' & H2 & Hf & Hor & Hz).
  unfold with_mode in Hw. injection Hw as Hf1 Hm1.
  exists e, p'. split; [rewrite (bind_ok _ _ _ _ _ H1); exact H2|].
  split; [congruence|]. rewrite Hm1 in Hor, Hz. split; assumption.
Qed.

Lemma mode_after_bind {A} g (m : M iqs7219_private A) k :
  steady (with_mode f) m -> (forall a, mode_after f g (k a)) ->
  mode_after f g (bind m k).
Proof.
  intros Hm Hk. apply (mode_after_steady g m (fun _ => True)).
  - intros p. destruct (Hm p) as (a & p' & H1 & H2). exists a, p'. auto.
  - intros a _. apply Hk.
Qed.

Lemma mode_after_if g (c : bool) m1 m2 :
  mode_after f g m1 -> mode_after f g m2 -> mode_after f g (if c then m1 else m2).
Proof. destruct c; trivial. Qed.

Lemma mode_after_error g e : e <> 0 -> mode_after f g (pure e).
Proof.
  intros He p. exists e, p. split; [reflexivity|]. split; [reflexivity|].
  split; [left; reflexivity|]. intros; contradiction.
Qed.

Lemma mode_after_done : mode_after f false (pure 0).
Proof.
  intros p. exists 0, p. split; [reflexivity|]. split; [reflexivity|].
  split; [left; reflexivity|]. reflexivity.
Qed.

Lemma mode_after_guard g e m :
  mode_after f g m -> mode_after f g (if truthy e then pure e else m).
Proof.
  intros Hm. destruct (truthy e) eqn:He; [|exact Hm].
  apply mode_after_error. apply truthy_true. exact He.
Qed.

Lemma mode_after_stand g m :
  mode_after f g m ->
  mode_after f true (modify (set_intf_mode IQS7219_SYS_SETUP_INTF_MODE_STAND) ;; m).
Proof using f_mode.
  intros Hm p. unfold bind at 1, modify at 1.
  destruct (Hm (set_intf_mode IQS7219_SYS_SETUP_INTF_MODE_STAND p))
    as (e & p' & Hrun & Hf & Hor & Hz).
  exists e, p'. split; [exact Hrun|]. split; [rewrite Hf; apply f_mode|].
  cbn [intf_mode set_intf_mode] in Hor, Hz.
  split; [right; destruct Hor; assumption|].
  intros He. rewrite (Hz He). destruct g; reflexivity.
Qed.

Lemma mode_after_seq g1 g2 m1 m2 :
  mode_after f g1 m1 -> mode_after f g2 m2 ->
  mode_after f (g1 || g2) (e <- m1 ;; if truthy e then pure e else m2).
Proof.
  intros H1 H2 p. destruct (H1 p) as (e1 & p1 & Hrun1 & Hf1 & Hor1 & Hz1).
  rewrite (bind_ok _ _ _ _ _ Hrun1).
  destruct (truthy e1) eqn:He.
  - apply truthy_true in He. exists e1, p1. split; [reflexivity|].
    split; [exact Hf1|]. split; [exact Hor1|]. intros; contradiction.
  - apply truthy_false in He. specialize (Hz1 He).
    destruct (H2 p1) as (e & p' & Hrun & Hf & Hor & Hz).
    exists e, p'. split; [exact Hrun|]. split; [congruence|]. split.
    + destruct Hor as [Hor|Hor]; [rewrite Hor; exact Hor1|right; exact Hor].
    + intros H0. rewrite (Hz H0), Hz1. destruct g1, g2; reflexivity.
Qed.

Lemma mode_after_tail g m1 (m2 : M iqs7219_private Z) :
  mode_after f g m1 -> steady (with_mode f) m2 ->
  mode_after f g (e <- m1 ;; if truthy e then pure e else m2).
Proof.
  intros H1 H2.
  assert (H2' : mode_after f false m2).
  { intros p. destruct (H2 p) as (e & p' & Hrun & Hw).
    unfold with_mode in Hw. injection Hw as Hf Hm.
    exists e, p'. split; [exact Hrun|]. split; [exact Hf|].
    split; [left; exact Hm|]. intros _. exact Hm. }
  pose proof (mode_after_seq g false m1 m2 H1 H2') as H.
  rewrite orb_false_r in H. exact H.
Qed.

Lemma steady_update_event_setup c g :
  steady (with_mode f) (update_event_setup c g).
Proof using f_buf.
  apply steady_modify. intros p. apply with_mode_buf.
Qed.

Lemma steady_update_chan_setup c g :
  steady (with_mode f) (update_chan_setup c g).
Proof using f_buf.
  apply steady_modify. intros p. apply with_mode_buf.
Qed.

Lemma parse_chan_events_mode chan_node dev chan_index events : forall i,
  mode_after f (selects_gpio_from events chan_node)
    (parse_chan_events events i chan_node dev chan_index).
Proof using f_buf f_mask f_mode.
  induction events as [|event_name rest IH]; intros i;
    cbn [parse_chan_events selects_gpio_from existsb]; [apply mode_after_done|].
  cbv zeta.
  apply mode_after_bind; [apply steady_update_event_setup|intros _].
  destruct (fw_child chan_node event_name) as [event_node|];
    [|cbn [orb]; apply IH].
  apply mode_after_bind;
    [apply iqs7219_parse_props_steady; intros; apply with_mode_buf|intros r].
  apply mode_after_guard.
  apply mode_after_bind.
  { apply steady_if; [|apply steady_pure]. apply steady_modify.
    intros p. unfold with_mode. rewrite f_mask. reflexivity. }
  intros _.
  apply mode_after_bind; [apply steady_update_chan_setup|intros _].
  apply mode_after_bind;
    [apply steady_if; [apply steady_update_chan_setup|apply steady_pure]|intros _].
  destruct (fw_present event_node "azoteq,gpio-select"); cbn [negb orb];
    [|apply IH].
  apply mode_after_guard.
  apply mode_after_if; [apply mode_after_error; unfold EINVAL; lia|].
  apply mode_after_bind; [apply steady_update_event_setup|intros _].
  apply mode_after_bind.
  { apply steady_if; [apply steady_update_event_setup|].
    apply steady_if; [apply steady_update_event_setup|apply steady_pure]. }
  intros _. apply (mode_after_stand _ _ (IH (S i))).
Qed.

Lemma iqs7219_parse_chan_mode dev i :
  (i < IQS7219_NUM_CHAN)%nat ->
  mode_after f (chan_selects_gpio dev i) (iqs7219_parse_chan dev i).
Proof using f_buf f_mask f_mux f_mode.
  intros Hi. unfold iqs7219_parse_chan.
  apply (mode_after_steady _ _ (fun r => snd r = chan_node_of dev i)).
  { intros p.
    destruct (iqs7219_parse_props_steady (with_mode f) with_mode_buf dev None i
                (IQS7219_REG_GRP_CHAN_0 + i) p) as (r & p' & Hrun & Hw).
    exists r, p'. split; [exact Hrun|]. split; [exact Hw|].
    apply (iqs7219_parse_props_chan_node _ _ _ _ _ Hi Hrun). }
  intros r Hr. apply mode_after_guard. rewrite Hr.
  unfold chan_selects_gpio.
  destruct (chan_node_of dev i) as [chan_node|]; [|apply mode_after_done].
  apply mode_after_bind; [apply steady_get|intros p]. cbv zeta.
  apply mode_after_bind;
    [apply steady_modify; intros; apply with_mode_buf|intros _].
  apply mode_after_guard.
  apply mode_after_bind; [apply steady_get|intros p2].
  apply mode_after_bind;
    [apply steady_modify; intros; apply with_mode_buf|intros _].
  apply mode_after_guard.
  apply mode_after_tail; [apply parse_chan_events_mode|].
  apply steady_if; [apply steady_pure|].
  apply steady_if; [apply steady_pure|].
  apply steady_if; [apply steady_pure|].
  apply steady_bind; [|intros _; apply steady_pure].
  apply steady_modify. intros p0. unfold with_mode. rewrite f_mux. reflexivity.
Qed.

Lemma parse_chans_mode dev chans :
  Forall (fun i => (i < IQS7219_NUM_CHAN)%nat) chans ->
  mode_after f (existsb (chan_selects_gpio dev) chans) (parse_chans chans dev).
Proof using f_buf f_mask f_mux f_mode.
  induction 1 as [|i rest Hi _ IH]; cbn [parse_chans existsb];
    [apply mode_after_done|].
  apply mode_after_bind;
    [apply iqs7219_parse_props_steady; intros; apply with_mode_buf|intros r].
  apply mode_after_guard.
  apply mode_after_seq; [apply iqs7219_parse_chan_mode; exact Hi|exact IH].
Qed.

Lemma iqs7219_parse_all_mode dev p :
  exists error p',
    iqs7219_parse_all dev p = Ok (error, p') /\ f p' = f p /\
    (error = 0 ->
     intf_mode p' =
       if selects_gpio dev then IQS7219_SYS_SETUP_INTF_MODE_STAND
       else if fw_present dev "azoteq,streaming-comms" then intf_mode p
       else IQS7219_SYS_SETUP_INTF_MODE_EVENT).
Proof using f_buf f_cap f_mask f_mux f_mode.
  unfold iqs7219_parse_all.
  set (rest := bind (parse_cycles _ dev) _).
  assert (Hrest : mode_after f (selects_gpio dev) rest).
  { subst rest.
    apply mode_after_bind;
      [apply parse_cycles_steady; intros; apply with_mode_buf|intros e1].
    apply mode_after_guard.
    apply mode_after_bind;
      [apply parse_sense_modes_steady; intros; apply with_mode_cap|intros e2].
    apply mode_after_guard.
    apply mode_after_bind;
      [apply iqs7219_parse_props_steady; intros; apply with_mode_buf|intros r].
    apply mode_after_guard.
    apply mode_after_tail.
    - apply parse_chans_mode. unfold IQS7219_NUM_CHAN.
      repeat constructor.
    - apply steady_bind;
        [apply iqs7219_parse_props_steady; intros; apply with_mode_buf|intros r2].
      apply steady_pure. }
  unfold bind at 1.
  destruct (fw_present dev "azoteq,streaming-comms"); cbn [negb].
  - unfold pure at 1.
    destruct (Hrest p) as (e & p' & Hrun & Hf & _ & Hz).
    exists e, p'. split; [exact Hrun|]. split; [exact Hf|exact Hz].
  - unfold modify at 1.
    destruct (Hrest (set_intf_mode IQS7219_SYS_SETUP_INTF_MODE_EVENT p))
      as (e & p' & Hrun & Hf & _ & Hz).
    exists e, p'. split; [exact Hrun|]. split; [rewrite Hf; apply f_mode|exact Hz].
Qed.
End Iqs7219ParseMode.

(** X13. [iqs7219_parse_all] always returns, and when it returns 0 the
    interface mode is decided by the device tree alone: stand-alone
    when an event node of one of the two channel nodes carries
    azoteq,gpio-select; otherwise event mode, unless
    azoteq,streaming-comms is present, in which case the mode is left
    as it was. *)
Theorem iqs7219_parse_all_selects_the_mode dev p :
  exists error p',
    Iqs7219.iqs7219_parse_all dev p = Ok (error, p') /\
    (error = 0 ->
     Iqs7219.intf_mode p' =
       if selects_gpio dev then Iqs7219.IQS7219_SYS_SETUP_INTF_MODE_STAND
       else if fw_present dev "azoteq,streaming-comms" then Iqs7219.intf_mode p
       else Iqs7219.IQS7219_SYS_SETUP_INTF_MODE_EVENT).
Proof.
  destruct (iqs7219_parse_all_mode (fun _ => tt)) with (dev := dev) (p := p)
    as (error & p' & Hrun & _ & Hmode); try reflexivity.
  exists error, p'. split; [exact Hrun|exact Hmode].
Qed.

(** X14. [iqs7219_parse_all] always returns and writes only the
    configuration: the bus (nothing is sent, read or waited for), the
    cached status flags, the event and trigger enables, the scan data
    and the rest of the state of the running driver are as before. *)
Theorem iqs7219_parse_all_leaves_the_device_alone dev p :
  exists error p',
    Iqs7219.iqs7219_parse_all dev p = Ok (error, p') /\
    iqs7219_run_state p' = iqs7219_run_state p.
Proof.
  destruct (iqs7219_parse_all_mode iqs7219_run_state) with (dev := dev) (p := p)
    as (error & p' & Hrun & Hf & _); try reflexivity.
  - intros b l q. destruct b; reflexivity.
  - exists error, p'. split; [exact Hrun|exact Hf].
Qed.

(** ** The mode word of the IQS323 *)

Lemma iqs323_with_io_ok {A} (m : M world A) p a w' :
  m (Iqs323.io p) = Ok (a, w') ->
  Iqs323.with_io m p = Ok (a, Iqs323.set_io w' p).
Proof. intros H. unfold Iqs323.with_io. rewrite H. reflexivity. Qed.

Lemma iqs323_write_word_any reg val w :
  burst_write_spec (Iqs323.iqs323_write_word reg val)
    Iqs323.iqs323_force_comms 2500 ([reg] ++ le16_bytes val) w.
Proof.
  apply (write_burst_meets_spec Iqs323.iqs323_force_comms 2500 [reg] [val] w
           iqs323_force_comms_total iqs323_force_comms_emits).
Qed.

Lemma burst_write_spec_written write force_comms us msg w :
  burst_write_spec write force_comms us msg w ->
  exists ret w',
    write w = Ok (ret, w') /\ burst_written us (EvSend msg) w ret w'.
Proof.
  unfold burst_write_spec, burst_written. destruct (mem w (mem_n w)).
  - intros (ret & w' & Hrun & Hsign & Hx & _ & _ & evs & Htr & Hwire & Hlast).
    exists ret, w'. split; [exact Hrun|]. split; [exact Hsign|].
    exists (evs ++ [EvSleep us]). split; [exact Htr|]. split.
    + apply Forall_app. split; [exact Hwire|]. repeat constructor.
    + exists evs. split; [reflexivity|exact Hlast].
  - intros Hrun. exists (- ENOMEM), (allocated w).
    split; [exact Hrun|]. split; [right; unfold ENOMEM; lia|].
    exists []. split; [symmetry; apply app_nil_r|].
    split; [constructor|]. split; reflexivity.
Qed.

(** The bits of the word that [iqs323_write_mode] composes. *)
Lemma iqs323_mode_word_bits p intf_mode power_mode cmd :
  0 <= power_mode <= 6 ->
  let cached := word_at (Iqs323.sys_setup p) 0 in
  let word := iqs323_mode_word p intf_mode power_mode cmd in
  0 <= word < 65536 /\
  (Z.testbit word 7 = true <-> intf_mode = Iqs323.IQS323_INTF_MODE_EVENT) /\
  (forall k, 4 <= k <= 6 ->
     Z.testbit word k =
       if power_mode =? Iqs323.IQS323_POWER_MODE_USER
       then Z.testbit cached k || Z.testbit cmd k
       else Z.testbit power_mode (k - 4)) /\
  (forall k, 0 <= k < 4 \/ 8 <= k < 16 ->
     Z.testbit word k = Z.testbit cached k || Z.testbit cmd k).
Proof.
  intros Hpm. cbv zeta.
  assert (Hbit : forall k, 0 <= k < 16 ->
            Z.testbit (iqs323_mode_word p intf_mode power_mode cmd) k =
            if (4 <=? k) && (k <=? 6) then
              if power_mode =? Iqs323.IQS323_POWER_MODE_USER
              then Z.testbit (word_at (Iqs323.sys_setup p) 0) k || Z.testbit cmd k
              else Z.testbit power_mode (k - 4)
            else if k =? 7
                 then if decide (intf_mode = Iqs323.IQS323_INTF_MODE_EVENT)
                      then true else false
                 else Z.testbit (word_at (Iqs323.sys_setup p) 0) k || Z.testbit cmd k).
  { intros k Hk. unfold iqs323_mode_word. cbv zeta.
    unfold Iqs323.IQS323_SYS_SETUP_EVENT_MODE, Iqs323.IQS323_SYS_SETUP_POWER_MODE_MASK,
      Iqs323.IQS323_SYS_SETUP_POWER_MODE_SHIFT, Iqs323.IQS323_POWER_MODE_USER.
    assert (Hhigh : forall j, 3 <= j -> Z.testbit power_mode j = false).
    { intros j Hj. destruct (Z.eq_dec power_mode 0) as [->|Hnz]; [apply Z.bits_0|].
      apply Z.bits_above_log2; [lia|].
      assert (Z.log2 power_mode < 3); [|lia]. apply Z.log2_lt_pow2; lia. }
    destruct (Z.eqb_spec power_mode 6) as [H6|H6]; cbn [negb];
      destruct (decide (intf_mode = Iqs323.IQS323_INTF_MODE_EVENT));
      repeat first [ rewrite testbit_u16_or by lia
                   | rewrite testbit_u16_clear by lia
                   | rewrite testbit_u16 by lia
                   | rewrite testbit_BIT by lia
                   | rewrite testbit_GENMASK by lia
                   | rewrite Z.shiftl_spec by lia
                   | rewrite Z.lor_spec ];
      destruct (Z.ltb_spec k 16); try lia; cbn [andb];
      destruct (Z.leb_spec 4 k), (Z.leb_spec k 6), (Z.eqb_spec k 7);
      try lia; cbn [andb negb orb];
      rewrite ?orb_false_r, ?orb_true_r, ?andb_true_r, ?andb_false_r, ?orb_false_l;
      try reflexivity;
      try (rewrite Hhigh by lia; rewrite ?orb_false_r; reflexivity);
      try (rewrite (Z.testbit_neg_r power_mode) by lia; rewrite ?orb_false_r;
           reflexivity). }
  split; [|split; [|split]].
  - unfold iqs323_mode_word. cbv zeta.
    destruct (negb _); destruct (decide _); unfold u16_or, u16_clear; apply u16_range.
  - rewrite Hbit by lia.
    change ((4 <=? 7) && (7 <=? 6)) with false. change (7 =? 7) with true. cbv iota.
    destruct (decide (intf_mode = Iqs323.IQS323_INTF_MODE_EVENT));
      split; (congruence || auto).
  - intros k Hk. rewrite Hbit by lia.
    destruct (Z.leb_spec 4 k), (Z.leb_spec k 6); try lia. reflexivity.
  - intros k Hk. rewrite Hbit by lia.
    destruct (Z.leb_spec 4 k), (Z.leb_spec k 6), (Z.eqb_spec k 7); try lia;
      reflexivity.
Qed.

(** X15. [iqs323_write_mode] with a power mode of the enumeration always
    returns, with 0 or a negative error, after a burst write of one
    word to the system setup register, and then records the interface
    mode: the one asked for when the write succeeded, the error mode
    otherwise.  A write that finds no memory for its message returns
    -ENOMEM with nothing sent and no delay; otherwise only messages and
    delays reach the bus, the settle delay of 2.5 ms last.  Nothing
    else of the driver data changes; the cached setup word in
    particular never takes the command.  In the word written, bit 7 is
    set exactly for the event mode, bits 6 to 4 hold the power mode
    unless that is USER, and every other bit, like bits 6 to 4 for
    USER, is the cached bit or the command's. *)
Theorem iqs323_write_mode_spec intf_mode power_mode cmd p :
  0 <= power_mode <= 6 ->
  let cached := word_at (Iqs323.sys_setup p) 0 in
  let word := iqs323_mode_word p intf_mode power_mode cmd in
  (exists error w',
     Iqs323.iqs323_write_mode intf_mode power_mode cmd p
     = Ok (error,
           Iqs323.set_intf_mode
             (if error =? 0 then intf_mode else Iqs323.IQS323_INTF_MODE_ERROR)
             (Iqs323.set_io w' p)) /\
     burst_written 2500
       (EvSend [Iqs323.IQS323_SYS_SETUP; word mod 256; word / 256])
       (Iqs323.io p) error w') /\
  0 <= word < 65536 /\
  (Z.testbit word 7 = true <-> intf_mode = Iqs323.IQS323_INTF_MODE_EVENT) /\
  (forall k, 4 <= k <= 6 ->
     Z.testbit word k =
       if power_mode =? Iqs323.IQS323_POWER_MODE_USER
       then Z.testbit cached k || Z.testbit cmd k
       else Z.testbit power_mode (k - 4)) /\
  (forall k, 0 <= k < 4 \/ 8 <= k < 16 ->
     Z.testbit word k = Z.testbit cached k || Z.testbit cmd k).
Proof.
  intros Hpm. cbv zeta.
  destruct (iqs323_mode_word_bits p intf_mode power_mode cmd Hpm)
    as (Hrange & H7 & Hpow & Hrest).
  split; [|split; [exact Hrange|split; [exact H7|split; [exact Hpow|exact Hrest]]]].
  unfold Iqs323.iqs323_write_mode. unfold bind at 1, get at 1.
  fold (iqs323_mode_word p intf_mode power_mode cmd).
  set (word := iqs323_mode_word p intf_mode power_mode cmd) in *.
  destruct (burst_write_spec_written _ _ _ _ _
              (iqs323_write_word_any Iqs323.IQS323_SYS_SETUP word (Iqs323.io p)))
    as (ret & w1 & Hrun & Hwritten).
  unfold bind at 1. rewrite (iqs323_with_io_ok _ _ _ _ Hrun).
  exists ret, w1.
  split.
  { unfold truthy. destruct (Z.eqb_spec ret 0) as [->|Hne]; cbn [negb]; reflexivity. }
  unfold le16_bytes in Hwritten. rewrite (u16_small word) in Hwritten by exact Hrange.
  exact Hwritten.
Qed.

Lemma iqs323_write_mode_spec_witness :
  exists error p',
    Iqs323.iqs323_write_mode Iqs323.IQS323_INTF_MODE_EVENT
      Iqs323.IQS323_POWER_MODE_HALT 0 iqs323_on_good_bus = Ok (error, p') /\
    Z.testbit (iqs323_mode_word iqs323_on_good_bus Iqs323.IQS323_INTF_MODE_EVENT
                 Iqs323.IQS323_POWER_MODE_HALT 0) 5 = true.
Proof.
  destruct (iqs323_write_mode_spec Iqs323.IQS323_INTF_MODE_EVENT
              Iqs323.IQS323_POWER_MODE_HALT 0 iqs323_on_good_bus)
    as ((error & w' & Hrun & _) & _ & _ & Hpow & _);
    [unfold Iqs323.IQS323_POWER_MODE_HALT; lia|].
  eexists error, _. split; [exact Hrun|].
  rewrite (Hpow 5) by lia. reflexivity.
Defined.

(** ** The interrupt around a status read *)

Lemma emits_in_pure {S A} (io_of : S -> world) f (a : A) : emits_in io_of f (pure a).
Proof.
  intros s a' s' H. inversion H; subst. exists [].
  split; [symmetry; apply app_nil_r|constructor].
Qed.

Lemma emits_in_get {S} (io_of : S -> world) f : emits_in io_of f get.
Proof.
  intros s a' s' H. inversion H; subst. exists [].
  split; [symmetry; apply app_nil_r|constructor].
Qed.

Lemma emits_in_fault {S A} (io_of : S -> world) f : emits_in io_of f (@fault S A).
Proof. intros s a s' H. discriminate. Qed.

Lemma emits_in_bind {S A C} (io_of : S -> world) f (m : M S A) (k : A -> M S C) :
  emits_in io_of f m -> (forall a, emits_in io_of f (k a)) ->
  emits_in io_of f (bind m k).
Proof.
  intros Hm Hk s b s'' H.
  destruct (bind_inv _ _ _ _ _ H) as (a & s' & H1 & H2).
  destruct (Hm _ _ _ H1) as (e1 & Ht1 & Hf1).
  destruct (Hk a _ _ _ H2) as (e2 & Ht2 & Hf2).
  exists (e1 ++ e2). split; [rewrite Ht2, Ht1, app_assoc; reflexivity|].
  apply Forall_app; split; assumption.
Qed.

Lemma emits_in_if {S A} (io_of : S -> world) f (c : bool) (m1 m2 : M S A) :
  emits_in io_of f m1 -> emits_in io_of f m2 ->
  emits_in io_of f (if c then m1 else m2).
Proof. destruct c; auto. Qed.

Lemma emits_in_keeps {S A} (io_of : S -> world) f (m : M S A) :
  keeps io_of m -> emits_in io_of f m.
Proof.
  intros Hk s a s' H. exists []. rewrite (Hk _ _ _ H).
  split; [symmetry; apply app_nil_r|constructor].
Qed.

Lemma emits_in_modify {S} (io_of : S -> world) f (g : S -> S) :
  (forall s, io_of (g s) = io_of s) -> emits_in io_of f (modify g).
Proof. intros Hg. apply emits_in_keeps. apply keeps_modify. exact Hg. Qed.

Lemma emits_in_weaken {S A} (io_of : S -> world) (f g : bus_event -> bool)
      (m : M S A) :
  (forall e, f e = true -> g e = true) -> emits_in io_of f m -> emits_in io_of g m.
Proof.
  intros Hfg Hm s a s' H. destruct (Hm _ _ _ H) as (evs & Ht & Hf).
  exists evs. split; [exact Ht|]. eapply List.Forall_impl; [|exact Hf]. exact Hfg.
Qed.

Lemma iqs7219_emits_lifted {A} f (m : M world A) :
  emits f m -> emits_in Iqs7219.io f (Iqs7219.with_io m).
Proof.
  intros Hm p a p' H. unfold Iqs7219.with_io in H.
  destruct (m (Iqs7219.io p)) as [[a' w]| |] eqn:Hrun; try discriminate.
  inversion H; subst. exact (Hm _ _ _ Hrun).
Qed.

Lemma is_bus_not_irq e : is_bus e = true -> not_irq e = true.
Proof. destruct e; cbn; congruence. Qed.

Section BurstWriteEmits.
Variable force_comms : M world Z.
Variable us : Z.
Hypothesis force_comms_emits : emits is_wire force_comms.

Lemma write_burst_body_emits msg : emits is_bus (write_burst_body force_comms msg).
Proof using force_comms_emits.
  unfold write_burst_body.
  apply emits_bind;
    [apply (emits_weaken is_wire); [exact is_wire_is_bus|exact force_comms_emits]
    |intros ret].
  apply emits_if; [apply emits_pure|].
  apply emits_bind; [apply emits_send; reflexivity|intros r].
  apply emits_if; [|apply emits_pure].
  apply emits_bind; [apply emits_sleep; reflexivity|intros _]. apply emits_pure.
Qed.

Lemma write_burst_loop_emits msg n : forall ret,
  emits is_bus (write_burst_loop force_comms n msg ret).
Proof using force_comms_emits.
  induction n as [|n IH]; intros ret; cbn [write_burst_loop]; [apply emits_pure|].
  apply emits_bind; [apply write_burst_body_emits|intros [c r]]. cbn [fst snd].
  destruct c; [apply IH|apply emits_pure].
Qed.

Lemma write_burst_emits reg val :
  emits is_bus (write_burst force_comms (sleep_us us) reg val).
Proof using force_comms_emits.
  unfold write_burst.
  apply emits_bind; [apply emits_kzalloc|intros msg_buf].
  apply emits_if; [apply emits_pure|]. cbv zeta.
  apply emits_bind; [apply write_burst_loop_emits|intros ret].
  apply emits_bind; [apply emits_sleep; reflexivity|intros _]. apply emits_pure.
Qed.

Lemma read_burst_emits reg val :
  emits is_bus (read_burst force_comms (sleep_us us) reg val).
Proof using force_comms_emits.
  unfold read_burst.
  apply emits_bind;
    [apply read_burst_loop_emits; exact force_comms_emits|intros [[i r] b]].
  apply emits_bind; [apply emits_sleep; reflexivity|intros _]. apply emits_pure.
Qed.
End BurstWriteEmits.

Lemma iqs7219_read_word_emits reg val :
  emits is_bus (Iqs7219.iqs7219_read_word reg val).
Proof. apply (read_word_emits _ 50 _ iqs7219_force_comms_emits). Qed.

Lemma iqs7219_write_word_emits reg val :
  emits is_bus (Iqs7219.iqs7219_write_word reg val).
Proof. apply (write_burst_emits _ 50 iqs7219_force_comms_emits). Qed.

Lemma iqs7219_ati_wait_emits fuel : forall intf_mode ati_timeout sys_setup sys_status,
  emits is_bus (Iqs7219.ati_wait fuel intf_mode ati_timeout sys_setup sys_status).
Proof.
  induction fuel as [|fuel IH]; intros intf_mode ati_timeout sys_setup sys_status.
  - intros w a w' H. discriminate.
  - cbn [Iqs7219.ati_wait]. cbv zeta.
    assert (Hagain : forall s,
              emits is_bus
                (t <- ktime_get ;;
                 if t <? ati_timeout
                 then Iqs7219.ati_wait fuel intf_mode ati_timeout sys_setup s
                 else pure (Iqs7219.AtiFailed s))).
    { intros s. apply emits_bind; [apply emits_ktime|intros t].
      apply emits_if; [apply IH|apply emits_pure]. }
    apply emits_bind; [apply iqs7219_irq_poll_emits; reflexivity|intros error].
    apply emits_if; [apply Hagain|].
    apply emits_bind; [apply iqs7219_read_word_emits|intros r].
    apply emits_if; [apply emits_pure|].
    apply emits_if; [apply Hagain|].
    apply emits_if; [apply emits_pure|].
    apply emits_bind; [apply iqs7219_write_word_emits|intros e]. apply emits_pure.
Qed.

Lemma iqs7219_ati_attempts_emits n : forall intf_mode sys_setup sys_status,
  emits is_bus (Iqs7219.ati_attempts n intf_mode sys_setup sys_status).
Proof.
  induction n as [|n IH]; intros intf_mode sys_setup sys_status;
    cbn [Iqs7219.ati_attempts]; [apply emits_pure|].
  apply emits_bind; [apply iqs7219_write_word_emits|intros error].
  apply emits_if; [apply emits_pure|].
  apply emits_bind; [apply emits_ktime|intros t]. cbv zeta.
  apply emits_bind; [apply iqs7219_ati_wait_emits|intros x].
  destruct x; [apply emits_pure|apply IH].
Qed.

Lemma iqs7219_ati_trigger_emits intf_mode :
  emits is_bus (Iqs7219.iqs7219_ati_trigger intf_mode).
Proof.
  unfold Iqs7219.iqs7219_ati_trigger.
  apply emits_bind; [apply iqs7219_read_word_emits|intros r].
  apply emits_if; [apply emits_pure|]. cbv zeta. apply iqs7219_ati_attempts_emits.
Qed.

Lemma iqs7219_write_comms_emits event_mask :
  emits_in Iqs7219.io is_bus (Iqs7219.iqs7219_write_comms event_mask).
Proof.
  unfold Iqs7219.iqs7219_write_comms.
  apply emits_in_bind; [apply emits_in_get|intros p].
  apply emits_in_if; [apply emits_in_pure|].
  apply emits_in_bind;
    [apply iqs7219_emits_lifted; apply iqs7219_read_word_emits|intros r].
  apply emits_in_if; [apply emits_in_pure|]. cbv zeta.
  apply iqs7219_emits_lifted. apply iqs7219_write_word_emits.
Qed.

Lemma iqs7219_dev_init_grps_emits dir grps :
  emits_in Iqs7219.io is_bus (Iqs7219.dev_init_grps grps dir).
Proof.
  induction grps as [|i rest IH]; cbn [Iqs7219.dev_init_grps];
    [apply emits_in_pure|].
  destruct (Iqs7219.iqs7219_reg_grps !! i); [|exact IH].
  destruct (Iqs7219.iqs7219_setup i 0) as [[b off]|]; [|exact IH].
  cbv zeta.
  apply emits_in_bind;
    [apply iqs7219_emits_lifted; apply emits_kzalloc|intros val_buf].
  apply emits_in_if; [apply emits_in_pure|].
  apply emits_in_bind; [apply emits_in_get|intros p].
  apply emits_in_bind;
    [|intros e; apply emits_in_if; [apply emits_in_pure|exact IH]].
  apply emits_in_if.
  - apply emits_in_bind;
      [apply iqs7219_emits_lifted;
       apply (read_burst_emits _ 50 iqs7219_force_comms_emits)|intros r].
    apply emits_in_bind; [|intros; apply emits_in_pure].
    apply emits_in_modify. intros q. destruct b; reflexivity.
  - apply emits_in_if; [|apply emits_in_pure].
    apply iqs7219_emits_lifted.
    apply (write_burst_emits _ 50 iqs7219_force_comms_emits).
Qed.

Lemma iqs7219_dev_init_emits dir :
  emits_in Iqs7219.io is_bus (Iqs7219.iqs7219_dev_init dir).
Proof.
  unfold Iqs7219.iqs7219_dev_init.
  apply emits_in_bind; [apply emits_in_get|intros p].
  apply emits_in_bind.
  { apply emits_in_if; [|apply emits_in_pure].
    apply iqs7219_emits_lifted. apply iqs7219_write_word_emits. }
  intros e1. apply emits_in_if; [apply emits_in_pure|].
  apply emits_in_bind; [apply iqs7219_write_comms_emits|intros e2].
  apply emits_in_if; [apply emits_in_pure|].
  apply emits_in_bind; [apply iqs7219_dev_init_grps_emits|intros e3].
  apply emits_in_if; [apply emits_in_pure|].
  apply emits_in_bind; [apply emits_in_get|intros p']. cbv zeta.
  apply emits_in_bind; [apply iqs7219_write_comms_emits|intros e4].
  apply emits_in_if; [apply emits_in_pure|].
  apply emits_in_if; [apply emits_in_pure|].
  apply iqs7219_emits_lifted. apply iqs7219_ati_trigger_emits.
Qed.

Lemma iqs7219_report_chans_emits chans : forall val_buf pxs_flags scan_id chan_index
                                                val trig_pending,
  emits_in Iqs7219.io is_bus
    (Iqs7219.report_chans chans val_buf pxs_flags scan_id chan_index val trig_pending).
Proof.
  induction chans as [|i rest IH]; intros; cbn [Iqs7219.report_chans];
    [apply emits_in_pure|].
  assert (Hscan : forall scan index,
            emits_in Iqs7219.io is_bus
              (@Iqs7219.scan_at Iqs7219.iqs7219_private scan index)).
  { intros scan index. unfold Iqs7219.scan_at.
    apply emits_in_if; [apply emits_in_pure|apply emits_in_fault]. }
  cbv zeta.
  apply emits_in_bind; [apply emits_in_get|intros p].
  apply emits_in_bind; [apply Hscan|intros x].
  apply emits_in_bind; [apply emits_in_modify; reflexivity|intros _].
  apply emits_in_bind.
  { apply emits_in_if; [|apply emits_in_pure].
    destruct val; [|apply emits_in_fault].
    apply emits_in_bind; [apply Hscan|intros y]. apply emits_in_pure. }
  intros v.
  apply emits_in_bind; [apply emits_in_get|intros p2].
  apply emits_in_bind; [apply emits_in_modify; reflexivity|intros _].
  apply IH.
Qed.

Lemma iqs7219_report_sync_emits scan_id chan_index val :
  emits_in Iqs7219.io is_bus (Iqs7219.iqs7219_report_sync scan_id chan_index val).
Proof.
  unfold Iqs7219.iqs7219_report_sync.
  apply emits_in_bind; [apply emits_in_get|intros p]. cbv zeta.
  apply emits_in_bind;
    [apply iqs7219_emits_lifted;
     apply (read_burst_emits _ 50 iqs7219_force_comms_emits)|intros r].
  apply emits_in_if; [apply emits_in_pure|].
  apply emits_in_if.
  { apply emits_in_bind; [apply iqs7219_dev_init_emits|intros e].
    apply emits_in_pure. }
  apply emits_in_if.
  { apply emits_in_bind;
      [apply iqs7219_emits_lifted; apply iqs7219_ati_trigger_emits|intros e].
    apply emits_in_pure. }
  apply emits_in_if; [apply emits_in_pure|].
  apply emits_in_bind; [apply iqs7219_report_chans_emits|intros rc].
  apply emits_in_bind; [apply emits_in_modify; reflexivity|intros _].
  apply emits_in_bind;
    [apply emits_in_if; [apply emits_in_modify; reflexivity|apply emits_in_pure]
    |intros _].
  apply emits_in_pure.
Qed.

(** X16. Whenever [iqs7219_report_async] returns, it has disabled the
    interrupt first and enabled it last, on every path through
    [iqs7219_report_sync], the recoveries included; in between the
    interrupt is not switched and no GPIO is written: there are only
    messages, reads and delays; and the result is that of
    [iqs7219_report_sync]. *)
Theorem iqs7219_report_async_brackets scan_id chan_index val p r p' :
  Iqs7219.iqs7219_report_async scan_id chan_index val p = Ok (r, p') ->
  exists p2 evs,
    Iqs7219.iqs7219_report_sync scan_id chan_index val (irq_off p) = Ok (r, p2) /\
    p' = irq_on p2 /\
    irq_bracket (Iqs7219.io p) (Iqs7219.io p') evs /\
    Forall (fun e => is_bus e = true) evs.
Proof.
  intros H. destruct (iqs7219_report_async_inv _ _ _ _ _ _ H) as (p2 & Hrun & ->).
  destruct (iqs7219_report_sync_emits _ _ _ _ _ _ Hrun) as (evs & Htr & Hbus).
  exists p2, evs. split; [exact Hrun|]. split; [reflexivity|]. split; [|exact Hbus].
  unfold irq_bracket, irq_on. cbn [Iqs7219.io Iqs7219.set_io trace log].
  rewrite Htr. unfold irq_off. cbn [Iqs7219.io Iqs7219.set_io trace log].
  rewrite <- !app_assoc. reflexivity.
Qed.

Lemma iqs7219_report_async_brackets_witness :
  let p := iqs7219_example (stub [] 1 [] 1 [] 2 [[0; 0; 100; 150]] [] 1) 0
             [true; true] in
  exists p' evs,
    irq_bracket (Iqs7219.io p) (Iqs7219.io p') evs /\
    Forall (fun e => is_bus e = true) evs.
Proof.
  cbv zeta.
  set (p := iqs7219_example _ 0 [true; true]).
  destruct (Iqs7219.iqs7219_report_async 0 0 (Some 7) p) as [[r p']| |] eqn:Hrun;
    [|vm_compute in Hrun; discriminate..].
  destruct (iqs7219_report_async_brackets _ _ _ _ _ _ Hrun)
    as (p2 & evs & _ & _ & Hbr & Hbus).
  exists p', evs. split; [exact Hbr|exact Hbus].
Defined.

(** ** The interrupt of the IQS323 *)

Section RunsEmitting.
Context {S : Type} (io_of : S -> world) (f : bus_event -> bool).

Lemma runs_emitting_pure {A} (a : A) : runs_emitting io_of f (pure a).
Proof.
  intros s. exists a, s, []. split; [reflexivity|].
  split; [symmetry; apply app_nil_r|constructor].
Qed.

Lemma runs_emitting_get : runs_emitting io_of f get.
Proof.
  intros s. exists s, s, []. split; [reflexivity|].
  split; [symmetry; apply app_nil_r|constructor].
Qed.

Lemma runs_emitting_modify (g : S -> S) :
  (forall s, io_of (g s) = io_of s) -> runs_emitting io_of f (modify g).
Proof.
  intros Hg s. exists tt, (g s), []. split; [reflexivity|].
  rewrite Hg. split; [symmetry; apply app_nil_r|constructor].
Qed.

Lemma runs_emitting_bind {A C} (m : M S A) (k : A -> M S C) :
  runs_emitting io_of f m -> (forall a, runs_emitting io_of f (k a)) ->
  runs_emitting io_of f (bind m k).
Proof.
  intros Hm Hk s. destruct (Hm s) as (a & s1 & e1 & H1 & Ht1 & Hf1).
  destruct (Hk a s1) as (c & s2 & e2 & H2 & Ht2 & Hf2).
  exists c, s2, (e1 ++ e2). split; [rewrite (bind_ok _ _ _ _ _ H1); exact H2|].
  split; [rewrite Ht2, Ht1, app_assoc; reflexivity|].
  apply Forall_app; split; assumption.
Qed.

Lemma runs_emitting_if {A} (c : bool) (m1 m2 : M S A) :
  runs_emitting io_of f m1 -> runs_emitting io_of f m2 ->
  runs_emitting io_of f (if c then m1 else m2).
Proof. destruct c; trivial. Qed.
End RunsEmitting.

Section RunsEmittingWorld.
Variable f : bus_event -> bool.

Lemma runs_emitting_step {A} (m : M world A) (a : world -> A)
      (next : world -> world) (evs : list bus_event) :
  (forall w, m w = Ok (a w, next w)) ->
  (forall w, trace (next w) = trace w ++ evs) ->
  Forall (fun e => f e = true) evs ->
  runs_emitting the_world f m.
Proof.
  intros Hm Ht Hf w. exists (a w), (next w), evs.
  split; [apply Hm|]. split; [apply Ht|exact Hf].
Qed.

Lemma runs_emitting_kzalloc : runs_emitting the_world f kzalloc.
Proof.
  apply (runs_emitting_step _ (fun w => mem w (mem_n w)) allocated []);
    [reflexivity|intros; symmetry; apply app_nil_r|constructor].
Qed.

Lemma runs_emitting_sample : runs_emitting the_world f gpiod_get_value_cansleep.
Proof.
  apply (runs_emitting_step _ (fun w => rdy w (rdy_n w)) sampled []);
    [reflexivity|intros; symmetry; apply app_nil_r|constructor].
Qed.

Lemma runs_emitting_poll timeout_us :
  runs_emitting the_world f (readx_poll_timeout timeout_us).
Proof.
  apply (runs_emitting_step _
           (fun w => (poll_val w (poll_n w),
                      if truthy (poll_val w (poll_n w)) then 0 else - ETIMEDOUT))
           polled []);
    [reflexivity|intros; symmetry; apply app_nil_r|constructor].
Qed.

Lemma runs_emitting_send msg :
  f (EvSend msg) = true -> runs_emitting the_world f (i2c_master_send msg).
Proof.
  intros Hf.
  apply (runs_emitting_step _
           (fun w => let r := send_ret w (send_n w) in
                     if r =? 1 then Z.of_nat (length msg) else r)
           (sent msg) [EvSend msg]);
    [reflexivity|reflexivity|repeat constructor; exact Hf].
Qed.

Lemma runs_emitting_sleep us :
  f (EvSleep us) = true -> runs_emitting the_world f (sleep_us us).
Proof.
  intros Hf.
  apply (runs_emitting_step _ (fun _ => tt) (slept us) [EvSleep us]);
    [reflexivity|reflexivity|repeat constructor; exact Hf].
Qed.

Lemma runs_emitting_xfer reg buf :
  f (EvXfer reg (length buf)) = true ->
  runs_emitting the_world f (i2c_transfer reg buf).
Proof.
  intros Hf w. do 3 eexists. split; [reflexivity|].
  split; [reflexivity|repeat constructor; exact Hf].
Qed.

Lemma runs_emitting_log e :
  f e = true -> runs_emitting the_world f (modify (log e)).
Proof.
  intros Hf.
  apply (runs_emitting_step _ (fun _ => tt) (log e) [e]);
    [reflexivity|reflexivity|repeat constructor; exact Hf].
Qed.

Hypothesis f_send : forall msg, f (EvSend msg) = true.
Hypothesis f_sleep : forall us, f (EvSleep us) = true.
Hypothesis f_xfer : forall reg n, f (EvXfer reg n) = true.
Hypothesis f_gpio : forall line v, f (EvGpioSet line v) = true.

Lemma iqs323_irq_poll_runs timeout_us :
  runs_emitting the_world f (Iqs323.iqs323_irq_poll timeout_us).
Proof.
  unfold Iqs323.iqs323_irq_poll.
  apply runs_emitting_bind; [apply runs_emitting_poll|intros r].
  apply runs_emitting_pure.
Qed.

Lemma iqs323_force_comms_runs : runs_emitting the_world f Iqs323.iqs323_force_comms.
Proof using f_send f_sleep.
  unfold Iqs323.iqs323_force_comms. cbv zeta.
  apply runs_emitting_bind; [apply runs_emitting_sample|intros ret].
  apply runs_emitting_if; [apply runs_emitting_pure|].
  apply runs_emitting_if; [apply runs_emitting_pure|].
  apply runs_emitting_bind; [apply runs_emitting_send; apply f_send|intros r].
  apply runs_emitting_if.
  - apply runs_emitting_bind; [apply runs_emitting_sleep; apply f_sleep|intros _].
    apply runs_emitting_pure.
  - apply runs_emitting_bind; [apply runs_emitting_sleep; apply f_sleep|intros _].
    apply iqs323_irq_poll_runs.
Qed.

Lemma iqs323_hard_reset_runs : runs_emitting the_world f Iqs323.iqs323_hard_reset.
Proof using f_sleep f_gpio.
  unfold Iqs323.iqs323_hard_reset.
  apply runs_emitting_bind; [apply runs_emitting_log; apply f_gpio|intros _].
  apply runs_emitting_bind; [apply runs_emitting_sleep; apply f_sleep|intros _].
  apply runs_emitting_bind; [apply runs_emitting_log; apply f_gpio|intros _].
  apply runs_emitting_bind; [apply runs_emitting_sleep; apply f_sleep|intros _].
  apply iqs323_irq_poll_runs.
Qed.

Lemma iqs323_read_burst_loop_runs reg n : forall i ret buf,
  runs_emitting the_world f
    (read_burst_loop Iqs323.iqs323_force_comms n reg i ret buf).
Proof using f_send f_sleep f_xfer.
  induction n as [|n IH]; intros i ret buf; cbn [read_burst_loop];
    [apply runs_emitting_pure|].
  apply runs_emitting_bind.
  - unfold read_burst_body.
    apply runs_emitting_bind; [apply iqs323_force_comms_runs|intros r].
    apply runs_emitting_if; [apply runs_emitting_pure|].
    apply runs_emitting_bind; [apply runs_emitting_xfer; apply f_xfer|intros rb].
    cbv zeta. apply runs_emitting_if.
    + apply runs_emitting_bind; [apply runs_emitting_sleep; apply f_sleep|intros _].
      apply runs_emitting_pure.
    + apply runs_emitting_if; apply runs_emitting_pure.
  - intros [[c r] b]. destruct c; [apply IH|apply runs_emitting_pure].
Qed.

Lemma iqs323_read_burst_runs reg val :
  runs_emitting the_world f (Iqs323.iqs323_read_burst reg val).
Proof using f_send f_sleep f_xfer.
  unfold Iqs323.iqs323_read_burst, read_burst.
  apply runs_emitting_bind; [apply iqs323_read_burst_loop_runs|intros [[i r] b]].
  apply runs_emitting_bind; [apply runs_emitting_sleep; apply f_sleep|intros _].
  apply runs_emitting_pure.
Qed.

Lemma iqs323_read_word_runs reg val :
  runs_emitting the_world f (Iqs323.iqs323_read_word reg val).
Proof using f_send f_sleep f_xfer.
  unfold Iqs323.iqs323_read_word, read_word.
  apply runs_emitting_bind; [apply iqs323_read_burst_runs|intros r].
  apply runs_emitting_if; apply runs_emitting_pure.
Qed.

Lemma iqs323_write_burst_loop_runs msg n : forall ret,
  runs_emitting the_world f (write_burst_loop Iqs323.iqs323_force_comms n msg ret).
Proof using f_send f_sleep.
  induction n as [|n IH]; intros ret; cbn [write_burst_loop];
    [apply runs_emitting_pure|].
  apply runs_emitting_bind.
  - unfold write_burst_body.
    apply runs_emitting_bind; [apply iqs323_force_comms_runs|intros r].
    apply runs_emitting_if; [apply runs_emitting_pure|].
    apply runs_emitting_bind; [apply runs_emitting_send; apply f_send|intros r2].
    apply runs_emitting_if; [|apply runs_emitting_pure].
    apply runs_emitting_bind; [apply runs_emitting_sleep; apply f_sleep|intros _].
    apply runs_emitting_pure.
  - intros [c r]. cbn [fst snd]. destruct c; [apply IH|apply runs_emitting_pure].
Qed.

Lemma iqs323_write_burst_runs_any reg val :
  runs_emitting the_world f (Iqs323.iqs323_write_burst reg val).
Proof using f_send f_sleep.
  unfold Iqs323.iqs323_write_burst, write_burst.
  apply runs_emitting_bind; [apply runs_emitting_kzalloc|intros msg_buf].
  apply runs_emitting_if; [apply runs_emitting_pure|]. cbv zeta.
  apply runs_emitting_bind; [apply iqs323_write_burst_loop_runs|intros ret].
  apply runs_emitting_bind; [apply runs_emitting_sleep; apply f_sleep|intros _].
  apply runs_emitting_pure.
Qed.

Lemma iqs323_runs_lifted {A} (m : M world A) :
  runs_emitting the_world f m -> runs_emitting Iqs323.io f (Iqs323.with_io m).
Proof.
  intros Hm p. destruct (Hm (Iqs323.io p)) as (a & w & evs & H & Ht & Hf).
  exists a, (Iqs323.set_io w p), evs. unfold Iqs323.with_io. rewrite H.
  split; [reflexivity|]. split; [exact Ht|exact Hf].
Qed.

Lemma iqs323_write_mode_runs intf_mode power_mode cmd :
  runs_emitting Iqs323.io f (Iqs323.iqs323_write_mode intf_mode power_mode cmd).
Proof using f_send f_sleep.
  unfold Iqs323.iqs323_write_mode.
  apply runs_emitting_bind; [apply runs_emitting_get|intros p]. cbv zeta.
  apply runs_emitting_bind;
    [apply iqs323_runs_lifted; apply iqs323_write_burst_runs_any|intros e].
  apply runs_emitting_bind; [|intros _; apply runs_emitting_pure].
  apply runs_emitting_if; apply runs_emitting_modify; reflexivity.
Qed.

Lemma iqs323_ati_attempts_runs n : forall error sys_status,
  runs_emitting Iqs323.io f (Iqs323.ati_attempts n error sys_status).
Proof using f_send f_sleep f_xfer.
  induction n as [|n IH]; intros error sys_status; cbn [Iqs323.ati_attempts];
    [apply runs_emitting_pure|].
  apply runs_emitting_bind; [apply iqs323_write_mode_runs|intros e1].
  apply runs_emitting_if; [apply runs_emitting_pure|].
  apply runs_emitting_bind;
    [apply iqs323_runs_lifted; apply iqs323_irq_poll_runs|intros e2].
  apply runs_emitting_if; [apply IH|].
  apply runs_emitting_bind;
    [apply iqs323_runs_lifted; apply iqs323_read_word_runs|intros r]. cbv zeta.
  apply runs_emitting_if; [apply runs_emitting_pure|].
  apply runs_emitting_if; [apply runs_emitting_pure|].
  apply runs_emitting_if; [apply IH|].
  apply runs_emitting_if; [apply IH|apply runs_emitting_pure].
Qed.

Lemma iqs323_dev_init_rows_runs rows : forall dir b stride num_col reg off val_buf error,
  runs_emitting Iqs323.io f
    (Iqs323.dev_init_rows rows dir b stride num_col reg off val_buf error).
Proof using f_send f_sleep f_xfer.
  induction rows as [|rows IH]; intros; cbn [Iqs323.dev_init_rows];
    [apply runs_emitting_pure|].
  apply runs_emitting_bind; [apply runs_emitting_get|intros p].
  apply runs_emitting_bind.
  - apply runs_emitting_if.
    + apply runs_emitting_bind;
        [apply iqs323_runs_lifted; apply iqs323_read_burst_runs|intros r].
      apply runs_emitting_bind; [|intros _; apply runs_emitting_pure].
      apply runs_emitting_modify. intros q. destruct b; reflexivity.
    + apply runs_emitting_if; [|apply runs_emitting_pure]. cbv zeta.
      apply runs_emitting_bind;
        [apply iqs323_runs_lifted; apply iqs323_write_burst_runs_any|intros e].
      apply runs_emitting_pure.
  - intros r. cbv zeta. apply runs_emitting_if; [apply runs_emitting_pure|apply IH].
Qed.

Lemma iqs323_dev_init_grps_runs dir grps :
  runs_emitting Iqs323.io f (Iqs323.dev_init_grps grps dir).
Proof using f_send f_sleep f_xfer.
  induction grps as [|i rest IH]; cbn [Iqs323.dev_init_grps];
    [apply runs_emitting_pure|].
  apply runs_emitting_bind; [apply runs_emitting_get|intros p]. cbv zeta.
  apply runs_emitting_if; [exact IH|].
  destruct (Iqs323.iqs323_setup i 0) as [[b off]|]; [|exact IH].
  apply runs_emitting_bind;
    [apply iqs323_runs_lifted; apply runs_emitting_kzalloc|intros val_buf].
  apply runs_emitting_if; [apply runs_emitting_pure|].
  apply runs_emitting_bind; [apply iqs323_dev_init_rows_runs|intros e].
  apply runs_emitting_if; [apply runs_emitting_pure|exact IH].
Qed.

Lemma iqs323_dev_init_runs dir :
  runs_emitting Iqs323.io f (Iqs323.iqs323_dev_init dir).
Proof using f_send f_sleep f_xfer.
  unfold Iqs323.iqs323_dev_init.
  apply runs_emitting_bind.
  { apply runs_emitting_if; [apply iqs323_write_mode_runs|apply runs_emitting_pure]. }
  intros e1. apply runs_emitting_if; [apply runs_emitting_pure|].
  apply runs_emitting_bind; [apply iqs323_dev_init_grps_runs|intros e2].
  apply runs_emitting_if; [apply runs_emitting_pure|].
  apply runs_emitting_if; [apply runs_emitting_pure|].
  apply iqs323_ati_attempts_runs.
Qed.

Lemma iqs323_report_runs evs : runs_emitting Iqs323.io f (Iqs323.report evs).
Proof. apply runs_emitting_modify. reflexivity. Qed.

Lemma iqs323_process_events_runs val_buf :
  runs_emitting Iqs323.io f (Iqs323.iqs323_process_events val_buf).
Proof using f_send f_sleep f_xfer f_gpio.
  unfold Iqs323.iqs323_process_events.
  apply runs_emitting_bind;
    [apply iqs323_runs_lifted; apply iqs323_read_burst_runs|intros r]. cbv zeta.
  apply runs_emitting_if; [apply runs_emitting_pure|].
  apply runs_emitting_if.
  { apply runs_emitting_bind;
      [apply iqs323_runs_lifted; apply iqs323_hard_reset_runs|intros e].
    apply runs_emitting_if; [apply runs_emitting_pure|].
    apply runs_emitting_bind; [apply iqs323_dev_init_runs|intros e2].
    apply runs_emitting_pure. }
  apply runs_emitting_if.
  { apply runs_emitting_bind; [apply iqs323_dev_init_runs|intros e2].
    apply runs_emitting_pure. }
  apply runs_emitting_if.
  { apply runs_emitting_bind; [apply iqs323_ati_attempts_runs|intros e2].
    apply runs_emitting_pure. }
  apply runs_emitting_if; [apply runs_emitting_pure|].
  apply runs_emitting_bind; [apply runs_emitting_get|intros p].
  apply runs_emitting_bind; [apply iqs323_report_runs|intros _].
  apply runs_emitting_bind;
    [apply runs_emitting_if; [apply iqs323_report_runs|apply runs_emitting_pure]
    |intros _].
  apply runs_emitting_bind; [apply iqs323_report_runs|intros _].
  apply runs_emitting_bind;
    [apply runs_emitting_if; [apply iqs323_report_runs|apply runs_emitting_pure]
    |intros _].
  apply runs_emitting_bind; [apply iqs323_report_runs|intros _].
  destruct (decide _); [apply runs_emitting_pure|].
  apply runs_emitting_bind; [apply iqs323_write_mode_runs|intros e].
  apply runs_emitting_pure.
Qed.

Lemma iqs323_runtime_pm_loop_runs n : forall power_mode error val,
  runs_emitting Iqs323.io f (Iqs323.runtime_pm_loop n power_mode error val).
Proof using f_send f_sleep f_xfer f_gpio.
  induction n as [|n IH]; intros power_mode error val; cbn [Iqs323.runtime_pm_loop];
    [apply runs_emitting_pure|].
  apply runs_emitting_bind; [apply runs_emitting_get|intros p].
  apply runs_emitting_bind; [apply iqs323_write_mode_runs|intros e1].
  apply runs_emitting_if; [apply runs_emitting_pure|].
  apply runs_emitting_bind;
    [apply iqs323_runs_lifted; apply runs_emitting_sleep; apply f_sleep|intros _].
  apply runs_emitting_bind;
    [apply iqs323_runs_lifted; apply iqs323_read_word_runs|intros r]. cbv zeta.
  apply runs_emitting_if; [apply runs_emitting_pure|].
  apply runs_emitting_bind;
    [apply iqs323_runs_lifted; apply iqs323_hard_reset_runs|intros e2].
  apply runs_emitting_if; [apply runs_emitting_pure|].
  apply runs_emitting_bind; [apply iqs323_dev_init_runs|intros e3].
  apply runs_emitting_if; [apply runs_emitting_pure|apply IH].
Qed.
End RunsEmittingWorld.


(** X17. The IQS323 never leaves its interrupt disabled.
    [iqs323_report_async] always returns, with the result of
    [iqs323_process_events], having disabled the interrupt first and
    enabled it last; so does [iqs323_runtime_pm], behind suspend and
    resume, for a device that may not wake the system up; on every
    path, the hard reset and the recoveries included, the interrupt is
    not switched in between.  For a device that may wake the system up
    [iqs323_runtime_pm] returns 0 and does nothing at all. *)
Theorem iqs323_interrupt_is_balanced :
  (forall val_buf p,
     exists r p2 evs,
       Iqs323.iqs323_process_events val_buf
         (Iqs323.set_io (log (EvIrq false) (Iqs323.io p)) p) = Ok (r, p2) /\
       Iqs323.iqs323_report_async val_buf p
       = Ok (r, Iqs323.set_io (log (EvIrq true) (Iqs323.io p2)) p2) /\
       irq_bracket (Iqs323.io p) (log (EvIrq true) (Iqs323.io p2)) evs /\
       Forall (fun e => not_irq e = true) evs) /\
  (forall power_mode p,
     Iqs323.may_wakeup p = true ->
     Iqs323.iqs323_runtime_pm power_mode p = Ok (0, p)) /\
  (forall power_mode p,
     Iqs323.may_wakeup p = false ->
     exists r p' evs,
       Iqs323.iqs323_runtime_pm power_mode p = Ok (r, p') /\
       irq_bracket (Iqs323.io p) (Iqs323.io p') evs /\
       Forall (fun e => not_irq e = true) evs).
Proof.
  split; [|split].
  - intros val_buf p.
    set (p1 := Iqs323.set_io (log (EvIrq false) (Iqs323.io p)) p).
    destruct (iqs323_process_events_runs not_irq) with (val_buf := val_buf) (s := p1)
      as (r & p2 & evs & Hrun & Htr & Hf); try reflexivity.
    exists r, p2, evs. split; [exact Hrun|]. split.
    { unfold Iqs323.iqs323_report_async. unfold bind at 1.
      change (Iqs323.with_io disable_irq p) with (@Ok (unit * _) (tt, p1)).
      cbv iota beta. unfold bind at 1. rewrite Hrun. reflexivity. }
    split; [|exact Hf].
    unfold irq_bracket. cbn [trace log]. rewrite Htr. subst p1.
    cbn [Iqs323.io Iqs323.set_io trace log]. rewrite <- !app_assoc. reflexivity.
  - intros power_mode p Hw. unfold Iqs323.iqs323_runtime_pm, bind, get.
    rewrite Hw. reflexivity.
  - intros power_mode p Hw.
    set (p1 := Iqs323.set_io (log (EvIrq false) (Iqs323.io p)) p).
    destruct (iqs323_runtime_pm_loop_runs not_irq) with
      (n := NUM_RETRIES) (power_mode := power_mode) (error := 0) (val := 0) (s := p1)
      as (r & p2 & evs & Hrun & Htr & Hf); try reflexivity.
    exists (if fst r then snd r else - EIO),
           (Iqs323.set_io (log (EvIrq true) (Iqs323.io p2)) p2), evs.
    split.
    { unfold Iqs323.iqs323_runtime_pm. unfold bind at 1, get at 1. rewrite Hw.
      unfold bind at 1.
      change (Iqs323.with_io disable_irq p) with (@Ok (unit * _) (tt, p1)).
      cbv iota beta. unfold bind at 1. rewrite Hrun. reflexivity. }
    split; [|exact Hf].
    unfold irq_bracket. cbn [Iqs323.io Iqs323.set_io trace log]. rewrite Htr.
    subst p1. cbn [Iqs323.io Iqs323.set_io trace log].
    rewrite <- !app_assoc. reflexivity.
Qed.

(** ** When the IQS7219A fires its trigger *)

Lemma existsb_same {A} (f g : A -> bool) l :
  (forall a, f a = g a) -> existsb f l = existsb g l.
Proof.
  intros H. induction l as [|a l IH]; [reflexivity|].
  cbn [existsb]. rewrite H, IH. reflexivity.
Qed.

Section Iqs7219Trigger.
Import Iqs7219.

Lemma changes_frame p q flags i j :
  decode_frame p q -> changes q flags i j = changes p flags i j.
Proof.
  intros (Hf & Hm & _). unfold changes. rewrite Hf, Hm. reflexivity.
Qed.

Lemma trig_valid_of_frame p q flags i :
  decode_frame p q -> trig_valid_of q flags i = trig_valid_of p flags i.
Proof.
  intros F. pose proof F as (_ & _ & _ & Ht & Hi & _).
  unfold trig_valid_of. rewrite Ht, Hi. do 2 f_equal.
  apply existsb_same. intros j. apply changes_frame. exact F.
Qed.

(** What the event loop leaves in [trig_valid[i]]. *)
Lemma report_events_valid js i flags p tv :
  (i < 2)%nat -> Forall (fun j => (j < 3)%nat) js ->
  snd (report_events js i flags p tv)
  = tv || (trig_enable p && existsb (changes p flags i) js).
Proof.
  intros Hi Hjs. revert tv.
  induction Hjs as [|j js Hj _ IH]; intros tv.
  - cbn. rewrite andb_false_r, orb_false_r. reflexivity.
  - cbn [report_events existsb].
    rewrite event_mask_bit by assumption.
    unfold changes at 1.
    assert (Hb : 0 <= event_bit i j) by (unfold event_bit; lia).
    destruct (Z.testbit (word_at (event_mask p) i) (Z.of_nat j)) eqn:Em; cbn [andb].
    + rewrite !land_BIT by exact Hb.
      rewrite lxor_BIT_cases by exact Hb.
      destruct (xorb _ _) eqn:Ex; cbn [negb andb orb].
      * destruct (default false (event_enable p !! i)); cbn [negb snd];
          rewrite IH; destruct tv, (trig_enable p); reflexivity.
      * apply IH.
    + rewrite !Z.land_0_r. cbn [Z.lxor truthy Z.eqb negb orb]. apply IH.
Qed.

Lemma scan_at_inv {S} scan index (s : S) x s' :
  scan_at scan index s = Ok (x, s') ->
  s' = s /\ x = nth (Z.to_nat index) scan 0.
Proof.
  unfold scan_at. destruct (_ && _); [|discriminate].
  intros H. inversion H. split; reflexivity.
Qed.

Lemma report_chans_trig chans :
  forall val_buf flags scan_id chan_index val tp p val' tp' p',
  NoDup chans -> Forall (fun i => (i < 2)%nat) chans ->
  report_chans chans val_buf flags scan_id chan_index val tp p
  = Ok ((val', tp'), p') ->
  tp' = tp || existsb (trig_valid_of p flags) chans /\
  length (trig_valid p') = length (trig_valid p) /\
  length (scan_data p') = length (scan_data p) /\
  (forall i, In i chans ->
     ((i < length (trig_valid p))%nat ->
      trig_valid p' !! i = Some (trig_valid_of p flags i)) /\
     ((i < length (scan_data p))%nat ->
      scan_data p' !! i = Some (selected_scan p val_buf flags i))) /\
  (forall i, ~ In i chans ->
     trig_valid p' !! i = trig_valid p !! i /\
     scan_data p' !! i = scan_data p !! i) /\
  trig_polls p' = trig_polls p /\ timestamp p' = timestamp p.
Proof.
  induction chans as [|i chans IH];
    intros val_buf flags scan_id chan_index val tp p val' tp' p' Hnd Hlt H.
  - cbn in H. unfold pure in H. inversion H; subst.
    cbn [existsb]. rewrite orb_false_r.
    repeat split; try reflexivity; try (exfalso; assumption).
  - inversion Hnd as [|? ? Hnotin Hnd']; subst.
    rewrite list_elem_of_In in Hnotin.
    inversion Hlt as [|? ? Hi Hlt']; subst.
    cbn [report_chans] in H.
    unfold bind at 1 in H. unfold get at 1 in H.
    unfold bind at 1 in H.
    destruct (scan_at (scan_of val_buf flags i) (word_at (scan_mux p) i) p)
      as [[x p0]| |] eqn:Hx; try discriminate.
    apply scan_at_inv in Hx. destruct Hx as [-> Hx].
    unfold bind at 1 in H. unfold modify at 1 in H.
    set (p1 := set_scan_data _ p) in H.
    unfold bind at 1 in H.
    match type of H with
    | match ?m p1 with _ => _ end = _ =>
        destruct (m p1) as [[v p2]| |] eqn:Hv; try discriminate
    end.
    assert (p2 = p1) as ->.
    { destruct (Z.of_nat i =? chan_index); [|now inversion Hv].
      destruct val; [|discriminate].
      unfold bind in Hv. unfold scan_at in Hv.
      destruct (_ && _); [|discriminate]. now inversion Hv. }
    unfold bind at 1 in H. unfold get at 1 in H.
    unfold bind at 1 in H. unfold modify at 1 in H.
    rewrite report_events_valid in H
      by (try exact Hi; repeat constructor).
    match type of H with
    | report_chans _ _ _ _ _ _ (_ || ?b) _ = _ =>
        assert (Hb : b = trig_valid_of p flags i)
    end.
    { unfold trig_valid_of. cbn [length iqs7219_pxs_events seq].
      subst p1. cbn [intf_mode trig_enable set_scan_data].
      replace (existsb (changes (set_scan_data _ p) flags i) [0; 1; 2]%nat)
        with (existsb (changes p flags i) [0; 1; 2]%nat) by reflexivity.
      destruct (trig_enable p), (negb (truthy (intf_mode p)));
        cbn [andb orb]; reflexivity. }
    rewrite Hb in H.
    match type of H with
    | report_chans _ _ _ _ _ _ _ ?q = _ => remember q as p3 eqn:Ep3
    end.
    assert (F13 : decode_frame p p3) by (subst p3; repeat split).
    apply IH in H; [|assumption..].
    destruct H as (Htp & Hl1 & Hl2 & Hin & Hout & Hpolls & Hts).
    assert (Hlen1 : length (trig_valid p3) = length (trig_valid p))
      by (subst p3; cbn [trig_valid set_pushed set_trig_valid];
          rewrite length_insert; reflexivity).
    assert (Hlen2 : length (scan_data p3) = length (scan_data p))
      by (subst p3; cbn [scan_data set_pushed set_trig_valid];
          subst p1; cbn [scan_data set_scan_data];
          rewrite length_insert; reflexivity).
    split.
    { rewrite Htp. cbn [existsb].
      rewrite (existsb_same (trig_valid_of p3 flags) (trig_valid_of p flags))
        by (intros j; apply trig_valid_of_frame; exact F13).
      symmetry. apply orb_assoc. }
    split; [congruence|]. split; [congruence|].
    split.
    { intros j [->|Hj].
      - destruct (Hout j Hnotin) as [Ht Hs]. rewrite Ht, Hs. subst p3.
        cbn [trig_valid scan_data set_pushed set_trig_valid].
        subst p1. cbn [trig_valid scan_data set_scan_data]. split.
        + intros Hlen. rewrite list_lookup_insert_eq by exact Hlen. reflexivity.
        + intros Hlen. rewrite list_lookup_insert_eq by exact Hlen.
          rewrite Hx. reflexivity.
      - destruct (Hin j Hj) as [Ht Hs]. split.
        + intros Hlen. rewrite Ht by lia.
          rewrite (trig_valid_of_frame _ _ _ _ F13). reflexivity.
        + intros Hlen. rewrite Hs by lia. unfold selected_scan.
          destruct F13 as (_ & _ & _ & _ & _ & Hmux & _). rewrite Hmux.
          reflexivity. }
    split.
    { intros j Hj. destruct (Hout j) as [Ht Hs]; [intros Hc; apply Hj; now right|].
      assert (i <> j) by (intros ->; apply Hj; now left).
      rewrite Ht, Hs. subst p3.
      cbn [trig_valid scan_data set_pushed set_trig_valid].
      subst p1. cbn [trig_valid scan_data set_scan_data].
      rewrite !list_lookup_insert_ne by assumption. split; reflexivity. }
    split; [rewrite Hpolls; subst p3; reflexivity|rewrite Hts; subst p3; reflexivity].
Qed.
End Iqs7219Trigger.

(** X18. On a status read of the IQS7219A that reaches the channel loop,
    the trigger of a channel is valid exactly when the trigger is
    enabled and the device streams or an event of the channel, masked
    in, differs from the cached flags, whether or not its events are
    enabled; [iio_trigger_poll_chained] is called once when a channel's
    trigger is valid and not at all otherwise, so never while the
    trigger is disabled; the scan data of each channel is the value its
    multiplexer selects, and the timestamp is the time at entry. *)
Theorem iqs7219_trigger_is_polled scan_id chan_index val p val_buf p1 :
  status_read p val_buf p1 -> no_flags (nth 0 val_buf 0) ->
  report_args_ok p scan_id chan_index val ->
  length (Iqs7219.trig_valid p) = Iqs7219.IQS7219_NUM_CHAN ->
  length (Iqs7219.scan_data p) = Iqs7219.IQS7219_NUM_CHAN ->
  let flags := nth 1 val_buf 0 in
  let valid := trig_valid_of p flags in
  exists val' p',
    Iqs7219.iqs7219_report_sync scan_id chan_index val p = Ok ((0, val'), p') /\
    Iqs7219.trig_valid p' = [valid 0%nat; valid 1%nat] /\
    Iqs7219.trig_polls p' =
      (Iqs7219.trig_polls p + if valid 0%nat || valid 1%nat then 1 else 0)%nat /\
    Iqs7219.scan_data p' =
      [selected_scan p val_buf flags 0; selected_scan p val_buf flags 1] /\
    Iqs7219.timestamp p' = now (Iqs7219.io p) * 1000 /\
    (Iqs7219.trig_enable p = false ->
     Iqs7219.trig_polls p' = Iqs7219.trig_polls p).
Proof.
  intros Hread Hnf Hargs Hlt Hls. cbv zeta.
  pose proof Hread as Hread'. unfold status_read in Hread'.
  pose proof (with_io_frame _ _ _ _ Hread') as Hp1.
  assert (Hsame : forall i, trig_valid_of p1 (nth 1 val_buf 0) i
                            = trig_valid_of p (nth 1 val_buf 0) i).
  { intros i. rewrite Hp1. reflexivity. }
  assert (Hsel : forall i, selected_scan p1 val_buf (nth 1 val_buf 0) i
                           = selected_scan p val_buf (nth 1 val_buf 0) i).
  { intros i. rewrite Hp1. reflexivity. }
  destruct Hargs as [Hmux Hval].
  destruct (report_chans_total (seq 0 Iqs7219.IQS7219_NUM_CHAN) val_buf
              (nth 1 val_buf 0) scan_id chan_index val false p1)
    as (val' & tp' & p2 & Hch).
  { intros i Hi. rewrite Hp1. cbn [Iqs7219.scan_mux Iqs7219.set_io].
    apply Hmux. apply in_seq in Hi. lia. }
  { intros (i & Hi & <-). apply Hval. apply in_seq in Hi.
    unfold Iqs7219.IQS7219_NUM_CHAN in *. lia. }
  destruct (report_chans_trig _ _ _ _ _ _ _ _ _ _ _
              (NoDup_seq 0 Iqs7219.IQS7219_NUM_CHAN)
              ltac:(unfold Iqs7219.IQS7219_NUM_CHAN; repeat constructor) Hch)
    as (Htp & Hl1 & Hl2 & Hin & _ & Hpolls & Hts).
  assert (Hlt1 : length (Iqs7219.trig_valid p1) = 2%nat)
    by (rewrite Hp1; exact Hlt).
  assert (Hls1 : length (Iqs7219.scan_data p1) = 2%nat)
    by (rewrite Hp1; exact Hls).
  assert (Htv : Iqs7219.trig_valid p2 =
                [trig_valid_of p (nth 1 val_buf 0) 0; trig_valid_of p (nth 1 val_buf 0) 1]).
  { destruct (Hin 0%nat ltac:(cbn; auto)) as [H0 _].
    destruct (Hin 1%nat ltac:(cbn; auto)) as [H1 _].
    specialize (H0 ltac:(lia)). specialize (H1 ltac:(lia)).
    rewrite Hsame in H0, H1. rewrite Hlt1 in Hl1.
    destruct (Iqs7219.trig_valid p2) as [|a [|b [|c l]]]; try discriminate.
    cbn [lookup list_lookup] in H0, H1.
    injection H0 as ->. injection H1 as ->. reflexivity. }
  assert (Hsd : Iqs7219.scan_data p2 =
                [selected_scan p val_buf (nth 1 val_buf 0) 0;
                 selected_scan p val_buf (nth 1 val_buf 0) 1]).
  { destruct (Hin 0%nat ltac:(cbn; auto)) as [_ H0].
    destruct (Hin 1%nat ltac:(cbn; auto)) as [_ H1].
    specialize (H0 ltac:(lia)). specialize (H1 ltac:(lia)).
    rewrite Hsel in H0, H1. rewrite Hls1 in Hl2.
    destruct (Iqs7219.scan_data p2) as [|a [|b [|c l]]]; try discriminate.
    cbn [lookup list_lookup] in H0, H1.
    injection H0 as ->. injection H1 as ->. reflexivity. }
  cbn [existsb seq Iqs7219.IQS7219_NUM_CHAN orb] in Htp.
  rewrite !Hsame, orb_false_r in Htp.
  destruct Hnf as (Hr & He & Ha).
  exists val'.
  unfold Iqs7219.iqs7219_report_sync.
  unfold bind at 1. unfold get at 1.
  rewrite (bind_ok _ _ _ _ _ Hread').
  cbn [fst snd]. rewrite truthy_0.
  rewrite Hr, He, Ha, truthy_0.
  rewrite (bind_ok _ _ _ _ _ Hch). cbn [fst snd].
  unfold bind at 1. unfold modify at 1.
  unfold bind at 1. cbn [negb andb].
  assert (Hp : Iqs7219.trig_polls p1 = Iqs7219.trig_polls p)
    by (rewrite Hp1; reflexivity).
  destruct tp' eqn:Etp; unfold modify, pure, bind;
    (eexists; split; [reflexivity|]);
    cbn [Iqs7219.trig_valid Iqs7219.trig_polls Iqs7219.scan_data
         Iqs7219.timestamp Iqs7219.set_pxs_flags Iqs7219.set_timestamp
         Iqs7219.set_trig_polls];
    rewrite <- Htp;
    (split; [exact Htv|]); (split; [rewrite Hpolls, Hp; lia|]);
    (split; [exact Hsd|]); (split; [reflexivity|]);
    intros Hoff; unfold trig_valid_of in Htp; rewrite Hoff in Htp;
    cbn [andb orb] in Htp; try discriminate; lia.
Qed.

Lemma iqs7219_trigger_is_polled_witness :
  let p := Iqs7219.set_trig_enable true
             (iqs7219_example (stub [] 1 [] 1 [] 2 [[0; 0; 100; 150]] [] 1) 0
                [true; true]) in
  exists val' p',
    Iqs7219.iqs7219_report_sync 0 0 (Some 7) p = Ok ((0, val'), p') /\
    Iqs7219.trig_valid p' = [true; true] /\ Iqs7219.trig_polls p' = 1%nat /\
    Iqs7219.scan_data p' = [50; 0].
Proof.
  cbv zeta.
  set (p := Iqs7219.set_trig_enable true _).
  destruct (iqs7219_trigger_is_polled 0 0 (Some 7) p
              (fst (status_of p)) (snd (status_of p)))
    as (val' & p' & Hrun & Hv & Hp & Hs & _).
  - vm_compute. reflexivity.
  - vm_compute. repeat split.
  - split.
    + intros i Hi. unfold Iqs7219.IQS7219_NUM_CHAN in Hi.
      destruct i as [|[|]]; [vm_compute; split; [discriminate|reflexivity]..|lia].
    + intros _. split; [reflexivity|]. vm_compute. split; [discriminate|reflexivity].
  - reflexivity.
  - reflexivity.
  - exists val', p'. split; [exact Hrun|]. split; [exact Hv|]. split; [exact Hp|exact Hs].
Defined.

(** ** What the IQS323 reports *)

(** [iqs323_write_mode] returns, having sent its word in a burst write. *)
Lemma iqs323_write_mode_any intf_mode power_mode cmd p :
  exists error w',
    Iqs323.iqs323_write_mode intf_mode power_mode cmd p
    = Ok (error,
          Iqs323.set_intf_mode
            (if error =? 0 then intf_mode else Iqs323.IQS323_INTF_MODE_ERROR)
            (Iqs323.set_io w' p)) /\
    burst_written 2500 (iqs323_mode_write p intf_mode power_mode cmd)
                  (Iqs323.io p) error w'.
Proof.
  unfold Iqs323.iqs323_write_mode. unfold bind at 1, get at 1.
  fold (iqs323_mode_word p intf_mode power_mode cmd).
  set (word := iqs323_mode_word p intf_mode power_mode cmd) in *.
  destruct (burst_write_spec_written _ _ _ _ _
              (iqs323_write_word_any Iqs323.IQS323_SYS_SETUP word (Iqs323.io p)))
    as (ret & w1 & Hrun & Hwritten).
  unfold bind at 1. rewrite (iqs323_with_io_ok _ _ _ _ Hrun).
  exists ret, w1.
  split.
  { unfold truthy. destruct (Z.eqb_spec ret 0) as [->|Hne]; cbn [negb]; reflexivity. }
  exact Hwritten.
Qed.

(** X19. On a status block of the IQS323 that is valid and carries none
    of the reset and ATI flags, [iqs323_process_events] reports the
    channel keys, the slider position while the slider is touched and
    the input device takes positions, the slider keys and, when a
    momentary gesture is flagged, a synchronisation and the release of
    the momentary gestures, and closes the report with a
    synchronisation.  It asks for streaming while the position is
    reported and for the event mode otherwise: when the driver is in
    that mode already it returns 0 without touching the bus again;
    otherwise it writes the mode word in one burst write, returns the
    result of the write, and records the mode asked for on success and
    the error mode on failure.  A write that finds no memory for its
    message returns -ENOMEM with nothing sent and no delay; otherwise
    only messages and delays reach the bus, the settle delay last. *)
Theorem iqs323_report_switches_the_mode val_buf0 p val_buf p1 :
  iqs323_status_read p val_buf0 val_buf p1 ->
  iqs323_check_comms val_buf = COMMS_ERROR ->
  iqs323_quiet (nth 0 val_buf 0) ->
  let target := iqs323_target_mode p1 val_buf in
  let reported := Iqs323.reported p1 ++ iqs323_report_of p1 val_buf in
  let p2 := Iqs323.set_reported reported p1 in
  (target = Iqs323.intf_mode p1 ->
   Iqs323.iqs323_process_events val_buf0 p = Ok ((0, val_buf), p2)) /\
  (target <> Iqs323.intf_mode p1 ->
   exists error w',
     Iqs323.iqs323_process_events val_buf0 p
     = Ok ((error, val_buf),
           Iqs323.set_intf_mode
             (if error =? 0 then target else Iqs323.IQS323_INTF_MODE_ERROR)
             (Iqs323.set_io w' p2)) /\
     burst_written 2500
       (iqs323_mode_write p1 target Iqs323.IQS323_POWER_MODE_USER 0)
       (Iqs323.io p1) error w').
Proof.
  intros Hread Hcheck (Hr & He & Ha). cbv zeta.
  unfold iqs323_reset, iqs323_ati_error, iqs323_ati_active in Hr, He, Ha.
  assert (Hrun :
            Iqs323.iqs323_process_events val_buf0 p
            = (if decide (iqs323_target_mode p1 val_buf = Iqs323.intf_mode p1)
               then pure (0, val_buf)
               else
                 error <- Iqs323.iqs323_write_mode (iqs323_target_mode p1 val_buf)
                            Iqs323.IQS323_POWER_MODE_USER 0 ;;
                 pure (error, val_buf))
                (Iqs323.set_reported
                   (Iqs323.reported p1 ++ iqs323_report_of p1 val_buf) p1)).
  { unfold Iqs323.iqs323_process_events.
    unfold iqs323_status_read in Hread. rewrite (bind_ok _ _ _ _ _ Hread).
    cbn [fst snd]. rewrite truthy_0. cbv zeta.
    fold (iqs323_check_comms val_buf). rewrite Hcheck, Z.eqb_refl. cbn [negb].
    rewrite Hr, He, Ha.
    unfold bind at 1, get at 1.
    fold (iqs323_streaming p1 val_buf).
    unfold iqs323_report_of, iqs323_target_mode.
    cbv zeta.
    set (kp := flat_map _ _).
    set (sl := Iqs323.sl_events_of _ _ _ _ _).
    set (rel := Iqs323.sl_release_of _ _ _).
    unfold Iqs323.report, bind, modify.
    destruct (iqs323_streaming p1 val_buf);
      destruct (truthy (Z.land (snd sl) (Z.lnot Iqs323.IQS323_SLDR_STATUS_BUSY)));
      unfold pure;
      cbn [Iqs323.reported Iqs323.set_reported Iqs323.intf_mode];
      rewrite <- ?app_assoc; cbn [app]; reflexivity. }
  split.
  - intros Ht. rewrite Hrun.
    destruct (decide _) as [_|Hn]; [reflexivity|contradiction].
  - intros Ht. rewrite Hrun.
    destruct (decide _) as [Hy|_]; [contradiction|].
    set (p2 := Iqs323.set_reported _ p1).
    destruct (iqs323_write_mode_any (iqs323_target_mode p1 val_buf)
                Iqs323.IQS323_POWER_MODE_USER 0 p2)
      as (error & w' & Hw & Hwritten).
    exists error, w'. unfold bind at 1. rewrite Hw.
    split; [reflexivity|exact Hwritten].
Qed.

Lemma iqs323_report_switches_the_mode_witness :
  let p := iqs323_example
             (stub [] 1 [] 1 [] 2 [[0; 0; 65535; 0; 0; 0; 0; 0; 0; 0xEEEE]] [] 1) in
  exists val_buf p',
    Iqs323.iqs323_process_events (repeat 0 10) p = Ok ((0, val_buf), p') /\
    Iqs323.intf_mode p' = Iqs323.IQS323_INTF_MODE_EVENT.
Proof.
  cbv zeta.
  set (p := iqs323_example _).
  eassert (Hread : iqs323_status_read p (repeat 0 10) _ _)
    by (vm_compute; reflexivity).
  destruct (iqs323_report_switches_the_mode _ _ _ _ Hread) as [Hsame _].
  - vm_compute. reflexivity.
  - vm_compute. repeat split.
  - eexists _, _. split; [apply Hsame; vm_compute; reflexivity|reflexivity].
Defined.

(** ** Keys of the IQS323 *)

Lemma truthy_land_BIT s n : 0 <= n -> truthy (Z.land s (BIT n)) = Z.testbit s n.
Proof.
  intros Hn. rewrite land_BIT by exact Hn.
  destruct (Z.testbit s n); [apply truthy_true, BIT_nonzero, Hn|reflexivity].
Qed.

Lemma testbit_low_byte x k :
  0 <= k < 8 -> Z.testbit (Z.land x 255) k = Z.testbit x k.
Proof.
  intros Hk. change 255 with (Z.ones 8). rewrite Z.land_ones by lia.
  apply Z.mod_pow2_bits_low. lia.
Qed.

(** The slider keys for a status byte [s]. *)
Lemma iqs323_slider_keys_of_byte p sldr_pos s :
  0 <= s < 256 ->
  let sl := Iqs323.sl_events_of Iqs323.iqs323_sl_events 0
              (u16_clear s Iqs323.IQS323_SLDR_STATUS_EVENT) sldr_pos p in
  fst sl =
    [sl_key p 0 (sldr_pos <? Iqs323.U16_MAX);
     sl_key p 1 (Z.testbit s 0);
     sl_key p 2 (Z.testbit s 1 && Z.testbit s 7);
     sl_key p 3 (Z.testbit s 2 && Z.testbit s 7);
     sl_key p 4 (Z.testbit s 3);
     sl_key p 5 (Z.testbit s 4);
     sl_key p 6 (Z.testbit s 5 && Z.testbit s 7)] /\
  truthy (Z.land (snd sl) (Z.lnot Iqs323.IQS323_SLDR_STATUS_BUSY))
  = Z.testbit s 0 || Z.testbit s 3 || Z.testbit s 4.
Proof.
  intros Hs. cbv zeta.
  destruct s as [|q|q]; [split; reflexivity| |lia].
  do 8 (try (destruct q as [q|q|]; [| |split; reflexivity])); lia.
Qed.

(** The two loops of [iqs323_process_events] in closed form. *)
Lemma iqs323_keys_decoded p sys_status x sldr_pos :
  let sldr_status :=
    u16_clear (Z.land x Iqs323.U8_MAX) Iqs323.IQS323_SLDR_STATUS_EVENT in
  let sl := Iqs323.sl_events_of Iqs323.iqs323_sl_events 0 sldr_status sldr_pos p in
  (forall i, (i < Iqs323.IQS323_NUM_CHAN)%nat ->
     Iqs323.kp_events_of Iqs323.iqs323_kp_events i 0 sys_status p =
       kp_key p (i * 3) (Z.testbit sys_status (8 + 2 * Z.of_nat i))
       ++ kp_key p (i * 3 + 1) (Z.testbit sys_status (9 + 2 * Z.of_nat i))
       ++ kp_key p (i * 3 + 2) false) /\
  fst sl =
    [sl_key p 0 (sldr_pos <? Iqs323.U16_MAX);
     sl_key p 1 (Z.testbit x 0);
     sl_key p 2 (Z.testbit x 1 && Z.testbit x 7);
     sl_key p 3 (Z.testbit x 2 && Z.testbit x 7);
     sl_key p 4 (Z.testbit x 3);
     sl_key p 5 (Z.testbit x 4);
     sl_key p 6 (Z.testbit x 5 && Z.testbit x 7)] /\
  truthy (Z.land (snd sl) (Z.lnot Iqs323.IQS323_SLDR_STATUS_BUSY))
  = Z.testbit x 0 || Z.testbit x 3 || Z.testbit x 4 /\
  Iqs323.sl_release_of Iqs323.iqs323_sl_events 0 p
  = [sl_key p 1 false; sl_key p 4 false; sl_key p 5 false].
Proof.
  cbv zeta. split; [|split; [|split]].
  - intros i Hi. unfold Iqs323.IQS323_NUM_CHAN in Hi.
    destruct i as [|[|[|i]]]; [| | |lia];
      cbn [Iqs323.kp_events_of Iqs323.iqs323_kp_events Iqs323.ev_mask length
           Nat.mul Nat.add];
      unfold kp_key;
      [ change (u16 (Z.shiftl Iqs323.IQS323_EVENT_MASK_PROX (Z.of_nat 0 * 2 + 8)))
          with (BIT 8);
        change (u16 (Z.shiftl Iqs323.IQS323_EVENT_MASK_TOUCH (Z.of_nat 0 * 2 + 8)))
          with (BIT 9);
        change (u16 (Z.shiftl 0 (Z.of_nat 0 * 2 + 8))) with 0
      | change (u16 (Z.shiftl Iqs323.IQS323_EVENT_MASK_PROX (Z.of_nat 1 * 2 + 8)))
          with (BIT 10);
        change (u16 (Z.shiftl Iqs323.IQS323_EVENT_MASK_TOUCH (Z.of_nat 1 * 2 + 8)))
          with (BIT 11);
        change (u16 (Z.shiftl 0 (Z.of_nat 1 * 2 + 8))) with 0
      | change (u16 (Z.shiftl Iqs323.IQS323_EVENT_MASK_PROX (Z.of_nat 2 * 2 + 8)))
          with (BIT 12);
        change (u16 (Z.shiftl Iqs323.IQS323_EVENT_MASK_TOUCH (Z.of_nat 2 * 2 + 8)))
          with (BIT 13);
        change (u16 (Z.shiftl 0 (Z.of_nat 2 * 2 + 8))) with 0 ];
      rewrite !truthy_land_BIT by lia; rewrite Z.land_0_r;
      repeat match goal with
             | |- context [truthy (word_at (Iqs323.kp_type p) ?k)] =>
                 destruct (truthy (word_at (Iqs323.kp_type p) k))
             end;
      reflexivity.
  - assert (Hs : 0 <= Z.land x 255 < 256).
    { change 255 with (Z.ones 8). rewrite Z.land_ones by lia.
      apply Z.mod_pos_bound. lia. }
    destruct (iqs323_slider_keys_of_byte p sldr_pos _ Hs) as [Hkeys _].
    cbv zeta in Hkeys. rewrite !testbit_low_byte in Hkeys by lia. exact Hkeys.
  - assert (Hs : 0 <= Z.land x 255 < 256).
    { change 255 with (Z.ones 8). rewrite Z.land_ones by lia.
      apply Z.mod_pos_bound. lia. }
    destruct (iqs323_slider_keys_of_byte p sldr_pos _ Hs) as [_ Hrest].
    cbv zeta in Hrest. rewrite !testbit_low_byte in Hrest by lia. exact Hrest.
  - reflexivity.
Qed.

(** X20. The report of [iqs323_process_events] read off the bits of the
    status block.  Channel [i] reports its proximity key from bit
    [8 + 2 i] of the system status, its touch key from bit [9 + 2 i] and
    its movement key always as released, each only when a type is
    configured for it.  The slider reports press while the position is
    below 65535, tap from bit 0 of the slider status, the two swipes
    and hold from bits 1, 2 and 5 only while the busy bit 7 is set too,
    and the two flicks from bits 3 and 4.  When tap or a flick is set
    the report is synchronised and tap and both flicks are released
    again; the event bit 6 alone never causes a release. *)
Theorem iqs323_report_decoded p val_buf :
  let sys_status := nth 0 val_buf 0 in
  let x := nth 1 val_buf 0 in
  let sldr_pos := nth 2 val_buf 0 in
  iqs323_report_of p val_buf =
    flat_map (iqs323_chan_keys p sys_status) [0; 1; 2]%nat
    ++ (if iqs323_streaming p val_buf
        then [Iqs323.InputAbs (Iqs323.sl_axis p) sldr_pos] else [])
    ++ [sl_key p 0 (sldr_pos <? Iqs323.U16_MAX);
        sl_key p 1 (Z.testbit x 0);
        sl_key p 2 (Z.testbit x 1 && Z.testbit x 7);
        sl_key p 3 (Z.testbit x 2 && Z.testbit x 7);
        sl_key p 4 (Z.testbit x 3);
        sl_key p 5 (Z.testbit x 4);
        sl_key p 6 (Z.testbit x 5 && Z.testbit x 7)]
    ++ (if Z.testbit x 0 || Z.testbit x 3 || Z.testbit x 4
        then [Iqs323.InputSync;
              sl_key p 1 false; sl_key p 4 false; sl_key p 5 false]
        else [])
    ++ [Iqs323.InputSync].
Proof.
  cbv zeta. unfold iqs323_report_of. cbv zeta.
  destruct (iqs323_keys_decoded p (nth 0 val_buf 0) (nth 1 val_buf 0)
              (nth 2 val_buf 0)) as (Hkp & Hsl & Hmom & Hrel).
  rewrite Hsl, Hmom, Hrel.
  change (seq 0 Iqs323.IQS323_NUM_CHAN) with [0; 1; 2]%nat.
  cbn [flat_map]. unfold iqs323_chan_keys.
  rewrite !Hkp by (unfold Iqs323.IQS323_NUM_CHAN; lia).
  reflexivity.
Qed.

(** ** The multiplexer attribute of the IQS7219A *)

(** X21. The scan multiplexer attribute of the IQS7219A round-trips: a
    selection up to [IQS7219_NUM_SCAN] is accepted without any bus
    traffic, [iqs7219_scan_mux_get] of the same channel then returns
    it, and the selection of any other channel reads as before.  A
    larger selection is refused with -EINVAL and the driver is left as
    it was. *)
Theorem iqs7219_scan_mux_round_trip channel v p :
  (channel < length (Iqs7219.scan_mux p))%nat ->
  0 <= v < 4294967296 ->
  (v <= Iqs7219.IQS7219_NUM_SCAN ->
   exists p',
     Iqs7219.iqs7219_scan_mux_set channel v p = Ok (0, p') /\
     Iqs7219.io p' = Iqs7219.io p /\
     Iqs7219.iqs7219_scan_mux_get channel p' = Ok (v, p') /\
     forall c x, c <> channel ->
       Iqs7219.iqs7219_scan_mux_get c p = Ok (x, p) ->
       Iqs7219.iqs7219_scan_mux_get c p' = Ok (x, p')) /\
  (Iqs7219.IQS7219_NUM_SCAN < v ->
   Iqs7219.iqs7219_scan_mux_set channel v p = Ok (- EINVAL, p)).
Proof.
  intros Hc Hv.
  assert (Hu : u32 v = v) by (unfold u32; apply Z.mod_small; lia).
  unfold Iqs7219.iqs7219_scan_mux_set. rewrite Hu. split.
  - intros Hle.
    destruct (Z.gtb_spec v Iqs7219.IQS7219_NUM_SCAN) as [Hgt|_]; [lia|].
    eexists. split; [reflexivity|]. split; [destruct p; reflexivity|].
    unfold Iqs7219.iqs7219_scan_mux_get, bind, get.
    assert (Hsm : forall l, Iqs7219.scan_mux (Iqs7219.set_scan_mux l p) = l)
      by (intros l; destruct p; reflexivity).
    rewrite Hsm. split.
    + rewrite list_lookup_insert_eq by exact Hc. reflexivity.
    + intros c x Hne Hget.
      rewrite list_lookup_insert_ne by congruence.
      destruct (Iqs7219.scan_mux p !! c) as [y|]; [|discriminate].
      unfold pure in *. injection Hget as ->. reflexivity.
  - intros Hgt.
    destruct (Z.gtb_spec v Iqs7219.IQS7219_NUM_SCAN) as [_|Hle]; [|lia].
    reflexivity.
Qed.

Lemma iqs7219_scan_mux_round_trip_witness :
  let p := iqs7219_example (stub [] 1 [] 1 [] 2 [] [] 1) 0 [false; false] in
  exists p',
    Iqs7219.iqs7219_scan_mux_set 1 2 p = Ok (0, p') /\
    Iqs7219.iqs7219_scan_mux_get 1 p' = Ok (2, p').
Proof.
  intros p.
  destruct (iqs7219_scan_mux_round_trip 1 2 p) as [Hok _].
  - cbn. lia.
  - lia.
  - destruct Hok as (p' & Hset & _ & Hget & _); [unfold Iqs7219.IQS7219_NUM_SCAN; lia|].
    exists p'. split; assumption.
Defined.

(** ** Hard resets *)

(** X22. The hard resets of the IQS7219A and of the IQS9150 do nothing
    and return 0 when the driver has no reset line.  With one they
    raise the line, hold it for a millisecond, release it and wait for
    RDY, without any message on the bus.  The IQS7219A samples RDY at
    most 250 times, a millisecond apart, and returns 0 exactly when the
    last sample found RDY asserted; the IQS9150 returns what its one
    poll of up to a second returns. *)
Theorem hard_reset_pulses_the_line w :
  Iqs7219.iqs7219_hard_reset false w = Ok (0, w) /\
  Iqs9150.iqs9150_hard_reset false w = Ok (0, w) /\
  (exists r n w',
     Iqs7219.iqs7219_hard_reset true w = Ok (r, w') /\
     trace w' = trace w ++ reset_pulse ++ repeat (EvSleep 1000) (S n) /\
     (n < 250)%nat /\
     send_n w' = send_n w /\ xfer_n w' = xfer_n w /\
     (r = 0 \/ r < 0) /\
     (r = 0 <-> 0 < rdy w (rdy_n w + n)%nat) /\
     (forall j, (j < n)%nat -> rdy w (rdy_n w + j)%nat = 0)) /\
  (exists w',
     Iqs9150.iqs9150_hard_reset true w
     = Ok (poll_result (poll_val w (poll_n w)), w') /\
     trace w' = trace w ++ reset_pulse /\
     send_n w' = send_n w /\ xfer_n w' = xfer_n w).
Proof.
  split; [reflexivity|]. split; [reflexivity|]. split.
  - unfold Iqs7219.iqs7219_hard_reset. cbn [negb].
    unfold gpiod_set_value_cansleep, usleep_range, sleep_us, modify.
    unfold bind at 1. unfold bind at 1. unfold bind at 1.
    set (w0 := log (EvGpioSet RESET_GPIO 0)
                 (slept 1000 (log (EvGpioSet RESET_GPIO 1) w))).
    unfold Iqs7219.iqs7219_irq_poll, bind, ktime_get.
    destruct (irq_poll_loop_spec (S (Z.to_nat Iqs7219.IQS7219_RESET_TIMEOUT_MS))
                (now w0 + Iqs7219.IQS7219_RESET_TIMEOUT_MS * 1000) w0)
      as (r & n & w' & Hrun & Hspec);
      [lia|unfold Iqs7219.IQS7219_RESET_TIMEOUT_MS; lia|].
    exists r, n, w'. split; [exact Hrun|].
    destruct Hspec as (_ & _ & Hsend & Hxfer & Htr & Hzero & Hdl & Hneg & Hpos & Hz).
    change (rdy w0) with (rdy w) in *. change (rdy_n w0) with (rdy_n w) in *.
    split.
    { rewrite Htr. unfold w0, reset_pulse. cbn [trace log slept].
      rewrite <- !app_assoc. reflexivity. }
    split.
    { destruct n as [|n]; [lia|].
      unfold Iqs7219.IQS7219_RESET_TIMEOUT_MS in Hdl.
      assert (0 < S n)%nat by lia. specialize (Hdl H). lia. }
    split; [exact Hsend|]. split; [exact Hxfer|].
    assert (Hcases : rdy w (rdy_n w + n)%nat < 0 \/ rdy w (rdy_n w + n)%nat = 0
                     \/ 0 < rdy w (rdy_n w + n)%nat) by lia.
    unfold EBUSY in Hz.
    destruct Hcases as [Hc|[Hc|Hc]].
    + specialize (Hneg Hc). repeat split; try lia. exact Hzero.
    + destruct (Hz Hc) as [Hr _]. repeat split; try lia. exact Hzero.
    + specialize (Hpos Hc). repeat split; try lia. exact Hzero.
  - eexists. split; [|split; [|split]].
    + unfold Iqs9150.iqs9150_hard_reset. cbn [negb].
      unfold gpiod_set_value_cansleep, usleep_range, sleep_us, modify,
        Iqs9150.iqs9150_irq_poll, readx_poll_timeout, bind, pure.
      cbn [fst snd poll_val poll_n log slept].
      f_equal. f_equal. unfold poll_result.
      destruct (poll_val w (poll_n w) <? 0) eqn:Hneg; [reflexivity|].
      destruct (Z.eqb_spec (poll_val w (poll_n w)) 0) as [->|Hne]; [reflexivity|].
      assert (Ht : truthy (poll_val w (poll_n w)) = true) by (apply truthy_true; exact Hne).
      rewrite Ht. reflexivity.
    + cbn [trace log slept polled]. unfold reset_pulse.
      rewrite <- !app_assoc. reflexivity.
    + reflexivity.
    + reflexivity.
Qed.

(** ** Communication modes of the IQS9150 *)

Lemma iqs9150_free_read_loop reg n : forall i ret buf w,
  exists i' ret' buf' w',
    read_burst_loop (Iqs9150.iqs9150_force_comms Iqs9150.IQS9150_COMMS_MODE_FREE)
                    n reg i ret buf w = Ok ((i', ret', buf'), w') /\
    handshakes w' = handshakes w /\ send_n w' = send_n w /\
    (xfer_n w <= xfer_n w' <= xfer_n w + n)%nat /\
    ((0 < n)%nat -> (xfer_n w < xfer_n w')%nat) /\
    ((0 < n)%nat -> ret' < 0 -> xfer_n w' = (xfer_n w + n)%nat) /\
    ((0 < n)%nat -> ret' = 0 \/ ret' < 0).
Proof.
  induction n as [|n IH]; intros i ret buf w.
  - exists i, ret, buf, w. cbn [read_burst_loop]. unfold pure.
    repeat split; lia.
  - cbn [read_burst_loop]. unfold read_burst_body.
    change (Iqs9150.iqs9150_force_comms Iqs9150.IQS9150_COMMS_MODE_FREE)
      with (@pure world Z 0) at 1.
    unfold bind at 1. unfold bind at 1. unfold pure at 1.
    change (0 <? 0) with false. cbv iota.
    unfold bind at 1. unfold i2c_transfer at 1. cbv zeta. cbn [fst snd].
    set (w1 := xferred reg (length buf) w).
    destruct (Z.ltb_spec (xfer_ret w (xfer_n w)) 2) as [Hshort|Hfull].
    + unfold msleep, sleep_us, bind at 1. unfold pure at 1.
      set (w2 := slept (COMMS_RETRY_MS * 1000) w1).
      destruct (IH (S i) (if xfer_ret w (xfer_n w) >=? 0 then - EIO
                          else xfer_ret w (xfer_n w))
                   (if 2 <=? xfer_ret w (xfer_n w)
                    then map (fun j => u16 (xfer_word w (xfer_n w) j))
                             (seq 0 (length buf))
                    else buf) w2)
        as (i' & ret' & buf' & w' & Hrun & Hh & Hs & Hx & Hpos & Hneg & Hsign).
      exists i', ret', buf', w'. split; [exact Hrun|].
      change (handshakes w2) with (handshakes w) in Hh.
      change (send_n w2) with (send_n w) in Hs.
      change (xfer_n w2) with (S (xfer_n w)) in *.
      split; [exact Hh|]. split; [exact Hs|]. split; [lia|]. split; [lia|].
      split.
      * intros _ Hr. destruct n as [|n]; [lia|]. rewrite Hneg by lia. lia.
      * intros _. destruct n as [|n]; [|apply Hsign; lia].
        cbn [read_burst_loop] in Hrun. unfold pure in Hrun.
        injection Hrun as _ <- _ _. right.
        destruct (xfer_ret w (xfer_n w) >=? 0) eqn:E; [unfold EIO; lia|lia].
    + destruct (first_word _ =? COMMS_ERROR) eqn:Hsent.
      * unfold pure at 1.
        destruct (IH (S i) (- ENODATA)
                     (if 2 <=? xfer_ret w (xfer_n w)
                      then map (fun j => u16 (xfer_word w (xfer_n w) j))
                               (seq 0 (length buf))
                      else buf) w1)
          as (i' & ret' & buf' & w' & Hrun & Hh & Hs & Hx & Hpos & Hneg & Hsign).
        exists i', ret', buf', w'. split; [exact Hrun|].
        change (handshakes w1) with (handshakes w) in Hh.
        change (send_n w1) with (send_n w) in Hs.
        change (xfer_n w1) with (S (xfer_n w)) in *.
        split; [exact Hh|]. split; [exact Hs|]. split; [lia|]. split; [lia|].
        split.
        -- intros _ Hr. destruct n as [|n]; [lia|]. rewrite Hneg by lia. lia.
        -- intros _. destruct n as [|n]; [|apply Hsign; lia].
           cbn [read_burst_loop] in Hrun. unfold pure in Hrun.
           injection Hrun as _ <- _ _. right. unfold ENODATA. lia.
      * unfold pure. eexists _, _, _, _. split; [reflexivity|].
        change (xfer_n w1) with (S (xfer_n w)).
        repeat split; try lia.
Qed.

Lemma iqs9150_free_write_loop msg n : forall ret w,
  exists ret' w',
    write_burst_loop (Iqs9150.iqs9150_force_comms Iqs9150.IQS9150_COMMS_MODE_FREE)
                     n msg ret w = Ok (ret', w') /\
    handshakes w' = handshakes w /\ xfer_n w' = xfer_n w /\
    (send_n w <= send_n w' <= send_n w + n)%nat /\
    ((0 < n)%nat -> (send_n w < send_n w')%nat) /\
    ((0 < n)%nat -> ret' < 0 -> send_n w' = (send_n w + n)%nat) /\
    ((0 < n)%nat -> ret' = 0 \/ ret' < 0).
Proof.
  induction n as [|n IH]; intros ret w.
  - exists ret, w. cbn [write_burst_loop]. unfold pure. repeat split; lia.
  - cbn [write_burst_loop]. unfold write_burst_body.
    change (Iqs9150.iqs9150_force_comms Iqs9150.IQS9150_COMMS_MODE_FREE)
      with (@pure world Z 0) at 1.
    unfold bind at 1. unfold bind at 1. unfold pure at 1.
    change (0 <? 0) with false. cbv iota.
    unfold bind at 1. unfold i2c_master_send at 1.
    set (w1 := sent msg w).
    set (r := if send_ret w (send_n w) =? 1 then Z.of_nat (length msg)
              else send_ret w (send_n w)).
    destruct (Z.ltb_spec r (Z.of_nat (length msg))) as [Hshort|Hfull].
    + unfold msleep, sleep_us, bind at 1. unfold pure at 1. cbn [fst snd].
      set (w2 := slept (COMMS_RETRY_MS * 1000) w1).
      destruct (IH (if r >=? 0 then - EIO else r) w2)
        as (ret' & w' & Hrun & Hh & Hx & Hs & Hpos & Hneg & Hsign).
      exists ret', w'. split; [exact Hrun|].
      change (handshakes w2) with (handshakes w) in Hh.
      change (xfer_n w2) with (xfer_n w) in Hx.
      change (send_n w2) with (S (send_n w)) in *.
      split; [exact Hh|]. split; [exact Hx|]. split; [lia|]. split; [lia|].
      split.
      * intros _ Hr. destruct n as [|n]; [lia|]. rewrite Hneg by lia. lia.
      * intros _. destruct n as [|n]; [|apply Hsign; lia].
        cbn [write_burst_loop] in Hrun. unfold pure in Hrun.
        injection Hrun as <- _. right.
        destruct (r >=? 0) eqn:E; [unfold EIO; lia|lia].
    + unfold pure. cbn [fst snd]. eexists _, _. split; [reflexivity|].
      change (send_n w1) with (S (send_n w)).
      repeat split; try lia.
Qed.

(** X23. In the free-running communication mode of the IQS9150 a burst
    goes straight to the bus: it returns 0 or a negative error without
    ever sampling or polling RDY.  A read sends no message and makes
    one to five transfers, and a read that fails has made all five.  A
    write makes no transfer; without memory for its message it returns
    -ENOMEM and sends nothing, and with the buffer it sends one to five
    messages, all five when it fails. *)
Theorem iqs9150_free_mode_skips_the_handshake reg val w :
  let free := Iqs9150.IQS9150_COMMS_MODE_FREE in
  (exists ret val' w',
     Iqs9150.__iqs9150_read_burst free reg val w = Ok ((ret, val'), w') /\
     (ret = 0 \/ ret < 0) /\
     handshakes w' = handshakes w /\ send_n w' = send_n w /\
     (xfer_n w < xfer_n w' <= xfer_n w + NUM_RETRIES)%nat /\
     (ret < 0 -> xfer_n w' = (xfer_n w + NUM_RETRIES)%nat)) /\
  (exists ret w',
     Iqs9150.__iqs9150_write_burst free reg val w = Ok (ret, w') /\
     (ret = 0 \/ ret < 0) /\
     handshakes w' = handshakes w /\ xfer_n w' = xfer_n w /\
     if mem w (mem_n w)
     then (send_n w < send_n w' <= send_n w + NUM_RETRIES)%nat /\
          (ret < 0 -> send_n w' = (send_n w + NUM_RETRIES)%nat)
     else ret = - ENOMEM /\ send_n w' = send_n w).
Proof.
  cbv zeta. split.
  - unfold Iqs9150.__iqs9150_read_burst, read_burst.
    destruct (iqs9150_free_read_loop (le16_bytes reg) NUM_RETRIES 0%nat 0 val w)
      as (i' & ret' & buf' & w' & Hrun & Hh & Hs & Hx & Hpos & Hneg & Hsign).
    rewrite (bind_ok _ _ _ _ _ Hrun).
    unfold Iqs9150.iqs9150_irq_wait, usleep_range, sleep_us, bind, pure.
    eexists _, _, _. split; [reflexivity|].
    assert (Hn : (0 < NUM_RETRIES)%nat) by (unfold NUM_RETRIES; lia).
    change (handshakes (slept 50 w')) with (handshakes w').
    change (send_n (slept 50 w')) with (send_n w').
    change (xfer_n (slept 50 w')) with (xfer_n w').
    split; [apply Hsign, Hn|]. split; [exact Hh|]. split; [exact Hs|].
    split; [specialize (Hpos Hn); lia|]. intros Hr. apply Hneg; assumption.
  - rewrite iqs9150_write_burst_alloc.
    destruct (mem w (mem_n w)).
    2:{ exists (- ENOMEM), (allocated w). split; [reflexivity|].
        split; [right; unfold ENOMEM; lia|]. repeat split. }
    destruct (iqs9150_free_write_loop (le16_bytes reg ++ val) NUM_RETRIES 0
                (allocated w))
      as (ret' & w' & Hrun & Hh & Hx & Hs & Hpos & Hneg & Hsign).
    change (handshakes (allocated w)) with (handshakes w) in Hh.
    change (xfer_n (allocated w)) with (xfer_n w) in Hx.
    change (send_n (allocated w)) with (send_n w) in *.
    rewrite (bind_ok _ _ _ _ _ Hrun).
    unfold Iqs9150.iqs9150_irq_wait, usleep_range, sleep_us, bind, pure.
    eexists _, _. split; [reflexivity|].
    assert (Hn : (0 < NUM_RETRIES)%nat) by (unfold NUM_RETRIES; lia).
    change (handshakes (slept 50 w')) with (handshakes w').
    change (send_n (slept 50 w')) with (send_n w').
    change (xfer_n (slept 50 w')) with (xfer_n w').
    split; [apply Hsign, Hn|]. split; [exact Hh|]. split; [exact Hx|].
    split; [specialize (Hpos Hn); lia|]. intros Hr. apply Hneg; assumption.
Qed.

(** ** Bursts longer than a page *)

Lemma div_up_step n m :
  (0 < m)%nat -> (0 < n)%nat -> div_up n m = S (div_up (n - Nat.min n m) m).
Proof.
  intros Hm Hn. unfold div_up.
  destruct (Nat.le_gt_cases n m) as [Hle|Hgt].
  - rewrite Nat.min_l by exact Hle. replace (n - n + m - 1)%nat with (m - 1)%nat by lia.
    rewrite (Nat.div_small (m - 1) m) by lia.
    assert (H : (n + m - 1 = 1 * m + (n - 1))%nat) by lia. rewrite H.
    rewrite Nat.div_add_l by lia. rewrite Nat.div_small by lia. lia.
  - rewrite Nat.min_r by lia.
    assert (H : (n + m - 1 = 1 * m + (n - m + m - 1))%nat) by lia.
    rewrite H at 1. rewrite Nat.div_add_l by lia. lia.
Qed.

Lemma div_up_covers n m : (0 < m)%nat -> (n <= div_up n m * m)%nat.
Proof.
  intros Hm. unfold div_up.
  pose proof (Nat.div_mod_eq (n + m - 1) m) as Hd.
  pose proof (Nat.mod_upper_bound (n + m - 1) m ltac:(lia)) as Hu.
  nia.
Qed.

Lemma firstn_plus {A} (a b : nat) (l : list A) :
  firstn (a + b) l = firstn a l ++ firstn b (skipn a l).
Proof.
  revert l. induction a as [|a IH]; intros l; [reflexivity|].
  destruct l as [|x l]; [cbn; destruct b; reflexivity|].
  cbn [Nat.add firstn skipn app]. rewrite IH. reflexivity.
Qed.

Lemma chunks_prefix m val n :
  concat (map (chunk_of m val) (seq 0 n)) = firstn (n * m) val.
Proof.
  induction n as [|n IH]; [reflexivity|].
  rewrite seq_S, map_app, concat_app, IH. cbn [map concat Nat.add].
  rewrite app_nil_r. unfold chunk_of.
  replace (S n * m)%nat with (n * m + m)%nat by lia.
  symmetry. apply firstn_plus.
Qed.

Lemma chunks_cover m val :
  (0 < m)%nat ->
  concat (map (chunk_of m val) (seq 0 (div_up (length val) m))) = val.
Proof.
  intros Hm. rewrite chunks_prefix. apply firstn_all2, div_up_covers, Hm.
Qed.

Lemma iqs9150_write_burst_any mode reg msg w :
  exists ret w',
    Iqs9150.__iqs9150_write_burst mode reg msg w = Ok (ret, w') /\
    (ret = 0 \/ ret < 0).
Proof.
  rewrite iqs9150_write_burst_alloc. destruct (mem w (mem_n w)).
  - destruct (write_burst_loop_meets_spec (Iqs9150.iqs9150_force_comms mode) 50
                (le16_bytes reg ++ msg)
                (iqs9150_force_comms_total mode)
                (iqs9150_force_comms_emits mode) (allocated w))
      as (ret & w' & Hrun & Hsign & _).
    exists ret, w'. split; [exact Hrun|exact Hsign].
  - exists (- ENOMEM), (allocated w). split; [reflexivity|].
    right. unfold ENOMEM. lia.
Qed.

Lemma write_each_any (write : nat -> M world Z) ks :
  (forall k w, exists ret w', write k w = Ok (ret, w') /\ (ret = 0 \/ ret < 0)) ->
  forall w, exists ret w', write_each write ks w = Ok (ret, w') /\ (ret = 0 \/ ret < 0).
Proof.
  intros Hw. induction ks as [|k ks IH]; intros w; cbn [write_each].
  - exists 0, w. split; [reflexivity|left; reflexivity].
  - destruct (Hw k w) as (ret & w' & Hrun & Hsign).
    rewrite (bind_ok _ _ _ _ _ Hrun).
    destruct Hsign as [->|Hneg].
    + rewrite truthy_0. apply IH.
    + assert (Ht : truthy ret = true) by (apply truthy_true; lia).
      rewrite Ht. exists ret, w'. split; [reflexivity|right; exact Hneg].
Qed.

(** The loop with [rem] bytes left is the chunks from [k] on. *)
Lemma iqs9150_write_chunks_spec MAX_LEN mode reg val fuel :
  0 < MAX_LEN -> Z.of_nat (length val) <= 65535 ->
  let m := Z.to_nat MAX_LEN in
  forall k rem error w,
    (rem < fuel)%nat -> ((0 < rem)%nat -> (k * m + rem = length val)%nat) ->
    (rem = 0%nat -> error = 0) ->
    Iqs9150.iqs9150_write_chunks fuel MAX_LEN mode reg val
      (Z.of_nat (length val)) (Z.of_nat rem) error w
    = write_each (fun k => Iqs9150.__iqs9150_write_burst mode
                             (u16 (reg + Z.of_nat (k * m))) (chunk_of m val k))
                 (seq k (div_up rem m)) w.
Proof.
  intros Hmax Hlen m. induction fuel as [|fuel IH]; intros k rem error w Hf Hk He; [lia|].
  cbn [Iqs9150.iqs9150_write_chunks].
  assert (Hm : (0 < m)%nat) by (unfold m; lia).
  destruct rem as [|rem'].
  - change (Z.of_nat 0) with 0. rewrite truthy_0. cbn [negb]. rewrite He by reflexivity.
    unfold div_up. rewrite (Nat.div_small (0 + m - 1) m) by lia. reflexivity.
  - set (rem := S rem') in *. specialize (Hk ltac:(lia)).
    assert (Ht : truthy (Z.of_nat rem) = true) by (apply truthy_true; lia).
    rewrite Ht. cbn [negb]. cbv zeta.
    assert (Hb : u16 (Z.min (Z.of_nat rem) MAX_LEN) = Z.of_nat (Nat.min rem m)).
    { rewrite u16_small by lia. unfold m. lia. }
    assert (Ho : u16 (Z.of_nat (length val) - Z.of_nat rem) = Z.of_nat (k * m)).
    { rewrite u16_small by lia. lia. }
    rewrite Hb, Ho. unfold Iqs9150.bytes_at.
    destruct (Z.leb_spec (Z.of_nat (k * m) + Z.of_nat (Nat.min rem m))
                         (Z.of_nat (length val))) as [_|Hbad]; [|lia].
    rewrite !Nat2Z.id.
    assert (Hchunk : firstn (Nat.min rem m) (skipn (k * m) val) = chunk_of m val k).
    { unfold chunk_of. destruct (Nat.le_gt_cases rem m) as [Hle|Hgt].
      - rewrite Nat.min_l by exact Hle.
        rewrite !firstn_all2; [reflexivity| |]; rewrite length_skipn; lia.
      - rewrite Nat.min_r by lia. reflexivity. }
    rewrite Hchunk. rewrite (div_up_step rem m) by lia. cbn [seq write_each].
    unfold bind.
    destruct (Iqs9150.__iqs9150_write_burst mode (u16 (reg + Z.of_nat (k * m)))
                (chunk_of m val k) w) as [[e w1]| |] eqn:Hrun; try reflexivity.
    destruct (truthy e) eqn:Hte; [reflexivity|].
    assert (Hr : u16 (Z.of_nat rem - Z.of_nat (Nat.min rem m))
                 = Z.of_nat (rem - Nat.min rem m)).
    { rewrite u16_small by lia. lia. }
    rewrite Hr. apply IH; [lia|nia|].
    intros _. apply truthy_false. exact Hte.
Qed.

(** X24. [iqs9150_write_burst] cuts a buffer of up to 65535 bytes into
    chunks of a page, the last one shorter when the length is no
    multiple of the page size, and writes chunk [k] with one
    [__iqs9150_write_burst] at the register address advanced by [k]
    pages, modulo 65536.  The chunks are written in order, they cover
    the buffer exactly, and the first chunk that fails ends the write
    with its error; the write always returns, with 0 or a negative
    error, and an empty buffer returns 0 without touching the bus. *)
Theorem iqs9150_write_burst_chunks MAX_LEN mode reg val :
  0 < MAX_LEN -> Z.of_nat (length val) <= 65535 ->
  let m := Z.to_nat MAX_LEN in
  let chunks := seq 0 (div_up (length val) m) in
  (forall w,
     Iqs9150.iqs9150_write_burst MAX_LEN mode reg val (Z.of_nat (length val)) w
     = write_each (fun k => Iqs9150.__iqs9150_write_burst mode
                              (u16 (reg + Z.of_nat (k * m))) (chunk_of m val k))
                  chunks w) /\
  concat (map (chunk_of m val) chunks) = val /\
  (forall k, In k chunks -> (0 < length (chunk_of m val k) <= m)%nat) /\
  (forall w, exists ret w',
     Iqs9150.iqs9150_write_burst MAX_LEN mode reg val (Z.of_nat (length val)) w
     = Ok (ret, w') /\ (ret = 0 \/ ret < 0)) /\
  (val = [] ->
   forall w, Iqs9150.iqs9150_write_burst MAX_LEN mode reg val 0 w = Ok (0, w)).
Proof.
  intros Hmax Hlen. cbv zeta.
  assert (Hm : (0 < Z.to_nat MAX_LEN)%nat) by lia.
  assert (Hrun : forall w,
     Iqs9150.iqs9150_write_burst MAX_LEN mode reg val (Z.of_nat (length val)) w
     = write_each (fun k => Iqs9150.__iqs9150_write_burst mode
                              (u16 (reg + Z.of_nat (k * Z.to_nat MAX_LEN)))
                              (chunk_of (Z.to_nat MAX_LEN) val k))
                  (seq 0 (div_up (length val) (Z.to_nat MAX_LEN))) w).
  { intros w. unfold Iqs9150.iqs9150_write_burst. cbv zeta.
    rewrite u16_small by lia. rewrite Nat2Z.id.
    apply (iqs9150_write_chunks_spec MAX_LEN mode reg val _ Hmax Hlen 0%nat);
      [lia|lia|reflexivity]. }
  split; [exact Hrun|]. split; [apply chunks_cover, Hm|]. split.
  - intros k Hk. apply in_seq in Hk. unfold chunk_of.
    rewrite length_firstn, length_skipn.
    assert (Hlt : (k * Z.to_nat MAX_LEN < length val)%nat).
    { destruct (Nat.le_gt_cases (length val) (k * Z.to_nat MAX_LEN)) as [Hge|Hlt];
        [|exact Hlt].
      exfalso. unfold div_up in Hk.
      assert (Hq : ((length val + Z.to_nat MAX_LEN - 1) / Z.to_nat MAX_LEN < S k)%nat).
      { apply Nat.Div0.div_lt_upper_bound. nia. }
      lia. }
    lia.
  - split.
    + intros w. rewrite Hrun. apply write_each_any.
      intros k w0. apply iqs9150_write_burst_any.
    + intros -> w. reflexivity.
Qed.

Lemma iqs9150_write_burst_chunks_witness :
  let w := stub [] 1 [] 1 [] 2 [] [] 1 in
  Iqs9150.iqs9150_write_burst 4 Iqs9150.IQS9150_COMMS_MODE_FREE 0x1000
    [1; 2; 3; 4; 5; 6] 6 w
  = write_each (fun k => Iqs9150.__iqs9150_write_burst
                           Iqs9150.IQS9150_COMMS_MODE_FREE
                           (u16 (0x1000 + Z.of_nat (k * 4)))
                           (chunk_of 4 [1; 2; 3; 4; 5; 6] k))
               [0; 1]%nat w.
Proof.
  intros w.
  destruct (iqs9150_write_burst_chunks 4 Iqs9150.IQS9150_COMMS_MODE_FREE 0x1000
              [1; 2; 3; 4; 5; 6]) as [Hrun _].
  - lia.
  - cbn. lia.
  - exact (Hrun w).
Defined.

(** ** Reading the configuration of the IQS7219A *)

Lemma store_words_all ws l :
  length l = length ws -> store_words 0 ws l = ws.
Proof.
  intros Hl. unfold store_words. rewrite Nat.sub_0_r, Hl. cbn [take app Nat.add].
  rewrite firstn_all. rewrite skipn_all2 by lia. apply app_nil_r.
Qed.

Lemma iqs7219_write_comms_runs event_mask p :
  good (Iqs7219.io p) -> reads (Iqs7219.io p) 0 <> COMMS_ERROR ->
  Iqs7219.iqs7219_write_comms event_mask p =
  Ok (0, if truthy (Iqs7219.comms_setup p)
         then Iqs7219.set_io
                (slept 50
                   (sent ([Iqs7219.comms_setup p] ++
                          le16_bytes
                            (u16_or (u16_clear (reads (Iqs7219.io p) 0)
                                       (Z.lor Iqs7219.IQS7219_COMMS_HOLD
                                              Iqs7219.IQS7219_EVENT_MASK_ALL))
                                    event_mask))
                      (sampled
                         (allocated (slept 50
                            (xferred [Iqs7219.comms_setup p] 1
                               (sampled (Iqs7219.io p)))))))) p
         else p).
Proof.
  intros Hg Hd. unfold Iqs7219.iqs7219_write_comms. unfold bind at 1. unfold get at 1.
  destruct (truthy (Iqs7219.comms_setup p)); cbn [negb]; [|reflexivity].
  unfold bind at 1. unfold Iqs7219.with_io at 1.
  unfold Iqs7219.iqs7219_read_word, Iqs7219.iqs7219_settle.
  rewrite (read_word_good Iqs7219.iqs7219_force_comms 50 100 iqs7219_force_comms_good
             [Iqs7219.comms_setup p] 0 (Iqs7219.io p) Hg Hd).
  cbn [fst snd]. rewrite truthy_0.
  rewrite iqs7219_write_word_runs by exact Hg.
  destruct p; reflexivity.
Qed.

Lemma dev_init_grps_read_step i g b rest p :
  Iqs7219.iqs7219_reg_grps !! i = Some g ->
  Iqs7219.iqs7219_setup i 0 = Some (b, 0%nat) ->
  (0 < Iqs7219.num_row g * Iqs7219.num_col g)%nat ->
  good (Iqs7219.io p) -> reads (Iqs7219.io p) 0 <> COMMS_ERROR ->
  Iqs7219.dev_init_grps (i :: rest) Iqs7219.READ p =
  Iqs7219.dev_init_grps rest Iqs7219.READ
    (Iqs7219.set_buf b
       (store_words 0
          (words_of (Iqs7219.io p) (xfer_n (Iqs7219.io p))
                    (Iqs7219.num_row g * Iqs7219.num_col g))
          (Iqs7219.get_buf b p))
       (Iqs7219.set_io
          (slept 50 (xferred [Iqs7219.base g]
                             (Iqs7219.num_row g * Iqs7219.num_col g)
                             (sampled (allocated (Iqs7219.io p))))) p)).
Proof.
  intros Hgrp Hset Hn Hg Hd. cbv zeta. cbn [Iqs7219.dev_init_grps].
  rewrite Hgrp, Hset.
  rewrite (bind_ok _ _ _ _ _ (iqs7219_kzalloc_good p Hg)). cbn [negb].
  unfold bind at 1. unfold get at 1.
  change (Iqs7219.READ =? Iqs7219.READ) with true. cbv iota.
  unfold bind at 1. unfold bind at 1. unfold Iqs7219.with_io at 1.
  unfold Iqs7219.iqs7219_read_burst, Iqs7219.iqs7219_settle.
  rewrite (read_burst_good Iqs7219.iqs7219_force_comms 50 100 iqs7219_force_comms_good
             [Iqs7219.base g] (repeat 0 (Iqs7219.num_row g * Iqs7219.num_col g))
             (Iqs7219.io (Iqs7219.set_io (allocated (Iqs7219.io p)) p))).
  - rewrite repeat_length. unfold bind, modify, pure. cbn [fst snd].
    rewrite truthy_0. destruct p, b; reflexivity.
  - destruct p; apply good_allocated, Hg.
  - destruct (Iqs7219.num_row g * Iqs7219.num_col g)%nat; [lia|discriminate].
  - destruct p; exact Hd.
Qed.

(** A group buffer that cannot be obtained ends the loop over the
    register groups at once. *)
Lemma iqs7219_dev_init_grps_enomem i g s rest dir p :
  Iqs7219.iqs7219_reg_grps !! i = Some g ->
  Iqs7219.iqs7219_setup i 0 = Some s ->
  mem (Iqs7219.io p) (mem_n (Iqs7219.io p)) = false ->
  Iqs7219.dev_init_grps (i :: rest) dir p =
  Ok (- ENOMEM, Iqs7219.set_io (allocated (Iqs7219.io p)) p).
Proof.
  intros Hgrp Hset Hm. cbn [Iqs7219.dev_init_grps]. rewrite Hgrp, Hset.
  destruct s as [b off].
  unfold bind at 1. unfold Iqs7219.with_io at 1. unfold kzalloc.
  rewrite Hm. reflexivity.
Qed.

(** Without a communication setup the first thing
    [iqs7219_dev_init] does in the read direction is to obtain the
    buffer of the first register group. *)
Lemma iqs7219_dev_init_read_enomem p :
  Iqs7219.comms_setup p = 0 ->
  mem (Iqs7219.io p) (mem_n (Iqs7219.io p)) = false ->
  Iqs7219.iqs7219_dev_init Iqs7219.READ p
  = Ok (- ENOMEM, Iqs7219.set_io (allocated (Iqs7219.io p)) p).
Proof.
  intros Hcs Hm. unfold Iqs7219.iqs7219_dev_init.
  unfold bind at 1. unfold get at 1.
  change (Iqs7219.READ =? Iqs7219.WRITE) with false. cbv iota.
  unfold bind at 1. unfold pure at 1. rewrite truthy_0.
  assert (Hc : forall m, Iqs7219.iqs7219_write_comms m p = Ok (0, p)).
  { intros m. unfold Iqs7219.iqs7219_write_comms.
    unfold bind at 1. unfold get at 1. rewrite Hcs, truthy_0. reflexivity. }
  rewrite (bind_ok _ _ _ _ _ (Hc _)). rewrite truthy_0.
  change (seq 0 Iqs7219.IQS7219_NUM_REG_GRPS) with [0; 1; 2; 3; 4; 5; 6; 7]%nat.
  erewrite (bind_ok _ _ _ _ _
              (iqs7219_dev_init_grps_enomem 0 _ _ _ Iqs7219.READ p eq_refl eq_refl Hm)).
  reflexivity.
Qed.

(** X25. Reading the configuration of the IQS7219A.  On a bus that
    works, with every buffer obtained and no answer equal to the
    sentinel 0xEEEE, [iqs7219_dev_init] in the read direction returns 0
    with every image of the driver data holding the words of its own
    register group: the eight groups are read in table order, one
    buffer and one transfer each, after the read of the communication
    setup when the device has one.  The only messages sent are the two
    writes of the communication setup, each with a buffer of its own,
    none when the device has no such register, so no register group is
    written, the reset is not acknowledged and ATI is not triggered;
    the interface mode and the event masks are left as they were.
    Without memory the function fails instead: when the device has no
    communication setup and the buffer of the first group is refused,
    it returns -ENOMEM with no bus traffic and every image as it
    was. *)
Theorem iqs7219_dev_init_reads_the_images p :
  iqs7219_images_sized p ->
  let w := Iqs7219.io p in
  let c := comms_reads p in
  let image j n := words_of w (j + c + xfer_n w) n in
  (good w -> onward is_data w ->
   exists p',
    Iqs7219.iqs7219_dev_init Iqs7219.READ p = Ok (0, p') /\
    Iqs7219.ati_setup p' = image 0%nat 10%nat /\
    Iqs7219.sys_setup p' = image 1%nat 10%nat /\
    Iqs7219.pxs_setup p' = image 2%nat 2%nat /\
    Iqs7219.cap_setup p' = nth 0 (image 3%nat 1%nat) 0 /\
    Iqs7219.event_setup p' = [image 4%nat 15%nat; image 5%nat 15%nat] /\
    Iqs7219.chan_setup p' = [image 6%nat 13%nat; image 7%nat 13%nat] /\
    xfer_n (Iqs7219.io p') = (8 + 2 * c + xfer_n w)%nat /\
    send_n (Iqs7219.io p') = (2 * c + send_n w)%nat /\
    mem_n (Iqs7219.io p') = (8 + 2 * c + mem_n w)%nat /\
    Iqs7219.intf_mode p' = Iqs7219.intf_mode p /\
    Iqs7219.event_mask p' = Iqs7219.event_mask p) /\
  (Iqs7219.comms_setup p = 0 -> mem w (mem_n w) = false ->
   Iqs7219.iqs7219_dev_init Iqs7219.READ p
   = Ok (- ENOMEM, Iqs7219.set_io (allocated w) p)).
Proof.
  intros (Hati & Hsys & Hpxs & Hev & Hch). cbv zeta.
  split; [intros Hg Hq|intros Hcs Hm; apply (iqs7219_dev_init_read_enomem p Hcs Hm)].
  assert (Hd : forall w', xfer_word w' = xfer_word (Iqs7219.io p) ->
                          (xfer_n (Iqs7219.io p) <= xfer_n w')%nat ->
                          reads w' 0 <> COMMS_ERROR).
  { intros w' Hw Hn. unfold reads. rewrite Hw, Nat.add_0_r.
    specialize (Hq (xfer_n w' - xfer_n (Iqs7219.io p))%nat).
    unfold is_data, reads in Hq.
    replace (xfer_n (Iqs7219.io p) + (xfer_n w' - xfer_n (Iqs7219.io p)))%nat
      with (xfer_n w') in Hq by lia.
    exact Hq. }
  unfold comms_reads.
  destruct p as [rg w pf im ati sys pxs cap ev ch em cs sd ee tv te ts sm pu tp].
  cbn [Iqs7219.io Iqs7219.ati_setup Iqs7219.sys_setup Iqs7219.pxs_setup
       Iqs7219.event_setup Iqs7219.chan_setup Iqs7219.comms_setup
       Iqs7219.intf_mode Iqs7219.event_mask] in *.
  destruct ev as [|e0 [|e1 [|e2 ev]]]; try discriminate.
  destruct ch as [|c0 [|c1 [|c2 ch]]]; try discriminate.
  injection Hev as He0 He1. injection Hch as Hc0 Hc1.
  unfold Iqs7219.iqs7219_dev_init. unfold bind at 1. unfold get at 1.
  change (Iqs7219.READ =? Iqs7219.WRITE) with false. cbv iota.
  unfold bind at 1. unfold pure at 1. rewrite truthy_0.
  match goal with |- context [bind (Iqs7219.iqs7219_write_comms ?m) _ ?q] =>
    rewrite (bind_ok _ _ _ _ _ (iqs7219_write_comms_runs m q Hg
               (Hd _ eq_refl (Nat.le_refl _)))) end.
  rewrite truthy_0.
  cbn [Iqs7219.comms_setup Iqs7219.io].
  change (seq 0 Iqs7219.IQS7219_NUM_REG_GRPS) with [0; 1; 2; 3; 4; 5; 6; 7]%nat.
  assert (Hgrps : forall q,
            good (Iqs7219.io q) -> xfer_word (Iqs7219.io q) = xfer_word w ->
            (xfer_n w <= xfer_n (Iqs7219.io q))%nat ->
            Iqs7219.ati_setup q = ati -> Iqs7219.sys_setup q = sys ->
            Iqs7219.pxs_setup q = pxs -> Iqs7219.event_setup q = [e0; e1] ->
            Iqs7219.chan_setup q = [c0; c1] ->
            exists q8,
              Iqs7219.dev_init_grps [0; 1; 2; 3; 4; 5; 6; 7]%nat Iqs7219.READ q
              = Ok (0, q8) /\
              good (Iqs7219.io q8) /\
              xfer_word (Iqs7219.io q8) = xfer_word w /\
              let x := xfer_n (Iqs7219.io q) in
              Iqs7219.ati_setup q8 = words_of w (0 + x) 10 /\
              Iqs7219.sys_setup q8 = words_of w (1 + x) 10 /\
              Iqs7219.pxs_setup q8 = words_of w (2 + x) 2 /\
              Iqs7219.cap_setup q8 = nth 0 (words_of w (3 + x) 1) 0 /\
              Iqs7219.event_setup q8 = [words_of w (4 + x) 15; words_of w (5 + x) 15] /\
              Iqs7219.chan_setup q8 = [words_of w (6 + x) 13; words_of w (7 + x) 13] /\
              xfer_n (Iqs7219.io q8) = (8 + x)%nat /\
              send_n (Iqs7219.io q8) = send_n (Iqs7219.io q) /\
              mem_n (Iqs7219.io q8) = (8 + mem_n (Iqs7219.io q))%nat /\
              Iqs7219.intf_mode q8 = Iqs7219.intf_mode q /\
              Iqs7219.event_mask q8 = Iqs7219.event_mask q /\
              Iqs7219.comms_setup q8 = Iqs7219.comms_setup q /\
              Iqs7219.trig_enable q8 = Iqs7219.trig_enable q /\
              Iqs7219.event_enable q8 = Iqs7219.event_enable q).
  { intros q Hgq Hwq Hxq Ha Hs Hp He Hc.
    destruct q as [rg' w' pf' im' ati' sys' pxs' cap' ev' ch' em' cs' sd' ee' tv'
                   te' ts' sm' pu' tp'].
    cbn [Iqs7219.io Iqs7219.ati_setup Iqs7219.sys_setup Iqs7219.pxs_setup
         Iqs7219.event_setup Iqs7219.chan_setup Iqs7219.comms_setup
         Iqs7219.intf_mode Iqs7219.event_mask Iqs7219.trig_enable
         Iqs7219.event_enable] in *.
    subst ati' sys' pxs' ev' ch'.
    eexists. split.
    { do 8 (erewrite dev_init_grps_read_step;
            [ | reflexivity | reflexivity | cbn; lia | exact Hgq
              | apply Hd; [exact Hwq
                         | simpl; lia] ];
            cbn [Iqs7219.set_buf Iqs7219.get_buf Iqs7219.set_io
                 Iqs7219.set_ati_setup Iqs7219.set_sys_setup Iqs7219.set_pxs_setup
                 Iqs7219.set_cap_setup Iqs7219.set_event_setup
                 Iqs7219.set_chan_setup
                 Iqs7219.reset_gpio Iqs7219.io Iqs7219.pxs_flags
                 Iqs7219.intf_mode Iqs7219.ati_setup Iqs7219.sys_setup
                 Iqs7219.pxs_setup Iqs7219.cap_setup Iqs7219.event_setup
                 Iqs7219.chan_setup Iqs7219.event_mask Iqs7219.comms_setup
                 Iqs7219.scan_data Iqs7219.event_enable Iqs7219.trig_valid
                 Iqs7219.trig_enable Iqs7219.timestamp Iqs7219.scan_mux
                 Iqs7219.pushed Iqs7219.trig_polls]).
      cbn [Iqs7219.dev_init_grps]. reflexivity. }
    split; [exact Hgq|]. split; [exact Hwq|]. cbv zeta.
    simpl.
    rewrite !store_words_all by (rewrite length_words_of; assumption).
    unfold words_of. simpl. rewrite !Hwq.
    repeat split. }
  match goal with |- context [bind (Iqs7219.dev_init_grps _ _) _ ?q] =>
    set (q0 := q) end.
  assert (Hg0 : good (Iqs7219.io q0)) by (unfold q0; destruct (truthy cs); exact Hg).
  assert (Hw0 : xfer_word (Iqs7219.io q0) = xfer_word w)
    by (unfold q0; destruct (truthy cs); reflexivity).
  assert (Hx0 : xfer_n (Iqs7219.io q0)
                = ((if truthy cs then 1 else 0) + xfer_n w)%nat)
    by (unfold q0; destruct (truthy cs); reflexivity).
  assert (Hs0 : send_n (Iqs7219.io q0)
                = ((if truthy cs then 1 else 0) + send_n w)%nat)
    by (unfold q0; destruct (truthy cs); reflexivity).
  assert (Hm0 : mem_n (Iqs7219.io q0)
                = ((if truthy cs then 1 else 0) + mem_n w)%nat)
    by (unfold q0; destruct (truthy cs); reflexivity).
  destruct (Hgrps q0 Hg0 Hw0 ltac:(lia)
              ltac:(unfold q0; destruct (truthy cs); reflexivity)
              ltac:(unfold q0; destruct (truthy cs); reflexivity)
              ltac:(unfold q0; destruct (truthy cs); reflexivity)
              ltac:(unfold q0; destruct (truthy cs); reflexivity)
              ltac:(unfold q0; destruct (truthy cs); reflexivity))
    as (q8 & Hrun & Hg8 & Hw8 & Hfacts).
  cbv zeta in Hfacts.
  destruct Hfacts as (Ha8 & Hsy8 & Hp8 & Hcap8 & He8 & Hc8 & Hx8 & Hs8 & Hm8 & Him8 & Hem8
                      & Hcs8 & _ & _).
  rewrite (bind_ok _ _ _ _ _ Hrun). rewrite truthy_0.
  unfold bind at 1. unfold get at 1.
  rewrite (bind_ok _ _ _ _ _ (iqs7219_write_comms_runs _ q8 Hg8
             (Hd _ Hw8 ltac:(lia)))).
  rewrite truthy_0. change (Iqs7219.READ =? Iqs7219.READ) with true. cbv iota.
  unfold pure. eexists. split; [reflexivity|].
  assert (Hcs0 : Iqs7219.comms_setup q0 = cs)
    by (unfold q0; destruct (truthy cs); reflexivity).
  assert (Him0 : Iqs7219.intf_mode q0 = im)
    by (unfold q0; destruct (truthy cs); reflexivity).
  assert (Hem0 : Iqs7219.event_mask q0 = em)
    by (unfold q0; destruct (truthy cs); reflexivity).
  rewrite Hcs8, Hcs0. rewrite Him0 in Him8. rewrite Hem0 in Hem8.
  clearbody q0.
  rewrite Hx0 in *. rewrite Hs0 in *. rewrite Hm0 in *.
  destruct (truthy cs);
    cbn [Iqs7219.set_io Iqs7219.io Iqs7219.ati_setup Iqs7219.sys_setup
         Iqs7219.pxs_setup Iqs7219.cap_setup Iqs7219.event_setup
         Iqs7219.chan_setup Iqs7219.intf_mode Iqs7219.event_mask];
    rewrite Ha8, Hsy8, Hp8, Hcap8, He8, Hc8, Him8, Hem8;
    repeat match goal with
      | |- context [xfer_n (slept ?a ?b)] =>
          change (xfer_n (slept a b)) with (S (xfer_n (Iqs7219.io q8)))
      | |- context [send_n (slept ?a ?b)] =>
          change (send_n (slept a b)) with (S (send_n (Iqs7219.io q8)))
      | |- context [mem_n (slept ?a ?b)] =>
          change (mem_n (slept a b)) with (S (mem_n (Iqs7219.io q8)))
      end;
    rewrite Hx8, Hs8, Hm8;
    repeat split; reflexivity.
Qed.

Lemma iqs7219_dev_init_reads_the_images_witness :
  let p := iqs7219_example (stub [] 1 [] 1 [] 2 [[1]; [2]; [3]; [4]] [] 1) 0
                           [false; false] in
  exists p',
    Iqs7219.iqs7219_dev_init Iqs7219.READ p = Ok (0, p') /\
    Iqs7219.cap_setup p' = 4 /\
    xfer_n (Iqs7219.io p') = 8%nat /\ send_n (Iqs7219.io p') = 0%nat /\
    mem_n (Iqs7219.io p') = 8%nat.
Proof.
  intros p.
  destruct (iqs7219_dev_init_reads_the_images p) as [Hread _].
  - repeat split.
  - destruct Hread as (p' & Hrun & _ & _ & _ & Hcap & _ & _ & Hx & Hs & Hm & _).
    + apply good_stub.
    + intros k. unfold is_data, reads.
      do 5 (destruct k as [|k]; [vm_compute; discriminate|]).
      vm_compute. destruct k; discriminate.
    + exists p'. split; [exact Hrun|]. split; [exact Hcap|]. split; [exact Hx|].
      split; [exact Hs|exact Hm].
Defined.

(** ** The loop over the descriptors *)

Lemma pairwise_spec {A} (r : A -> A -> bool) l :
  pairwise r l = true -> ForallOrdPairs (fun a b => r a b = true) l.
Proof.
  induction l as [|a l IH]; intros H; [constructor|].
  cbn in H. apply andb_prop in H. destruct H as [Ha Hl].
  constructor; [|apply IH, Hl].
  apply List.Forall_forall. intros b Hb.
  rewrite forallb_forall in Ha. apply Ha, Hb.
Qed.

Lemma ForallOrdPairs_mono {A} (R S : A -> A -> Prop) l :
  (forall a b, R a b -> S a b) -> ForallOrdPairs R l -> ForallOrdPairs S l.
Proof.
  intros HRS H. induction H as [|a l Ha Hl IH]; constructor; [|exact IH].
  rewrite List.Forall_forall in *. intros b Hb. apply HRS, Ha, Hb.
Qed.

Lemma spans_apart_spec i1 s1 w1 i2 s2 w2 i k :
  spans_apart i1 s1 w1 i2 s2 w2 = true ->
  in_span i1 s1 w1 i k -> in_span i2 s2 w2 i k -> False.
Proof.
  unfold spans_apart, in_span. intros H [-> H1] [E H2].
  apply negb_true_iff in H.
  destruct (Nat.eqb_spec i1 i2); [|congruence].
  destruct (Z.ltb_spec s1 (s2 + w2)); [|lia].
  destruct (Z.ltb_spec s2 (s1 + w1)); [|lia].
  discriminate.
Qed.

Section PropsLoop.
Context {D : Type}.
Variable sel : D -> bool.
Variable step : D -> list Z -> option Z * list Z.
Variable idx : D -> nat.
Variable lo wd : D -> Z.
Variable okd : D -> Prop.
Variable loop : list D -> list Z -> Z * list Z.

Hypothesis loop_nil : forall s, loop [] s = (0, s).
Hypothesis loop_cons : forall d l s,
  loop (d :: l) s =
  if sel d then
    match step d s with
    | (Some e, s') => (e, s')
    | (None, s') => loop l s'
    end
  else loop l s.
Hypothesis ok_span : forall d, okd d -> 0 <= lo d /\ lo d + wd d <= 16.

(** One pass either returns an error and leaves the image, or leaves the
    image, or writes its own span with bits that do not depend on the
    image. *)
Hypothesis step_shape : forall d, okd d ->
  (exists e, e <> 0 /\
     forall s, (idx d < length s)%nat -> step d s = (Some e, s)) \/
  (forall s, (idx d < length s)%nat -> step d s = (None, s)) \/
  (exists f : Z -> bool, forall s, (idx d < length s)%nat ->
     fst (step d s) = None /\ length (snd (step d s)) = length s /\
     (forall i k, 0 <= k < 16 -> ~ in_span (idx d) (lo d) (wd d) i k ->
        bit_at (snd (step d s)) i k = bit_at s i k) /\
     (forall k, lo d <= k < lo d + wd d ->
        bit_at (snd (step d s)) (idx d) k = f k)).

Lemma step_frame d s :
  okd d -> (idx d < length s)%nat ->
  length (snd (step d s)) = length s /\
  forall i k, 0 <= k < 16 -> ~ in_span (idx d) (lo d) (wd d) i k ->
    bit_at (snd (step d s)) i k = bit_at s i k.
Proof using step_shape.
  intros Hok Hs.
  destruct (step_shape d Hok) as [(e & _ & H)|[H|(f & H)]].
  - rewrite (H s Hs). split; reflexivity.
  - rewrite (H s Hs). split; reflexivity.
  - destruct (H s Hs) as (_ & Hl & Hf & _). split; assumption.
Qed.

Lemma step_local d s1 s2 :
  okd d -> (idx d < length s1)%nat -> (idx d < length s2)%nat ->
  (forall k, lo d <= k < lo d + wd d ->
     bit_at s1 (idx d) k = bit_at s2 (idx d) k) ->
  fst (step d s1) = fst (step d s2) /\
  forall k, lo d <= k < lo d + wd d ->
    bit_at (snd (step d s1)) (idx d) k = bit_at (snd (step d s2)) (idx d) k.
Proof using step_shape.
  intros Hok H1 H2 Hagree.
  destruct (step_shape d Hok) as [(e & _ & H)|[H|(f & H)]].
  - rewrite (H s1 H1), (H s2 H2). split; [reflexivity|exact Hagree].
  - rewrite (H s1 H1), (H s2 H2). split; [reflexivity|exact Hagree].
  - destruct (H s1 H1) as (F1 & _ & _ & B1).
    destruct (H s2 H2) as (F2 & _ & _ & B2).
    split; [congruence|]. intros k Hk. rewrite B1, B2 by exact Hk. reflexivity.
Qed.

Lemma step_fails d s e :
  okd d -> (idx d < length s)%nat -> fst (step d s) = Some e ->
  e <> 0 /\ snd (step d s) = s.
Proof using step_shape.
  intros Hok Hs He.
  destruct (step_shape d Hok) as [(e' & Hne & H)|[H|(f & H)]].
  - rewrite (H s Hs) in *. cbn in *. split; congruence.
  - rewrite (H s Hs) in He. discriminate.
  - destruct (H s Hs) as (F & _). congruence.
Qed.

Lemma props_loop_spec l :
  Forall okd l ->
  ForallOrdPairs
    (fun a b => sel a = true -> sel b = true ->
                forall i k, in_span (idx a) (lo a) (wd a) i k ->
                            in_span (idx b) (lo b) (wd b) i k -> False) l ->
  forall s,
  (forall d, In d l -> sel d = true -> (idx d < length s)%nat) ->
  loop_leaves sel step idx lo wd l s (fst (loop l s)) (snd (loop l s)).
Proof using loop_nil loop_cons ok_span step_shape.
  unfold loop_leaves.
  induction l as [|a l IH]; intros Hok Hdis s Hfit.
  { rewrite loop_nil. cbn [fst snd].
    split; [reflexivity|]. split; [reflexivity|].
    split; [intros d []|]. split; [intros _ d []|].
    split; [intros d e []|]. intros H. contradiction. }
  inversion Hok as [|? ? Hoka Hokl]; subst.
  inversion Hdis as [|? ? Hal Hdl]; subst.
  rewrite List.Forall_forall in Hal.
  assert (Hfitl : forall s' : list Z, length s' = length s ->
                  forall d, In d l -> sel d = true -> (idx d < length s')%nat).
  { intros s' Hl d Hd Hs. rewrite Hl. apply Hfit; [right; exact Hd|exact Hs]. }
  assert (Hokd : forall d, In d l -> okd d)
    by (apply List.Forall_forall; exact Hokl).
  rewrite loop_cons.
  destruct (sel a) eqn:Ha.
  - assert (Hia : (idx a < length s)%nat)
      by (apply Hfit; [left; reflexivity|exact Ha]).
    destruct (step a s) as [[e|] s1] eqn:Hstep.
    + (* the pass of [a] returns an error *)
      destruct (step_fails a s e Hoka Hia) as [Hne Hs1];
        [rewrite Hstep; reflexivity|].
      rewrite Hstep in Hs1. cbn [snd] in Hs1. subst s1. cbn [fst snd].
      split; [reflexivity|]. split; [reflexivity|].
      split; [intros d _ _; right; split; [exact Hne|reflexivity]|].
      split; [intros H; contradiction|].
      split; [intros d e' _ _ _; exact Hne|].
      intros _. exists a. split; [left; reflexivity|]. split; [exact Ha|].
      rewrite Hstep. reflexivity.
    + (* the loop goes on from the image the pass leaves *)
      destruct (step_frame a s Hoka Hia) as [La Fa].
      rewrite Hstep in La, Fa. cbn [snd] in La, Fa.
      destruct (IH Hokl Hdl s1 (Hfitl s1 La)) as (L & F & P & Z0 & E & X).
      assert (Hagree : forall d, In d l -> sel d = true ->
                forall k, lo d <= k < lo d + wd d ->
                  bit_at s1 (idx d) k = bit_at s (idx d) k).
      { intros d Hd Hs k Hk. destruct (ok_span d (Hokd d Hd)).
        apply Fa; [lia|]. intros Hin.
        apply (Hal d Hd eq_refl Hs (idx d) k Hin). split; [reflexivity|exact Hk]. }
      assert (Hown : forall k, lo a <= k < lo a + wd a ->
                bit_at (snd (loop l s1)) (idx a) k = bit_at s1 (idx a) k).
      { intros k Hk. destruct (ok_span a Hoka). apply F; [lia|].
        intros d Hd Hs Hin.
        apply (Hal d Hd eq_refl Hs (idx a) k); [split; [reflexivity|exact Hk]|exact Hin]. }
      assert (Hloc : forall d, In d l -> sel d = true ->
                fst (step d s1) = fst (step d s) /\
                forall k, lo d <= k < lo d + wd d ->
                  bit_at (snd (step d s1)) (idx d) k
                  = bit_at (snd (step d s)) (idx d) k).
      { intros d Hd Hs. apply step_local.
        - apply Hokd, Hd.
        - apply (Hfitl s1 La d Hd Hs).
        - apply Hfit; [right; exact Hd|exact Hs].
        - apply Hagree; assumption. }
      split; [congruence|].
      split.
      { intros i k Hk Hout. rewrite F.
        - apply Fa; [exact Hk|]. apply Hout; [left; reflexivity|exact Ha].
        - exact Hk.
        - intros d Hd Hs. apply Hout; [right; exact Hd|exact Hs]. }
      split.
      { intros d [<-|Hd] Hs.
        - left. intros k Hk. rewrite Hstep. cbn [snd]. apply Hown, Hk.
        - destruct (Hloc d Hd Hs) as [_ Hb].
          destruct (P d Hd Hs) as [Hp|[Hne Hp]].
          + left. intros k Hk. rewrite Hp, Hb by exact Hk. reflexivity.
          + right. split; [exact Hne|]. intros k Hk. rewrite Hp by exact Hk.
            apply Hagree; assumption. }
      split.
      { intros Hz d [<-|Hd] Hs.
        - rewrite Hstep. cbn [fst snd]. split; [reflexivity|exact Hown].
        - destruct (Hloc d Hd Hs) as [Hf Hb].
          destruct (Z0 Hz d Hd Hs) as [Hn Hp].
          split; [congruence|]. intros k Hk. rewrite Hp, Hb by exact Hk.
          reflexivity. }
      split.
      { intros d e [<-|Hd] Hs He.
        - rewrite Hstep in He. discriminate.
        - destruct (Hloc d Hd Hs) as [Hf _]. apply (E d e Hd Hs). congruence. }
      intros Hne. destruct (X Hne) as (d & Hd & Hs & He).
      exists d. split; [right; exact Hd|]. split; [exact Hs|].
      destruct (Hloc d Hd Hs) as [Hf _]. congruence.
  - (* [a] is not of the wanted group *)
    destruct (IH Hokl Hdl s (Hfitl s (eq_refl (length s)))) as (L & F & P & Z0 & E & X).
    assert (Hnot : forall d, In d (a :: l) -> sel d = true -> In d l).
    { intros d [<-|Hd] Hs; [congruence|exact Hd]. }
    split; [exact L|].
    split.
    { intros i k Hk Hout. apply F; [exact Hk|].
      intros d Hd Hs. apply Hout; [right; exact Hd|exact Hs]. }
    split; [intros d Hd Hs; apply P; [apply Hnot|]; assumption|].
    split; [intros Hz d Hd Hs; apply (Z0 Hz); [apply Hnot|]; assumption|].
    split; [intros d e Hd Hs; apply E; [apply Hnot|]; assumption|].
    intros Hne. destruct (X Hne) as (d & Hd & Hs & He).
    exists d. split; [right; exact Hd|]. split; assumption.
Qed.

End PropsLoop.

(** ** One pass of the builders, case by case *)

Lemma u32_range x : 0 <= u32 x < 4294967296.
Proof. unfold u32. apply Z.mod_pos_bound. lia. Qed.

Lemma u32_u32 x : u32 (u32 x) = u32 x.
Proof. apply u32_small, u32_range. Qed.

Lemma iqs7219_parse_prop_cut node d off s :
  Iqs7219.parse_prop node d off s = Iqs7219.parse_prop (fw_cut_u32 node) d off s.
Proof.
  unfold Iqs7219.parse_prop, fw_cut_u32. cbn [fw_present fw_read_u32 fst snd].
  rewrite u32_u32. reflexivity.
Qed.

Lemma iqs323_parse_prop_cut node d off s :
  Iqs323.parse_prop node d off s = Iqs323.parse_prop (fw_cut_u32 node) d off s.
Proof.
  unfold Iqs323.parse_prop, fw_cut_u32. cbn [fw_present fw_read_u32 fst snd].
  rewrite u32_u32. reflexivity.
Qed.

(** The pass of a scalar descriptor of the IQS7219A: nothing without
    the key, the error of the read, -EINVAL outside the bounds, else the
    span cleared and the quotient or-ed in. *)
Lemma iqs7219_scalar_cases node off d s :
  iqs7219_prop_ok d = true -> Iqs7219.reg_width d <> 1 ->
  (off + Iqs7219.reg_offset d < length s)%nat ->
  Iqs7219.parse_prop node d off s =
  if negb (fw_present node (Iqs7219.name d)) then (None, s)
  else if truthy (fst (fw_read_u32 node (Iqs7219.name d)))
  then (Some (fst (fw_read_u32 node (Iqs7219.name d))), s)
  else if iqs7219_out_of_range node d then (Some (- EINVAL), s)
  else (None, packed s (off + Iqs7219.reg_offset d) (Iqs7219.reg_shift d)
                (Iqs7219.reg_width d) (iqs7219_encoded node d)).
Proof.
  intros Hok HW Hs.
  destruct (fw_present node (Iqs7219.name d)) eqn:Hp; cbn [negb].
  2:{ unfold Iqs7219.parse_prop.
      destruct (Z.eqb_spec (Iqs7219.reg_width d) 1) as [E|_]; [contradiction|].
      rewrite Hp. reflexivity. }
  destruct (truthy (fst (fw_read_u32 node (Iqs7219.name d)))) eqn:Herr.
  { unfold Iqs7219.parse_prop.
    destruct (Z.eqb_spec (Iqs7219.reg_width d) 1) as [E|_]; [contradiction|].
    rewrite Hp, Herr. reflexivity. }
  apply truthy_false in Herr.
  rewrite iqs7219_parse_prop_cut.
  rewrite (iqs7219_scalar_step (fw_cut_u32 node) off s d (iqs7219_value node d) Hok HW Hs).
  - reflexivity.
  - exact Hp.
  - unfold fw_cut_u32, iqs7219_value. cbn [fw_read_u32]. rewrite Herr. reflexivity.
  - apply u32_range.
Qed.

Lemma iqs323_scalar_cases node off d s :
  iqs323_prop_ok d = true -> Iqs323.reg_width d <> 1 ->
  (off + Iqs323.reg_offset d < length s)%nat ->
  Iqs323.parse_prop node d off s =
  if fst (fw_read_u32 node (Iqs323.name d)) =? - EINVAL then (None, s)
  else if truthy (fst (fw_read_u32 node (Iqs323.name d)))
  then (Some (fst (fw_read_u32 node (Iqs323.name d))), s)
  else if iqs323_out_of_range node d then (Some (- EINVAL), s)
  else (None, packed s (off + Iqs323.reg_offset d) (Iqs323.reg_shift d)
                (Iqs323.reg_width d) (iqs323_encoded node d)).
Proof.
  intros Hok HW Hs.
  destruct (fst (fw_read_u32 node (Iqs323.name d)) =? - EINVAL) eqn:Habs.
  { unfold Iqs323.parse_prop.
    destruct (Z.eqb_spec (Iqs323.reg_width d) 1) as [E|_]; [contradiction|].
    rewrite Habs. reflexivity. }
  destruct (truthy (fst (fw_read_u32 node (Iqs323.name d)))) eqn:Herr.
  { unfold Iqs323.parse_prop.
    destruct (Z.eqb_spec (Iqs323.reg_width d) 1) as [E|_]; [contradiction|].
    rewrite Habs, Herr. reflexivity. }
  apply truthy_false in Herr.
  rewrite iqs323_parse_prop_cut.
  rewrite (iqs323_scalar_step (fw_cut_u32 node) off s d (iqs323_value node d) Hok HW Hs).
  - reflexivity.
  - unfold fw_cut_u32, iqs323_value. cbn [fw_read_u32]. rewrite Herr. reflexivity.
  - apply u32_range.
Qed.

(** The pass of a one-bit descriptor. *)
Lemma iqs7219_bool_case node off d s :
  Iqs7219.reg_width d = 1 -> 0 <= Iqs7219.reg_shift d < 16 ->
  (off + Iqs7219.reg_offset d < length s)%nat ->
  bool_field_result (Iqs7219.parse_prop node d off s) s
                    (off + Iqs7219.reg_offset d) (Iqs7219.reg_shift d)
                    (Iqs7219.invert d) (fw_present node (Iqs7219.name d)).
Proof.
  intros W S O.
  pose proof (force_then_set s _ _ (Iqs7219.invert d)
                (fw_present node (Iqs7219.name d)) O S) as H.
  cbv zeta in H. unfold Iqs7219.parse_prop. rewrite W. cbn [Z.eqb Pos.eqb].
  destruct (fw_present node (Iqs7219.name d)); exact H.
Qed.

Lemma iqs323_bool_case node off d s :
  Iqs323.reg_width d = 1 -> 0 <= Iqs323.reg_shift d < 16 ->
  (off + Iqs323.reg_offset d < length s)%nat ->
  bool_field_result (Iqs323.parse_prop node d off s) s
                    (off + Iqs323.reg_offset d) (Iqs323.reg_shift d)
                    (Iqs323.invert d) (fw_present node (Iqs323.name d)).
Proof.
  intros W S O.
  pose proof (force_then_set s _ _ (Iqs323.invert d)
                (fw_present node (Iqs323.name d)) O S) as H.
  cbv zeta in H. unfold Iqs323.parse_prop. rewrite W. cbn [Z.eqb Pos.eqb].
  exact H.
Qed.

(** What a one-bit pass and a packing leave, bit by bit. *)
Lemma bool_result_bits r s idx S invert present :
  0 <= S < 16 ->
  bool_field_result r s idx S invert present ->
  fst r = None /\ length (snd r) = length s /\
  (forall i k, 0 <= k < 16 -> ~ in_span idx S 1 i k ->
     bit_at (snd r) i k = bit_at s i k) /\
  (forall k, S <= k < S + 1 ->
     bit_at (snd r) idx k = if present then negb invert else invert).
Proof.
  intros HS (Hf & Hl & Hb & Ho & Hw).
  split; [exact Hf|]. split; [exact Hl|]. split.
  - intros i k Hk Hout. unfold bit_at.
    destruct (Nat.eq_dec i idx) as [->|Hne].
    + rewrite Ho; [|lia|].
      * rewrite testbit_u16 by lia.
        destruct (Z.ltb_spec k 16); [reflexivity|lia].
      * intros ->. apply Hout. split; [reflexivity|lia].
    + rewrite Hw by exact Hne. reflexivity.
  - intros k Hk. assert (k = S) by lia. subst k. exact Hb.
Qed.

Lemma packed_bits s idx S W x :
  (idx < length s)%nat -> 0 <= S -> 0 < W -> S + W <= 16 ->
  Z.land x (Z.lnot (span_mask S W)) = 0 ->
  length (packed s idx S W x) = length s /\
  (forall i k, 0 <= k < 16 -> ~ in_span idx S W i k ->
     bit_at (packed s idx S W x) i k = bit_at s i k) /\
  (forall k, S <= k < S + W ->
     bit_at (packed s idx S W x) idx k = Z.testbit x k).
Proof.
  intros Hidx HS HW HSW Hx.
  destruct (packed_field s idx S W x Hidx HS HW HSW Hx) as [_ (Hl & Ho & Hw)].
  split; [exact Hl|]. split.
  - intros i k Hk Hout. unfold bit_at.
    destruct (Nat.eq_dec i idx) as [->|Hne].
    + rewrite Ho; [|lia|].
      * rewrite testbit_u16 by lia.
        destruct (Z.ltb_spec k 16); [reflexivity|lia].
      * destruct (Z.lt_ge_cases k S); [left; assumption|].
        destruct (Z.lt_ge_cases k (S + W)); [|right; assumption].
        exfalso. apply Hout. split; [reflexivity|lia].
    + rewrite Hw by exact Hne. reflexivity.
  - intros k Hk. unfold bit_at, packed. rewrite word_at_insert_eq by exact Hidx.
    rewrite testbit_u16_or, testbit_u16_clear, testbit_span_mask by lia.
    destruct (Z.ltb_spec k 16); [|lia].
    destruct (Z.leb_spec S k); [|lia].
    destruct (Z.ltb_spec k (S + W)); [|lia].
    cbn. rewrite andb_false_r. reflexivity.
Qed.

(** What is or-ed in stays inside the span of the field. *)
Lemma iqs7219_encoded_in_span node d :
  iqs7219_prop_ok d = true -> iqs7219_out_of_range node d = false ->
  Z.land (iqs7219_encoded node d)
         (Z.lnot (span_mask (Iqs7219.reg_shift d) (Iqs7219.reg_width d))) = 0.
Proof.
  intros Hok Hr. apply iqs7219_prop_ok_spec in Hok. cbv zeta in Hok.
  destruct Hok as (HW0 & HS & HSW & Hp & Hmin & Hmx).
  unfold iqs7219_out_of_range in Hr. apply orb_false_elim in Hr.
  destruct Hr as [Hlo Hhi]. apply Z.ltb_ge in Hlo, Hhi.
  pose proof (ones_bound (Iqs7219.reg_width d) ltac:(lia)) as Hones.
  assert (Hmaxle : eff_max (Iqs7219.reg_width d) (Iqs7219.val_pitch d)
                           (Iqs7219.val_max d)
                   <= Z.ones (Iqs7219.reg_width d) * eff_pitch (Iqs7219.val_pitch d)).
  { unfold eff_max. destruct (Iqs7219.val_max d =? 0); lia. }
  pose proof (quotient_fits (iqs7219_value node d) (eff_pitch (Iqs7219.val_pitch d))
                (Iqs7219.reg_width d) ltac:(lia) ltac:(lia)) as Hq.
  apply (shifted_in_span _ _ _ HS HW0 Hq).
Qed.

Lemma iqs323_encoded_in_span node d :
  iqs323_prop_ok d = true -> iqs323_out_of_range node d = false ->
  Z.land (iqs323_encoded node d)
         (Z.lnot (span_mask (Iqs323.reg_shift d) (Iqs323.reg_width d))) = 0.
Proof.
  intros Hok Hr. apply iqs323_prop_ok_spec in Hok. cbv zeta in Hok.
  destruct Hok as (HW0 & HS & HSW & Hp & Hmin & Hmx & Hsubs).
  unfold iqs323_out_of_range in Hr. apply orb_false_elim in Hr.
  destruct Hr as [Hlo Hhi]. apply Z.ltb_ge in Hlo, Hhi.
  pose proof (ones_bound (Iqs323.reg_width d) ltac:(lia)) as Hones.
  unfold iqs323_encoded.
  destruct (Iqs323.val_subs d) as [subs|].
  - destruct Hsubs as [_ Hall]. rewrite List.Forall_forall in Hall.
    destruct (Nat.lt_ge_cases (Z.to_nat (iqs323_value node d)) (length subs))
      as [Hlt|Hge].
    + apply Hall, nth_In, Hlt.
    + rewrite nth_overflow by exact Hge. apply Z.land_0_l.
  - assert (Hmaxle : eff_max (Iqs323.reg_width d) (Iqs323.val_pitch d)
                             (Iqs323.val_max d)
                     <= Z.ones (Iqs323.reg_width d) * eff_pitch (Iqs323.val_pitch d)).
    { unfold eff_max. destruct (Iqs323.val_max d =? 0); lia. }
    pose proof (quotient_fits (iqs323_value node d) (eff_pitch (Iqs323.val_pitch d))
                  (Iqs323.reg_width d) ltac:(lia) ltac:(lia)) as Hq.
    apply (shifted_in_span _ _ _ HS HW0 Hq).
Qed.

Lemma iqs7219_step_shape node off d :
  iqs7219_prop_ok d = true ->
  (exists e, e <> 0 /\
     forall s, (off + Iqs7219.reg_offset d < length s)%nat ->
       Iqs7219.parse_prop node d off s = (Some e, s)) \/
  (forall s, (off + Iqs7219.reg_offset d < length s)%nat ->
     Iqs7219.parse_prop node d off s = (None, s)) \/
  (exists f : Z -> bool,
     forall s, (off + Iqs7219.reg_offset d < length s)%nat ->
       fst (Iqs7219.parse_prop node d off s) = None /\
       length (snd (Iqs7219.parse_prop node d off s)) = length s /\
       (forall i k, 0 <= k < 16 ->
          ~ in_span (off + Iqs7219.reg_offset d) (Iqs7219.reg_shift d)
                    (Iqs7219.reg_width d) i k ->
          bit_at (snd (Iqs7219.parse_prop node d off s)) i k = bit_at s i k) /\
       (forall k, Iqs7219.reg_shift d <= k
                  < Iqs7219.reg_shift d + Iqs7219.reg_width d ->
          bit_at (snd (Iqs7219.parse_prop node d off s))
                 (off + Iqs7219.reg_offset d) k = f k)).
Proof.
  intros Hok. pose proof (iqs7219_prop_ok_spec _ Hok) as Hsp. cbv zeta in Hsp.
  destruct Hsp as (HW0 & HS & HSW & _).
  destruct (Z.eq_dec (Iqs7219.reg_width d) 1) as [W1|W1].
  { right; right.
    exists (fun _ => if fw_present node (Iqs7219.name d)
                     then negb (Iqs7219.invert d) else Iqs7219.invert d).
    intros s Hs. rewrite W1.
    assert (HS16 : 0 <= Iqs7219.reg_shift d < 16) by lia.
    exact (bool_result_bits _ _ _ _ _ _ HS16
             (iqs7219_bool_case node off d s W1 HS16 Hs)). }
  destruct (fw_present node (Iqs7219.name d)) eqn:Hp.
  2:{ right; left. intros s Hs.
      rewrite iqs7219_scalar_cases by assumption. rewrite Hp. reflexivity. }
  destruct (truthy (fst (fw_read_u32 node (Iqs7219.name d)))) eqn:Herr.
  { left. exists (fst (fw_read_u32 node (Iqs7219.name d))).
    split; [apply truthy_true, Herr|]. intros s Hs.
    rewrite iqs7219_scalar_cases by assumption. rewrite Hp, Herr. reflexivity. }
  destruct (iqs7219_out_of_range node d) eqn:Hr.
  { left. exists (- EINVAL). split; [discriminate|]. intros s Hs.
    rewrite iqs7219_scalar_cases by assumption. rewrite Hp, Herr, Hr.
    reflexivity. }
  right; right. exists (Z.testbit (iqs7219_encoded node d)). intros s Hs.
  rewrite iqs7219_scalar_cases by assumption. rewrite Hp, Herr, Hr.
  cbn [negb fst snd].
  destruct (packed_bits s _ _ _ _ Hs HS HW0 HSW
              (iqs7219_encoded_in_span node d Hok Hr)) as (Hl & Hf & Hb).
  split; [reflexivity|]. split; [exact Hl|]. split; assumption.
Qed.

Lemma iqs323_step_shape node off d :
  iqs323_prop_ok d = true ->
  (exists e, e <> 0 /\
     forall s, (off + Iqs323.reg_offset d < length s)%nat ->
       Iqs323.parse_prop node d off s = (Some e, s)) \/
  (forall s, (off + Iqs323.reg_offset d < length s)%nat ->
     Iqs323.parse_prop node d off s = (None, s)) \/
  (exists f : Z -> bool,
     forall s, (off + Iqs323.reg_offset d < length s)%nat ->
       fst (Iqs323.parse_prop node d off s) = None /\
       length (snd (Iqs323.parse_prop node d off s)) = length s /\
       (forall i k, 0 <= k < 16 ->
          ~ in_span (off + Iqs323.reg_offset d) (Iqs323.reg_shift d)
                    (Iqs323.reg_width d) i k ->
          bit_at (snd (Iqs323.parse_prop node d off s)) i k = bit_at s i k) /\
       (forall k, Iqs323.reg_shift d <= k
                  < Iqs323.reg_shift d + Iqs323.reg_width d ->
          bit_at (snd (Iqs323.parse_prop node d off s))
                 (off + Iqs323.reg_offset d) k = f k)).
Proof.
  intros Hok. pose proof (iqs323_prop_ok_spec _ Hok) as Hsp. cbv zeta in Hsp.
  destruct Hsp as (HW0 & HS & HSW & _).
  destruct (Z.eq_dec (Iqs323.reg_width d) 1) as [W1|W1].
  { right; right.
    exists (fun _ => if fw_present node (Iqs323.name d)
                     then negb (Iqs323.invert d) else Iqs323.invert d).
    intros s Hs. rewrite W1.
    assert (HS16 : 0 <= Iqs323.reg_shift d < 16) by lia.
    exact (bool_result_bits _ _ _ _ _ _ HS16
             (iqs323_bool_case node off d s W1 HS16 Hs)). }
  destruct (fst (fw_read_u32 node (Iqs323.name d)) =? - EINVAL) eqn:Habs.
  { right; left. intros s Hs.
    rewrite iqs323_scalar_cases by assumption. rewrite Habs. reflexivity. }
  destruct (truthy (fst (fw_read_u32 node (Iqs323.name d)))) eqn:Herr.
  { left. exists (fst (fw_read_u32 node (Iqs323.name d))).
    split; [apply truthy_true, Herr|]. intros s Hs.
    rewrite iqs323_scalar_cases by assumption. rewrite Habs, Herr. reflexivity. }
  destruct (iqs323_out_of_range node d) eqn:Hr.
  { left. exists (- EINVAL). split; [discriminate|]. intros s Hs.
    rewrite iqs323_scalar_cases by assumption. rewrite Habs, Herr, Hr.
    reflexivity. }
  right; right. exists (Z.testbit (iqs323_encoded node d)). intros s Hs.
  rewrite iqs323_scalar_cases by assumption. rewrite Habs, Herr, Hr.
  cbn [fst snd].
  destruct (packed_bits s _ _ _ _ Hs HS HW0 HSW
              (iqs323_encoded_in_span node d Hok Hr)) as (Hl & Hf & Hb).
  split; [reflexivity|]. split; [exact Hl|]. split; assumption.
Qed.

Lemma iqs7219_props_are_apart : iqs7219_props_apart = true.
Proof. vm_compute. reflexivity. Qed.

Lemma iqs323_props_are_apart : iqs323_props_apart = true.
Proof. vm_compute. reflexivity. Qed.

(** ** What the loops of the two builders leave *)

Lemma iqs7219_loop_leaves node off key s :
  iqs7219_image_fits key off (length s) = true ->
  loop_leaves (fun d => bool_decide (Iqs7219.reg_key d = key))
              (fun d s => Iqs7219.parse_prop node d off s)
              (fun d => (off + Iqs7219.reg_offset d)%nat)
              Iqs7219.reg_shift Iqs7219.reg_width
              Iqs7219.iqs7219_props s
              (fst (Iqs7219.parse_props_loop Iqs7219.iqs7219_props key node off s))
              (snd (Iqs7219.parse_props_loop Iqs7219.iqs7219_props key node off s)).
Proof.
  intros Hfit.
  apply (props_loop_spec
           (fun d => bool_decide (Iqs7219.reg_key d = key))
           (fun d s => Iqs7219.parse_prop node d off s)
           (fun d => (off + Iqs7219.reg_offset d)%nat)
           Iqs7219.reg_shift Iqs7219.reg_width
           (fun d => iqs7219_prop_ok d = true)
           (fun l s => Iqs7219.parse_props_loop l key node off s)).
  - reflexivity.
  - intros d l s0. cbn [Iqs7219.parse_props_loop]. unfold bool_decide, decide.
    destruct (decide_rel eq (Iqs7219.reg_key d) key); reflexivity.
  - intros d Hok. apply iqs7219_prop_ok_spec in Hok. cbv zeta in Hok. lia.
  - intros d Hok. apply (iqs7219_step_shape node off d Hok).
  - apply List.Forall_forall. intros d Hd. apply iqs7219_prop_ok_in, Hd.
  - refine (ForallOrdPairs_mono _ _ _ _
              (pairwise_spec _ _ iqs7219_props_are_apart)).
    cbv beta. intros a b Hab Ha Hb i k [Hi Hka] [Hi' Hkb].
    apply bool_decide_eq_true in Ha, Hb.
    rewrite bool_decide_eq_true_2 in Hab by congruence. cbn [negb orb] in Hab.
    apply (spans_apart_spec _ _ _ _ _ _ (Iqs7219.reg_offset a) k Hab).
    + split; [reflexivity|exact Hka].
    + split; [lia|exact Hkb].
  - intros d Hd Hsel. unfold iqs7219_image_fits in Hfit.
    rewrite forallb_forall in Hfit. specialize (Hfit d Hd).
    rewrite Hsel in Hfit. cbn in Hfit. apply Nat.ltb_lt, Hfit.
Qed.

Lemma iqs323_loop_leaves node off grp key s :
  iqs323_image_fits grp key off (length s) = true ->
  loop_leaves (fun d => bool_decide (Iqs323.reg_grp d = grp /\ Iqs323.reg_key d = key))
              (fun d s => Iqs323.parse_prop node d off s)
              (fun d => (off + Iqs323.reg_offset d)%nat)
              Iqs323.reg_shift Iqs323.reg_width
              Iqs323.iqs323_props s
              (fst (Iqs323.parse_props_loop Iqs323.iqs323_props grp key node off s))
              (snd (Iqs323.parse_props_loop Iqs323.iqs323_props grp key node off s)).
Proof.
  intros Hfit.
  apply (props_loop_spec
           (fun d => bool_decide (Iqs323.reg_grp d = grp /\ Iqs323.reg_key d = key))
           (fun d s => Iqs323.parse_prop node d off s)
           (fun d => (off + Iqs323.reg_offset d)%nat)
           Iqs323.reg_shift Iqs323.reg_width
           (fun d => iqs323_prop_ok d = true)
           (fun l s => Iqs323.parse_props_loop l grp key node off s)).
  - reflexivity.
  - intros d l s0. cbn [Iqs323.parse_props_loop]. unfold bool_decide.
    match goal with |- context [if ?c then true else false] => destruct c end;
      reflexivity.
  - intros d Hok. apply iqs323_prop_ok_spec in Hok. cbv zeta in Hok. lia.
  - intros d Hok. apply (iqs323_step_shape node off d Hok).
  - apply List.Forall_forall. intros d Hd. apply iqs323_prop_ok_in, Hd.
  - refine (ForallOrdPairs_mono _ _ _ _
              (pairwise_spec _ _ iqs323_props_are_apart)).
    cbv beta. intros a b Hab Ha Hb i k [Hi Hka] [Hi' Hkb].
    apply bool_decide_eq_true in Ha, Hb. destruct Ha, Hb.
    rewrite bool_decide_eq_true_2 in Hab by (split; congruence).
    cbn [negb orb] in Hab.
    apply (spans_apart_spec _ _ _ _ _ _ (Iqs323.reg_offset a) k Hab).
    + split; [reflexivity|exact Hka].
    + split; [lia|exact Hkb].
  - intros d Hd Hsel. unfold iqs323_image_fits in Hfit.
    rewrite forallb_forall in Hfit. specialize (Hfit d Hd).
    rewrite Hsel in Hfit. cbn in Hfit. apply Nat.ltb_lt, Hfit.
Qed.

(** ** The builders *)

(** [iqs7219_parse_props] is its loop on the image of the group, run on
    the node of the group; without that node it does nothing. *)
Lemma iqs7219_parse_props_runs dev child_node child_index reg_grp g b off p :
  Iqs7219.iqs7219_reg_grps !! reg_grp = Some g ->
  Iqs7219.iqs7219_setup reg_grp child_index = Some (b, off) ->
  exists cn,
    Iqs7219.iqs7219_parse_props dev child_node child_index reg_grp p =
    match iqs7219_props_node dev child_node child_index reg_grp with
    | None => Ok ((0, None), p)
    | Some node =>
        let r := Iqs7219.parse_props_loop Iqs7219.iqs7219_props
                   (Iqs7219.grp_reg_key g) node off (Iqs7219.get_buf b p) in
        Ok ((fst r, cn), Iqs7219.set_buf b (snd r) p)
    end.
Proof.
  intros Hg Hset.
  assert (Hlt : (reg_grp < 8)%nat) by (apply lookup_lt_Some in Hg; exact Hg).
  unfold Iqs7219.iqs7219_parse_props, iqs7219_props_node. cbv beta zeta.
  rewrite Hg, Hset.
  do 8 (destruct reg_grp as [|reg_grp];
        [first
           [ exists child_node; reflexivity
           | destruct child_node as [n|];
             [ exists (Some n); reflexivity
             | match goal with
               | |- context [fw_child dev ?k] =>
                   destruct (fw_child dev k) as [n|]
               end;
               [exists (Some n)|exists None]; reflexivity ] ] |]).
  lia.
Qed.

Lemma iqs323_parse_props_runs node reg_grp_index reg_grp reg_key b off p :
  Iqs323.iqs323_setup reg_grp reg_grp_index = Some (b, off) ->
  Iqs323.iqs323_parse_props node reg_grp_index reg_grp reg_key p =
  let r := Iqs323.parse_props_loop Iqs323.iqs323_props reg_grp reg_key node off
             (Iqs323.get_buf b p) in
  Ok (fst r, Iqs323.set_buf b (snd r) p).
Proof.
  intros Hset. unfold Iqs323.iqs323_parse_props. rewrite Hset. reflexivity.
Qed.

Lemma iqs7219_get_set_buf b l p :
  length l = length (Iqs7219.get_buf b p) -> (0 < length l)%nat ->
  Iqs7219.get_buf b (Iqs7219.set_buf b l p) = l.
Proof.
  intros Hl Hpos. destruct b; cbn in *; try reflexivity.
  - destruct l as [|x [|y l]]; cbn in *; try lia. reflexivity.
  - destruct (Iqs7219.event_setup p !! chan) eqn:E; cbn in Hl; [|lia].
    rewrite list_lookup_insert_eq by (eapply lookup_lt_Some, E). reflexivity.
  - destruct (Iqs7219.chan_setup p !! chan) eqn:E; cbn in Hl; [|lia].
    rewrite list_lookup_insert_eq by (eapply lookup_lt_Some, E). reflexivity.
Qed.

Lemma iqs323_get_set_buf b l p :
  Iqs323.get_buf b (Iqs323.set_buf b l p) = l.
Proof. destruct b; reflexivity. Qed.

Lemma iqs7219_fits_in key off len d :
  iqs7219_image_fits key off len = true ->
  In d Iqs7219.iqs7219_props -> Iqs7219.reg_key d = key ->
  (off + Iqs7219.reg_offset d < len)%nat.
Proof.
  intros Hfit Hd Hk. unfold iqs7219_image_fits in Hfit.
  rewrite forallb_forall in Hfit. specialize (Hfit d Hd).
  rewrite bool_decide_eq_true_2 in Hfit by exact Hk. apply Nat.ltb_lt, Hfit.
Qed.

Lemma iqs323_fits_in grp key off len d :
  iqs323_image_fits grp key off len = true ->
  In d Iqs323.iqs323_props -> Iqs323.reg_grp d = grp -> Iqs323.reg_key d = key ->
  (off + Iqs323.reg_offset d < len)%nat.
Proof.
  intros Hfit Hd Hg Hk. unfold iqs323_image_fits in Hfit.
  rewrite forallb_forall in Hfit. specialize (Hfit d Hd).
  rewrite bool_decide_eq_true_2 in Hfit by (split; assumption).
  apply Nat.ltb_lt, Hfit.
Qed.

(** What [iqs7219_parse_props] returns and leaves in the image of the
    group when the node of the group exists. *)
Lemma iqs7219_parse_props_leaves dev child_node child_index reg_grp g b off p node :
  Iqs7219.iqs7219_reg_grps !! reg_grp = Some g ->
  Iqs7219.iqs7219_setup reg_grp child_index = Some (b, off) ->
  iqs7219_props_node dev child_node child_index reg_grp = Some node ->
  iqs7219_image_fits (Iqs7219.grp_reg_key g) off
                     (length (Iqs7219.get_buf b p)) = true ->
  (0 < length (Iqs7219.get_buf b p))%nat ->
  exists r cn p',
    Iqs7219.iqs7219_parse_props dev child_node child_index reg_grp p
    = Ok ((r, cn), p') /\
    loop_leaves (fun d => bool_decide (Iqs7219.reg_key d = Iqs7219.grp_reg_key g))
                (fun d s => Iqs7219.parse_prop node d off s)
                (fun d => (off + Iqs7219.reg_offset d)%nat)
                Iqs7219.reg_shift Iqs7219.reg_width
                Iqs7219.iqs7219_props (Iqs7219.get_buf b p) r
                (Iqs7219.get_buf b p').
Proof.
  intros Hg Hset Hnode Hfit Hpos.
  destruct (iqs7219_parse_props_runs dev child_node child_index reg_grp g b off p
              Hg Hset) as (cn & Hrun).
  rewrite Hnode in Hrun. cbv zeta in Hrun.
  pose proof (iqs7219_loop_leaves node off _ _ Hfit) as HL.
  eexists _, cn, _. split; [exact Hrun|].
  rewrite iqs7219_get_set_buf; [exact HL| |].
  - destruct HL as (Hl & _). exact Hl.
  - destruct HL as (Hl & _). rewrite Hl. exact Hpos.
Qed.

Lemma iqs323_parse_props_leaves node reg_grp_index reg_grp reg_key b off p :
  Iqs323.iqs323_setup reg_grp reg_grp_index = Some (b, off) ->
  iqs323_image_fits reg_grp reg_key off (length (Iqs323.get_buf b p)) = true ->
  exists r p',
    Iqs323.iqs323_parse_props node reg_grp_index reg_grp reg_key p = Ok (r, p') /\
    loop_leaves (fun d => bool_decide (Iqs323.reg_grp d = reg_grp /\
                                       Iqs323.reg_key d = reg_key))
                (fun d s => Iqs323.parse_prop node d off s)
                (fun d => (off + Iqs323.reg_offset d)%nat)
                Iqs323.reg_shift Iqs323.reg_width
                Iqs323.iqs323_props (Iqs323.get_buf b p) r
                (Iqs323.get_buf b p').
Proof.
  intros Hset Hfit.
  rewrite (iqs323_parse_props_runs node reg_grp_index reg_grp reg_key b off p Hset).
  cbv zeta.
  pose proof (iqs323_loop_leaves node off _ _ _ Hfit) as HL.
  eexists _, _. split; [reflexivity|].
  rewrite iqs323_get_set_buf. exact HL.
Qed.



(** C4, amended.  What the builders leave of a one-bit field.  For
    every one-bit descriptor of the table that belongs to the group
    being built, [iqs7219_parse_props] and [iqs323_parse_props] return,
    and a call that returns 0 after reading the node of the group
    leaves the bit at the inverse of [invert] when the key is present
    and at [invert], the inverted default, when it is absent, whatever
    the image held before.  A call that fails on a scalar key leaves
    the bit either so or as it was.  [iqs7219_parse_props] returns 0
    without touching the driver data when the group is read from a
    child node that does not exist: by itself an absent key does not
    force the bit. *)
Theorem boolean_fields_are_reset_then_set :
  (forall dev child_node child_index reg_grp g b off d p,
     Iqs7219.iqs7219_reg_grps !! reg_grp = Some g ->
     Iqs7219.iqs7219_setup reg_grp child_index = Some (b, off) ->
     iqs7219_image_fits (Iqs7219.grp_reg_key g) off
                        (length (Iqs7219.get_buf b p)) = true ->
     In d Iqs7219.iqs7219_props ->
     Iqs7219.reg_key d = Iqs7219.grp_reg_key g -> Iqs7219.reg_width d = 1 ->
     let bit q := bit_at (Iqs7219.get_buf b q) (off + Iqs7219.reg_offset d)
                         (Iqs7219.reg_shift d) in
     exists r cn p',
       Iqs7219.iqs7219_parse_props dev child_node child_index reg_grp p
       = Ok ((r, cn), p') /\
       match iqs7219_props_node dev child_node child_index reg_grp with
       | None => r = 0 /\ p' = p
       | Some node =>
           let final := if fw_present node (Iqs7219.name d)
                        then negb (Iqs7219.invert d) else Iqs7219.invert d in
           (r = 0 -> bit p' = final) /\
           (bit p' = final \/ r <> 0 /\ bit p' = bit p)
       end) /\
  (forall node reg_grp_index reg_grp reg_key b off d p,
     Iqs323.iqs323_setup reg_grp reg_grp_index = Some (b, off) ->
     iqs323_image_fits reg_grp reg_key off (length (Iqs323.get_buf b p)) = true ->
     In d Iqs323.iqs323_props ->
     Iqs323.reg_grp d = reg_grp -> Iqs323.reg_key d = reg_key ->
     Iqs323.reg_width d = 1 ->
     let bit q := bit_at (Iqs323.get_buf b q) (off + Iqs323.reg_offset d)
                         (Iqs323.reg_shift d) in
     let final := if fw_present node (Iqs323.name d)
                  then negb (Iqs323.invert d) else Iqs323.invert d in
     exists r p',
       Iqs323.iqs323_parse_props node reg_grp_index reg_grp reg_key p
       = Ok (r, p') /\
       (r = 0 -> bit p' = final) /\
       (bit p' = final \/ r <> 0 /\ bit p' = bit p)).
Proof.
  split.
  - intros dev child_node child_index reg_grp g b off d p Hg Hset Hfit Hd Hk W1 bit.
    pose proof (iqs7219_fits_in _ _ _ d Hfit Hd Hk) as Hoff.
    pose proof (iqs7219_prop_ok_spec _ (iqs7219_prop_ok_in d Hd)) as Hsp.
    cbv zeta in Hsp.
    assert (HS16 : 0 <= Iqs7219.reg_shift d < 16) by lia.
    destruct (iqs7219_props_node dev child_node child_index reg_grp)
      as [node|] eqn:Hnode.
    + destruct (iqs7219_parse_props_leaves dev child_node child_index reg_grp
                  g b off p node Hg Hset Hnode Hfit ltac:(lia))
        as (r & cn & p' & Hrun & (_ & _ & P & Z0 & _)).
      exists r, cn, p'. split; [exact Hrun|]. cbv zeta.
      assert (Hsel : bool_decide (Iqs7219.reg_key d = Iqs7219.grp_reg_key g) = true)
        by (apply bool_decide_eq_true_2, Hk).
      destruct (bool_result_bits _ _ _ _ _ _ HS16
                  (iqs7219_bool_case node off d (Iqs7219.get_buf b p) W1 HS16 Hoff))
        as (_ & _ & _ & Hb).
      split.
      * intros Hz. destruct (Z0 Hz d Hd Hsel) as [_ Hbits].
        unfold bit. rewrite Hbits by lia. apply Hb. lia.
      * destruct (P d Hd Hsel) as [Hbits|[Hne Hbits]].
        -- left. unfold bit. rewrite Hbits by lia. apply Hb. lia.
        -- right. split; [exact Hne|]. unfold bit. apply Hbits. lia.
    + destruct (iqs7219_parse_props_runs dev child_node child_index reg_grp g b off p
                  Hg Hset) as (cn & Hrun).
      rewrite Hnode in Hrun. exists 0, None, p. split; [exact Hrun|].
      split; reflexivity.
  - intros node reg_grp_index reg_grp reg_key b off d p Hset Hfit Hd Hg Hk W1
           bit final.
    pose proof (iqs323_fits_in _ _ _ _ d Hfit Hd Hg Hk) as Hoff.
    pose proof (iqs323_prop_ok_spec _ (iqs323_prop_ok_in d Hd)) as Hsp.
    cbv zeta in Hsp.
    assert (HS16 : 0 <= Iqs323.reg_shift d < 16) by lia.
    destruct (iqs323_parse_props_leaves node reg_grp_index reg_grp reg_key b off p
                Hset Hfit) as (r & p' & Hrun & (_ & _ & P & Z0 & _)).
    exists r, p'. split; [exact Hrun|].
    assert (Hsel : bool_decide (Iqs323.reg_grp d = reg_grp /\
                                Iqs323.reg_key d = reg_key) = true)
      by (apply bool_decide_eq_true_2; split; assumption).
    destruct (bool_result_bits _ _ _ _ _ _ HS16
                (iqs323_bool_case node off d (Iqs323.get_buf b p) W1 HS16 Hoff))
      as (_ & _ & _ & Hb).
    split.
    + intros Hz. destruct (Z0 Hz d Hd Hsel) as [_ Hbits].
      unfold bit. rewrite Hbits by lia. apply Hb. lia.
    + destruct (P d Hd Hsel) as [Hbits|[Hne Hbits]].
      * left. unfold bit. rewrite Hbits by lia. apply Hb. lia.
      * right. split; [exact Hne|]. unfold bit. apply Hbits. lia.
Qed.


(** With no node for channel 0 in the device tree, building the channel
    group returns 0 and the direction bit, whose key is as absent as a
    key can be and whose inverted default is 0, stays at the 1 that the
    image held: building with the key absent does not leave the bit at
    the inverted default for every prior image. *)
Lemma missing_node_leaves_the_bit :
  let dev := node_of [] [] in
  let p := Iqs7219.set_chan_setup [repeat 0xFFFF 13; repeat 0xFFFF 13]
             (iqs7219_example (stub [] 1 [] 1 [] 2 [] [] 1) 0 [false; false]) in
  let d := iqs7219_direction_enable in
  In d Iqs7219.iqs7219_props /\
  Iqs7219.reg_key d = Iqs7219.IQS7219_REG_KEY_CHAN /\
  Iqs7219.reg_width d = 1 /\ Iqs7219.invert d = false /\
  fw_child dev "channel-0" = None /\
  Iqs7219.iqs7219_parse_props dev None 0 Iqs7219.IQS7219_REG_GRP_CHAN_0 p
  = Ok ((0, None), p) /\
  bit_at (Iqs7219.chan_setup p !!! 0%nat) (Iqs7219.reg_offset d)
         (Iqs7219.reg_shift d) = true.
Proof.
  cbv zeta. split; [vm_compute; tauto|]. repeat split.
Qed.

Lemma boolean_fields_are_reset_then_set_witness :
  let dev := node_of [] [("channel-0"%string, node_of [] [])] in
  let p := Iqs7219.set_chan_setup [repeat 0xFFFF 13; repeat 0xFFFF 13]
             (iqs7219_example (stub [] 1 [] 1 [] 2 [] [] 1) 0 [false; false]) in
  let q := iqs323_example (stub [] 1 [] 1 [] 2 [] [] 1) in
  (exists cn p',
     Iqs7219.iqs7219_parse_props dev None 0 Iqs7219.IQS7219_REG_GRP_CHAN_0 p
     = Ok ((0, cn), p') /\
     bit_at (Iqs7219.get_buf (Iqs7219.BufChan 0) p') 0 6 = false) /\
  (exists q',
     Iqs323.iqs323_parse_props (node_of [] []) 0 Iqs323.IQS323_REG_GRP_SNSR
                               Iqs323.IQS323_REG_KEY_NONE q = Ok (0, q') /\
     bit_at (Iqs323.get_buf Iqs323.BufSnsr q') 6 3 = true).
Proof.
  intros dev p q. destruct boolean_fields_are_reset_then_set as [H7 H3]. split.
  - destruct (H7 dev None 0%nat Iqs7219.IQS7219_REG_GRP_CHAN_0 _ (Iqs7219.BufChan 0)
                 0%nat iqs7219_direction_enable p eq_refl eq_refl)
      as (r & cn & p' & Hrun & Hm).
    + vm_compute. reflexivity.
    + vm_compute. tauto.
    + reflexivity.
    + reflexivity.
    + assert (Hr : match Iqs7219.iqs7219_parse_props dev None 0
                           Iqs7219.IQS7219_REG_GRP_CHAN_0 p with
                   | Ok ((r0, _), _) => r0
                   | _ => 1
                   end = 0) by (vm_compute; reflexivity).
      rewrite Hrun in Hr. subst r.
      assert (Hn : iqs7219_props_node dev None 0 Iqs7219.IQS7219_REG_GRP_CHAN_0
                   = Some (node_of [] [])) by reflexivity.
      rewrite Hn in Hm. cbv zeta in Hm. destruct Hm as [Hz _].
      exists cn, p'. split; [exact Hrun|]. exact (Hz eq_refl).
  - destruct (H3 (node_of [] []) 0%nat Iqs323.IQS323_REG_GRP_SNSR
                 Iqs323.IQS323_REG_KEY_NONE Iqs323.BufSnsr 0%nat
                 iqs323_ati_band_tighten q eq_refl)
      as (r & q' & Hrun & Hz & _).
    + vm_compute. reflexivity.
    + vm_compute. tauto.
    + reflexivity.
    + reflexivity.
    + reflexivity.
    + assert (Hr : match Iqs323.iqs323_parse_props (node_of [] []) 0
                           Iqs323.IQS323_REG_GRP_SNSR Iqs323.IQS323_REG_KEY_NONE q with
                   | Ok (r0, _) => r0
                   | _ => 1
                   end = 0) by (vm_compute; reflexivity).
      rewrite Hrun in Hr. subst r.
      exists q'. split; [exact Hrun|]. exact (Hz eq_refl).
Defined.

